(* ===== verification/_CoqProject ===== *)
-Q . S2P
Prelude.v
RustStr.v
Net.v
SipHash.v
Json.v
Prog.v
Kube.v
Util.v
Crates.v
OAuthTypes.v
OAuthTypesProofs.v
OAuthEffects.v
OAuthHelpers.v
OAuthHelpersProofs.v
OAuthK8s.v
OAuthHandlers.v
OAuthByoidc.v
OAuthServer.v
OAuthSafety.v
OAuthConcurrency.v
OAuthSample.v
OAuthTyping.v
OAuthIdentity.v
OAuthRefinement.v
OAuthGuarantees.v
OAuthFlows.v
JsonCodec.v
OAuthOidc.v
Controller.v
PodMutate.v
Route.v
ImageStream.v
Project.v
LoadBalancer.v
JobSet.v
Tls.v
ServiceCa.v
GatewayConfig.v
GatewayRouting.v
Gateway.v
Runtime.v
Proxy.v
ProxyProofs.v
GatewayProxy.v
OAuthInfra.v
Serve.v
UnitTests.v
Main.v
