(* ===== verification/Prelude.v ===== *)
(** * ocp-sim: a verification of the OpenShift simulator

    [simulator/src] is a Rust program that makes a plain Kubernetes cluster
    look like OpenShift to the operators installed on it: it serves OpenShift's
    OAuth endpoints, routes HTTP hosts like the OpenShift router, and runs small
    controllers that fill in the statuses, secrets and child objects OpenShift
    would provide.  This library translates that program into Rocq definitions
    and proves what makes its parts correct.  Every claim is a theorem whose
    comment starts with its number.

    ** The program and its model

    An [async fn] is a [prog E A] (file Prog): a finite tree of effects of a
    signature [E] that ends in a value; an early return or [?] is a [result],
    an [unwrap] that can fail is an explicit outcome.  Effects are the requests
    to the API server ([Kube.kubeE]), the critical sections of the locks around
    shared maps ([OAuthEffects.oauthE], [Proxy.tableE]), clocks, random
    numbers, outgoing HTTP and sockets.  [run] executes a program against a
    state; [pool_step] interleaves any number of programs at the granularity of
    effects, which is how the tasks of the tokio runtime interleave.  Watch
    loops ([while let Some(event) = stream.next()]) are functions of the list of
    events, since the stream comes from the [kube] library.

    What is not under [simulator/src] is a parameter: the API server is the
    class [KubeServer] with any state type, third-party crates are the classes
    of Crates, [Tls.Rcgen], [Tls.Rustls], [Proxy.HttpBuild], [JobSet.BatchDecode].
    Theorems that need a documented fact about them take it as a class of laws
    ([MergeStatusLaw], [NamespaceLaw], [GatewayStore], ...) or as a
    hypothesis, and their witnesses instantiate it with an executable server.

    ** Files

    - Prelude, RustStr, Net, SipHash, Json: [Result], integer casts, Rust's
      string functions (UTF-8, [lines], [trim], [split_once], ...), IP
      addresses, the default hasher, [serde_json::Value] with merge patches and
      JSON patches.
    - Prog: programs, sequential runs, monitors ([wp]), confinement ([only]),
      pools of tasks.
    - Kube, Util: objects, requests, the server interface and an in-memory
      server; [util.rs].
    - Controller, Runtime: what a [run] function hands to the controller
      runtime, one reconciliation of a stored object ([turn]), any number of
      them ([rounds]), and the interface [StatusController] that the Route,
      ImageStream and GatewayClass controllers implement; how those
      controllers come to rest.
    - Crates, JsonCodec: interfaces of crates, a lossless JSON codec for
      witnesses.
    - OAuthTypes, OAuthHelpers, OAuthK8s, OAuthHandlers, OAuthByoidc,
      OAuthServer: [oauth/types.rs], [helpers.rs], [k8s.rs], [handlers.rs],
      [byoidc.rs], [mod.rs] with [watcher.rs], one definition per function;
      OAuthEffects: the locks of [OAuthState] and the machine under it;
      OAuthInfra: [infra.rs].
    - OAuthSafety, OAuthConcurrency, OAuthGuarantees, OAuthTyping, OAuthIdentity,
      OAuthRefinement, OAuthFlows, OAuthOidc and the files ending in Proofs: the
      theorems about them; OAuthSample: a sample server.
    - PodMutate, Route, ImageStream, Project, LoadBalancer, JobSet, Tls,
      ServiceCa: the source file of that name; Tls has the certificate half of
      [util.rs] and [CaState] of [main.rs].
    - GatewayConfig, GatewayRouting, Gateway: [gateway.rs], as the generated
      Envoy files, what a reader finds in them, and the reconcilers.
    - Proxy, ProxyProofs, GatewayProxy: [proxy.rs].
    - Serve: the [run] functions of the OAuth server, the webhook and the
      proxy: start-up, accept loops and the service of one connection.
    - Main: [main.rs], the options, what is started and when it ends.
    - UnitTests: the unit tests of the sources, evaluated on the model.

    ** What is proved

    OAuth, for every interleaving of requests, eviction rounds and user
    reloads: every live token was minted by the exchange that redeemed a code,
    and that code was issued before to a login with valid credentials of the
    same user (C1); the server simulates an
    abstract machine of codes, grants and tokens (C2); codes are redeemed at
    most once and tokens minted at most once per redemption (C3, C7); User
    objects are written only for users who proved who they are (C8); codes and
    tokens have their documented shape (C9); and the authentication modes do not
    leak into each other (C10).  Sequentially: the decision table of the token
    endpoint (C4), the login flow from form to user profile in legacy and OIDC
    mode (C5, C6; in OIDC mode the exchange fails exactly when signing does),
    eviction is unobservable, the login page escapes its inputs,
    htpasswd and RSA key reading invert writing.

    Routing: the Envoy configuration sends each path to the longest matching
    rule, over TLS when its port is one that the DestinationRules list (C11),
    with every cluster defined once; gateways get their infrastructure and the
    configuration of the routes that name data-science-gateway (C15), and follow
    the changes of routes and rules (C25); the proxy relays to the service that
    an admitted route names (C12, C13), talks only TLS to the OAuth port for the
    identity hosts (C14), and its handling of headers, upgrades and the route table is
    characterised.

    Controllers: against a server that fails at most [k] times, [k + 1]
    reconciliations bring a route, a well-tagged image stream, a gateway class
    or a namespace to rest (C16); convergence (a successful reconciliation
    leaves an object that needs no further one) for routes, namespaces, serving
    certificates and CA bundles; job sets create each child once and close with
    the right verdict; admission patches apply and are decoded as computed; uid
    ranges and load balancer addresses stay in bounds.

    The process: what the servers need to start, the ports they listen on, and
    one task per accepted connection (C17); [main] starts exactly what its
    options ask for and ends with the first subsystem that does (C18).

    Some theorems state behaviour that is unlikely to be intended: an unsigned
    JWT is trusted by userinfo, PKCE data is lost by the login form, the keys of
    an external provider are never refreshed, load balancer addresses repeat
    after 256 services, image streams with a malformed tag are patched at every
    reconciliation, a DestinationRule turns TLS on for every backend with one of
    its port numbers whatever its host and mode, a gateway of another name gets
    the routes of data-science-gateway, an upstream body that cannot be read is
    relayed as an empty one, stale CA bundles are kept, bytes sent together with an
    upgrade response are dropped, hosts of the built-in gateway never reach the
    proxy.

    ** Bounds and fuel

    Machine integers are [Z] with the wrap-around of each [as] cast written out
    (Prelude).  Fuel appears only in string functions (trimming, UTF-8
    decoding, replacing, splitting at white space) and is the length of the
    string, of which each step removes a character or more.  Loops over
    retries have the source's bound.  [Controller.rounds] takes the number of
    reconciliations; C16 shows that one more than the failures of the server is
    enough, C40 that no number is for a malformed image stream.  An
    accept loop takes the number of calls of [accept] to play.  The loop that
    reads an upgrade response is a function of the chunks that arrive, and
    [Waiting] if they end before the response does.

    ** Not modelled

    TLS and HTTP framing, the watching and queueing inside the [kube] controller
    runtime (so when a reconciler is called; the theorems are about any sequence
    of calls), byte copying inside tunnels, logging and the parsing of arguments
    are libraries.  The requests of one connection are tasks of their own in the
    pool, which allows more interleavings than the server has.  Locks are atomic
    effects: that a read guard of the user store is held while the handler of
    the authorize endpoint awaits is not represented.  HTTP header maps are
    lists in the order of insertion.  The Go command line client, manifests and scripts of the
    repository are outside the simulator. *)

From stdpp Require Export base gmap strings list pretty option.
From stdpp Require Import numbers.
From Stdlib Require Export ZArith Lia.

#[global] Set Default Proof Using "Type".

(** ** Rust's [Result] *)

Inductive result (E A : Type) : Type :=
| Ok (a : A)
| Err (e : E).
Arguments Ok {E A} a.
Arguments Err {E A} e.

Definition result_ok {E A} (r : result E A) : option A :=
  match r with Ok a => Some a | Err _ => None end.

(** ** Machine-width integers: the casts of [as] *)

Open Scope Z_scope.

Definition cast_u8 (z : Z) : Z := z mod 2 ^ 8.
Definition cast_u16 (z : Z) : Z := z mod 2 ^ 16.
Definition cast_u32 (z : Z) : Z := z mod 2 ^ 32.
Definition cast_u64 (z : Z) : Z := z mod 2 ^ 64.
Definition cast_i32 (z : Z) : Z := (z + 2 ^ 31) mod 2 ^ 32 - 2 ^ 31.
Definition cast_i64 (z : Z) : Z := (z + 2 ^ 63) mod 2 ^ 64 - 2 ^ 63.

Lemma cast_u16_range z : 0 <= cast_u16 z < 2 ^ 16.
Proof. apply Z.mod_pos_bound. lia. Qed.

Lemma cast_u16_id z : 0 <= z < 2 ^ 16 -> cast_u16 z = z.
Proof. apply Z.mod_small. Qed.

Lemma cast_u32_range z : 0 <= cast_u32 z < 2 ^ 32.
Proof. apply Z.mod_pos_bound. lia. Qed.

Lemma cast_u32_id z : 0 <= z < 2 ^ 32 -> cast_u32 z = z.
Proof. apply Z.mod_small. Qed.

Lemma cast_i64_id z : - 2 ^ 63 <= z < 2 ^ 63 -> cast_i64 z = z.
Proof. intros ?. unfold cast_i64. rewrite Z.mod_small; lia. Qed.

Lemma cast_i32_id z : - 2 ^ 31 <= z < 2 ^ 31 -> cast_i32 z = z.
Proof. intros ?. unfold cast_i32. rewrite Z.mod_small; lia. Qed.

(** ** Lists *)

Lemma omap_cons_eq {A B} (f : A -> option B) x l :
  omap f (x :: l) = match f x with Some y => y :: omap f l | None => omap f l end.
Proof. done. Qed.

Lemma pair_eta {A B} (p : A * B) a : p.1 = a -> p = (a, p.2).
Proof. destruct p. by intros [= ->]. Qed.
