(* ===== verification/RustStr.v ===== *)
(** * Rust strings

    [str]/[String] of the simulator as byte strings (the bytes of the UTF-8
    encoding, one [ascii] per byte), with the functions of the Rust standard
    library that the sources call.  Searching for an ASCII pattern in a valid
    UTF-8 string is the same on bytes and on [char]s; [trim] removes every
    character of Unicode's White_Space property, written out as the byte
    sequences that encode it. *)

From Stdlib Require Export Ascii.
From S2P Require Import Prelude.
Open Scope list_scope.
Open Scope Z_scope.

#[global] Arguments String.append : simpl nomatch.

(** ** Bytes and characters *)

Definition byte_val (c : ascii) : Z := Z.of_nat (nat_of_ascii c).
Definition bytes (l : list nat) : string :=
  foldr (fun n s => String (ascii_of_nat n) s) EmptyString l.

Definition nl : ascii := ascii_of_nat 10.
Definition cr : ascii := ascii_of_nat 13.
Definition dquote : ascii := ascii_of_nat 34.
Definition squote : ascii := ascii_of_nat 39.
Definition newline : string := String nl EmptyString.

Fixpoint map_chars (f : ascii -> ascii) (s : string) : string :=
  match s with
  | EmptyString => EmptyString
  | String c r => String (f c) (map_chars f r)
  end.

(** Source literals that contain double quotes are written with single quotes
    and read through [dq]; none of them contains a single quote. *)
Definition dq (s : string) : string :=
  map_chars (fun c => if Ascii.eqb c squote then dquote else c) s.

Fixpoint char_in (c : ascii) (s : string) : bool :=
  match s with
  | EmptyString => false
  | String d r => Ascii.eqb c d || char_in c r
  end.

Fixpoint forall_chars (p : ascii -> bool) (s : string) : bool :=
  match s with
  | EmptyString => true
  | String c r => p c && forall_chars p r
  end.

Definition is_empty (s : string) : bool :=
  match s with EmptyString => true | _ => false end.

Fixpoint str_rev_onto (s acc : string) : string :=
  match s with
  | EmptyString => acc
  | String c r => str_rev_onto r (String c acc)
  end.
Definition str_rev (s : string) : string := str_rev_onto s EmptyString.

Definition str_concat (l : list string) : string := foldr String.append "" l.

Fixpoint str_join (sep : string) (l : list string) : string :=
  match l with
  | [] => ""
  | [x] => x
  | x :: r => x +:+ sep +:+ str_join sep r
  end.

Fixpoint str_repeat (s : string) (n : nat) : string :=
  match n with O => "" | S n => s +:+ str_repeat s n end.

(** ** Prefixes, substrings, splitting *)

Fixpoint strip_prefix (p s : string) : option string :=
  match p, s with
  | EmptyString, _ => Some s
  | String a p', String b s' => if Ascii.eqb a b then strip_prefix p' s' else None
  | String _ _, EmptyString => None
  end.

Definition starts_with (p s : string) : bool :=
  match strip_prefix p s with Some _ => true | None => false end.

Fixpoint contains (p s : string) : bool :=
  starts_with p s ||
  match s with EmptyString => false | String _ r => contains p r end.

Fixpoint split_once (c : ascii) (s : string) : option (string * string) :=
  match s with
  | EmptyString => None
  | String d r =>
      if Ascii.eqb d c then Some (EmptyString, r)
      else match split_once c r with
           | Some (a, b) => Some (String d a, b)
           | None => None
           end
  end.

(** [s.split(c).next()]: always [Some], the part before the first [c]. *)
Definition split_first (c : ascii) (s : string) : string :=
  match split_once c s with Some (a, _) => a | None => s end.

(** [s.splitn(n, c)] for a character separator. *)
Fixpoint splitn (n : nat) (c : ascii) (s : string) : list string :=
  match n with
  | O => []
  | S O => [s]
  | S n' => match split_once c s with
            | Some (a, b) => a :: splitn n' c b
            | None => [s]
            end
  end.

(** [s.replace(c, by)] for a character pattern. *)
Fixpoint replace_char (c : ascii) (by' s : string) : string :=
  match s with
  | EmptyString => EmptyString
  | String d r =>
      if Ascii.eqb d c then by' +:+ replace_char c by' r
      else String d (replace_char c by' r)
  end.

(** [s.replace(pat, by)] for a non-empty string pattern; each step drops a
    character, so the length of the string is enough fuel. *)
Fixpoint str_replace_fuel (fuel : nat) (pat by' s : string) : string :=
  match fuel, s with
  | S f, String c r =>
      match strip_prefix pat s with
      | Some r' => by' +:+ str_replace_fuel f pat by' r'
      | None => String c (str_replace_fuel f pat by' r)
      end
  | _, _ => s
  end.
Definition str_replace (pat by' s : string) : string :=
  str_replace_fuel (String.length s) pat by' s.

Fixpoint drop_last_cr (s : string) : string :=
  match s with
  | EmptyString => EmptyString
  | String c EmptyString => if Ascii.eqb c cr then EmptyString else s
  | String c r => String c (drop_last_cr r)
  end.

(** [str::lines]: pieces end at a line feed, of which a preceding carriage
    return is part; an empty last piece is not a line. *)
Fixpoint lines_go (s cur : string) : list string :=
  match s with
  | EmptyString => if is_empty cur then [] else [cur]
  | String c r =>
      if Ascii.eqb c nl then drop_last_cr cur :: lines_go r EmptyString
      else lines_go r (cur +:+ String c EmptyString)
  end.
Definition lines (s : string) : list string := lines_go s EmptyString.

(** ** Whitespace *)

Definition ws_tokens : list string :=
  ((fun n => bytes [n]) <$> [9; 10; 11; 12; 13; 32]%nat) ++
  [bytes [194; 133]%nat; bytes [194; 160]%nat; bytes [225; 154; 128]%nat] ++
  ((fun n => bytes [226; 128; n]%nat) <$>
    [128; 129; 130; 131; 132; 133; 134; 135; 136; 137; 138; 168; 169; 175]%nat) ++
  [bytes [226; 129; 159]%nat; bytes [227; 128; 128]%nat].

Fixpoint strip_any (ts : list string) (s : string) : option string :=
  match ts with
  | [] => None
  | t :: ts' => match strip_prefix t s with
                | Some r => Some r
                | None => strip_any ts' s
                end
  end.

(** Every token is non-empty, so the length of the string is enough fuel. *)
Fixpoint trim_start_with (ts : list string) (fuel : nat) (s : string) : string :=
  match fuel with
  | O => s
  | S f => match strip_any ts s with
           | Some r => trim_start_with ts f r
           | None => s
           end
  end.
Definition trim_start (s : string) : string :=
  trim_start_with ws_tokens (String.length s) s.
Definition trim_end (s : string) : string :=
  str_rev (trim_start_with (str_rev <$> ws_tokens) (String.length s) (str_rev s)).
Definition trim (s : string) : string := trim_end (trim_start s).

(** [s.trim_end_matches(c)] for a character. *)
Fixpoint drop_while_char (c : ascii) (s : string) : string :=
  match s with
  | EmptyString => EmptyString
  | String d r => if Ascii.eqb d c then drop_while_char c r else s
  end.
Definition trim_end_matches (c : ascii) (s : string) : string :=
  str_rev (drop_while_char c (str_rev s)).

(** ** UTF-8 *)

Definition is_cont (c : ascii) : bool :=
  let b := byte_val c in (128 <=? b) && (b <=? 191).

Definition in_range (lo hi : Z) (c : ascii) : bool :=
  let b := byte_val c in (lo <=? b) && (b <=? hi).

(** One step of the decoder of [core::str]: the next well-formed sequence, or
    the number of bytes (one to three) of the maximal ill-formed prefix. *)
Inductive utf8_step : Type :=
| U8Valid (n : nat)
| U8Invalid (n : nat)
| U8End.

Definition utf8_second_ok3 (a b : ascii) : bool :=
  let x := byte_val a in
  if x =? 224 then in_range 160 191 b
  else if x =? 237 then in_range 128 159 b
  else in_range 128 191 b.

Definition utf8_second_ok4 (a b : ascii) : bool :=
  let x := byte_val a in
  if x =? 240 then in_range 144 191 b
  else if x =? 244 then in_range 128 143 b
  else in_range 128 191 b.

Definition utf8_next (s : string) : utf8_step :=
  match s with
  | EmptyString => U8End
  | String a r =>
      if in_range 0 127 a then U8Valid 1
      else if in_range 194 223 a then
        match r with
        | String b _ => if is_cont b then U8Valid 2 else U8Invalid 1
        | _ => U8Invalid 1
        end
      else if in_range 224 239 a then
        match r with
        | String b r2 =>
            if utf8_second_ok3 a b then
              match r2 with
              | String c _ => if is_cont c then U8Valid 3 else U8Invalid 2
              | _ => U8Invalid 2
              end
            else U8Invalid 1
        | _ => U8Invalid 1
        end
      else if in_range 240 244 a then
        match r with
        | String b r2 =>
            if utf8_second_ok4 a b then
              match r2 with
              | String c r3 =>
                  if is_cont c then
                    match r3 with
                    | String d _ => if is_cont d then U8Valid 4 else U8Invalid 3
                    | _ => U8Invalid 3
                    end
                  else U8Invalid 2
              | _ => U8Invalid 2
              end
            else U8Invalid 1
        | _ => U8Invalid 1
        end
      else U8Invalid 1
  end.

Fixpoint str_take (n : nat) (s : string) : string :=
  match n, s with
  | S n, String c r => String c (str_take n r)
  | _, _ => EmptyString
  end.

Fixpoint str_drop (n : nat) (s : string) : string :=
  match n, s with
  | S n, String _ r => str_drop n r
  | _, _ => s
  end.

Fixpoint utf8_valid_fuel (fuel : nat) (s : string) : bool :=
  match fuel with
  | O => is_empty s
  | S f => match utf8_next s with
           | U8End => true
           | U8Valid n => utf8_valid_fuel f (str_drop n s)
           | U8Invalid _ => false
           end
  end.

(** [std::str::from_utf8] *)
Definition from_utf8 (s : string) : option string :=
  if utf8_valid_fuel (String.length s) s then Some s else None.

Definition replacement_char : string := bytes [239; 191; 189]%nat.

Fixpoint lossy_fuel (fuel : nat) (s : string) : string :=
  match fuel with
  | O => EmptyString
  | S f => match utf8_next s with
           | U8End => EmptyString
           | U8Valid n => str_take n s +:+ lossy_fuel f (str_drop n s)
           | U8Invalid n => replacement_char +:+ lossy_fuel f (str_drop n s)
           end
  end.

(** [String::from_utf8_lossy] *)
Definition from_utf8_lossy (s : string) : string := lossy_fuel (String.length s) s.

(** ** Lemmas *)

Create HintDb ruststr.

Lemma sapp_nil_r s : s +:+ "" = s.
Proof. induction s; simpl; congruence. Qed.

Lemma sapp_assoc a b c : a +:+ (b +:+ c) = (a +:+ b) +:+ c.
Proof. induction a; simpl; congruence. Qed.

Lemma sapp_inv_head a b c : a +:+ b = a +:+ c -> b = c.
Proof. induction a; simpl; [done|]. intros [=]; auto. Qed.

Lemma slength_app a b : String.length (a +:+ b) = (String.length a + String.length b)%nat.
Proof. induction a; simpl; congruence. Qed.

Lemma sapp_inj_length a1 a2 b1 b2 :
  String.length a1 = String.length a2 -> a1 +:+ b1 = a2 +:+ b2 -> a1 = a2 /\ b1 = b2.
Proof.
  revert a2. induction a1 as [|x a1 IH]; intros [|y a2]; simpl; try done.
  intros [= Hl] [= -> H]. destruct (IH a2 Hl H) as [-> ->]. done.
Qed.

Lemma char_in_app c a b : char_in c (a +:+ b) = char_in c a || char_in c b.
Proof. induction a as [|d a IH]; simpl; [done|]. by rewrite IH, orb_assoc. Qed.

Lemma forall_chars_app p a b : forall_chars p (a +:+ b) = forall_chars p a && forall_chars p b.
Proof. induction a as [|d a IH]; simpl; [done|]. by rewrite IH, andb_assoc. Qed.

Lemma strip_prefix_Some p s r : strip_prefix p s = Some r <-> s = p +:+ r.
Proof.
  revert s. induction p as [|a p IH]; intros [|b s]; simpl; try (split; congruence).
  destruct (Ascii.eqb_spec a b) as [->|Hne].
  - rewrite IH. naive_solver.
  - split; [done|]. intros [= -> _]. done.
Qed.

Lemma starts_with_true p s : starts_with p s = true <-> exists r, s = p +:+ r.
Proof.
  unfold starts_with. destruct (strip_prefix p s) as [r|] eqn:E.
  - apply strip_prefix_Some in E. naive_solver.
  - split; [done|]. intros [r Hr]. apply strip_prefix_Some in Hr. congruence.
Qed.

Lemma starts_with_app p r : starts_with p (p +:+ r) = true.
Proof. apply starts_with_true. eauto. Qed.

Lemma strip_prefix_app p r : strip_prefix p (p +:+ r) = Some r.
Proof. by apply strip_prefix_Some. Qed.

Lemma contains_true p s : contains p s = true <-> exists a b, s = a +:+ p +:+ b.
Proof.
  induction s as [|c s IH]; simpl; rewrite orb_true_iff, starts_with_true.
  - split.
    + intros [[r Hr]|]; [|done]. by exists "", r.
    + intros (a & b & H). left. destruct a; [|done]. simpl in H. eauto.
  - rewrite IH. split.
    + intros [[r Hr]|(a & b & ->)]; [by exists "", r|]. by exists (String c a), b.
    + intros ([|d a] & b & H); simpl in H; [left; eauto|]. injection H as -> ->. right. eauto.
Qed.

Lemma split_once_Some c s a b :
  split_once c s = Some (a, b) <-> s = a +:+ String c b /\ char_in c a = false.
Proof.
  revert a. induction s as [|d s IH]; intros a; simpl.
  - split; [done|]. intros [H _]. by destruct a.
  - destruct (Ascii.eqb_spec d c) as [->|Hne].
    + split.
      * by intros [= <- <-].
      * intros [H Hin]. destruct a as [|x a]; simpl in *; [by injection H as ->|].
        injection H as <- ->. by rewrite Ascii.eqb_refl in Hin.
    + destruct (split_once c s) as [[a' b']|]; split.
      * intros [= <- <-]. destruct (proj1 (IH a') eq_refl) as [-> H]. split; [done|].
        simpl. rewrite H. destruct (Ascii.eqb_spec c d); [congruence|done].
      * intros [H Hin]. destruct a as [|x a]; simpl in *; injection H as ? H; [congruence|].
        subst x. apply orb_false_iff in Hin as [_ Hin].
        specialize (proj2 (IH a) (conj H Hin)). congruence.
      * done.
      * intros [H Hin]. destruct a as [|x a]; simpl in *; injection H as ? H; [congruence|].
        subst x. apply orb_false_iff in Hin as [_ Hin].
        specialize (proj2 (IH a) (conj H Hin)). congruence.
Qed.

Lemma split_once_app c a b : char_in c a = false -> split_once c (a +:+ String c b) = Some (a, b).
Proof. intros H. by apply split_once_Some. Qed.

Lemma split_once_None c s : split_once c s = None <-> char_in c s = false.
Proof.
  induction s as [|d s IH]; simpl; [done|].
  destruct (Ascii.eqb_spec d c) as [->|Hne]; [by rewrite Ascii.eqb_refl|].
  destruct (Ascii.eqb_spec c d); [congruence|]. simpl. rewrite <- IH.
  destruct (split_once c s) as [[]|]; naive_solver.
Qed.

#[export] Hint Rewrite char_in_app forall_chars_app strip_prefix_app starts_with_app : ruststr.

Lemma lines_go_line l r cur :
  char_in nl l = false -> lines_go (l +:+ String nl r) cur = drop_last_cr (cur +:+ l) :: lines r.
Proof.
  revert cur. induction l as [|c l IH]; intros cur; simpl.
  - intros _. by rewrite sapp_nil_r.
  - intros [H1 H2]%orb_false_iff. destruct (Ascii.eqb_spec c nl) as [->|]; [done|].
    rewrite IH by done. by rewrite <- sapp_assoc.
Qed.

(** A terminated line is split off the front. *)
Lemma lines_cons l r :
  char_in nl l = false -> lines (l +:+ String nl r) = drop_last_cr l :: lines r.
Proof. apply (lines_go_line l r ""). Qed.

Lemma drop_last_cr_id s : char_in cr s = false -> drop_last_cr s = s.
Proof.
  induction s as [|c s IH]; [done|]. simpl. intros [H1 H2]%orb_false_iff.
  destruct s; [|by rewrite IH].
  destruct (Ascii.eqb_spec c cr) as [->|]; done.
Qed.

Lemma str_rev_onto_app a b acc : str_rev_onto (a +:+ b) acc = str_rev_onto b (str_rev_onto a acc).
Proof. revert acc. induction a; simpl; auto. Qed.

Lemma str_rev_onto_acc a acc : str_rev_onto a acc = str_rev a +:+ acc.
Proof.
  unfold str_rev. revert acc. induction a as [|c a IH]; intros acc; [done|]. simpl.
  rewrite (IH (String c acc)), (IH (String c "")). by rewrite <- sapp_assoc.
Qed.

Lemma str_rev_app a b : str_rev (a +:+ b) = str_rev b +:+ str_rev a.
Proof. unfold str_rev at 1. by rewrite str_rev_onto_app, str_rev_onto_acc. Qed.

Lemma str_rev_involutive s : str_rev (str_rev s) = s.
Proof.
  induction s as [|c s IH]; [done|].
  change (String c s) with (String c "" +:+ s). by rewrite !str_rev_app, IH.
Qed.

Lemma sapp_inj_r a b c : a +:+ c = b +:+ c -> a = b.
Proof.
  intros Hab. apply (f_equal str_rev) in Hab. rewrite !str_rev_app in Hab.
  apply (inj (String.append (str_rev c))) in Hab. rewrite <- (str_rev_involutive a), Hab. apply str_rev_involutive.
Qed.

(** Text written line by line reads back line by line. *)
Definition unlines (ls : list string) : string := str_concat ((fun l => l +:+ newline) <$> ls).

Definition plain_line (s : string) : bool := forall_chars (fun c => negb (Ascii.eqb c nl || Ascii.eqb c cr)) s.

Lemma forall_chars_char_in p c s : forall_chars p s = true -> p c = false -> char_in c s = false.
Proof.
  intros H Hc. induction s as [|d s IH]; simpl in *; [done|].
  apply andb_true_iff in H as [Hd H]. rewrite IH by done.
  destruct (Ascii.eqb_spec c d) as [<-|]; [congruence|done].
Qed.

Lemma forall_chars_impl (p q : ascii -> bool) s :
  (forall c, p c = true -> q c = true) -> forall_chars p s = true -> forall_chars q s = true.
Proof. intros Hpq. induction s; simpl; [done|]. rewrite !andb_true_iff. naive_solver. Qed.

Lemma unlines_cons l ls : unlines (l :: ls) = l +:+ String nl (unlines ls).
Proof. unfold unlines. simpl. by rewrite <- sapp_assoc. Qed.

Lemma unlines_cons_app l ls r : unlines (l :: ls) +:+ r = l +:+ String nl (unlines ls +:+ r).
Proof. by rewrite unlines_cons, <- sapp_assoc. Qed.

Lemma lines_unlines ls r : forallb plain_line ls = true -> lines (unlines ls +:+ r) = ls ++ lines r.
Proof.
  induction ls as [|l ls IH]; [done|]. simpl. intros [Hl Hls]%andb_true_iff.
  rewrite unlines_cons, <- sapp_assoc. simpl.
  assert (char_in nl l = false /\ char_in cr l = false) as [Hn Hc]
    by (split; by eapply forall_chars_char_in).
  by rewrite lines_cons, drop_last_cr_id, IH.
Qed.
