(* ===== verification/Net.v ===== *)
(** * Addresses and numbers of the Rust standard library

    [std::net]: the parser of IP addresses ([core::net::parser]) and the text of
    addresses and socket addresses; [str::parse::<u16>] and
    [str::split_whitespace]. *)

From S2P Require Import Prelude RustStr.
Open Scope list_scope.
Open Scope Z_scope.

(** ** Addresses *)

Inductive IpAddr : Type :=
| V4 (a b c d : Z)
| V6 (segments : list Z).

Record SocketAddr : Type := { sa_ip : IpAddr; sa_port : Z }.

#[global] Instance ip_eq_dec : EqDecision IpAddr.
Proof. solve_decision. Defined.

(** ** The parser: each reader gives the value and the rest of the input *)

Definition digit (radix : Z) (c : ascii) : option Z :=
  let b := byte_val c in
  let d := if in_range 48 57 c then b - 48
           else if in_range 97 122 c then b - 97 + 10
           else if in_range 65 90 c then b - 65 + 10
           else radix in
  if d <? radix then Some d else None.

(** The digits at the front, as a number, with their count. *)
Fixpoint read_digits (radix acc : Z) (count : nat) (s : string) : Z * nat * string :=
  match s with
  | String c r =>
      match digit radix c with
      | Some d => read_digits radix (acc * radix + d) (S count) r
      | None => (acc, count, s)
      end
  | EmptyString => (acc, count, s)
  end.

Definition read_number (radix max_value : Z) (max_digits : nat) (allow_zero_prefix : bool) (s : string) :
    option (Z * string) :=
  let '(n, count, r) := read_digits radix 0 0 s in
  if (max_digits <? count)%nat then None
  else if max_value <? n then None
  else if (count =? 0)%nat then None
  else if negb allow_zero_prefix && starts_with "0" s && (1 <? count)%nat then None
  else Some (n, r).

Definition read_given_char (c : ascii) (s : string) : option string :=
  match s with String d r => if Ascii.eqb d c then Some r else None | EmptyString => None end.

Definition read_separator {A} (sep : ascii) (index : nat) (inner : string -> option (A * string)) (s : string) :
    option (A * string) :=
  match index with
  | O => inner s
  | S _ => r ← read_given_char sep s; inner r
  end.

Definition read_octet (index : nat) : string -> option (Z * string) :=
  read_separator "."%char index (read_number 10 255 3 false).

Definition read_ipv4_addr (s : string) : option (IpAddr * string) :=
  '(a, s) ← read_octet 0 s;
  '(b, s) ← read_octet 1 s;
  '(c, s) ← read_octet 2 s;
  '(d, s) ← read_octet 3 s;
  Some (V4 a b c d, s).

(** Up to [limit - i] groups from position [i] on; whether an IPv4 address was
    embedded at the end. *)
Fixpoint read_groups (left i : nat) (s : string) : list Z * bool * string :=
  match left with
  | O => ([], false, s)
  | S left' =>
      match (match left' with
             | O => None
             | S _ => read_separator ":"%char i read_ipv4_addr s
             end) with
      | Some (V4 a b c d, r) => ([a * 256 + b; c * 256 + d], true, r)
      | _ =>
          match read_separator ":"%char i (read_number 16 65535 4 true) s with
          | Some (g, r) => let '(gs, v4, r) := read_groups left' (S i) r in (g :: gs, v4, r)
          | None => ([], false, s)
          end
      end
  end.

Definition read_ipv6_addr (s : string) : option (IpAddr * string) :=
  let '(head, head_ipv4, r) := read_groups 8 0 s in
  if (length head =? 8)%nat then Some (V6 head, r)
  else if head_ipv4 then None
  else
    r ← read_given_char ":"%char r;
    r ← read_given_char ":"%char r;
    let '(tail, _, r) := read_groups (8 - (length head + 1)) 0 r in
    Some (V6 (head ++ replicate (8 - length head - length tail) 0 ++ tail), r).

Definition read_ip_addr (s : string) : option (IpAddr * string) :=
  match read_ipv4_addr s with Some x => Some x | None => read_ipv6_addr s end.

(** [s.parse::<IpAddr>()] *)
Definition parse_ip (s : string) : option IpAddr :=
  '(ip, rest) ← read_ip_addr s;
  if is_empty rest then Some ip else None.

(** ** Text *)

Definition hex_digit (d : Z) : ascii := ascii_of_nat (Z.to_nat (if d <? 10 then 48 + d else 97 + (d - 10))).

(** [{:x}] of a u16: at most four digits *)
Fixpoint hex_go (fuel : nat) (z : Z) (acc : string) : string :=
  match fuel with
  | O => acc
  | S f => let acc := String (hex_digit (z mod 16)) acc in
           if z <? 16 then acc else hex_go f (z / 16) acc
  end.
Definition hex (z : Z) : string := hex_go 4 z "".

Definition show_v4 (a b c d : Z) : string :=
  pretty a +:+ "." +:+ pretty b +:+ "." +:+ pretty c +:+ "." +:+ pretty d.

(** The first longest run of zero segments, as start and length. *)
Fixpoint zero_run (l : list Z) (i : nat) (current longest : nat * nat) : nat * nat :=
  match l with
  | [] => longest
  | x :: r =>
      if x =? 0 then
        let current := if (current.2 =? 0)%nat then (i, 1%nat) else (current.1, S current.2) in
        zero_run r (S i) current (if (longest.2 <? current.2)%nat then current else longest)
      else zero_run r (S i) (0%nat, 0%nat) longest
  end.

Definition show_v6 (segments : list Z) : string :=
  match segments with
  | [0; 0; 0; 0; 0; 65535; g; h] => "::ffff:" +:+ show_v4 (g / 256) (g mod 256) (h / 256) (h mod 256)
  | _ =>
      let '(start, len) := zero_run segments 0 (0, 0)%nat (0, 0)%nat in
      if (1 <? len)%nat then
        str_join ":" (hex <$> take start segments) +:+ "::" +:+
        str_join ":" (hex <$> drop (start + len) segments)
      else str_join ":" (hex <$> segments)
  end.

Definition show_ip (ip : IpAddr) : string :=
  match ip with V4 a b c d => show_v4 a b c d | V6 segments => show_v6 segments end.

Definition show_addr (a : SocketAddr) : string :=
  match sa_ip a with
  | V4 x y z t => show_v4 x y z t +:+ ":" +:+ pretty (sa_port a)
  | V6 segments => "[" +:+ show_v6 segments +:+ "]:" +:+ pretty (sa_port a)
  end.

(** ** [str::parse::<u16>] and [str::split_whitespace] *)

Definition parse_u16 (s : string) : option Z :=
  let digits := match strip_prefix "+" s with Some r => r | None => s end in
  if is_empty digits || negb (forall_chars (in_range 48 57) digits) then None
  else let '(n, _, _) := read_digits 10 0 0 digits in
       if n <=? 65535 then Some n else None.

(** A white space character is dropped at each separator, so the length of the
    string is enough fuel; empty pieces are not words. *)
Fixpoint words_go (fuel : nat) (s cur : string) : list string :=
  let word := if is_empty cur then [] else [cur] in
  match fuel with
  | O => word
  | S f =>
      match strip_any ws_tokens s with
      | Some r => word ++ words_go f r ""
      | None => match s with
                | EmptyString => word
                | String c r => words_go f r (cur +:+ String c "")
                end
      end
  end.
Definition split_whitespace (s : string) : list string := words_go (S (String.length s)) s "".

Example parse_ip_1 : parse_ip "10.96.0.1" = Some (V4 10 96 0 1). Proof. reflexivity. Qed.
Example parse_ip_2 : parse_ip "10.96.0.01" = None. Proof. reflexivity. Qed.
Example parse_ip_3 : parse_ip "fd00::1:2" = Some (V6 [64768; 0; 0; 0; 0; 0; 1; 2]). Proof. reflexivity. Qed.
Example parse_ip_4 : parse_ip "::ffff:1.2.3.4" = Some (V6 [0; 0; 0; 0; 0; 65535; 258; 772]). Proof. reflexivity. Qed.
Example show_ip_1 : show_ip (V6 [64768; 0; 0; 1; 0; 0; 0; 2]) = "fd00:0:0:1::2". Proof. reflexivity. Qed.
Example split_1 : split_whitespace "HTTP/1.1  101 Switching" = ["HTTP/1.1"; "101"; "Switching"]. Proof. reflexivity. Qed.
Example parse_u16_1 : parse_u16 "+200" = Some 200. Proof. reflexivity. Qed.

(** ** IPv4 addresses read back *)

Definition is_digit (radix : Z) (c : ascii) : bool :=
  match digit radix c with Some _ => true | None => false end.

Definition stops (radix : Z) (s : string) : Prop :=
  match s with EmptyString => True | String c _ => digit radix c = None end.

Lemma read_digits_app radix acc n ds r :
  forall_chars (is_digit radix) ds = true -> stops radix r ->
  read_digits radix acc n (ds +:+ r) = ((read_digits radix acc n ds).1, r).
Proof.
  intros Hd Hr. revert acc n Hd. induction ds as [|c ds IH]; intros acc n Hd; simpl in *.
  - destruct r as [|c r]; simpl in *; [done|]. by rewrite Hr.
  - apply andb_true_iff in Hd as [Hc Hd]. unfold is_digit in Hc.
    destruct (digit radix c); [|done]. by rewrite IH.
Qed.

Lemma read_number_app radix m k z ds n r r0 :
  forall_chars (is_digit radix) ds = true -> stops radix r -> is_empty ds = false ->
  read_number radix m k z ds = Some (n, r0) -> read_number radix m k z (ds +:+ r) = Some (n, r).
Proof.
  intros Hd Hr Hne. unfold read_number. rewrite read_digits_app by done.
  destruct (read_digits radix 0 0 ds) as [[v c] r']. cbn [fst].
  assert (Hz : starts_with "0" (ds +:+ r) = starts_with "0" ds).
  { destruct ds as [|x ds]; [done|]. unfold starts_with.
    change (String x ds +:+ r) with (String x (ds +:+ r)). cbn [strip_prefix]. by destruct (Ascii.eqb _ x). }
  rewrite Hz. repeat case_match; congruence.
Qed.

Definition octet_ok (a : Z) : bool :=
  forall_chars (is_digit 10) (pretty a) && negb (is_empty (pretty a)) &&
  bool_decide (read_number 10 255 3 false (pretty a) = Some (a, "")).

Lemma octets_ok a : 0 <= a < 256 -> octet_ok a = true.
Proof.
  intros Ha. assert (H : forallb octet_ok (Z.of_nat <$> seq 0 256) = true) by (vm_compute; reflexivity).
  rewrite forallb_forall in H. apply H, list_elem_of_In, list_elem_of_fmap. exists (Z.to_nat a).
  split; [lia|]. apply elem_of_seq. lia.
Qed.

Lemma read_octet_0 a r : 0 <= a < 256 -> stops 10 r -> read_octet 0 (pretty a +:+ r) = Some (a, r).
Proof.
  intros Ha Hr. pose proof (octets_ok a Ha) as [[Hd He]%andb_true_iff Hn]%andb_true_iff.
  apply bool_decide_eq_true in Hn. unfold read_octet, read_separator.
  eapply read_number_app; [done|done|by apply negb_true_iff|exact Hn].
Qed.

Lemma read_octet_S i a r :
  0 <= a < 256 -> stops 10 r -> read_octet (S i) ("." +:+ pretty a +:+ r) = Some (a, r).
Proof. intros. by apply read_octet_0. Qed.

Lemma parse_show_v4 a b c d :
  0 <= a < 256 -> 0 <= b < 256 -> 0 <= c < 256 -> 0 <= d < 256 ->
  parse_ip (show_v4 a b c d) = Some (V4 a b c d).
Proof.
  intros. unfold parse_ip, read_ip_addr, read_ipv4_addr, show_v4.
  rewrite read_octet_0 by done. cbn [mbind option_bind]. rewrite read_octet_S by done.
  cbn [mbind option_bind]. rewrite read_octet_S by done. cbn [mbind option_bind].
  rewrite <- (sapp_nil_r (pretty d)), read_octet_S by done. reflexivity.
Qed.
