(* ===== verification/SipHash.v ===== *)
(** * [std::collections::hash_map::DefaultHasher]

    The hasher of the Rust standard library is SipHash-1-3 with zero keys; its
    documentation leaves the algorithm open, so theorems treat the hash as a
    parameter ([PodMutate.StdHasher]) and this file is the instance that
    the toolchain ships.  [siphash] has the numbers of rounds as arguments, so
    that it can be checked against the published vectors of SipHash-2-4. *)

From S2P Require Import Prelude RustStr.
Open Scope list_scope.
Open Scope Z_scope.

Definition rotl (x : Z) (b : Z) : Z := cast_u64 (Z.lor (Z.shiftl x b) (Z.shiftr x (64 - b))).
Definition wrapping_add (x y : Z) : Z := cast_u64 (x + y).

Record SipState : Type := Sip { v0 : Z; v1 : Z; v2 : Z; v3 : Z }.

Definition sip_init (k0 k1 : Z) : SipState :=
  Sip (Z.lxor k0 8317987319222330741) (Z.lxor k1 7237128888997146477)
      (Z.lxor k0 7816392313619706465) (Z.lxor k1 8387220255154660723).

Definition sip_round (s : SipState) : SipState :=
  let '(Sip a b c d) := s in
  let a := wrapping_add a b in
  let c := wrapping_add c d in
  let b := Z.lxor (rotl b 13) a in
  let d := Z.lxor (rotl d 16) c in
  let a := rotl a 32 in
  let c := wrapping_add c b in
  let a := wrapping_add a d in
  let b := Z.lxor (rotl b 17) c in
  let d := Z.lxor (rotl d 21) a in
  let c := rotl c 32 in
  Sip a b c d.

Definition absorb (rounds : nat) (m : Z) (s : SipState) : SipState :=
  let s := Nat.iter rounds sip_round (Sip (v0 s) (v1 s) (v2 s) (Z.lxor (v3 s) m)) in
  Sip (Z.lxor (v0 s) m) (v1 s) (v2 s) (v3 s).

(** Little-endian *)
Definition load_le (bs : list Z) : Z := foldr (fun b acc => b + 256 * acc) 0 bs.

(** Eight bytes per word; the last, partial word ends with the length. *)
Fixpoint absorb_words (rounds words : nat) (bs : list Z) (s : SipState) : SipState * list Z :=
  match words with
  | O => (s, bs)
  | S n => absorb_words rounds n (drop 8 bs) (absorb rounds (load_le (take 8 bs)) s)
  end.

Definition siphash (c_rounds d_rounds : nat) (k0 k1 : Z) (bs : list Z) : Z :=
  let n := length bs in
  let '(s, rest) := absorb_words c_rounds (Nat.div n 8) bs (sip_init k0 k1) in
  let s := absorb c_rounds (Z.lor (load_le rest) (Z.shiftl (Z.of_nat n mod 256) 56)) s in
  let s := Nat.iter d_rounds sip_round (Sip (v0 s) (v1 s) (Z.lxor (v2 s) 255) (v3 s)) in
  cast_u64 (Z.lxor (Z.lxor (v0 s) (v1 s)) (Z.lxor (v2 s) (v3 s))).

Fixpoint byte_list (s : string) : list Z :=
  match s with EmptyString => [] | String c r => byte_val c :: byte_list r end.

(** [s.hash(&mut hasher)]: the bytes and a terminating 0xff. *)
Definition hash_str (s : string) : Z := siphash 1 3 0 0 (byte_list s ++ [255]).

Lemma hash_str_u64 s : 0 <= hash_str s < 2 ^ 64.
Proof.
  unfold hash_str, siphash. destruct (absorb_words _ _ _ _). apply Z.mod_pos_bound. lia.
Qed.

(** The vectors of the SipHash paper, with the key bytes 0 to 15. *)
Definition vector_k0 : Z := 506097522914230528.
Definition vector_k1 : Z := 1084818905618843912.

Example siphash_vector_empty : siphash 2 4 vector_k0 vector_k1 [] = 8246050544436514353.
Proof. vm_compute. reflexivity. Qed.

Example siphash_vector_15 :
  siphash 2 4 vector_k0 vector_k1 (Z.of_nat <$> seq 0 15) = 11613035633349379557.
Proof. vm_compute. reflexivity. Qed.
