(* ===== verification/Json.v ===== *)
(** * JSON values

    [serde_json::Value] as data: the public enum, the accessors the sources
    use ([get], [as_str], [as_array], indexing, ...), and the builders of the
    [json!] macro.  Printing and parsing belong to the crate and are the class
    [SerdeJson].  The two patch formats the simulator sends to the API server,
    RFC 7396 merge patches and the [add] operation of RFC 6902, are given here
    as functions on values; the component files use them to say what a patch
    does once the server has applied it. *)

From S2P Require Import Prelude RustStr.
Open Scope list_scope.
Open Scope Z_scope.

(** ** Values *)

(** A number is stored as an unsigned or a negative 64-bit integer, or as the
    bits of a double. *)
Inductive Number : Type :=
| PosInt (n : Z)
| NegInt (n : Z)
| Float (bits : Z).

Unset Elimination Schemes.
Inductive Value : Type :=
| Null
| VBool (b : bool)
| VNumber (n : Number)
| VString (s : string)
| VArray (l : list Value)
| VObject (m : list (string * Value)).
Set Elimination Schemes.

Section value_ind.
Context (P : Value -> Prop).
Context (Hnull : P Null) (Hbool : forall b, P (VBool b)) (Hnum : forall n, P (VNumber n))
  (Hstr : forall s, P (VString s)) (Harr : forall l, Forall P l -> P (VArray l))
  (Hobj : forall m, Forall (fun kv => P kv.2) m -> P (VObject m)).

Fixpoint value_ind' (v : Value) : P v :=
  match v with
  | Null => Hnull
  | VBool b => Hbool b
  | VNumber n => Hnum n
  | VString s => Hstr s
  | VArray l => Harr l ((fix go l : Forall P l :=
      match l with [] => List.Forall_nil _ | v :: r => List.Forall_cons _ _ _ (value_ind' v) (go r) end) l)
  | VObject m => Hobj m ((fix go m : Forall (fun kv => P kv.2) m :=
      match m with [] => List.Forall_nil _ | kv :: r => List.Forall_cons _ _ _ (value_ind' kv.2) (go r) end) m)
  end.
End value_ind.

#[global] Instance number_eq_dec : EqDecision Number.
Proof. solve_decision. Defined.

Fixpoint value_eqb (v1 v2 : Value) : bool :=
  match v1, v2 with
  | Null, Null => true
  | VBool b1, VBool b2 => Bool.eqb b1 b2
  | VNumber n1, VNumber n2 => bool_decide (n1 = n2)
  | VString s1, VString s2 => String.eqb s1 s2
  | VArray l1, VArray l2 =>
      (fix go (l1 l2 : list Value) : bool :=
         match l1, l2 with
         | [], [] => true
         | v1 :: r1, v2 :: r2 => value_eqb v1 v2 && go r1 r2
         | _, _ => false
         end) l1 l2
  | VObject m1, VObject m2 =>
      (fix go (m1 m2 : list (string * Value)) : bool :=
         match m1, m2 with
         | [], [] => true
         | (k1, v1) :: r1, (k2, v2) :: r2 => String.eqb k1 k2 && value_eqb v1 v2 && go r1 r2
         | _, _ => false
         end) m1 m2
  | _, _ => false
  end.

Lemma value_eqb_eq v1 v2 : value_eqb v1 v2 = true <-> v1 = v2.
Proof.
  revert v2. induction v1 as [|b|n|s|l IH|m IH] using value_ind'; intros v2; split.
  all: destruct v2 as [|b2|n2|s2|l2|m2]; simpl; try discriminate; try done.
  - by intros ->%Bool.eqb_prop.
  - intros [= ->]. apply Bool.eqb_reflx.
  - by intros ->%bool_decide_eq_true.
  - intros [= ->]. by apply bool_decide_eq_true.
  - by intros ->%String.eqb_eq.
  - intros [= ->]. apply String.eqb_refl.
  - intros H. f_equal. revert l2 H. induction IH as [|v l Hv _ IHl]; intros [|v2 l2]; try done.
    intros [H1 H2]%andb_true_iff. f_equal; [by apply Hv|by apply IHl].
  - intros [= <-]. induction IH as [|v l Hv _ IHl]; [done|]. apply andb_true_iff. split; [by apply Hv|done].
  - intros H. f_equal. revert m2 H. induction IH as [|[k v] m Hv _ IHm]; intros [|[k2 v2] m2]; try done.
    intros [[H1%String.eqb_eq H2]%andb_true_iff H3]%andb_true_iff. simpl in *. subst.
    f_equal; [f_equal; by apply Hv|by apply IHm].
  - intros [= <-]. induction IH as [|[k v] m Hv _ IHm]; [done|].
    rewrite String.eqb_refl. apply andb_true_iff. split; [by apply Hv|done].
Qed.

#[global] Instance value_eq_dec : EqDecision Value.
Proof. intros v1 v2. destruct (value_eqb v1 v2) eqn:H; [left|right]; rewrite <- value_eqb_eq; congruence. Defined.

Declare Scope json_scope.
Delimit Scope json_scope with json.
Bind Scope json_scope with Value.

(** The [json!] macro: an object literal, a field, an integer. *)
Notation "k '=:' v" := (pair (k%string) (v : Value)) (at level 65, no associativity) : json_scope.
Definition jobj (m : list (string * Value)) : Value := VObject m.
Definition jstrs (l : list string) : Value := VArray (VString <$> l).
Definition jint (z : Z) : Value := VNumber (if z <? 0 then NegInt z else PosInt z).
Open Scope json_scope.

Fixpoint assoc (k : string) (m : list (string * Value)) : option Value :=
  match m with
  | [] => None
  | (k', v) :: r => if String.eqb k k' then Some v else assoc k r
  end.

Fixpoint obj_insert (k : string) (v : Value) (m : list (string * Value)) : list (string * Value) :=
  match m with
  | [] => [(k, v)]
  | (k', v') :: r => if String.eqb k k' then (k, v) :: r else (k', v') :: obj_insert k v r
  end.

Fixpoint obj_remove (k : string) (m : list (string * Value)) : list (string * Value) :=
  match m with
  | [] => []
  | (k', v') :: r => if String.eqb k k' then obj_remove k r else (k', v') :: obj_remove k r
  end.

(** ** Accessors *)

Definition get (k : string) (v : Value) : option Value :=
  match v with VObject m => assoc k m | _ => None end.

(** [v[k]]: [Null] when there is no such field. *)
Definition index (k : string) (v : Value) : Value := default Null (get k v).

Definition as_str (v : Value) : option string :=
  match v with VString s => Some s | _ => None end.
Definition as_bool (v : Value) : option bool :=
  match v with VBool b => Some b | _ => None end.
Definition as_array (v : Value) : option (list Value) :=
  match v with VArray l => Some l | _ => None end.
Definition as_u64 (v : Value) : option Z :=
  match v with VNumber (PosInt n) => Some n | _ => None end.

(** [v.get(k).and_then(|x| x.as_str())], the most frequent chain. *)
Definition get_str (k : string) (v : Value) : option string := get k v ≫= as_str.
Definition get_array (k : string) (v : Value) : option (list Value) := get k v ≫= as_array.

(** ** Printing and parsing ([serde_json::to_string], [serde_json::from_slice]) *)

Class SerdeJson : Type := {
  json_to_string : Value -> string;
  json_from_str : string -> option Value
}.

(** ** RFC 7396: merge patches *)

Definition members (v : Value) : list (string * Value) :=
  match v with VObject m => m | _ => [] end.

Fixpoint merge_patch (patch target : Value) {struct patch} : Value :=
  match patch with
  | VObject pm =>
      let fix go (pm base : list (string * Value)) : list (string * Value) :=
        match pm with
        | [] => base
        | (k, v) :: r =>
            go r (match v with
                  | Null => obj_remove k base
                  | _ => obj_insert k (merge_patch v (default Null (assoc k base))) base
                  end)
        end
      in VObject (go pm (members target))
  | _ => patch
  end.

(** ** RFC 6902: the [add] operation on a path of object members

    [None] when a parent of the target location is not an object (the patch is
    then an error); an existing member is replaced. *)
Fixpoint json_add (path : list string) (v doc : Value) : option Value :=
  match path, doc with
  | [], _ => Some v
  | [k], VObject m => Some (VObject (obj_insert k v m))
  | k :: path', VObject m =>
      child ← assoc k m;
      child' ← json_add path' v child;
      Some (VObject (obj_insert k child' m))
  | _, _ => None
  end.

(** ** Lemmas *)

Lemma assoc_insert_eq k v m : assoc k (obj_insert k v m) = Some v.
Proof.
  induction m as [|[k' v'] m IH]; simpl; [by rewrite String.eqb_refl|].
  destruct (String.eqb_spec k k'); simpl; [by rewrite String.eqb_refl|].
  by destruct (String.eqb_spec k k').
Qed.

Lemma assoc_insert_ne k j v m : j <> k -> assoc j (obj_insert k v m) = assoc j m.
Proof.
  intros Hne. induction m as [|[k' v'] m IH]; simpl.
  - by destruct (String.eqb_spec j k).
  - destruct (String.eqb_spec k k') as [<-|]; simpl.
    + by destruct (String.eqb_spec j k).
    + by rewrite IH.
Qed.

Lemma get_index k v x : get k v = Some x -> index k v = x.
Proof. unfold index. by intros ->. Qed.

Lemma get_members k v : get k v = assoc k (members v).
Proof. by destruct v. Qed.

Lemma merge_single k v t :
  v <> Null ->
  merge_patch (VObject [(k, v)]) t =
    VObject (obj_insert k (merge_patch v (index k t)) (members t)).
Proof. intros Hv. unfold index. rewrite get_members. simpl. by destruct v. Qed.

Lemma get_merge_single k v t :
  v <> Null ->
  get k (merge_patch (VObject [(k, v)]) t) = Some (merge_patch v (index k t)).
Proof. intros Hv. rewrite merge_single by done. apply assoc_insert_eq. Qed.

Lemma get_merge_single_ne k j v t :
  v <> Null -> j <> k ->
  get j (merge_patch (VObject [(k, v)]) t) = get j t.
Proof.
  intros Hv Hj. rewrite merge_single, get_members by done.
  simpl. rewrite assoc_insert_ne, get_members by done. done.
Qed.

Lemma get_insert k v m : get k (VObject (obj_insert k v m)) = Some v.
Proof. apply assoc_insert_eq. Qed.

Lemma get_insert_ne k j v m : j <> k -> get j (VObject (obj_insert k v m)) = get j (VObject m).
Proof. apply assoc_insert_ne. Qed.
