(* ===== verification/Prog.v ===== *)
(** * Effectful programs

    An [async fn] of the simulator is a [prog E A]: a finite tree of effects
    of the signature [E] (a lock-protected access to a shared map, a clock
    reading, a request to the API server, ...) that ends in a value of [A].
    Each effect is atomic; between two effects of one program any other task
    may run.  The file has the monad, the sequential interpreter [run], a
    Hoare-style calculus [wp] over a monitor automaton, and pools of
    interleaved programs, with the theorem that lifts [wp] to every
    interleaving. *)

From S2P Require Import Prelude.

(** ** Programs *)

Inductive prog (E : Type -> Type) (A : Type) : Type :=
| Ret (a : A)
| Vis (X : Type) (e : E X) (k : X -> prog E A).
Arguments Ret {E A} a.
Arguments Vis {E A X} e k.

Fixpoint prog_bind {E A B} (p : prog E A) (f : A -> prog E B) : prog E B :=
  match p with
  | Ret a => f a
  | Vis e k => Vis e (fun x => prog_bind (k x) f)
  end.

(** [x ⟵ p; k]: perform [p], then [k] with its result. *)
Notation "x ⟵ p ; k" := (prog_bind p (fun x => k))
  (at level 20, p at level 100, k at level 200, only parsing) : stdpp_scope.
Notation "' x ⟵ p ; k" := (prog_bind p (fun x => k))
  (at level 20, x pattern, p at level 100, k at level 200, only parsing) : stdpp_scope.

(** *** Sums of signatures *)

Inductive sumE (E F : Type -> Type) (X : Type) : Type :=
| inlE (e : E X)
| inrE (e : F X).
Arguments inlE {E F X} e.
Arguments inrE {E F X} e.
Infix "+'" := sumE (at level 60, right associativity) : type_scope.

Class Inject (E F : Type -> Type) : Type := inject : forall X, E X -> F X.
Arguments inject {E F _ X} e.
#[global] Hint Mode Inject ! ! : typeclass_instances.
#[global] Instance inject_refl E : Inject E E | 1 := fun X e => e.
#[global] Instance inject_l E F : Inject E (E +' F) | 2 := fun X e => inlE e.
#[global] Instance inject_r E F G `{!Inject E G} : Inject E (F +' G) | 3 :=
  fun X e => inrE (inject e).

Definition trigger {E F} `{!Inject E F} {X} (e : E X) : prog F X := Vis (inject e) Ret.

(** Expose the effect of a [trigger]. *)
Ltac prog_unfold := unfold trigger; repeat progress unfold inject, inject_l, inject_r, inject_refl.

(** A program of a smaller signature, in a larger one. *)
Fixpoint lift {E F} `{!Inject E F} {A} (p : prog E A) : prog F A :=
  match p with
  | Ret a => Ret a
  | Vis e k => Vis (inject e) (fun x => lift (k x))
  end.

(** *** The [?] operator on effectful calls that return a [Result] *)

Definition try_bind {E Er A B} (p : prog E (result Er A)) (f : A -> prog E (result Er B)) :
    prog E (result Er B) :=
  prog_bind p (fun r => match r with Ok a => f a | Err e => Ret (Err e) end).

Notation "x ⟵? p ; k" := (try_bind p (fun x => k))
  (at level 20, p at level 100, k at level 200, only parsing) : stdpp_scope.

(** *** Loops over lists *)

Fixpoint for_each {E A} (l : list A) (body : A -> prog E unit) : prog E unit :=
  match l with
  | [] => Ret tt
  | x :: r => prog_bind (body x) (fun _ => for_each r body)
  end.

(** A loop with an accumulator whose body may leave with [Err]. *)
Fixpoint try_fold {E Er A S} (body : A -> S -> prog E (result Er S)) (l : list A) (s : S) :
    prog E (result Er S) :=
  match l with
  | [] => Ret (Ok s)
  | x :: r => try_bind (body x s) (try_fold body r)
  end.

(** ** Sequential execution *)

Section run.
Context {E : Type -> Type} {S : Type} (h : forall X, E X -> S -> X * S).

Fixpoint run {A} (p : prog E A) (s : S) : A * S :=
  match p with
  | Ret a => (a, s)
  | Vis e k => let '(x, s') := h _ e s in run (k x) s'
  end.

Lemma run_bind {A B} (p : prog E A) (f : A -> prog E B) s :
  run (prog_bind p f) s = let '(a, s') := run p s in run (f a) s'.
Proof.
  revert s. induction p as [a|X e k IH]; intros s; simpl; [done|].
  destruct (h X e s). apply IH.
Qed.

Lemma run_try_bind {Er A B} (p : prog E (result Er A)) (f : A -> prog E (result Er B)) s :
  run (try_bind p f) s =
    match run p s with (Ok a, s') => run (f a) s' | (Err e, s') => (Err e, s') end.
Proof. unfold try_bind. rewrite run_bind. by destruct (run p s) as [[]]. Qed.
End run.

(** ** Monitors

    A monitor watches the effects of one program: a state, a condition every
    effect must meet in the current state, and the state after the effect has
    returned.  [wp m st p Q]: started in [st], [p] only performs effects the
    monitor allows, whatever the effects return, and ends in a state and value
    with [Q]. *)

Record monitor (E : Type -> Type) : Type := {
  mstate : Type;
  mallow : forall X, mstate -> E X -> Prop;
  mnext : forall X, mstate -> E X -> X -> mstate
}.
Arguments mstate {E} m.
Arguments mallow {E} m {X} st e.
Arguments mnext {E} m {X} st e x.

Section wp.
Context {E : Type -> Type} (m : monitor E).

Fixpoint wp {A} (st : mstate m) (p : prog E A) (Q : mstate m -> A -> Prop) : Prop :=
  match p with
  | Ret a => Q st a
  | Vis e k => mallow m st e /\ forall x, wp (mnext m st e x) (k x) Q
  end.

Lemma wp_mono {A} st (p : prog E A) (Q Q' : mstate m -> A -> Prop) :
  wp st p Q -> (forall st' a, Q st' a -> Q' st' a) -> wp st p Q'.
Proof. revert st. induction p as [|X e k IH]; simpl; [auto|]. intros st [H1 H2] HQ. eauto. Qed.

Lemma wp_bind {A B} st (p : prog E A) (f : A -> prog E B) Q :
  wp st p (fun st' a => wp st' (f a) Q) -> wp st (prog_bind p f) Q.
Proof. revert st. induction p as [|X e k IH]; simpl; [auto|]. intros st [H1 H2]. eauto. Qed.

Lemma wp_for_each {A} (l : list A) body (I : mstate m -> Prop) st :
  I st -> (forall st x, I st -> wp st (body x) (fun st' _ => I st')) ->
  wp st (for_each l body) (fun st' _ => I st').
Proof.
  intros HI Hb. revert st HI. induction l as [|x l IH]; intros st HI; simpl; [done|].
  apply wp_bind. eapply wp_mono; [by apply Hb|]. simpl. auto.
Qed.
End wp.

(** ** Effects a program is confined to *)

Section only.
Context {E : Type -> Type} (P : forall X, E X -> Prop).

(** Whatever its effects return, [p] performs only effects in [P]. *)
Fixpoint only {A} (p : prog E A) : Prop :=
  match p with
  | Ret _ => True
  | Vis e k => P _ e /\ forall x, only (k x)
  end.

Lemma only_bind {A B} (p : prog E A) (f : A -> prog E B) :
  only p -> (forall a, only (f a)) -> only (prog_bind p f).
Proof. induction p as [|X e k IH]; simpl; [auto|]. intros [? ?] ?. eauto. Qed.

Lemma only_for_each {A} (l : list A) body : (forall x, only (body x)) -> only (for_each l body).
Proof. intros Hb. induction l; simpl; [done|]. apply only_bind; auto. Qed.

Lemma only_try_fold {Er A S} (body : A -> S -> prog E (result Er S)) l s :
  (forall x s, only (body x s)) -> only (try_fold body l s).
Proof.
  intros Hb. revert s. induction l; intros s; simpl; [done|].
  apply only_bind; [auto|]. intros []; simpl; auto.
Qed.

(** A monitor that ignores the effects in [P] is left as it was. *)
Lemma wp_only {A} (m : monitor E) st (p : prog E A) :
  (forall X (e : E X), P X e -> mallow m st e /\ forall x, mnext m st e x = st) ->
  only p -> wp m st p (fun st' _ => st' = st).
Proof.
  intros Hm. induction p as [|X e k IH]; simpl; [done|]. intros [He Hk].
  destruct (Hm X e He) as [Ha Hn]. split; [done|]. intros x. rewrite Hn. auto.
Qed.

(** The state outside the reach of [P]. *)
Lemma run_only {A S O} (h : forall X, E X -> S -> X * S) (obs : S -> O) (p : prog E A) s :
  (forall X (e : E X) s, P X e -> obs (h X e s).2 = obs s) ->
  only p -> obs (run h p s).2 = obs s.
Proof.
  intros Hh. revert s. induction p as [|X e k IH]; intros s; simpl; [done|]. intros [He Hk].
  destruct (h X e s) as [x s'] eqn:Hs. rewrite IH; [|auto]. rewrite <- (Hh X e s He). by rewrite Hs.
Qed.
End only.

(** Whatever its effects return, [p] ends with a value in [Q]. *)
Fixpoint returns {E A} (Q : A -> Prop) (p : prog E A) : Prop :=
  match p with
  | Ret a => Q a
  | Vis e k => forall x, returns Q (k x)
  end.

Lemma returns_bind {E A B} (Q : B -> Prop) (p : prog E A) (f : A -> prog E B) :
  (forall a, returns Q (f a)) -> returns Q (prog_bind p f).
Proof. intros Hf. induction p as [a|X e k IH]; simpl; auto. Qed.

Lemma returns_run {E A S} (Q : A -> Prop) (h : forall X, E X -> S -> X * S) (p : prog E A) s :
  returns Q p -> Q (run h p s).1.
Proof.
  revert s. induction p as [a|X e k IH]; intros s; simpl; [done|]. intros Hp. destruct (h X e s). auto.
Qed.

Lemma only_weaken {E A} (P Q : forall X, E X -> Prop) (p : prog E A) :
  (forall X (e : E X), P X e -> Q X e) -> only P p -> only Q p.
Proof. intros HPQ. induction p as [|X e k IH]; simpl; [done|]. intros []. eauto. Qed.

(** ** Pools of interleaved programs *)

(** An executed effect with the value it returned. *)
Record event (E : Type -> Type) : Type := Ev { ev_type : Type; ev_eff : E ev_type; ev_ret : ev_type }.
Arguments Ev {E ev_type} ev_eff ev_ret.
Arguments ev_type {E} e.
Arguments ev_eff {E} e.
Arguments ev_ret {E} e.

(** What a sequential run does, oldest first. *)
Fixpoint run_log {E S A} (h : forall X, E X -> S -> X * S) (p : prog E A) (s : S) : list (event E) :=
  match p with
  | Ret _ => []
  | Vis e k => let '(x, s') := h _ e s in Ev e x :: run_log h (k x) s'
  end.

Lemma run_log_bind {E S A B} (h : forall X, E X -> S -> X * S) (p : prog E A) (f : A -> prog E B) s :
  run_log h (prog_bind p f) s = run_log h p s ++ let '(a, s') := run h p s in run_log h (f a) s'.
Proof.
  revert s. induction p as [a|X e k IH]; intros s; simpl; [done|].
  destruct (h X e s) as [x s']. simpl. by rewrite IH.
Qed.

Lemma run_log_try_bind {E S Er A B} (h : forall X, E X -> S -> X * S)
    (p : prog E (result Er A)) (f : A -> prog E (result Er B)) s :
  run_log h (try_bind p f) s =
    run_log h p s ++ match run h p s with (Ok a, s') => run_log h (f a) s' | (Err _, _) => [] end.
Proof. unfold try_bind. rewrite run_log_bind. by destruct (run h p s) as [[]]. Qed.

(** [L] names the kinds of task that can be started. *)
Record config (E : Type -> Type) (L A S : Type) : Type := Config {
  tasks : list L;
  (** what is left of each task *)
  pool : list (prog E A);
  shared : S;
  (** newest first, each event with the index of its task *)
  trace : list (nat * event E)
}.
Arguments Config {E L A S} tasks pool shared trace.
Arguments tasks {E L A S} c.
Arguments pool {E L A S} c.
Arguments shared {E L A S} c.
Arguments trace {E L A S} c.

(** The events of task [i], oldest first. *)
Definition events_of {E} (i : nat) (tr : list (nat * event E)) : list (event E) :=
  rev (omap (fun '(j, ev) => if Nat.eqb j i then Some ev else None) tr).

(** A monitor run over a list of executed events. *)
Fixpoint accepts {E} (m : monitor E) (st : mstate m) (evs : list (event E)) : Prop :=
  match evs with
  | [] => True
  | ev :: r => mallow m st (ev_eff ev) /\ accepts m (mnext m st (ev_eff ev) (ev_ret ev)) r
  end.

Definition mon_after {E} (m : monitor E) (st : mstate m) (evs : list (event E)) : mstate m :=
  foldl (fun st ev => mnext m st (ev_eff ev) (ev_ret ev)) st evs.

Lemma mon_after_app {E} (m : monitor E) st l1 l2 :
  mon_after m st (l1 ++ l2) = mon_after m (mon_after m st l1) l2.
Proof. unfold mon_after. apply foldl_app. Qed.

Lemma accepts_app {E} (m : monitor E) st l1 l2 :
  accepts m st (l1 ++ l2) <-> accepts m st l1 /\ accepts m (mon_after m st l1) l2.
Proof. revert st. induction l1 as [|ev l1 IH]; intros st; simpl; [tauto|]. rewrite IH. tauto. Qed.

Lemma events_of_cons {E} i j (ev : event E) tr :
  events_of i ((j, ev) :: tr) = events_of i tr ++ (if Nat.eqb j i then [ev] else []).
Proof. unfold events_of. simpl. destruct (Nat.eqb j i); simpl; [done|]. by rewrite app_nil_r. Qed.

Lemma events_of_ge {E} i (tr : list (nat * event E)) :
  Forall (fun p => p.1 <> i) tr -> events_of i tr = [].
Proof.
  induction 1 as [|[j ev] tr Hj _ IH]; [done|]. rewrite events_of_cons, IH. simpl in *.
  by destruct (Nat.eqb_spec j i).
Qed.

Lemma events_of_elem {E} i (ev : event E) tr : In (i, ev) tr -> In ev (events_of i tr).
Proof.
  induction tr as [|[j ev'] tr IH]; [done|]. rewrite events_of_cons, in_app_iff. intros [[= -> ->]|H].
  - right. rewrite Nat.eqb_refl. by left.
  - left. auto.
Qed.

(** An event of a task, found in the trace: what precedes it among the
    task's events is what precedes it in the trace. *)
Lemma events_of_split {E} i (tr : list (nat * event E)) l1 ev l2 :
  events_of i tr = l1 ++ ev :: l2 ->
  exists tr1 tr2, tr = tr1 ++ (i, ev) :: tr2 /\ events_of i tr2 = l1.
Proof.
  revert l2. induction tr as [|[j ev'] tr IH]; intros l2.
  { destruct l1; discriminate. }
  rewrite events_of_cons. destruct (Nat.eqb_spec j i) as [->|Hne].
  - destruct l2 as [|z l2 _] using rev_ind.
    + intros [<- [= ->]]%app_inj_tail_iff. by exists [], tr.
    + rewrite app_comm_cons, app_assoc. intros [H _]%app_inj_tail_iff.
      destruct (IH _ H) as (tr1 & tr2 & -> & <-). by exists ((i, ev') :: tr1), tr2.
  - rewrite app_nil_r. intros H. destruct (IH _ H) as (tr1 & tr2 & -> & <-).
    by exists ((j, ev') :: tr1), tr2.
Qed.

Section pool.
Context {E : Type -> Type} {L A S : Type}.
Context (h : forall X, E X -> S -> X * S) (code : L -> prog E A) (env : S -> S -> Prop).

(** A task of the pool performs its next effect; a new task starts; or the
    environment (the clock, the cluster) moves. *)
Inductive pool_step : config E L A S -> config E L A S -> Prop :=
| step_run i X (e : E X) k ts ps s s' x tr :
    ps !! i = Some (Vis e k) ->
    h X e s = (x, s') ->
    pool_step (Config ts ps s tr) (Config ts (<[i := k x]> ps) s' ((i, Ev e x) :: tr))
| step_spawn l ts ps s tr :
    pool_step (Config ts ps s tr) (Config (ts ++ [l]) (ps ++ [code l]) s tr)
| step_env ts ps s s' tr :
    env s s' -> pool_step (Config ts ps s tr) (Config ts ps s' tr).

Definition reachable (s0 : S) : config E L A S -> Prop := rtc pool_step (Config [] [] s0 []).

(** Invariants of the shared state and the trace. *)
Lemma reachable_ind (P : config E L A S -> Prop) s0 c :
  P (Config [] [] s0 []) ->
  (forall c c', P c -> pool_step c c' -> P c') ->
  reachable s0 c -> P c.
Proof. intros H0 Hs Hr. unfold reachable in Hr. revert H0. induction Hr; eauto. Qed.

(** A schedule played out: start a task, or let task [i] perform an effect. *)
Fixpoint exec (sch : list (L + nat)) (c : config E L A S) : config E L A S :=
  match sch with
  | [] => c
  | inl l :: r => exec r (Config (tasks c ++ [l]) (pool c ++ [code l]) (shared c) (trace c))
  | inr i :: r =>
      match pool c !! i with
      | Some (Vis e k) =>
          let '(x, s') := h _ e (shared c) in
          exec r (Config (tasks c) (<[i := k x]> (pool c)) s' ((i, Ev e x) :: trace c))
      | _ => exec r c
      end
  end.

Lemma exec_reachable s0 sch : reachable s0 (exec sch (Config [] [] s0 [])).
Proof.
  unfold reachable. generalize (Config (L:=L) (A:=A) (E:=E) [] [] s0 []).
  induction sch as [|[l|i] sch IH]; intros [ts ps s tr]; simpl; [done|..].
  - eapply rtc_l; [apply step_spawn|apply IH].
  - destruct (ps !! i) as [[a|X e k]|] eqn:Hi; [apply IH| |apply IH].
    destruct (h X e s) as [x s'] eqn:Hh. eapply rtc_l; [eapply step_run; eauto|apply IH].
Qed.

(** Invariant of a monitored pool: what each task has done was allowed, and
    what is left of it stays allowed. *)
Context (m : L -> monitor E) (st0 : forall l, mstate (m l)).

Definition monitored (c : config E L A S) : Prop :=
  (forall i l p, tasks c !! i = Some l -> pool c !! i = Some p ->
     accepts (m l) (st0 l) (events_of i (trace c)) /\
     wp (m l) (mon_after (m l) (st0 l) (events_of i (trace c))) p (fun _ _ => True)) /\
  length (tasks c) = length (pool c) /\
  Forall (fun p => (p.1 < length (pool c))%nat) (trace c).

Lemma monitored_step c c' :
  (forall l, wp (m l) (st0 l) (code l) (fun _ _ => True)) ->
  monitored c -> pool_step c c' -> monitored c'.
Proof.
  intros Hsp [Hc [Hlen Htr]] Hstep.
  inversion Hstep as [i X e k ts ps s s' x tr Hi Hh|l ts ps s tr|ts ps s s' tr He];
    subst; unfold monitored in *; simpl in *.
  - rewrite length_insert. split; [|split; [done|constructor; [|done]; eapply lookup_lt_Some; eauto]].
    intros j l q Ht Hj. rewrite events_of_cons. destruct (Nat.eqb_spec i j) as [->|Hne].
    + rewrite list_lookup_insert_eq in Hj by (eapply lookup_lt_Some; eauto).
      injection Hj as <-. destruct (Hc j l _ Ht Hi) as [Hacc [Hal Hwp]].
      rewrite accepts_app, mon_after_app. simpl. auto.
    + rewrite list_lookup_insert_ne in Hj by done. rewrite app_nil_r. by apply Hc.
  - rewrite !length_app. simpl. split; [|split; [lia|eapply Forall_impl; [|exact Htr]; simpl; lia]].
    intros j l' q Ht Hj. apply lookup_app_Some in Hj as [Hj|[Hge Hj]].
    + rewrite lookup_app_l in Ht by (apply lookup_lt_Some in Hj; lia). by apply Hc.
    + apply list_lookup_singleton_Some in Hj as [Hj0 <-].
      rewrite lookup_app_r in Ht by lia.
      replace (j - length ts)%nat with 0%nat in Ht by lia. injection Ht as <-.
      rewrite events_of_ge; [simpl; auto|].
      eapply Forall_impl; [|exact Htr]. intros [] ?; simpl in *. lia.
  - auto.
Qed.

(** Whatever the interleaving, every task of a reachable pool has only
    performed effects its monitor allows. *)
Lemma pool_monitored s0 c :
  (forall l, wp (m l) (st0 l) (code l) (fun _ _ => True)) ->
  reachable s0 c -> monitored c.
Proof.
  intros Hsp. apply reachable_ind; [|eauto using monitored_step].
  split; [done|]. split; [done|constructor].
Qed.

Lemma pool_accepts s0 c i l :
  (forall l, wp (m l) (st0 l) (code l) (fun _ _ => True)) ->
  reachable s0 c -> tasks c !! i = Some l ->
  accepts (m l) (st0 l) (events_of i (trace c)).
Proof.
  intros Hsp Hr Hl. destruct (pool_monitored s0 c Hsp Hr) as [Hc [Hlen _]].
  destruct (lookup_lt_is_Some_2 (pool c) i) as [p Hp].
  { rewrite <- Hlen. by eapply lookup_lt_Some. }
  by eapply Hc.
Qed.

(** Every event belongs to a task that was started. *)
Lemma trace_task s0 c i ev :
  (forall l, wp (m l) (st0 l) (code l) (fun _ _ => True)) ->
  reachable s0 c -> In (i, ev) (trace c) -> exists l, tasks c !! i = Some l.
Proof.
  intros Hsp Hr Hin. destruct (pool_monitored s0 c Hsp Hr) as [_ [Hlen Hf]].
  rewrite List.Forall_forall in Hf. specialize (Hf _ Hin). simpl in Hf.
  apply lookup_lt_is_Some_2. lia.
Qed.
End pool.

(** Tasks confined to [P] leave only effects of [P] in the trace. *)
Definition confine {E} (P : forall X, E X -> Prop) : monitor E :=
  {| mstate := unit; mallow := fun X _ e => P X e; mnext := fun _ _ _ _ => tt |}.

Lemma only_confine {E A} (P : forall X, E X -> Prop) (p : prog E A) :
  only P p -> wp (confine P) tt p (fun _ _ => True).
Proof. induction p as [|X e k IH]; simpl; [done|]. intros []. eauto. Qed.

Lemma pool_confined {E L A S} h (code : L -> prog E A) (env : S -> S -> Prop) (P : forall X, E X -> Prop)
    (s0 : S) c :
  (forall l, only P (code l)) -> reachable h code env s0 c ->
  Forall (fun p => P _ (ev_eff p.2)) (trace c).
Proof.
  intros Hc Hr.
  assert (Hw : forall l, wp (confine P) tt (code l) (fun _ _ => True)) by (intros; by apply only_confine).
  apply List.Forall_forall. intros [i ev] Hin. simpl.
  destruct (trace_task h code env (fun _ => confine P) (fun _ => tt) s0 c i ev Hw Hr Hin) as [l Hl].
  pose proof (pool_accepts h code env (fun _ => confine P) (fun _ => tt) s0 c i l Hw Hr Hl) as Hacc.
  apply events_of_elem, in_split in Hin as (l1 & l2 & Heq).
  rewrite Heq, accepts_app in Hacc. by destruct Hacc as [_ [Hal _]].
Qed.
