(* ===== verification/Kube.v ===== *)
(** * The Kubernetes API as the simulator sees it

    The objects of [k8s-openapi] and [kube] with the fields the sources read
    or set, the requests of a [kube::Api], and the interface [KubeServer] of
    the API server: the server is not part of the repository, so every program
    is interpreted against an arbitrary implementation of that interface.  The
    laws a group of theorems relies on are classes of their own
    ([MergeStatusLaw]), and [mem_server] is an executable server that meets
    them. *)

From S2P Require Import Prelude RustStr Json Prog.
Open Scope list_scope.
Open Scope Z_scope.

(** ** Metadata *)

Record OwnerReference : Type := {
  or_api_version : string;
  or_kind : string;
  or_name : string;
  or_uid : string;
  or_controller : option bool;
  or_block_owner_deletion : option bool
}.

Record ObjectMeta : Type := {
  om_name : option string;
  om_generate_name : option string;
  om_namespace : option string;
  om_labels : option (gmap string string);
  om_annotations : option (gmap string string);
  om_uid : option string;
  om_generation : option Z;
  om_owner_references : option (list OwnerReference)
}.

#[global] Instance owner_reference_eq_dec : EqDecision OwnerReference.
Proof. solve_decision. Defined.
#[global] Instance object_meta_eq_dec : EqDecision ObjectMeta.
Proof. solve_decision. Defined.

Definition default_meta : ObjectMeta := {|
  om_name := None; om_generate_name := None; om_namespace := None; om_labels := None;
  om_annotations := None; om_uid := None; om_generation := None; om_owner_references := None |}.

Definition named (name : string) (ns : option string) : ObjectMeta := {|
  om_name := Some name; om_generate_name := None; om_namespace := ns; om_labels := None;
  om_annotations := None; om_uid := None; om_generation := None; om_owner_references := None |}.

(** [kube::ResourceExt] *)
Class Resource (T : Type) : Type := meta : T -> ObjectMeta.

Definition name_any {T} `{!Resource T} (o : T) : string :=
  match om_name (meta o) with
  | Some n => n
  | None => default "" (om_generate_name (meta o))
  end.
Definition namespace {T} `{!Resource T} (o : T) : option string := om_namespace (meta o).

(** ** Objects *)

(** [DynamicObject]: metadata plus everything else as JSON. *)
Record DynamicObject : Type := Dyn { dyn_metadata : ObjectMeta; data : Value }.
#[global] Instance dynamic_object_eq_dec : EqDecision DynamicObject.
Proof. solve_decision. Defined.
#[global] Instance dyn_resource : Resource DynamicObject := dyn_metadata.

Record Namespace : Type := {
  ns_metadata : ObjectMeta;
  (** [status] and, inside it, [phase] *)
  ns_status : option (option string)
}.
#[global] Instance namespace_eq_dec : EqDecision Namespace.
Proof. solve_decision. Defined.
#[global] Instance ns_resource : Resource Namespace := ns_metadata.

Record NodeAddress : Type := { na_type : string; na_address : string }.
Record Node : Type := {
  node_metadata : ObjectMeta;
  (** [status] and, inside it, [addresses] *)
  node_status : option (option (list NodeAddress))
}.
#[global] Instance node_resource : Resource Node := node_metadata.

Inductive IntOrString : Type := IntPort (n : Z) | StrPort (s : string).
Record ServicePort : Type := {
  sp_name : option string;
  sp_port : Z;
  sp_target_port : option IntOrString;
  sp_protocol : option string
}.
Record ServiceSpec : Type := {
  ss_type : option string;
  ss_cluster_ip : option string;
  ss_selector : option (gmap string string);
  ss_ports : option (list ServicePort)
}.
(** An ingress entry of a load balancer status: its [ip]. *)
Record LoadBalancerIngress : Type := { lbi_ip : option string }.
Record Service : Type := {
  svc_metadata : ObjectMeta;
  svc_spec : option ServiceSpec;
  (** [status], [load_balancer], [ingress] *)
  svc_status : option (option (option (list LoadBalancerIngress)))
}.
#[global] Instance svc_resource : Resource Service := svc_metadata.

Record EndpointPort : Type := { ep_port_name : option string; ep_port : Z; ep_protocol : option string }.
Record EndpointSubset : Type := {
  es_addresses : option (list string);
  es_ports : option (list EndpointPort)
}.
Record Endpoints : Type := { ep_metadata : ObjectMeta; ep_subsets : option (list EndpointSubset) }.
#[global] Instance ep_resource : Resource Endpoints := ep_metadata.

Record Pod : Type := { pod_metadata : ObjectMeta }.
#[global] Instance pod_resource : Resource Pod := pod_metadata.

Record ConfigMap : Type := { cm_metadata : ObjectMeta; cm_data : option (gmap string string) }.
#[global] Instance cm_resource : Resource ConfigMap := cm_metadata.

Record Secret : Type := {
  sec_metadata : ObjectMeta;
  sec_type : option string;
  (** decoded bytes *)
  sec_data : option (gmap string string);
  sec_string_data : option (gmap string string)
}.
#[global] Instance sec_resource : Resource Secret := sec_metadata.

(** A pod template: its metadata as JSON and its optional pod spec. *)
Record PodTemplateSpec : Type := { pt_metadata : option Value; pt_spec : option Value }.
Definition default_pod_template : PodTemplateSpec := {| pt_metadata := None; pt_spec := None |}.
(** A job spec: the pod template, and the other fields as JSON. *)
Record JobSpec : Type := { js_template : PodTemplateSpec; js_rest : list (string * Value) }.
Record JobStatus : Type := { jst_succeeded : option Z; jst_failed : option Z }.
Record Job : Type := {
  job_metadata : ObjectMeta;
  job_spec : option JobSpec;
  job_status : option JobStatus
}.
#[global] Instance job_resource : Resource Job := job_metadata.

(** A deployment, with the fields of its pod template that are set. *)
Record ContainerPort : Type := {
  cp_container_port : Z;
  cp_name : option string;
  cp_protocol : option string
}.
Record VolumeMount : Type := { vm_name : string; vm_mount_path : string; vm_read_only : option bool }.
Record Container : Type := {
  ct_name : string;
  ct_image : option string;
  ct_args : option (list string);
  ct_ports : option (list ContainerPort);
  ct_volume_mounts : option (list VolumeMount)
}.
Record SecretVolumeSource : Type := { sv_secret_name : option string; sv_optional : option bool }.
Record Volume : Type := {
  vol_name : string;
  (** the [name] of a config map source *)
  vol_config_map : option string;
  vol_secret : option SecretVolumeSource
}.
Record PodSpec : Type := { pod_containers : list Container; pod_volumes : option (list Volume) }.
Record DeploymentSpec : Type := {
  ds_replicas : option Z;
  (** [match_labels] of the selector *)
  ds_selector : option (gmap string string);
  (** labels and spec of the pod template *)
  ds_template_labels : option (gmap string string);
  ds_template_spec : option PodSpec
}.
Record Deployment : Type := { dep_metadata : ObjectMeta; dep_spec : option DeploymentSpec }.
#[global] Instance dep_resource : Resource Deployment := dep_metadata.

(** A webhook of either kind of webhook configuration; [service] references are
    not used by the sources that build one. *)
Record RuleWithOperations : Type := {
  ro_api_groups : option (list string);
  ro_api_versions : option (list string);
  ro_operations : option (list string);
  ro_resources : option (list string);
  ro_scope : option string
}.
Record LabelSelectorRequirement : Type := {
  lsr_key : string;
  lsr_operator : string;
  lsr_values : option (list string)
}.
Record Webhook : Type := {
  wh_name : string;
  wh_url : option string;
  (** decoded bytes *)
  wh_ca_bundle : option string;
  wh_rules : option (list RuleWithOperations);
  wh_failure_policy : option string;
  wh_side_effects : string;
  wh_admission_review_versions : list string;
  (** the [match_expressions] of the namespace selector *)
  wh_namespace_selector : option (list LabelSelectorRequirement);
  wh_reinvocation_policy : option string;
  wh_timeout_seconds : option Z
}.
Record WebhookConfiguration : Type := {
  wc_metadata : ObjectMeta;
  wc_webhooks : option (list Webhook)
}.
#[global] Instance wc_resource : Resource WebhookConfiguration := wc_metadata.

(** ** Requests *)

Record ApiResource : Type := {
  ar_group : string;
  ar_version : string;
  ar_api_version : string;
  ar_kind : string;
  ar_plural : string
}.

Inductive Kind : Type :=
| KDynamic (ar : ApiResource)
| KNamespace
| KNode
| KService
| KEndpoints
| KConfigMap
| KSecret
| KJob
| KDeployment
| KPod
| KMutatingWebhook
| KValidatingWebhook.

Definition Obj (k : Kind) : Type :=
  match k with
  | KDynamic _ => DynamicObject
  | KNamespace => Namespace
  | KNode => Node
  | KService => Service
  | KEndpoints => Endpoints
  | KConfigMap => ConfigMap
  | KSecret => Secret
  | KJob => Job
  | KDeployment => Deployment
  | KPod => Pod
  | KMutatingWebhook | KValidatingWebhook => WebhookConfiguration
  end.

(** [Api::all] and [Api::namespaced] *)
Inductive Scope : Type := All | Namespaced (ns : string).

(** [kube::Error]: an answer of the API server with its status code, or a
    failure below it (transport, decoding). *)
Inductive KubeError : Type := ApiError (code : Z) | TransportError.

(** [PatchParams::apply(manager)] or [PatchParams::default()] *)
Definition PatchParams : Type := option string.

Inductive Patch (O : Type) : Type :=
| Merge (v : Value)
| Apply (v : Value)
| ApplyObj (o : O)
| JsonPatch (ops : list Value).
Arguments Merge {O} v.
Arguments Apply {O} v.
Arguments ApplyObj {O} o.
Arguments JsonPatch {O} ops.

Abbreviation KRes A := (result KubeError A).

Inductive kubeE : Type -> Type :=
| KGet (k : Kind) (sc : Scope) (name : string) : kubeE (KRes (Obj k))
| KGetOpt (k : Kind) (sc : Scope) (name : string) : kubeE (KRes (option (Obj k)))
| KList (k : Kind) (sc : Scope) (labels : option string) : kubeE (KRes (list (Obj k)))
| KCreate (k : Kind) (sc : Scope) (o : Obj k) : kubeE (KRes (Obj k))
| KDelete (k : Kind) (sc : Scope) (name : string) : kubeE (KRes unit)
| KPatch (k : Kind) (sc : Scope) (name : string) (pp : PatchParams) (p : Patch (Obj k)) :
    kubeE (KRes (Obj k))
| KPatchStatus (k : Kind) (sc : Scope) (name : string) (pp : PatchParams) (p : Patch (Obj k)) :
    kubeE (KRes (Obj k)).

(** [chrono::Utc::now().to_rfc3339()] *)
Inductive clockE : Type -> Type :=
| UtcNowRfc3339 : clockE string.

(** What a controller of the simulator does. *)
Abbreviation ctrlE := (kubeE +' clockE).

(** [kube::runtime::controller::Action]: wait for the next change, or run
    again after that many seconds. *)
Inductive Action : Type := AwaitChange | Requeue (secs : Z).

(** ** The API server *)

Class KubeServer (W : Type) : Type := {
  kube_step : forall X, kubeE X -> W -> X * W;
  utc_now : W -> string * W
}.
Arguments kube_step {W _ X} e w.

Definition ctrl_step {W} `{!KubeServer W} X (e : ctrlE X) : W -> X * W :=
  match e with
  | inlE ke => kube_step ke
  | inrE ce => match ce in clockE X return W -> X * W with UtcNowRfc3339 => utc_now end
  end.

Definition run_ctrl {W} `{!KubeServer W} {A} (p : prog ctrlE A) (w : W) : A * W := run ctrl_step p w.

(** ** What the convergence theorems rely on

    Without other writers, a successful merge patch of an object's status
    stores the RFC 7396 merge of the object and the patch, and leaves its
    metadata alone; reading the clock changes no object. *)

Class MergeStatusLaw (W : Type) `{!KubeServer W} : Type := {
  dyn_lookup : W -> ApiResource -> Scope -> string -> option DynamicObject;
  dyn_lookup_now w ar sc name :
    dyn_lookup (utc_now w).2 ar sc name = dyn_lookup w ar sc name;
  dyn_patch_status w ar sc name pp st o o' w' :
    dyn_lookup w ar sc name = Some o ->
    kube_step (KPatchStatus (KDynamic ar) sc name pp (Merge (VObject [("status", st)]))) w
      = (Ok o', w') ->
    dyn_lookup w' ar sc name =
      Some (Dyn (dyn_metadata o) (merge_patch (VObject [("status", st)]) (data o)))
}.
Arguments MergeStatusLaw W {_}.

(** A merge patch of metadata sets the annotations it names. *)
Definition patch_annotations (v : Value) : list (string * string) :=
  omap (fun kv => s ← as_str kv.2; Some (kv.1, s))
    (members (index "annotations" (index "metadata" v))).

Definition annotate (v : Value) (m : ObjectMeta) : ObjectMeta := {|
  om_name := om_name m; om_generate_name := om_generate_name m; om_namespace := om_namespace m;
  om_labels := om_labels m;
  om_annotations :=
    Some (foldr (fun kv a => <[kv.1 := kv.2]> a) (default ∅ (om_annotations m)) (patch_annotations v));
  om_uid := om_uid m; om_generation := om_generation m;
  om_owner_references := om_owner_references m |}.

Class AnnotateNamespaceLaw (W : Type) `{!KubeServer W} : Type := {
  ns_lookup : W -> string -> option Namespace;
  ns_patch w name pp v o o' w' :
    ns_lookup w name = Some o ->
    kube_step (KPatch KNamespace All name pp (Merge v)) w = (Ok o', w') ->
    ns_lookup w' name = Some {| ns_metadata := annotate v (ns_metadata o); ns_status := ns_status o |}
}.
Arguments AnnotateNamespaceLaw W {_}.

(** Namespaces, without other writers: a read answers with the stored object
    and changes none; a creation that succeeds has stored an object with the
    labels sent, to which the server may have added others, a uid and a
    status; one that conflicts has found one. *)
Class NamespaceLaw (W : Type) `{!KubeServer W} : Type := {
  namespace_at : W -> string -> option Namespace;
  namespace_get_opt w name o w' :
    kube_step (KGetOpt KNamespace All name) w = (Ok o, w') ->
    o = namespace_at w name /\ forall n, namespace_at w' n = namespace_at w n;
  namespace_create w (o : Namespace) o' w' :
    kube_step (KCreate KNamespace All o) w = (Ok o', w') ->
    exists ns, namespace_at w' (name_any o) = Some ns /\
      default ∅ (om_labels (ns_metadata o)) ⊆ default ∅ (om_labels (ns_metadata ns));
  namespace_conflict w (o : Namespace) w' :
    kube_step (KCreate KNamespace All o) w = (Err (ApiError 409), w') ->
    is_Some (namespace_at w' (name_any o))
}.
Arguments NamespaceLaw W {_}.

(** A JSON patch that adds CA bundles to webhooks: the operation's path names
    the webhook by its position, its value is the bundle in base64. *)
Definition bundle_path (i : nat) : string :=
  "/webhooks/" +:+ pretty (Z.of_nat i) +:+ "/clientConfig/caBundle".

Definition set_ca_bundle (b : string) (wh : Webhook) : Webhook := {|
  wh_name := wh_name wh; wh_url := wh_url wh; wh_ca_bundle := Some b; wh_rules := wh_rules wh;
  wh_failure_policy := wh_failure_policy wh; wh_side_effects := wh_side_effects wh;
  wh_admission_review_versions := wh_admission_review_versions wh;
  wh_namespace_selector := wh_namespace_selector wh;
  wh_reinvocation_policy := wh_reinvocation_policy wh; wh_timeout_seconds := wh_timeout_seconds wh |}.

Definition apply_bundle_op (decode : string -> option string) (op : Value) (whs : list Webhook) :
    option (list Webhook) :=
  path ← get_str "path" op;
  value ← get_str "value" op;
  b ← decode value;
  i ← List.find (fun i => String.eqb path (bundle_path i)) (seq 0 (length whs));
  Some (alter (set_ca_bundle b) i whs).

Fixpoint apply_bundle_ops (decode : string -> option string) (ops : list Value) (whs : list Webhook) :
    option (list Webhook) :=
  match ops with
  | [] => Some whs
  | op :: r => whs' ← apply_bundle_op decode op whs; apply_bundle_ops decode r whs'
  end.

(** ** An executable in-memory server *)

Record MemWorld : Type := Mem {
  (** by plural and group of the resource, namespace, name *)
  mem_dyn : gmap (string * string * string * string) DynamicObject;
  mem_jobs : gmap (string * string) Job;
  mem_namespaces : gmap string Namespace;
  mem_nodes : list Node;
  mem_secrets : gmap (string * string) Secret;
  (** by mutating or validating, and name *)
  mem_webhooks : gmap (bool * string) WebhookConfiguration;
  mem_time : string
}.

Definition mem_empty : MemWorld := Mem ∅ ∅ ∅ [] ∅ ∅ "1970-01-01T00:00:00+00:00".

Definition scope_key (sc : Scope) : string := match sc with All => "" | Namespaced ns => ns end.
Definition dyn_key (ar : ApiResource) (sc : Scope) (name : string) : string * string * string * string :=
  (ar_plural ar, ar_group ar, scope_key sc, name).

Definition found {A} (o : option A) : KRes A :=
  match o with Some x => Ok x | None => Err (ApiError 404) end.

Definition mem_get (w : MemWorld) (k : Kind) (sc : Scope) (name : string) : option (Obj k) :=
  match k return option (Obj k) with
  | KDynamic ar => mem_dyn w !! dyn_key ar sc name
  | KJob => mem_jobs w !! (scope_key sc, name)
  | KNamespace => mem_namespaces w !! name
  | KSecret => mem_secrets w !! (scope_key sc, name)
  | KMutatingWebhook => mem_webhooks w !! (true, name)
  | KValidatingWebhook => mem_webhooks w !! (false, name)
  | _ => None
  end.

Definition mem_put (w : MemWorld) (k : Kind) (sc : Scope) (name : string) : Obj k -> MemWorld :=
  match k return Obj k -> MemWorld with
  | KDynamic ar => fun o =>
      Mem (<[dyn_key ar sc name := o]> (mem_dyn w)) (mem_jobs w) (mem_namespaces w) (mem_nodes w)
        (mem_secrets w) (mem_webhooks w) (mem_time w)
  | KJob => fun o =>
      Mem (mem_dyn w) (<[(scope_key sc, name) := o]> (mem_jobs w)) (mem_namespaces w) (mem_nodes w)
        (mem_secrets w) (mem_webhooks w) (mem_time w)
  | KNamespace => fun o =>
      Mem (mem_dyn w) (mem_jobs w) (<[name := o]> (mem_namespaces w)) (mem_nodes w)
        (mem_secrets w) (mem_webhooks w) (mem_time w)
  | KSecret => fun o =>
      Mem (mem_dyn w) (mem_jobs w) (mem_namespaces w) (mem_nodes w)
        (<[(scope_key sc, name) := o]> (mem_secrets w)) (mem_webhooks w) (mem_time w)
  | KMutatingWebhook => fun o =>
      Mem (mem_dyn w) (mem_jobs w) (mem_namespaces w) (mem_nodes w) (mem_secrets w)
        (<[(true, name) := o]> (mem_webhooks w)) (mem_time w)
  | KValidatingWebhook => fun o =>
      Mem (mem_dyn w) (mem_jobs w) (mem_namespaces w) (mem_nodes w) (mem_secrets w)
        (<[(false, name) := o]> (mem_webhooks w)) (mem_time w)
  | _ => fun _ => w
  end.

Definition mem_del (w : MemWorld) (k : Kind) (sc : Scope) (name : string) : MemWorld :=
  match k with
  | KDynamic ar =>
      Mem (delete (dyn_key ar sc name) (mem_dyn w)) (mem_jobs w) (mem_namespaces w) (mem_nodes w)
        (mem_secrets w) (mem_webhooks w) (mem_time w)
  | KJob =>
      Mem (mem_dyn w) (delete (scope_key sc, name) (mem_jobs w)) (mem_namespaces w) (mem_nodes w)
        (mem_secrets w) (mem_webhooks w) (mem_time w)
  | KNamespace =>
      Mem (mem_dyn w) (mem_jobs w) (delete name (mem_namespaces w)) (mem_nodes w)
        (mem_secrets w) (mem_webhooks w) (mem_time w)
  | KSecret =>
      Mem (mem_dyn w) (mem_jobs w) (mem_namespaces w) (mem_nodes w)
        (delete (scope_key sc, name) (mem_secrets w)) (mem_webhooks w) (mem_time w)
  | _ => w
  end.

Definition obj_name (k : Kind) : Obj k -> string :=
  match k return Obj k -> string with
  | KDynamic _ => fun o => name_any o
  | KNamespace => fun o => name_any o
  | KNode => fun o => name_any o
  | KService => fun o => name_any o
  | KEndpoints => fun o => name_any o
  | KConfigMap => fun o => name_any o
  | KSecret => fun o => name_any o
  | KJob => fun o => name_any o
  | KDeployment => fun o => name_any o
  | KPod => fun o => name_any o
  | KMutatingWebhook | KValidatingWebhook => fun o => name_any o
  end.

Definition mem_apply (k : Kind) (p : Patch (Obj k)) : option (Obj k) -> option (Obj k) :=
  match k return Patch (Obj k) -> option (Obj k) -> option (Obj k) with
  | KDynamic _ => fun p o =>
      match p with
      | Merge v => o ← o; Some (Dyn (dyn_metadata o) (merge_patch v (data o)))
      | Apply v =>
          match o with
          | Some o => Some (Dyn (dyn_metadata o) (merge_patch v (data o)))
          | None => Some (Dyn default_meta v)
          end
      | ApplyObj x => Some x
      | JsonPatch _ => None
      end
  | KNamespace => fun p o =>
      match p with
      | Merge v => o ← o; Some {| ns_metadata := annotate v (ns_metadata o); ns_status := ns_status o |}
      | _ => None
      end
  | _ => fun _ _ => None
  end p.

Definition mem_patch (k : Kind) (sc : Scope) (name : string) (p : Patch (Obj k)) (w : MemWorld) :
    KRes (Obj k) * MemWorld :=
  match mem_apply k p (mem_get w k sc name) with
  | Some o => (Ok o, mem_put w k sc name o)
  | None => (Err (ApiError 404), w)
  end.

Definition mem_list (w : MemWorld) (k : Kind) : list (Obj k) :=
  match k return list (Obj k) with
  | KNode => mem_nodes w
  | KDynamic ar =>
      (snd <$> map_to_list (mem_dyn w))
  | _ => []
  end.

Definition mem_step X (e : kubeE X) : MemWorld -> X * MemWorld :=
  match e in kubeE X return MemWorld -> X * MemWorld with
  | KGet k sc n => fun w => (found (mem_get w k sc n), w)
  | KGetOpt k sc n => fun w => (Ok (mem_get w k sc n), w)
  | KList k _ _ => fun w => (Ok (mem_list w k), w)
  | KCreate k sc o => fun w =>
      match mem_get w k sc (obj_name k o) with
      | Some _ => (Err (ApiError 409), w)
      | None => (Ok o, mem_put w k sc (obj_name k o) o)
      end
  | KDelete k sc n => fun w =>
      match mem_get w k sc n with
      | Some _ => (Ok tt, mem_del w k sc n)
      | None => (Err (ApiError 404), w)
      end
  | KPatch k sc n _ p => mem_patch k sc n p
  | KPatchStatus k sc n _ p => mem_patch k sc n p
  end.

#[global] Instance mem_server : KubeServer MemWorld := {
  kube_step := mem_step;
  utc_now := fun w => (mem_time w, w)
}.

#[global] Instance mem_merge_status : MergeStatusLaw MemWorld.
Proof.
  refine {| dyn_lookup := fun w ar sc name => mem_dyn w !! dyn_key ar sc name |}.
  - done.
  - intros w ar sc name pp st o o' w' Ho.
    assert (Hg : mem_get w (KDynamic ar) sc name = Some o) by exact Ho.
    unfold kube_step, mem_server, mem_step, mem_patch. rewrite Hg. intros [= <- <-].
    apply lookup_insert_eq.
Defined.

#[global] Instance mem_annotate_namespace : AnnotateNamespaceLaw MemWorld.
Proof.
  refine {| ns_lookup := fun w name => mem_namespaces w !! name |}.
  intros w name pp v o o' w' Ho.
  assert (Hg : mem_get w KNamespace All name = Some o) by exact Ho.
  unfold kube_step, mem_server, mem_step, mem_patch. rewrite Hg. intros [= <- <-].
  apply lookup_insert_eq.
Defined.

#[global] Instance mem_namespaces_law : NamespaceLaw MemWorld.
Proof.
  refine {| namespace_at := fun w name => mem_namespaces w !! name |}; simpl.
  - intros w name o w' [= <- <-]. done.
  - intros w o o' w'. destruct (mem_namespaces w !! name_any o); [done|]. intros [= _ <-].
    exists o. split; [apply lookup_insert_eq|done].
  - intros w o w'. destruct (mem_namespaces w !! name_any o) eqn:Ho; [|done]. intros [= <-]. by rewrite Ho.
Defined.

(** Case analysis on the answer to the request sent in world [w]. *)
Tactic Notation "destruct_kube" constr(w) "as" simple_intropattern(p) "eqn" ":" ident(H) :=
  match goal with
  | |- context [@kube_step ?A ?B ?X ?e w] => destruct (@kube_step A B X e w) as p eqn:H
  end.
