(* ===== verification/Util.v ===== *)
(** * [util.rs]: API resources and the node address *)

From S2P Require Import Prelude RustStr Json Prog Kube.
Open Scope list_scope.
Open Scope Z_scope.

(** ** API resources *)

Definition route_ar : ApiResource := {|
  ar_group := "route.openshift.io"; ar_version := "v1";
  ar_api_version := "route.openshift.io/v1";
  ar_kind := "Route"; ar_plural := "routes" |}.

Definition project_ar : ApiResource := {|
  ar_group := "project.openshift.io"; ar_version := "v1";
  ar_api_version := "project.openshift.io/v1";
  ar_kind := "Project"; ar_plural := "projects" |}.

Definition imagestream_ar : ApiResource := {|
  ar_group := "image.openshift.io"; ar_version := "v1";
  ar_api_version := "image.openshift.io/v1";
  ar_kind := "ImageStream"; ar_plural := "imagestreams" |}.

Definition oauth_client_ar : ApiResource := {|
  ar_group := "oauth.openshift.io"; ar_version := "v1";
  ar_api_version := "oauth.openshift.io/v1";
  ar_kind := "OAuthClient"; ar_plural := "oauthclients" |}.

Definition user_ar : ApiResource := {|
  ar_group := "user.openshift.io"; ar_version := "v1";
  ar_api_version := "user.openshift.io/v1";
  ar_kind := "User"; ar_plural := "users" |}.

Definition identity_ar : ApiResource := {|
  ar_group := "user.openshift.io"; ar_version := "v1";
  ar_api_version := "user.openshift.io/v1";
  ar_kind := "Identity"; ar_plural := "identities" |}.

Definition gateway_class_ar : ApiResource := {|
  ar_group := "gateway.networking.k8s.io"; ar_version := "v1";
  ar_api_version := "gateway.networking.k8s.io/v1";
  ar_kind := "GatewayClass"; ar_plural := "gatewayclasses" |}.

Definition gateway_ar : ApiResource := {|
  ar_group := "gateway.networking.k8s.io"; ar_version := "v1";
  ar_api_version := "gateway.networking.k8s.io/v1";
  ar_kind := "Gateway"; ar_plural := "gateways" |}.

Definition httproute_ar : ApiResource := {|
  ar_group := "gateway.networking.k8s.io"; ar_version := "v1";
  ar_api_version := "gateway.networking.k8s.io/v1";
  ar_kind := "HTTPRoute"; ar_plural := "httproutes" |}.

Definition destination_rule_ar : ApiResource := {|
  ar_group := "networking.istio.io"; ar_version := "v1";
  ar_api_version := "networking.istio.io/v1";
  ar_kind := "DestinationRule"; ar_plural := "destinationrules" |}.

Definition jobset_ar : ApiResource := {|
  ar_group := "jobset.x-k8s.io"; ar_version := "v1alpha2";
  ar_api_version := "jobset.x-k8s.io/v1alpha2";
  ar_kind := "JobSet"; ar_plural := "jobsets" |}.

(** [anyhow::Error]: an error of the client, or a message. *)
Inductive AnyhowError : Type := AnyKube (e : KubeError) | AnyMsg (msg : string).

(** ** Node address *)

(** The loops of [get_node_ip] over the listed nodes and their addresses. *)
Fixpoint first_internal_ip (addrs : list NodeAddress) : option string :=
  match addrs with
  | [] => None
  | a :: r => if String.eqb (na_type a) "InternalIP" then Some (na_address a) else first_internal_ip r
  end.

Fixpoint node_ip_of (nodes : list Node) : option string :=
  match nodes with
  | [] => None
  | n :: r =>
      match node_status n with
      | Some (Some addrs) =>
          match first_internal_ip addrs with
          | Some ip => Some ip
          | None => node_ip_of r
          end
      | _ => node_ip_of r
      end
  end.

Definition get_node_ip {E} `{!Inject kubeE E} : prog E (result AnyhowError string) :=
  r ⟵ trigger (KList KNode All None);
  Ret match r with
       | Err e => Err (AnyKube e)
       | Ok nodes => match node_ip_of nodes with
                     | Some ip => Ok ip
                     | None => Err (AnyMsg "no node with InternalIP found")
                     end
       end.

(** The address found is the first one of type InternalIP, in the order the
    server lists nodes and addresses. *)
Definition all_addresses (nodes : list Node) : list NodeAddress :=
  List.flat_map (fun n => match node_status n with Some (Some l) => l | _ => [] end) nodes.

Lemma first_internal_ip_app a b :
  first_internal_ip (a ++ b) =
    match first_internal_ip a with Some ip => Some ip | None => first_internal_ip b end.
Proof. induction a as [|x a IH]; simpl; [done|]. by destruct (String.eqb _ _). Qed.

Lemma node_ip_of_flat nodes : node_ip_of nodes = first_internal_ip (all_addresses nodes).
Proof.
  induction nodes as [|n nodes IH]; [done|]. unfold all_addresses in *. simpl.
  rewrite first_internal_ip_app, <- IH. clear IH. by destruct (node_status n) as [[]|].
Qed.
