(* ===== verification/Crates.v ===== *)
(** * Third-party crates

    The functions of the crates the simulator calls, as parameters of the
    model: [base64], [ring], [url], [jsonwebtoken], [serde_json], [serde_yaml]
    [http] and [reqwest].  No definition of these functions is
    assumed; a theorem that needs a documented fact about one of them states it
    as a hypothesis.  [sample_crates] instantiates every parameter with a
    concrete function, for the witnesses. *)

From S2P Require Import Prelude RustStr Json.
Open Scope list_scope.
Open Scope Z_scope.

(** [base64]: the engines [STANDARD] and [URL_SAFE_NO_PAD]. *)
Class Base64 : Type := {
  b64_std_encode : string -> string;
  b64_std_decode : string -> option string;
  b64_url_encode : string -> string;
  b64_url_decode : string -> option string
}.

(** [ring::digest]: SHA-256. *)
Class Ring : Type := { sha256 : string -> string }.

(** [url::Url] and [url::form_urlencoded]. *)
Class UrlCrate : Type := {
  Url : Type;
  url_parse : string -> option Url;
  url_as_str : Url -> string;
  url_append_pair : Url -> string -> string -> Url;
  url_scheme : Url -> string;
  url_host_str : Url -> option string;
  url_port : Url -> option Z;
  url_path : Url -> string;
  url_query : Url -> option string;
  url_set_path : Url -> string -> Url;
  url_set_query : Url -> option string -> Url;
  form_urlencoded_parse : string -> list (string * string)
}.

(** [jsonwebtoken]: RS256 signing with a key id. *)
Class JsonWebToken : Type := {
  EncodingKey : Type;
  DecodingKey : Type;
  from_rsa_pem : string -> option EncodingKey;
  jwt_encode : string -> Value -> EncodingKey -> option string;
  from_rsa_components : string -> string -> option DecodingKey
}.

(** [http::HeaderValue::to_str], and [reqwest::Response::text], which decodes
    the body by the charset of the headers. *)
Class HttpCrate : Type := {
  header_to_str : string -> option string;
  response_text : list (string * string) -> string -> string
}.

Class Crates : Type := {
  crates_json :: SerdeJson;
  crates_base64 :: Base64;
  crates_ring :: Ring;
  crates_url :: UrlCrate;
  crates_jwt :: JsonWebToken;
  crates_http :: HttpCrate
}.

(** ** Sample instances, for witnesses only *)

Module Sample.

(** Compact printing, without escapes and with doubles printed by their bits. *)
Fixpoint print (v : Value) : string :=
  match v with
  | Null => "null"
  | VBool b => if b then "true" else "false"
  | VNumber (PosInt n) | VNumber (NegInt n) | VNumber (Float n) => pretty n
  | VString s => dq "'" +:+ s +:+ dq "'"
  | VArray l => "[" +:+ str_join "," (print <$> l) +:+ "]"
  | VObject m =>
      "{" +:+ str_join "," ((fun kv => dq "'" +:+ kv.1 +:+ dq "':" +:+ print kv.2) <$> m) +:+ "}"
  end.

(** A reader for flat objects of strings, enough for token payloads. *)
Fixpoint split_all (fuel : nat) (c : ascii) (s : string) : list string :=
  match fuel with
  | O => [s]
  | S f => match split_once c s with
           | Some (a, b) => a :: split_all f c b
           | None => [s]
           end
  end.

Definition unquote (s : string) : string :=
  match strip_prefix (dq "'") s with
  | Some r => split_first dquote r
  | None => s
  end.

Definition read_field (s : string) : option (string * Value) :=
  kv ← split_once ":"%char s;
  Some (unquote kv.1, VString (unquote kv.2)).

Definition read_flat (s : string) : option Value :=
  inner ← strip_prefix "{" s;
  Some (VObject (omap read_field (split_all 64 ","%char (split_first "}"%char inner)))).

Definition form_parse (s : string) : list (string * string) :=
  omap (fun kv => if is_empty kv then None
                  else Some (match split_once "="%char kv with Some p => p | None => (kv, "") end))
    (split_all 64 "&"%char s).

Definition append_pair (u k v : string) : string :=
  u +:+ (if char_in "?"%char u then "&" else "?") +:+ k +:+ "=" +:+ v.

End Sample.

Definition sample_json : SerdeJson :=
  {| json_to_string := Sample.print; json_from_str := Sample.read_flat |}.
Definition sample_base64 : Base64 :=
  {| b64_std_encode := id; b64_std_decode := Some; b64_url_encode := id; b64_url_decode := Some |}.
Definition sample_ring : Ring := {| sha256 := str_rev |}.
Definition sample_url : UrlCrate := {|
  Url := string;
  url_parse := fun s => if starts_with "http" s then Some s else None;
  url_as_str := id;
  url_append_pair := Sample.append_pair;
  url_scheme := fun _ => "https";
  url_host_str := fun _ => None;
  url_port := fun _ => None;
  url_path := fun _ => "/";
  url_query := fun _ => None;
  url_set_path := fun u _ => u;
  url_set_query := fun u _ => u;
  form_urlencoded_parse := Sample.form_parse |}.
Definition sample_jwt : JsonWebToken := {|
  EncodingKey := string;
  DecodingKey := string * string;
  from_rsa_pem := Some;
  jwt_encode := fun kid claims key =>
    Some ("eyJ" +:+ kid +:+ "." +:+ Sample.print claims +:+ "." +:+ key);
  from_rsa_components := fun n e => Some (n, e) |}.
Definition sample_http : HttpCrate := {| header_to_str := Some; response_text := fun _ b => from_utf8_lossy b |}.

(** Not an instance: a statement that needs the crates has to name them. *)
Definition sample_crates : Crates := {|
  crates_json := sample_json; crates_base64 := sample_base64; crates_ring := sample_ring;
  crates_url := sample_url; crates_jwt := sample_jwt; crates_http := sample_http |}.
