(* ===== verification/OAuthTypes.v ===== *)
(** * [oauth/types.rs]: user store, RSA key material, server state *)

From S2P Require Import Prelude RustStr Json Crates.
Open Scope list_scope.
Open Scope Z_scope.

Definition OAUTH_PORT : Z := 9443.
Definition DOMAIN : string := "apps.ocp-sim.test".
Definition OAUTH_HOST : string := "oauth-openshift".
Definition OAUTH_NS : string := "openshift-authentication".

(** Durations and instants in nanoseconds. *)
Definition from_secs (s : Z) : Z := s * 1000000000.
Definition as_secs (d : Z) : Z := d / 1000000000.
Definition CODE_TTL : Z := from_secs 300.
Definition TOKEN_TTL : Z := from_secs 86400.

(** [Instant::elapsed], which saturates at zero. *)
Definition elapsed (now created : Z) : Z := Z.max 0 (now - created).

(** [main.rs]: the [--auth-mode] option. *)
Inductive AuthMode : Type := Legacy | Oidc | Byoidc.

(** ** User store *)

Record UserEntry : Type := User {
  username : string;
  password : string;
  email : option string;
  groups : option (list string)
}.

Record UserStore : Type := Users { users : list UserEntry }.

Module UserStoreOps.

Definition default_users : list UserEntry :=
  [ User "admin" "admin" (Some "admin@ocp-sim.test")
      (Some ["system:cluster-admins"; "system:authenticated"]) ].

(** [UserStore::load]: [read_to_string] and the YAML reader are parameters;
    any failure falls back to the default user. *)
Definition load (read_to_string : string -> option string)
    (yaml_from_str : string -> option (list UserEntry)) (path : option string) : UserStore :=
  match path with
  | Some p =>
      match read_to_string p with
      | Some contents =>
          match yaml_from_str contents with
          | Some config => Users config
          | None => Users default_users
          end
      | None => Users default_users
      end
  | None => Users default_users
  end.

Definition authenticate (s : UserStore) (u p : string) : option UserEntry :=
  List.find (fun e => String.eqb (username e) u && String.eqb (password e) p) (users s).

Definition get_user (s : UserStore) (u : string) : option UserEntry :=
  List.find (fun e => String.eqb (username e) u) (users s).

Definition keep_line (l : string) : bool :=
  negb (is_empty (trim l)) && negb (starts_with "#" l).

Definition htpasswd_entry (line : string) : option UserEntry :=
  '(user, pass) ← split_once ":"%char line;
  Some (User (trim user) (trim pass) None None).

Definition from_htpasswd (data : string) : UserStore :=
  Users (omap htpasswd_entry (List.filter keep_line (lines data))).

End UserStoreOps.
Import UserStoreOps.

(** ** RSA public key

    [JwtKeys::parse_rsa_integers] reads the DER encoding of a PKCS#1 public
    key; a slice or index out of range panics, which is [None] here. *)

Module Der.

(** [&der[pos..]] *)
Definition slice_from (der : list Z) (pos : Z) : option (list Z) :=
  if (pos <=? Z.of_nat (length der)) then Some (drop (Z.to_nat pos) der) else None.

(** [der[i]] *)
Definition at_ (der : list Z) (i : Z) : option Z := der !! Z.to_nat i.

(** [der[a..b]] *)
Definition slice (der : list Z) (a b : Z) : option (list Z) :=
  if (a <=? b) && (b <=? Z.of_nat (length der))
  then Some (take (Z.to_nat (b - a)) (drop (Z.to_nat a) der)) else None.

Definition der_len_size (der : list Z) : option Z :=
  d0 ← at_ der 0;
  Some (if d0 <? 128 then 1 else 1 + Z.land d0 127).

(** The loop [for i in 0..num]: [len = (len << 8) | der[1 + i]] in a 64-bit
    [usize], the bits shifted out being lost. *)
Fixpoint der_len_loop (der : list Z) (n : nat) (i len : Z) : option Z :=
  match n with
  | O => Some len
  | S n' =>
      b ← at_ der (1 + i);
      der_len_loop der n' (i + 1) (Z.lor (cast_u64 (Z.shiftl len 8)) b)
  end.

Definition read_der_len (der : list Z) : option Z :=
  first ← at_ der 0;
  if first <? 128 then Some first
  else der_len_loop der (Z.to_nat (Z.land first 127)) 0 0.

Definition parse_rsa_integers (der : list Z) : option (list Z * list Z) :=
  let pos := 0 in
  let pos := pos + 1 in
  d ← slice_from der pos; sz ← der_len_size d;
  let pos := pos + sz in
  let pos := pos + 1 in
  d ← slice_from der pos; n_len ← read_der_len d;
  sz ← der_len_size d;
  let pos := pos + sz in
  n ← slice der pos (pos + n_len);
  let n := match n with 0 :: n' => n' | _ => n end in
  let pos := pos + n_len in
  let pos := pos + 1 in
  d ← slice_from der pos; e_len ← read_der_len d;
  sz ← der_len_size d;
  let pos := pos + sz in
  e ← slice der pos (pos + e_len);
  Some (n, e).

End Der.

(** ** Server state *)

Section State.
Context {CR : Crates}.

Record JwtKeys : Type := {
  encoding_key : EncodingKey;
  kid : string;
  n_b64 : string;
  e_b64 : string
}.

Record AuthCode : Type := {
  ac_username : string;
  ac_client_id : string;
  ac_created : Z;
  ac_code_challenge : option string;
  ac_code_challenge_method : option string
}.

Record TokenInfo : Type := { ti_username : string; ti_created : Z }.

Record ByoidcConfig : Type := {
  issuer_url : string;
  byoidc_client_id : string;
  byoidc_client_secret : string
}.

Record ExternalOidcDiscovery : Type := {
  authorization_endpoint : string;
  token_endpoint : string;
  userinfo_endpoint : string;
  jwks_uri : string
}.

Definition default_discovery : ExternalOidcDiscovery := {|
  authorization_endpoint := ""; token_endpoint := ""; userinfo_endpoint := ""; jwks_uri := "" |}.

(** The fields of [OAuthState] that never change; of [external_jwks], whether
    there is a cache ... *)
Record OAuthConf : Type := {
  auth_mode : AuthMode;
  jwt_keys : option JwtKeys;
  byoidc : option ByoidcConfig;
  external_jwks : bool
}.

(** ... and those behind a lock, the two of [ExternalJwksCache] among them. *)
Record OAuthStore : Type := Store {
  codes : gmap string AuthCode;
  tokens : gmap string TokenInfo;
  user_store : UserStore;
  ext_keys : gmap string DecodingKey;
  ext_discovery : ExternalOidcDiscovery
}.

Definition oauth_store_new (us : UserStore) : OAuthStore := Store ∅ ∅ us ∅ default_discovery.
End State.
