(* ===== verification/OAuthTypesProofs.v ===== *)
(** * Theorems on [oauth/types.rs] *)

From S2P Require Import Prelude RustStr Json Crates OAuthTypes.
Import UserStoreOps.
Open Scope list_scope.
Open Scope Z_scope.

(** ** RSA public keys: reading inverts the DER encoding *)

Module DerProofs.
Import Der.

(** Reference encoder: minimal big-endian bytes, definite lengths, PKCS#1
    [RSAPublicKey ::= SEQUENCE { modulus INTEGER, publicExponent INTEGER }]. *)
Fixpoint be_bytes (fuel : nat) (n : Z) (acc : list Z) : list Z :=
  match fuel with
  | O => acc
  | S f => if n =? 0 then acc else be_bytes f (n / 256) (n mod 256 :: acc)
  end.

Definition der_length (n : Z) : list Z :=
  if n <? 128 then [n]
  else let bs := be_bytes 8 n [] in (128 + Z.of_nat (length bs)) :: bs.

Definition der_integer (bs : list Z) : list Z :=
  let bs := match bs with b :: _ => if 128 <=? b then 0 :: bs else bs | [] => [0] end in
  2 :: der_length (Z.of_nat (length bs)) ++ bs.

Definition der_rsa_public_key (n e : list Z) : list Z :=
  let body := der_integer n ++ der_integer e in
  48 :: der_length (Z.of_nat (length body)) ++ body.

Definition be_value (bs : list Z) (acc : Z) : Z := foldl (fun a b => a * 256 + b) acc bs.

Lemma be_bytes_value fuel n acc :
  0 <= n < 256 ^ Z.of_nat fuel ->
  be_value (be_bytes fuel n acc) 0 = be_value acc n.
Proof.
  unfold be_value. revert n acc. induction fuel as [|f IH]; intros n acc Hn; simpl.
  - replace n with 0 by lia. done.
  - destruct (Z.eqb_spec n 0) as [->|Hne]; [done|]. rewrite IH.
    + simpl. f_equal. pose proof (Z.div_mod n 256). lia.
    + rewrite Nat2Z.inj_succ, Z.pow_succ_r in Hn by lia.
      split; [apply Z.div_pos; lia|]. apply Z.div_lt_upper_bound; lia.
Qed.

Lemma be_bytes_range fuel n acc :
  0 <= n -> Forall (fun b => 0 <= b < 256) acc -> Forall (fun b => 0 <= b < 256) (be_bytes fuel n acc).
Proof.
  revert n acc. induction fuel as [|f IH]; intros n acc Hn Hacc; simpl; [done|].
  destruct (n =? 0); [done|]. apply IH; [apply Z.div_pos; lia|].
  constructor; [|done]. apply Z.mod_pos_bound. lia.
Qed.

Lemma be_bytes_length fuel n acc : (length (be_bytes fuel n acc) <= fuel + length acc)%nat.
Proof.
  revert n acc. induction fuel as [|f IH]; intros n acc; simpl; [done|].
  destruct (n =? 0); [lia|]. specialize (IH (n / 256) (n mod 256 :: acc)). simpl in IH. lia.
Qed.

Lemma shift_or_byte len b :
  0 <= b < 256 -> Z.lor (Z.shiftl len 8) b = len * 256 + b.
Proof.
  intros Hb. rewrite Z.shiftl_mul_pow2 by lia. change (2 ^ 8) with 256.
  assert (Hl : Z.land (len * 256) b = 0).
  { apply Z.bits_inj'. intros i Hi. rewrite Z.land_spec, Z.bits_0.
    change 256 with (2 ^ 8). rewrite Z.mul_pow2_bits by lia.
    destruct (Z.ltb_spec i 8).
    - rewrite (Z.testbit_neg_r len) by lia. done.
    - rewrite (Z.bits_above_log2 b i), andb_false_r; [done|lia|].
      destruct (Z.eq_dec b 0) as [->|]; [simpl; lia|].
      apply Z.le_lt_trans with 7; [|lia]. apply Z.lt_succ_r, Z.log2_lt_pow2; simpl; lia. }
  pose proof (Z.add_lor_land (len * 256) b). lia.
Qed.

Lemma be_value_mono bs acc :
  Forall (fun b => 0 <= b < 256) bs -> 0 <= acc -> acc <= be_value bs acc.
Proof.
  unfold be_value. revert acc. induction bs as [|b bs IH]; intros acc Hf Ha; simpl; [lia|].
  inversion Hf; subst. etransitivity; [|apply IH; [done|lia]]. lia.
Qed.

(** The reading loop computes the big-endian value of the bytes, as long as
    it fits in a [usize]. *)
Lemma der_len_loop_value pre bs rest acc :
  (length pre = 1 + Z.to_nat (Z.of_nat (length pre) - 1))%nat ->
  Forall (fun b => 0 <= b < 256) bs ->
  0 <= acc -> be_value bs acc < 2 ^ 64 ->
  der_len_loop (pre ++ bs ++ rest) (length bs) (Z.of_nat (length pre) - 1) acc =
    Some (be_value bs acc).
Proof.
  revert pre acc. induction bs as [|b bs IH]; intros pre acc Hpre Hf Ha Hlt; simpl; [done|].
  inversion Hf as [|? ? Hb Hf']; subst. unfold at_.
  replace (Z.to_nat (1 + (Z.of_nat (length pre) - 1))) with (length pre) by lia.
  rewrite lookup_app_r by lia. rewrite Nat.sub_diag. simpl.
  pose proof (be_value_mono bs (acc * 256 + b) Hf' ltac:(lia)) as Hm. unfold be_value in *. simpl in Hlt.
  assert (Hs : Z.lor (cast_u64 (Z.shiftl acc 8)) b = acc * 256 + b).
  { unfold cast_u64. rewrite Z.mod_small, shift_or_byte; [done|done|].
    rewrite Z.shiftl_mul_pow2 by lia. change (2 ^ 8) with 256. lia. }
  rewrite Hs. specialize (IH (pre ++ [b]) (acc * 256 + b)).
  rewrite length_app in IH. simpl in IH.
  replace (Z.of_nat (length pre) - 1 + 1) with (Z.of_nat (length pre + 1) - 1) by lia.
  rewrite <- app_assoc in IH. simpl in IH. apply IH; [lia|done|lia|lia].
Qed.

Lemma land_127 k : 0 <= k < 128 -> Z.land (128 + k) 127 = k.
Proof.
  intros Hk. change 127 with (Z.ones 7). rewrite Z.land_ones by lia. change (2 ^ 7) with 128.
  rewrite Z.add_comm, <- (Z.mul_1_l 128), Z.mod_add, Z.mod_small by lia. done.
Qed.

Lemma der_length_head n : 0 <= n -> exists h (t : list Z),
  der_length n = h :: t /\
  (n < 128 /\ h = n /\ t = [] \/
   128 <= n /\ h = 128 + Z.of_nat (length t) /\ t = be_bytes 8 n [] /\ (length t <= 8)%nat).
Proof.
  intros Hn. unfold der_length. destruct (Z.ltb_spec n 128).
  - exists n, []. naive_solver.
  - exists (128 + Z.of_nat (length (be_bytes 8 n []))), (be_bytes 8 n []).
    pose proof (be_bytes_length 8 n []). simpl in *. split; [done|]. right. repeat split; lia.
Qed.

Lemma der_len_size_encode n rest :
  0 <= n -> der_len_size (der_length n ++ rest) = Some (Z.of_nat (length (der_length n))).
Proof.
  intros Hn. destruct (der_length_head n Hn) as (h & t & -> & [(?&->&->)|(?&->&_&?)]);
    unfold der_len_size, at_; simpl.
  - destruct (Z.ltb_spec n 128); [done|lia].
  - destruct (Z.ltb_spec (128 + Z.of_nat (length t)) 128); [lia|]. rewrite land_127 by lia.
    f_equal. lia.
Qed.

Lemma read_der_len_encode n rest :
  0 <= n < 2 ^ 64 -> read_der_len (der_length n ++ rest) = Some n.
Proof.
  intros Hn. destruct (der_length_head n) as (h & t & -> & [(?&->&->)|(?&->&Ht&?)]); [lia| |];
    unfold read_der_len; simpl.
  - destruct (Z.ltb_spec n 128); [done|lia].
  - destruct (Z.ltb_spec (128 + Z.of_nat (length t)) 128); [lia|].
    rewrite land_127, Nat2Z.id by lia.
    assert (Hv : be_value t 0 = n) by (subst t; apply (be_bytes_value 8 n []); lia).
    pose proof (der_len_loop_value [128 + Z.of_nat (length t)] t rest 0) as Hloop.
    simpl in Hloop. change (Z.of_nat 1 - 1) with 0 in Hloop. rewrite Hloop, Hv; [done|done| |lia|lia].
    subst t. apply be_bytes_range; [lia|constructor].
Qed.

Lemma slice_from_app (a b : list Z) p : p = Z.of_nat (length a) -> slice_from (a ++ b) p = Some b.
Proof.
  intros ->. unfold slice_from. rewrite length_app.
  destruct (Z.leb_spec (Z.of_nat (length a)) (Z.of_nat (length a + length b))); [|lia].
  by rewrite Nat2Z.id, drop_app_length.
Qed.

Lemma slice_app (a b c : list Z) p q :
  p = Z.of_nat (length a) -> q = p + Z.of_nat (length b) -> slice (a ++ b ++ c) p q = Some b.
Proof.
  intros -> ->. unfold slice. rewrite !length_app.
  destruct (Z.leb_spec (Z.of_nat (length a)) (Z.of_nat (length a) + Z.of_nat (length b))); [|lia].
  destruct (Z.leb_spec (Z.of_nat (length a) + Z.of_nat (length b))
    (Z.of_nat (length a + (length b + length c)))); [|lia]. simpl.
  rewrite Nat2Z.id, drop_app_length.
  replace (Z.to_nat _) with (length b) by lia. by rewrite take_app_length.
Qed.

(** The bytes of an integer between its header and the rest of the input. *)
Definition int_body (bs : list Z) : list Z :=
  match bs with b :: _ => if 128 <=? b then 0 :: bs else bs | [] => [0] end.

Lemma der_integer_split bs :
  der_integer bs = [2] ++ der_length (Z.of_nat (length (int_body bs))) ++ int_body bs.
Proof. done. Qed.

Local Ltac next := cbn [mbind option_bind].
Local Ltac header := intros; first [apply der_len_size_encode | apply read_der_len_encode]; lia.
Local Ltac regroup E := rewrite E, ?app_nil_r, <- ?app_assoc; done.
Local Ltac cut_from E a b :=
  let H := fresh in
  assert (H : slice_from (a ++ b) (Z.of_nat (length a)) = Some b) by (by apply slice_from_app);
  erewrite (f_equal2 slice_from (y1 := a ++ b)); [rewrite H; next|regroup E|];
  [clear H|rewrite ?length_app; simpl; lia].
Local Ltac cut E a b c :=
  erewrite (f_equal (fun d => slice d _ _) (y := a ++ b ++ c)) by regroup E;
  rewrite slice_app by (rewrite ?length_app; simpl; lia); next.

(** The big-endian bytes of a positive number, without leading zeroes. *)
Definition minimal (bs : list Z) : Prop :=
  exists b bs', bs = b :: bs' /\ b <> 0 /\ Forall (fun x => 0 <= x < 256) bs.

(** C27: reading an RSA public key inverts its DER encoding.  For every modulus
    and exponent, in minimal form and of any size a machine can hold, the
    reader takes the PKCS#1 encoding apart without indexing outside it.  It
    returns exactly the bytes of the modulus, dropping their sign byte.  The
    exponent's are exact only if their first bit is not set, as for 65537; the
    sign byte of any other exponent is kept. *)
Theorem rsa_key_roundtrip n e :
  minimal n -> minimal e ->
  Z.of_nat (length n) + Z.of_nat (length e) < 2 ^ 62 ->
  parse_rsa_integers (der_rsa_public_key n e) =
    Some (n, match e with e0 :: _ => if e0 <? 128 then e else 0 :: e | [] => [] end).
Proof.
  intros (b0 & n' & Hn & Hb0 & _) (e0 & e' & He & _ & _) Hlen.
  replace (match e with e0 :: _ => if e0 <? 128 then e else 0 :: e | [] => [] end) with (int_body e)
    by (subst e; simpl; rewrite Z.leb_antisym; by destruct (e0 <? 128)).
  assert (Hin : forall l, (length (int_body l) <= S (length l))%nat)
    by (intros [|x l]; simpl; [lia|]; destruct (128 <=? x); simpl; lia).
  pose proof (Hin n) as Hin_n. pose proof (Hin e) as Hin_e. clear Hin.
  unfold der_rsa_public_key. rewrite !der_integer_split.
  set (nb := int_body n) in *. set (eb := int_body e) in *. set (Ln := der_length (Z.of_nat (length nb))).
  set (Le := der_length (Z.of_nat (length eb))).
  set (L0 := der_length _).
  set (der := 48 :: L0 ++ ([2] ++ Ln ++ nb) ++ [2] ++ Le ++ eb).
  assert (E1 : der = [48] ++ L0 ++ [2] ++ Ln ++ nb ++ [2] ++ Le ++ eb)
    by (unfold der; rewrite <- !app_assoc; done).
  assert (S0 : forall r, der_len_size (L0 ++ r) = Some (Z.of_nat (length L0))) by header.
  assert (Sn : forall r, der_len_size (Ln ++ r) = Some (Z.of_nat (length Ln))) by header.
  assert (Se : forall r, der_len_size (Le ++ r) = Some (Z.of_nat (length Le))) by header.
  assert (Rn : forall r, read_der_len (Ln ++ r) = Some (Z.of_nat (length nb))) by header.
  assert (Re : forall r, read_der_len (Le ++ r) = Some (Z.of_nat (length eb))) by header.
  unfold parse_rsa_integers. clearbody der L0 Ln Le.
  cut_from E1 [48] (L0 ++ [2] ++ Ln ++ nb ++ [2] ++ Le ++ eb). rewrite S0. next.
  cut_from E1 ([48] ++ L0 ++ [2]) (Ln ++ nb ++ [2] ++ Le ++ eb). rewrite Rn. next. rewrite Sn. next.
  cut E1 ([48] ++ L0 ++ [2] ++ Ln) nb ([2] ++ Le ++ eb).
  cut_from E1 ([48] ++ L0 ++ [2] ++ Ln ++ nb ++ [2]) (Le ++ eb). rewrite Re. next. rewrite Se. next.
  cut E1 ([48] ++ L0 ++ [2] ++ Ln ++ nb ++ [2] ++ Le) eb (@nil Z).
  do 2 f_equal. subst nb n. simpl. destruct (128 <=? b0); [done|]. by destruct b0.
Qed.

Example rsa_key_roundtrip_witness :
  parse_rsa_integers (der_rsa_public_key [200; 1; 2; 3] [1; 0; 1]) = Some ([200; 1; 2; 3], [1; 0; 1]).
Proof.
  refine (rsa_key_roundtrip [200; 1; 2; 3] [1; 0; 1] _ _ _); [..|vm_compute; reflexivity].
  - exists 200, [1; 2; 3]. split; [reflexivity|]. split; [discriminate|]. repeat constructor; lia.
  - exists 1, [0; 1]. split; [reflexivity|]. split; [discriminate|]. repeat constructor; lia.
Defined.

End DerProofs.

(** ** User store *)

Module UserStoreProofs.

Lemma strip_any_Some ts s r : strip_any ts s = Some r -> exists t, t ∈ ts /\ s = t +:+ r.
Proof.
  induction ts as [|t ts IH]; simpl; [done|].
  destruct (strip_prefix t s) as [r'|] eqn:E.
  - intros [= <-]. apply strip_prefix_Some in E. exists t. split; [left|done].
  - intros (t' & Ht & ->)%IH. exists t'. split; [by right|done].
Qed.

(** A character that occurs in no whitespace token survives trimming. *)
Lemma trim_start_with_keeps ts c fuel s :
  Forall (fun t => char_in c t = false) ts ->
  char_in c (trim_start_with ts fuel s) = char_in c s.
Proof.
  intros Hts. revert s. induction fuel as [|f IH]; intros s; simpl; [done|].
  destruct (strip_any ts s) as [r|] eqn:E; [|done].
  apply strip_any_Some in E as (t & Ht & ->). rewrite IH, char_in_app.
  rewrite (proj1 (Forall_forall _ _) Hts t); [done|by apply list_elem_of_In].
Qed.

Lemma char_in_rev c s : char_in c (str_rev s) = char_in c s.
Proof.
  induction s as [|d s IH]; [done|]. change (String d s) with (String d "" +:+ s).
  rewrite str_rev_app, !char_in_app, IH. simpl. by rewrite orb_comm.
Qed.

Lemma trim_keeps c s :
  Forall (fun t => char_in c t = false) ws_tokens -> char_in c (trim s) = char_in c s.
Proof.
  intros Hts. unfold trim, trim_end, trim_start. rewrite char_in_rev, trim_start_with_keeps.
  - by rewrite char_in_rev, trim_start_with_keeps.
  - apply Forall_fmap. eapply Forall_impl; [|exact Hts]. intros t Ht. simpl. by rewrite char_in_rev.
Qed.

Lemma colon_not_ws : Forall (fun t => char_in ":"%char t = false) ws_tokens.
Proof. repeat constructor. Qed.

(** Fields that a line of an htpasswd file can carry. *)
Definition field_ok (s : string) : Prop :=
  char_in nl s = false /\ char_in cr s = false /\ trim s = s.
Definition entry_ok (up : string * string) : Prop :=
  field_ok up.1 /\ field_ok up.2 /\ char_in ":"%char up.1 = false /\ starts_with "#" up.1 = false.

(** Reference printer: one [user:password] line per entry. *)
Definition render_line (up : string * string) : string := up.1 +:+ String ":" up.2.
Definition render (l : list (string * string)) : string :=
  str_concat ((fun up => render_line up +:+ newline) <$> l).

Lemma starts_with_hash_line u p :
  starts_with "#" u = false -> starts_with "#" (u +:+ String ":" p) = false.
Proof.
  unfold starts_with. destruct u as [|a u]; [done|].
  cbn [strip_prefix String.append]. by destruct (Ascii.eqb _ a).
Qed.

Lemma render_line_entry u p :
  entry_ok (u, p) ->
  keep_line (render_line (u, p)) = true /\
  htpasswd_entry (render_line (u, p)) = Some (User u p None None) /\
  char_in nl (render_line (u, p)) = false /\
  char_in cr (render_line (u, p)) = false.
Proof.
  intros ((Hn1 & Hc1 & Ht1) & (Hn2 & Hc2 & Ht2) & Hcol & Hh). unfold render_line. simpl in *.
  repeat split.
  - unfold keep_line. rewrite starts_with_hash_line by done.
    assert (Hin : char_in ":"%char (trim (u +:+ String ":" p)) = true).
    { rewrite trim_keeps by apply colon_not_ws. rewrite !char_in_app. simpl. by rewrite orb_true_r. }
    by destruct (trim (u +:+ String ":" p)).
  - unfold htpasswd_entry. rewrite split_once_app by done. simpl. by rewrite Ht1, Ht2.
  - rewrite char_in_app, Hn1. simpl. by rewrite Hn2.
  - rewrite char_in_app, Hc1. simpl. by rewrite Hc2.
Qed.

Lemma from_htpasswd_render l :
  Forall entry_ok l ->
  users (from_htpasswd (render l)) = (fun up => User up.1 up.2 None None) <$> l.
Proof.
  unfold from_htpasswd. simpl. induction 1 as [|[u p] l Hup _ IH]; [done|].
  destruct (render_line_entry u p Hup) as (Hk & He & Hn & Hc).
  unfold render in *. cbn [fmap list_fmap str_concat foldr].
  unfold newline at 1. rewrite <- sapp_assoc.
  change (String nl "" +:+ ?r) with (String nl r).
  rewrite lines_cons, drop_last_cr_id by done. cbn [List.filter]. rewrite Hk.
  cbn [omap list_omap]. rewrite He. f_equal. exact IH.
Qed.

Lemma authenticate_Some s u p e :
  authenticate s u p = Some e -> e ∈ users s /\ username e = u /\ password e = p.
Proof.
  unfold authenticate. intros H. apply List.find_some in H as [Hin H].
  apply andb_true_iff in H as [H1%String.eqb_eq H2%String.eqb_eq]. split; [by apply list_elem_of_In|done].
Qed.

Lemma authenticate_None s u p :
  authenticate s u p = None <-> forall e, e ∈ users s -> ~ (username e = u /\ password e = p).
Proof.
  unfold authenticate. split.
  - intros H e He [<- <-]. apply list_elem_of_In in He.
    pose proof (List.find_none _ _ H _ He) as Hf. simpl in Hf. by rewrite !String.eqb_refl in Hf.
  - intros H. destruct (List.find _ _) as [e|] eqn:E; [|done].
    destruct (authenticate_Some s u p e E) as (He & <- & <-). exfalso. by apply (H e).
Qed.

(** C28: an htpasswd file admits exactly its users.  For every list of entries
    that can be written as [user:password] lines, the user store read from the
    file authenticates a pair of user name and password if and only if the pair
    is in the list. *)
Theorem htpasswd_login l u p :
  Forall entry_ok l ->
  is_Some (authenticate (from_htpasswd (render l)) u p) <-> (u, p) ∈ l.
Proof.
  intros Hl. pose proof (from_htpasswd_render l Hl) as Hu. split.
  - intros [e (He & <- & <-)%authenticate_Some]. rewrite Hu in He.
    apply list_elem_of_fmap in He as ([u' p'] & -> & Hin). done.
  - intros Hin. destruct (authenticate _ u p) as [e|] eqn:E; [eauto|].
    exfalso. eapply (proj1 (authenticate_None _ u p) E (User u p None None)); [|done].
    rewrite Hu. apply list_elem_of_fmap. by exists (u, p).
Qed.

Example htpasswd_login_witness :
  is_Some (authenticate (from_htpasswd (render [("alice", "s3cret"); ("bob", "a:b")])) "bob" "a:b").
Proof.
  apply (htpasswd_login [("alice", "s3cret"); ("bob", "a:b")] "bob" "a:b").
  - repeat constructor.
  - right. left.
Defined.

End UserStoreProofs.
