(* ===== verification/OAuthEffects.v ===== *)
(** * Effects of the OAuth server

    The shared maps of [OAuthState] are reached only through their locks, one
    critical section per effect; the other effects are the clocks, the random
    generator and RSA key generation.  [Instant::now()] inside a critical
    section is sampled once, when the section runs. *)

From S2P Require Import Prelude RustStr Json Prog Kube Crates OAuthTypes.
Open Scope list_scope.
Open Scope Z_scope.

Inductive oauthE : Type -> Type :=
| SampleAlphanumeric (n : nat) : oauthE (list ascii)
| InstantNow : oauthE Z
(** [SystemTime::now()] in whole seconds since the epoch *)
| SystemNow : oauthE Z
| SleepSecs (s : Z) : oauthE unit
(** a fresh RSA key: its PEM and the DER of its public half *)
| GenerateRsa : oauthE (string * list Z)
(** [state.codes.write()]: insert, remove, retain *)
| CodesInsert (code : string) (mk : Z -> AuthCode) : oauthE unit
| CodesRemove (code : string) : oauthE (option AuthCode)
| CodesRetain (keep : Z -> AuthCode -> bool) : oauthE Z
| TokensInsert (tok : string) (mk : Z -> TokenInfo) : oauthE unit
| TokensGet (tok : string) : oauthE (option TokenInfo)
| TokensRetain (keep : Z -> TokenInfo -> bool) : oauthE Z
| UsersRead : oauthE UserStore
| UsersWrite (us : UserStore) : oauthE unit.

(** ** Outgoing HTTP ([reqwest]) and the external key cache *)

Inductive ReqBody : Type := NoBody | FormBody (l : list (string * string)) | RawBody (b : string).

Record HttpReq : Type := {
  hr_method : string;
  hr_url : string;
  hr_headers : list (string * string);
  hr_body : ReqBody;
  hr_follow_redirects : bool
}.

(** The body is [None] when reading it fails. *)
Record HttpResp : Type := {
  hp_status : Z;
  hp_headers : list (string * string);
  hp_body : option string
}.

Inductive httpE {CR : Crates} : Type -> Type :=
(** [None] when sending fails *)
| HttpSend (r : HttpReq) : httpE (option HttpResp)
(** [jsonwebtoken::decode], RS256 with the expiry checked against the clock
    and the audience not checked *)
| JwtDecode (token : string) (dk : DecodingKey) : httpE (option Value)
| ExtKeysRead : httpE (gmap string DecodingKey)
| ExtKeysWrite (m : gmap string DecodingKey) : httpE unit
| ExtDiscRead : httpE ExternalOidcDiscovery
| ExtDiscWrite (d : ExternalOidcDiscovery) : httpE unit.

Abbreviation serverE := (oauthE +' kubeE +' httpE).

(** Performing an outgoing effect in the server. *)
Definition http {CR : Crates} {X} (e : httpE X) : prog serverE X := Vis (inrE (inrE e)) Ret.

(** ** The machine the server runs on

    The cluster, the network, the clocks and the random sources, all free to
    answer as they like. *)
Class Host {CR : Crates} (W : Type) : Type := {
  host_kube :: KubeServer W;
  host_instant : W -> Z * W;
  host_system : W -> Z * W;
  host_sleep : Z -> W -> W;
  host_sample : nat -> W -> list ascii * W;
  host_rsa : W -> (string * list Z) * W;
  host_http : HttpReq -> W -> option HttpResp * W;
  host_jwt_decode : string -> DecodingKey -> W -> option Value * W
}.

(** [HashMap::retain]: the kept entries. *)
Definition retain {V} (keep : V -> bool) (m : gmap string V) : gmap string V :=
  filter (fun kv => keep kv.2 = true) m.

Section World.
Context {CR : Crates} {W : Type} `{!Host W}.

Abbreviation world := (OAuthStore * W)%type.

Definition set_codes (s : OAuthStore) (m : gmap string AuthCode) : OAuthStore :=
  Store m (tokens s) (user_store s) (ext_keys s) (ext_discovery s).
Definition set_tokens (s : OAuthStore) (m : gmap string TokenInfo) : OAuthStore :=
  Store (codes s) m (user_store s) (ext_keys s) (ext_discovery s).
Definition set_users (s : OAuthStore) (us : UserStore) : OAuthStore :=
  Store (codes s) (tokens s) us (ext_keys s) (ext_discovery s).
Definition set_ext_keys (s : OAuthStore) (m : gmap string DecodingKey) : OAuthStore :=
  Store (codes s) (tokens s) (user_store s) m (ext_discovery s).
Definition set_ext_discovery (s : OAuthStore) (d : ExternalOidcDiscovery) : OAuthStore :=
  Store (codes s) (tokens s) (user_store s) (ext_keys s) d.

Definition oauth_step X (e : oauthE X) : world -> X * world :=
  match e in oauthE X return world -> X * world with
  | SampleAlphanumeric n => fun '(s, w) => let '(l, w) := host_sample n w in (l, (s, w))
  | InstantNow => fun '(s, w) => let '(t, w) := host_instant w in (t, (s, w))
  | SystemNow => fun '(s, w) => let '(t, w) := host_system w in (t, (s, w))
  | SleepSecs n => fun '(s, w) => (tt, (s, host_sleep n w))
  | GenerateRsa => fun '(s, w) => let '(k, w) := host_rsa w in (k, (s, w))
  | CodesInsert c mk => fun '(s, w) =>
      let '(t, w) := host_instant w in (tt, (set_codes s (<[c := mk t]> (codes s)), w))
  | CodesRemove c => fun '(s, w) => (codes s !! c, (set_codes s (delete c (codes s)), w))
  | CodesRetain keep => fun '(s, w) =>
      let '(t, w) := host_instant w in
      let m := retain (keep t) (codes s) in
      (Z.of_nat (size (codes s)) - Z.of_nat (size m), (set_codes s m, w))
  | TokensInsert c mk => fun '(s, w) =>
      let '(t, w) := host_instant w in (tt, (set_tokens s (<[c := mk t]> (tokens s)), w))
  | TokensGet c => fun '(s, w) => (tokens s !! c, (s, w))
  | TokensRetain keep => fun '(s, w) =>
      let '(t, w) := host_instant w in
      let m := retain (keep t) (tokens s) in
      (Z.of_nat (size (tokens s)) - Z.of_nat (size m), (set_tokens s m, w))
  | UsersRead => fun '(s, w) => (user_store s, (s, w))
  | UsersWrite us => fun '(s, w) => (tt, (set_users s us, w))
  end.

Definition http_step X (e : httpE X) : world -> X * world :=
  match e in httpE X return world -> X * world with
  | HttpSend r => fun '(s, w) => let '(x, w) := host_http r w in (x, (s, w))
  | JwtDecode t dk => fun '(s, w) => let '(x, w) := host_jwt_decode t dk w in (x, (s, w))
  | ExtKeysRead => fun '(s, w) => (ext_keys s, (s, w))
  | ExtKeysWrite m => fun '(s, w) => (tt, (set_ext_keys s m, w))
  | ExtDiscRead => fun '(s, w) => (ext_discovery s, (s, w))
  | ExtDiscWrite d => fun '(s, w) => (tt, (set_ext_discovery s d, w))
  end.

Definition server_step X (e : serverE X) : world -> X * world :=
  match e with
  | inlE oe => oauth_step X oe
  | inrE (inlE ke) => fun '(s, w) => let '(x, w) := kube_step ke w in (x, (s, w))
  | inrE (inrE he) => http_step X he
  end.

Definition run_server {A} (p : prog serverE A) (s : world) : A * world := run server_step p s.
End World.

Lemma retain_lookup {V} keep (m : gmap string V) k v :
  retain keep m !! k = Some v <-> m !! k = Some v /\ keep v = true.
Proof. unfold retain. by rewrite map_lookup_filter_Some. Qed.
