(* ===== verification/OAuthHelpers.v ===== *)
(** * [oauth/helpers.rs]: responses, query parsing, discovery, the login form *)

From S2P Require Import Prelude RustStr Json Prog Kube Crates OAuthTypes OAuthEffects.
Open Scope list_scope.
Open Scope Z_scope.

(** ** Requests and responses *)

(** Header names are lower case, as [http::HeaderMap] keeps them. *)
Record Request : Type := {
  req_method : string;
  req_path : string;
  req_query : option string;
  req_headers : list (string * string);
  (** [None] when collecting the body fails *)
  req_body : option string
}.

Record Response : Type := Resp {
  status : Z;
  headers : list (string * string);
  body : string
}.

(** [HeaderMap::get]: the first value of a name. *)
Fixpoint header_get (name : string) (hs : list (string * string)) : option string :=
  match hs with
  | [] => None
  | (k, v) :: r => if String.eqb name k then Some v else header_get name r
  end.

Definition header_contains (name : string) (hs : list (string * string)) : bool :=
  match header_get name hs with Some _ => true | None => false end.

Definition OK : Z := 200.
Definition FOUND : Z := 302.
Definition BAD_REQUEST : Z := 400.
Definition UNAUTHORIZED : Z := 401.
Definition NOT_FOUND : Z := 404.
Definition INTERNAL_SERVER_ERROR : Z := 500.
Definition BAD_GATEWAY : Z := 502.

Definition json_response (st : Z) (b : string) : Response :=
  Resp st [("content-type", "application/json")] b.
Definition text_response (st : Z) (b : string) : Response := Resp st [] b.
Definition html_response (st : Z) (b : string) : Response :=
  Resp st [("content-type", "text/html; charset=utf-8")] b.

(** ** Random strings *)

Definition generate_random_string {E} `{!Inject oauthE E} (len : nat) : prog E string :=
  l ⟵ trigger (SampleAlphanumeric len);
  Ret (String.string_of_list_ascii l).

(** ** Form data: a later pair replaces an earlier one with the same name *)

Definition collect_map (l : list (string * string)) : gmap string string :=
  foldl (fun m kv => <[kv.1 := kv.2]> m) ∅ l.

Section Parse.
Context {CR : Crates}.

Definition parse_query (query : option string) : gmap string string :=
  match query with
  | Some q => collect_map (form_urlencoded_parse q)
  | None => ∅
  end.

Definition parse_form_body (b : string) : gmap string string :=
  collect_map (form_urlencoded_parse b).
End Parse.

(** ** Discovery document *)

Definition discovery_doc (mode : AuthMode) : Value :=
  match mode with
  | Byoidc =>
      let local := "https://localhost:" +:+ pretty OAUTH_PORT in
      jobj [ "issuer" =: VString local;
             "jwks_uri" =: VString (local +:+ "/oauth/jwks");
             "response_types_supported" =: jstrs ["code"];
             "grant_types_supported" =: jstrs ["authorization_code"];
             "id_token_signing_alg_values_supported" =: jstrs ["RS256"];
             "subject_types_supported" =: jstrs ["public"] ]
  | _ =>
      let base := "https://" +:+ OAUTH_HOST +:+ "." +:+ DOMAIN in
      let doc :=
        [ "issuer" =: VString base;
          "authorization_endpoint" =: VString (base +:+ "/oauth/authorize");
          "token_endpoint" =: VString (base +:+ "/oauth/token");
          "scopes_supported" =:
            jstrs ["user:check-access"; "user:full"; "user:info"; "user:list-projects"];
          "response_types_supported" =: jstrs ["code"; "token"];
          "grant_types_supported" =: jstrs ["authorization_code"; "implicit"];
          "code_challenge_methods_supported" =: jstrs ["plain"; "S256"] ] in
      match mode with
      | Oidc =>
          let doc := obj_insert "userinfo_endpoint" (VString (base +:+ "/oauth/userinfo")) doc in
          let doc := obj_insert "jwks_uri" (VString (base +:+ "/oauth/jwks")) doc in
          let doc := obj_insert "id_token_signing_alg_values_supported" (jstrs ["RS256"]) doc in
          let doc := obj_insert "subject_types_supported" (jstrs ["public"]) doc in
          let doc := obj_insert "token_endpoint_auth_methods_supported"
                       (jstrs ["client_secret_post"; "client_secret_basic"]) doc in
          VObject doc
      | _ => VObject doc
      end
  end.

Definition discovery_json `{!SerdeJson} (mode : AuthMode) : string :=
  json_to_string (discovery_doc mode).

(** ** HTML *)

Definition html_escape (s : string) : string :=
  replace_char dquote "&quot;"
    (replace_char ">"%char "&gt;"
       (replace_char "<"%char "&lt;"
          (replace_char "&"%char "&amp;" s))).

(** The pieces of the page between the interpolated values. *)
Definition form_part0 : string := dq "<!DOCTYPE html>
<html lang='en'>
<head>
<meta charset='utf-8'>
<meta name='viewport' content='width=device-width, initial-scale=1'>
<title>Log in to ocp-sim</title>
<style>
  body { margin:0; font-family:-apple-system,BlinkMacSystemFont,'Segoe UI',Roboto,sans-serif;
         background:#151515; color:#e0e0e0; display:flex; align-items:center; justify-content:center; min-height:100vh; }
  .card { background:#1e1e1e; border:1px solid #333; border-radius:8px; padding:32px; width:340px; }
  h1 { font-size:20px; margin:0 0 24px; text-align:center; }
  label { display:block; font-size:13px; margin-bottom:4px; }
  input[type=text], input[type=password] { width:100%; padding:8px; margin-bottom:16px;
         border:1px solid #555; border-radius:4px; background:#2a2a2a; color:#e0e0e0;
         font-size:14px; box-sizing:border-box; }
  button { width:100%; padding:10px; background:#0066cc; color:#fff; border:none;
           border-radius:4px; font-size:14px; cursor:pointer; }
  button:hover { background:#004c99; }
</style>
</head>
<body>
<div class='card'>
  <h1>Log in to ocp-sim</h1>
  ".
Definition form_part1 : string := dq "
  <form method='POST' action='/oauth/authorize'>
    <input type='hidden' name='client_id' value='".
Definition form_part2 : string := dq "'>
    <input type='hidden' name='redirect_uri' value='".
Definition form_part3 : string := dq "'>
    <input type='hidden' name='state' value='".
Definition form_part4 : string := dq "'>
    <input type='hidden' name='response_type' value='".
Definition form_part5 : string := dq "'>
    <label for='username'>Username</label>
    <input type='text' id='username' name='username' autocomplete='username' autofocus>
    <label for='password'>Password</label>
    <input type='password' id='password' name='password' autocomplete='current-password'>
    <button type='submit'>Log in</button>
  </form>
</div>
</body>
</html>".
Definition form_error : string := dq "<div style='background:#c9190b;color:#fff;padding:8px 12px;border-radius:4px;margin-bottom:16px;font-size:14px'>Invalid username or password. Please try again.</div>".

Definition login_form_html (client_id redirect_uri state response_type : string) (error : bool) :
    string :=
  let error_block := if error then form_error else "" in
  form_part0 +:+
  error_block +:+
  form_part1 +:+
  html_escape client_id +:+
  form_part2 +:+
  html_escape redirect_uri +:+
  form_part3 +:+
  html_escape state +:+
  form_part4 +:+
  html_escape response_type +:+
  form_part5.
