(* ===== verification/OAuthHelpersProofs.v ===== *)
(** * Theorems on [oauth/helpers.rs]: HTML escaping and the login form *)

From S2P Require Import Prelude RustStr Json Crates OAuthTypes OAuthEffects OAuthHelpers.
Open Scope list_scope.
Open Scope Z_scope.

(** ** The four replacements are one pass *)

Definition escape_char (c : ascii) : string :=
  if Ascii.eqb c "&"%char then "&amp;"
  else if Ascii.eqb c "<"%char then "&lt;"
  else if Ascii.eqb c ">"%char then "&gt;"
  else if Ascii.eqb c dquote then "&quot;"
  else String c "".

Fixpoint escape_once (s : string) : string :=
  match s with
  | EmptyString => ""
  | String c r => escape_char c +:+ escape_once r
  end.

Lemma replace_char_app c by' a b :
  replace_char c by' (a +:+ b) = replace_char c by' a +:+ replace_char c by' b.
Proof.
  induction a as [|d a IH]; simpl; [done|].
  destruct (Ascii.eqb d c); simpl; rewrite IH; [by rewrite sapp_assoc|done].
Qed.

Lemma html_escape_app a b : html_escape (a +:+ b) = html_escape a +:+ html_escape b.
Proof. unfold html_escape. by rewrite !replace_char_app. Qed.

Lemma html_escape_char c : html_escape (String c "") = escape_char c.
Proof. by destruct c as [[] [] [] [] [] [] [] []]. Qed.

Lemma html_escape_once s : html_escape s = escape_once s.
Proof.
  induction s as [|c s IH]; [done|]. change (String c s) with (String c "" +:+ s).
  by rewrite html_escape_app, html_escape_char, IH.
Qed.

(** ** What is left is inert, and nothing is lost *)

Definition special (c : ascii) : bool :=
  Ascii.eqb c "<"%char || Ascii.eqb c ">"%char || Ascii.eqb c dquote.

Lemma escape_char_inert c : forall_chars (fun d => negb (special d)) (escape_char c) = true.
Proof. by destruct c as [[] [] [] [] [] [] [] []]. Qed.

Lemma html_escape_inert s : forall_chars (fun d => negb (special d)) (html_escape s) = true.
Proof.
  rewrite html_escape_once. induction s as [|c s IH]; [done|]. simpl.
  by rewrite forall_chars_app, escape_char_inert, IH.
Qed.

Lemma html_escape_no_quote s : char_in dquote (html_escape s) = false.
Proof. eapply forall_chars_char_in; [apply html_escape_inert|done]. Qed.

(** A browser's reading of an attribute value, for the four entities. *)
Definition entities : list (string * ascii) :=
  [("amp;", "&"%char); ("lt;", "<"%char); ("gt;", ">"%char); ("quot;", dquote)].

Fixpoint read_entity (es : list (string * ascii)) (s : string) : option (ascii * string) :=
  match es with
  | [] => None
  | (e, c) :: es' => match strip_prefix e s with
                     | Some r => Some (c, r)
                     | None => read_entity es' s
                     end
  end.

Fixpoint html_unescape_fuel (fuel : nat) (s : string) : string :=
  match fuel, s with
  | O, _ => s
  | S _, EmptyString => EmptyString
  | S f, String c r =>
      match (if Ascii.eqb c "&"%char then read_entity entities r else None) with
      | Some (d, r') => String d (html_unescape_fuel f r')
      | None => String c (html_unescape_fuel f r)
      end
  end.
Definition html_unescape (s : string) : string := html_unescape_fuel (String.length s) s.

Lemma unescape_step c r f :
  html_unescape_fuel (S f) (escape_char c +:+ r) = String c (html_unescape_fuel f r).
Proof. by destruct c as [[] [] [] [] [] [] [] []]. Qed.

Lemma escape_char_length c : (1 <= String.length (escape_char c))%nat.
Proof. destruct c as [[] [] [] [] [] [] [] []]; simpl; lia. Qed.

Lemma html_unescape_escape s : html_unescape (html_escape s) = s.
Proof.
  rewrite html_escape_once. unfold html_unescape.
  assert (H : forall fuel, (String.length (escape_once s) <= fuel)%nat ->
    html_unescape_fuel fuel (escape_once s) = s); [|by apply H].
  induction s as [|c s IH]; intros fuel Hf; [by destruct fuel|]. simpl in *.
  pose proof (escape_char_length c). rewrite slength_app in Hf.
  destruct fuel as [|f]; [lia|]. rewrite unescape_step, IH; [done|lia].
Qed.

(** ** The login form

    The double-quoted strings of a document, in order: the attribute values
    (and the one quoted font name of the style sheet). *)
Fixpoint quoted (inq : bool) (cur s : string) : list string :=
  match s with
  | EmptyString => []
  | String c r =>
      if inq then
        if Ascii.eqb c dquote then cur :: quoted false "" r else quoted true (cur +:+ String c "") r
      else if Ascii.eqb c dquote then quoted true "" r else quoted false "" r
  end.
Definition attribute_values (html : string) : list string := quoted false "" html.

Lemma quoted_value v cur r :
  char_in dquote v = false ->
  quoted true cur (v +:+ String dquote r) = (cur +:+ v) :: quoted false "" r.
Proof.
  revert cur. induction v as [|c v IH]; intros cur; simpl; [by rewrite sapp_nil_r|].
  intros [H1 H2]%orb_false_iff. destruct (Ascii.eqb_spec c dquote) as [->|]; [done|].
  rewrite IH by done. by rewrite <- sapp_assoc.
Qed.

Lemma quoted_escaped v r :
  quoted true "" (html_escape v +:+ String dquote r) = html_escape v :: quoted false "" r.
Proof. by rewrite quoted_value by apply html_escape_no_quote. Qed.

Definition after_quote (s : string) : string := match s with String _ r => r | _ => "" end.

Lemma quoted_part0 r : quoted false "" (form_part0 +:+ r) =
  ["en"; "utf-8"; "viewport"; "width=device-width, initial-scale=1"; "Segoe UI"; "card"]
    ++ quoted false "" r.
Proof. reflexivity. Qed.

Lemma quoted_error r : quoted false "" (form_error +:+ r) =
  "background:#c9190b;color:#fff;padding:8px 12px;border-radius:4px;margin-bottom:16px;font-size:14px"
    :: quoted false "" r.
Proof. reflexivity. Qed.

Lemma quoted_part1 r : quoted false "" (form_part1 +:+ r) =
  ["POST"; "/oauth/authorize"; "hidden"; "client_id"] ++ quoted true "" r.
Proof. reflexivity. Qed.

Lemma quoted_part2 r : quoted false "" (after_quote form_part2 +:+ r) =
  ["hidden"; "redirect_uri"] ++ quoted true "" r.
Proof. reflexivity. Qed.

Lemma quoted_part3 r : quoted false "" (after_quote form_part3 +:+ r) =
  ["hidden"; "state"] ++ quoted true "" r.
Proof. reflexivity. Qed.

Lemma quoted_part4 r : quoted false "" (after_quote form_part4 +:+ r) =
  ["hidden"; "response_type"] ++ quoted true "" r.
Proof. reflexivity. Qed.

Definition error_style : string :=
  "background:#c9190b;color:#fff;padding:8px 12px;border-radius:4px;margin-bottom:16px;font-size:14px".

Lemma quoted_error_block (err : bool) r :
  quoted false "" ((if err then form_error else "") +:+ r) =
    (if err then [error_style] else []) ++ quoted false "" r.
Proof. destruct err; [apply quoted_error|reflexivity]. Qed.

Lemma quoted_part5 : quoted false "" (after_quote form_part5) =
  ["username"; "text"; "username"; "username"; "username";
   "password"; "password"; "password"; "password"; "current-password"; "submit"].
Proof. reflexivity. Qed.

Lemma form_part_quotes :
  form_part2 = String dquote (after_quote form_part2) /\
  form_part3 = String dquote (after_quote form_part3) /\
  form_part4 = String dquote (after_quote form_part4) /\
  form_part5 = String dquote (after_quote form_part5).
Proof. repeat split. Qed.

(** C29: the login form carries its parameters and nothing else.  Whatever the
    client sent (quotes, angle brackets and ampersands included), the quoted
    attribute values of the page are the fixed ones and the four escaped
    parameters, each of which a browser reads back as the original string; in
    particular no parameter can add an attribute or an element, and the page has
    no field for a PKCE challenge. *)
Theorem login_form_attributes cid ru st rt err :
  (forall x, html_unescape (html_escape x) = x) /\
  attribute_values (login_form_html cid ru st rt err) =
    ["en"; "utf-8"; "viewport"; "width=device-width, initial-scale=1"; "Segoe UI"; "card"]
    ++ (if err then [error_style] else [])
    ++ ["POST"; "/oauth/authorize";
        "hidden"; "client_id"; html_escape cid;
        "hidden"; "redirect_uri"; html_escape ru;
        "hidden"; "state"; html_escape st;
        "hidden"; "response_type"; html_escape rt;
        "username"; "text"; "username"; "username"; "username";
        "password"; "password"; "password"; "password"; "current-password"; "submit"].
Proof.
  split; [apply html_unescape_escape|].
  unfold attribute_values, login_form_html. cbv zeta.
  destruct form_part_quotes as (E2 & E3 & E4 & E5). rewrite E2, E3, E4, E5.
  cbn [String.append].
  rewrite quoted_part0, quoted_error_block, quoted_part1, quoted_escaped, quoted_part2,
    quoted_escaped, quoted_part3, quoted_escaped, quoted_part4, quoted_escaped, quoted_part5.
  done.
Qed.
