(* ===== verification/OAuthK8s.v ===== *)
(** * [oauth/k8s.rs]: OAuth clients and user objects of the cluster *)

From S2P Require Import Prelude RustStr Json Prog Kube Util.
Open Scope list_scope.
Open Scope Z_scope.

(** The secret and the redirect URIs of a registered client. *)
Definition client_secret_of (v : Value) : string := default "" (get_str "secret" v).
Definition redirect_uris_of (v : Value) : list string :=
  match get_array "redirectURIs" v with
  | Some arr => omap as_str arr
  | None => []
  end.

Section K8s.
Context {E : Type -> Type} `{!Inject kubeE E}.

Definition validate_client (client_id : string) : prog E (option (string * list string)) :=
  r ⟵ trigger (KGet (KDynamic oauth_client_ar) All client_id);
  Ret match r with
       | Ok oauth_client => Some (client_secret_of (data oauth_client), redirect_uris_of (data oauth_client))
       | Err _ => None
       end.

(** Server-side apply of the User, and of the Identity once the User's uid
    is known; failures are only logged. *)
Definition user_object (username identity_name : string) : DynamicObject :=
  Dyn (named username None)
    (jobj [ "fullName" =: VString username; "identities" =: jstrs [identity_name] ]).

Definition identity_object (username identity_name uid : string) : DynamicObject :=
  Dyn (named identity_name None)
    (jobj [ "providerName" =: VString "ocp-sim";
            "providerUserName" =: VString username;
            "user" =: jobj [ "name" =: VString username; "uid" =: VString uid ] ]).

Definition ensure_user_and_identity (username : string) : prog E unit :=
  let identity_name := "ocp-sim." +:+ username in
  r ⟵ trigger (KPatch (KDynamic user_ar) All username (Some "ocp-sim-oauth")
                 (ApplyObj (user_object username identity_name)));
  match r with
  | Ok u =>
      let uid := default "unknown" (om_uid (dyn_metadata u)) in
      _ ⟵ trigger (KPatch (KDynamic identity_ar) All identity_name (Some "ocp-sim-oauth")
                     (ApplyObj (identity_object username identity_name uid)));
      Ret tt
  | Err _ => Ret tt
  end.
End K8s.
