(* ===== verification/OAuthHandlers.v ===== *)
(** * [oauth/handlers.rs]: the authorize, token, JWKS and userinfo endpoints *)

From S2P Require Import Prelude RustStr Json Prog Kube Util Crates.
From S2P Require Import OAuthTypes OAuthEffects OAuthHelpers OAuthK8s.
Import UserStoreOps.
Open Scope list_scope.
Open Scope Z_scope.

(** A body that ends in a line feed. *)
Definition line (s : string) : string := s +:+ newline.

(** [redirect_uris.iter().any(|u| redirect_uri.starts_with(u))] *)
Definition uri_matches (redirect_uris : list string) (redirect_uri : string) : bool :=
  existsb (fun u => starts_with u redirect_uri) redirect_uris.

(** The email and groups of a user, with the defaults of an unknown one; the
    token and userinfo endpoints share this block. *)
Definition profile_of (store : UserStore) (user : string) : string * list string :=
  match get_user store user with
  | Some entry =>
      (default (user +:+ "@ocp-sim.test") (email entry),
       default ["system:authenticated"] (groups entry))
  | None => (user +:+ "@ocp-sim.test", ["system:authenticated"])
  end.

Section Handlers.
Context {CR : Crates}.
Abbreviation handler := (prog serverE Response).

Definition issue_auth_code (username client_id redirect_uri req_state : string)
    (code_challenge code_challenge_method : option string) : handler :=
  code ⟵ generate_random_string 32;
  _ ⟵ trigger (CodesInsert code (fun now => {|
         ac_username := username;
         ac_client_id := client_id;
         ac_created := now;
         ac_code_challenge := code_challenge;
         ac_code_challenge_method := code_challenge_method |}));
  let location :=
    match (match url_parse redirect_uri with
           | Some u => Some u
           | None => url_parse "http://localhost/error"
           end) with
    | Some redirect =>
        let redirect := url_append_pair redirect "code" code in
        let redirect := if negb (is_empty req_state)
                        then url_append_pair redirect "state" req_state else redirect in
        url_as_str redirect
    | None => "" (* not reached: the constant is a URL *)
    end in
  Ret (Resp FOUND [("location", location)] "").

Definition unauthorized_basic (b : string) : Response :=
  Resp UNAUTHORIZED [("www-authenticate", dq "Basic realm='openshift'")] b.

(** Base64, UTF-8 and [user:pass], in that order. *)
Definition decode_basic (encoded : string) : option (string * string) :=
  decoded ← b64_std_decode (trim encoded);
  cred_str ← from_utf8 decoded;
  split_once ":"%char cred_str.

Definition authorization_of (req : Request) : option string :=
  header_get "authorization" (req_headers req) ≫= header_to_str.

Definition handle_authorize_get (req : Request) : handler :=
  let params := parse_query (req_query req) in
  match params !! "client_id" with
  | None => Ret (text_response BAD_REQUEST (line "missing client_id"))
  | Some client_id =>
  match params !! "redirect_uri" with
  | None => Ret (text_response BAD_REQUEST (line "missing redirect_uri"))
  | Some redirect_uri =>
  let req_state := default "" (params !! "state") in
  let response_type := default "" (params !! "response_type") in
  let code_challenge := params !! "code_challenge" in
  let code_challenge_method := params !! "code_challenge_method" in
  c ⟵ validate_client client_id;
  match c with
  | None => Ret (text_response BAD_REQUEST (line "unknown client_id"))
  | Some (_, redirect_uris) =>
  if negb (uri_matches redirect_uris redirect_uri)
  then Ret (text_response BAD_REQUEST (line "redirect_uri mismatch"))
  else
  let without_basic :=
    if header_contains "x-csrf-token" (req_headers req)
    then unauthorized_basic (line "challenge")
    else
      let show_error := match params !! "error" with Some _ => true | None => false end in
      html_response OK (login_form_html client_id redirect_uri req_state response_type show_error) in
  match authorization_of req ≫= strip_prefix "Basic " with
  | None => Ret without_basic
  | Some encoded =>
      match decode_basic encoded with
      | None => Ret (unauthorized_basic (line "invalid credentials"))
      | Some (user, pass) =>
          us ⟵ trigger UsersRead;
          match authenticate us user pass with
          | None => Ret (unauthorized_basic (line "invalid credentials"))
          | Some _ =>
              _ ⟵ ensure_user_and_identity user;
              issue_auth_code user client_id redirect_uri req_state
                code_challenge code_challenge_method
          end
      end
  end end end end.

Definition handle_authorize_post (b : string) : handler :=
  let params := parse_form_body b in
  match params !! "client_id" with
  | None => Ret (text_response BAD_REQUEST (line "missing client_id"))
  | Some client_id =>
  match params !! "redirect_uri" with
  | None => Ret (text_response BAD_REQUEST (line "missing redirect_uri"))
  | Some redirect_uri =>
  let req_state := default "" (params !! "state") in
  let response_type := default "" (params !! "response_type") in
  let username := default "" (params !! "username") in
  let password := default "" (params !! "password") in
  let retry := html_response OK (login_form_html client_id redirect_uri req_state response_type true) in
  if is_empty username then Ret retry
  else
  us ⟵ trigger UsersRead;
  match authenticate us username password with
  | None => Ret retry
  | Some _ =>
  c ⟵ validate_client client_id;
  match c with
  | None => Ret (text_response BAD_REQUEST (line "unknown client_id"))
  | Some (_, redirect_uris) =>
  if negb (uri_matches redirect_uris redirect_uri)
  then Ret (text_response BAD_REQUEST (line "redirect_uri mismatch"))
  else
  _ ⟵ ensure_user_and_identity username;
  issue_auth_code username client_id redirect_uri req_state
    (params !! "code_challenge") (params !! "code_challenge_method")
  end end end end.

Definition verify_pkce (verifier challenge method : string) : bool :=
  if String.eqb method "S256" then String.eqb (b64_url_encode (sha256 verifier)) challenge
  else if String.eqb method "plain" then String.eqb verifier challenge
  else false.

Definition extract_client_id_from_basic (authorization : option string) : option string :=
  auth ← authorization;
  encoded ← strip_prefix "Basic " auth;
  '(user, _) ← decode_basic encoded;
  Some user.

Definition token_error (st : Z) (b : string) : Response := json_response st (dq b).

(** The last part of [handle_token], once the code and the client have been
    checked: mint the token and remember it. *)
Definition token_claims (user client_id : string) (prof : string * list string) (now : Z) : Value :=
  jobj [ "iss" =: VString ("https://" +:+ OAUTH_HOST +:+ "." +:+ DOMAIN);
         "sub" =: VString user;
         "aud" =: VString client_id;
         "preferred_username" =: VString user;
         "email" =: VString (prof.1);
         "groups" =: jstrs (prof.2);
         "iat" =: jint now;
         "exp" =: jint (now + as_secs TOKEN_TTL) ].

Definition mint_token (conf : OAuthConf) (user client_id : string) : prog serverE (option string) :=
  match jwt_keys conf with
  | Some keys =>
      us ⟵ trigger UsersRead;
      now ⟵ trigger SystemNow;
      Ret (jwt_encode (kid keys) (token_claims user client_id (profile_of us user) now)
              (encoding_key keys))
  | None =>
      r ⟵ generate_random_string 43;
      Ret (Some ("sha256~" +:+ r))
  end.

Definition token_body (token : string) : Value :=
  jobj [ "access_token" =: VString token; "token_type" =: VString "Bearer";
         "expires_in" =: jint (as_secs TOKEN_TTL) ].

Definition finish_token (conf : OAuthConf) (auth_code : AuthCode) (client_id : string) : handler :=
  t ⟵ mint_token conf (ac_username auth_code) client_id;
  match t with
  | None => Ret (token_error INTERNAL_SERVER_ERROR "{'error':'server_error'}")
  | Some token =>
      _ ⟵ trigger (TokensInsert token (fun now => {|
             ti_username := ac_username auth_code; ti_created := now |}));
      Ret (json_response OK (json_to_string (token_body token)))
  end.

(** PKCE when the code carries a challenge, the client's secret otherwise. *)
Definition check_client (auth_code : AuthCode) (client_id client_secret : string)
    (code_verifier : option string) : prog serverE (option Response) :=
  match ac_code_challenge auth_code with
  | Some challenge =>
      Ret match code_verifier with
           | Some verifier =>
               let method := default "S256" (ac_code_challenge_method auth_code) in
               if negb (verify_pkce verifier challenge method)
               then Some (token_error BAD_REQUEST
                      "{'error':'invalid_grant','error_description':'code_verifier mismatch'}")
               else None
           | None =>
               Some (token_error BAD_REQUEST
                 "{'error':'invalid_request','error_description':'missing code_verifier'}")
           end
  | None =>
      c ⟵ validate_client client_id;
      Ret match c with
           | None => Some (token_error BAD_REQUEST "{'error':'invalid_client'}")
           | Some (expected_secret, _) =>
               if negb (is_empty expected_secret) && negb (String.eqb client_secret expected_secret)
               then Some (token_error UNAUTHORIZED
                      "{'error':'invalid_client','error_description':'bad client_secret'}")
               else None
           end
  end.

Definition handle_token (conf : OAuthConf) (b : string) (authorization : option string) : handler :=
  let params := parse_form_body b in
  let grant_type := default "" (params !! "grant_type") in
  if negb (String.eqb grant_type "authorization_code")
  then Ret (token_error BAD_REQUEST "{'error':'unsupported_grant_type'}")
  else
  match params !! "code" with
  | None => Ret (token_error BAD_REQUEST
              "{'error':'invalid_request','error_description':'missing code'}")
  | Some code =>
  match (match params !! "client_id" with
         | Some id => Some id
         | None => extract_client_id_from_basic authorization
         end) with
  | None => Ret (token_error BAD_REQUEST
              "{'error':'invalid_request','error_description':'missing client_id'}")
  | Some client_id =>
  let client_secret := default "" (params !! "client_secret") in
  let code_verifier := params !! "code_verifier" in
  ac ⟵ trigger (CodesRemove code);
  match ac with
  | None => Ret (token_error BAD_REQUEST "{'error':'invalid_grant'}")
  | Some auth_code =>
  now ⟵ trigger InstantNow;
  if CODE_TTL <? elapsed now (ac_created auth_code)
  then Ret (token_error BAD_REQUEST
         "{'error':'invalid_grant','error_description':'code expired'}")
  else
  if negb (String.eqb (ac_client_id auth_code) client_id)
  then Ret (token_error BAD_REQUEST
         "{'error':'invalid_grant','error_description':'client_id mismatch'}")
  else
  bad ⟵ check_client auth_code client_id client_secret code_verifier;
  match bad with
  | Some resp => Ret resp
  | None => finish_token conf auth_code client_id
  end end end end.

(** ** Reading tokens *)

Definition decode_jwt_username (token : string) : option string :=
  match splitn 3 "."%char token with
  | _ :: part1 :: _ =>
      payload ← b64_url_decode part1;
      claims ← json_from_str payload;
      v ← (match get "preferred_username" claims with
           | Some v => Some v
           | None => get "sub" claims
           end);
      as_str v
  | _ => None
  end.

Definition handle_jwks (conf : OAuthConf) : Response :=
  let keys :=
    match jwt_keys conf with
    | Some k =>
        VArray [ jobj [ "kty" =: VString "RSA"; "use" =: VString "sig"; "kid" =: VString (kid k);
                        "alg" =: VString "RS256"; "n" =: VString (n_b64 k); "e" =: VString (e_b64 k) ] ]
    | None => VArray []
    end in
  json_response OK (json_to_string (jobj [ "keys" =: keys ])).

Definition userinfo_body (user : string) (prof : string * list string) : Value :=
  jobj [ "sub" =: VString user; "name" =: VString user; "preferred_username" =: VString user;
         "email" =: VString (prof.1); "groups" =: jstrs (prof.2) ].

(** The user a bearer token stands for. *)
Definition token_user (token : string) : prog serverE (option string) :=
  if starts_with "eyJ" token then Ret (decode_jwt_username token)
  else
    info ⟵ trigger (TokensGet token);
    match info with
    | None => Ret None
    | Some info =>
        now ⟵ trigger InstantNow;
        Ret (if elapsed now (ti_created info) <? TOKEN_TTL then Some (ti_username info) else None)
    end.

Definition handle_userinfo (req : Request) : handler :=
  let auth := default "" (authorization_of req) in
  match strip_prefix "Bearer " auth with
  | None => Ret (json_response UNAUTHORIZED (dq "{'error':'missing bearer token'}"))
  | Some token =>
      u ⟵ token_user token;
      match u with
      | None => Ret (json_response UNAUTHORIZED (dq "{'error':'invalid_token'}"))
      | Some user =>
          us ⟵ trigger UsersRead;
          Ret (json_response OK (json_to_string (userinfo_body user (profile_of us user))))
      end
  end.

Definition is_cli_auth_request (req : Request) : bool :=
  header_contains "authorization" (req_headers req) ||
  header_contains "x-csrf-token" (req_headers req).

(** ** Keys *)

(** [JwtKeys::generate]: [None] stands for a panic of an [expect] or of the
    DER reader. *)
Definition bytes_of (l : list Z) : string :=
  String.string_of_list_ascii ((fun b => ascii_of_nat (Z.to_nat b)) <$> l).

Definition jwt_keys_generate : prog serverE (option JwtKeys) :=
  '(pem, raw) ⟵ trigger GenerateRsa;
  match from_rsa_pem pem, Der.parse_rsa_integers raw with
  | Some ek, Some (n, e) =>
      k ⟵ generate_random_string 12;
      Ret (Some {| encoding_key := ek; kid := k;
                    n_b64 := b64_url_encode (bytes_of n); e_b64 := b64_url_encode (bytes_of e) |})
  | _, _ => Ret None
  end.
End Handlers.
