(* ===== verification/OAuthByoidc.v ===== *)
(** * [oauth/byoidc.rs]: delegation to an external OIDC provider *)

From S2P Require Import Prelude RustStr Json Prog Kube Util Crates.
From S2P Require Import OAuthTypes OAuthEffects OAuthHelpers OAuthK8s OAuthHandlers.
Open Scope list_scope.
Open Scope Z_scope.

Section Byoidc.
Context {CR : Crates}.

(** ** [ExternalJwksCache] *)

Definition rewrite_to_internal (external_url issuer : string) : string :=
  match url_parse external_url with
  | None => external_url
  | Some ext =>
      match url_parse issuer with
      | None => external_url
      | Some iss =>
          let internal := url_set_path iss (url_path ext) in
          let internal := url_set_query internal (url_query ext) in
          url_as_str internal
      end
  end.

Definition http_get (url : string) : HttpReq := {|
  hr_method := "GET"; hr_url := url; hr_headers := []; hr_body := NoBody;
  hr_follow_redirects := true |}.

(** [client.get(url).send()] followed by [resp.json()] *)
Definition fetch_json (url : string) : prog serverE (option Value) :=
  r ⟵ http (HttpSend (http_get url));
  Ret (resp ← r; b ← hp_body resp; json_from_str b).

Definition discovery_of (doc : Value) : ExternalOidcDiscovery := {|
  authorization_endpoint := default "" (get_str "authorization_endpoint" doc);
  token_endpoint := default "" (get_str "token_endpoint" doc);
  userinfo_endpoint := default "" (get_str "userinfo_endpoint" doc);
  jwks_uri := default "" (get_str "jwks_uri" doc) |}.

(** One iteration of the loop over the keys of a JWKS document. *)
Definition add_jwk (new_keys : gmap string DecodingKey) (key : Value) : gmap string DecodingKey :=
  let kty := default "" (get_str "kty" key) in
  let kid := default "" (get_str "kid" key) in
  if negb (String.eqb kty "RSA") then new_keys
  else
    let n := default "" (get_str "n" key) in
    let e := default "" (get_str "e" key) in
    match from_rsa_components n e with
    | Some dk => <[kid := dk]> new_keys
    | None => new_keys
    end.

Definition jwks_keys (jwks : Value) : gmap string DecodingKey :=
  match get_array "keys" jwks with
  | Some keys => foldl add_jwk ∅ keys
  | None => ∅
  end.

Definition refresh (issuer : string) : prog serverE unit :=
  let issuer_trimmed := trim_end_matches "/"%char issuer in
  doc ⟵ fetch_json (issuer_trimmed +:+ "/.well-known/openid-configuration");
  match doc with
  | None => Ret tt
  | Some doc =>
      let disc := discovery_of doc in
      _ ⟵ http (ExtDiscWrite disc);
      if is_empty (jwks_uri disc) then Ret tt
      else
        jwks ⟵ fetch_json (rewrite_to_internal (jwks_uri disc) issuer_trimmed);
        match jwks with
        | None => Ret tt
        | Some jwks => http (ExtKeysWrite (jwks_keys jwks))
        end
  end.

(** [ExternalJwksCache::new]: up to five attempts, three seconds apart. *)
Fixpoint jwks_cache_attempts (attempts : nat) (issuer : string) : prog serverE unit :=
  match attempts with
  | O => Ret tt
  | S rest =>
      _ ⟵ refresh issuer;
      keys ⟵ http ExtKeysRead;
      if negb (bool_decide (keys = ∅ :> gmap string DecodingKey)) then Ret tt
      else match rest with
           | O => Ret tt
           | S _ => _ ⟵ trigger (SleepSecs 3); jwks_cache_attempts rest issuer
           end
  end.
Definition jwks_cache_new (issuer : string) : prog serverE unit := jwks_cache_attempts 5 issuer.

Definition validate_token (token : string) : prog serverE (option Value) :=
  match (b ← b64_url_decode (split_first "."%char token); json_from_str b) with
  | None => Ret None
  | Some header =>
      let kid := default "" (get_str "kid" header) in
      keys ⟵ http ExtKeysRead;
      match keys !! kid with
      | None => Ret None
      | Some dk => http (JwtDecode token dk)
      end
  end.

(** ** Endpoints *)

(** [None] when the [unwrap] of the rewritten URL panics. *)
Definition handle_byoidc_authorize (conf : OAuthConf) (req : Request) : prog serverE (option Response) :=
  match byoidc conf with
  | None => Ret (Some (text_response INTERNAL_SERVER_ERROR (line "BYOIDC not configured")))
  | Some cfg =>
  if negb (external_jwks conf)
  then Ret (Some (text_response INTERNAL_SERVER_ERROR (line "BYOIDC JWKS not loaded")))
  else
  disc ⟵ http ExtDiscRead;
  if is_empty (authorization_endpoint disc)
  then Ret (Some (text_response BAD_GATEWAY (line "external authorization_endpoint not discovered")))
  else
  let params := parse_query (req_query req) in
  let redirect_uri := default "" (params !! "redirect_uri") in
  let req_state := default "" (params !! "state") in
  match url_parse (authorization_endpoint disc) with
  | None => Ret (Some (text_response BAD_GATEWAY (line "invalid external authorization_endpoint")))
  | Some ext_url =>
      let base := "https://entra." +:+ DOMAIN in
      match url_parse (base +:+ url_path ext_url) with
      | None => Ret None
      | Some u =>
          let u := url_append_pair u "response_type" "code" in
          let u := url_append_pair u "client_id" (byoidc_client_id cfg) in
          let u := url_append_pair u "redirect_uri" redirect_uri in
          let u := url_append_pair u "scope" "openid email profile api://picoshift/.default" in
          let u := url_append_pair u "state" req_state in
          Ret (Some (Resp FOUND [("location", url_as_str u)] ""))
      end
  end end.

(** The user named by validated claims. *)
Definition claims_username (claims : Value) : string :=
  default "unknown"
    ((match get "preferred_username" claims with
      | Some v => Some v
      | None => match get "email" claims with
                | Some v => Some v
                | None => get "sub" claims
                end
      end) ≫= as_str).

Definition token_form (cfg : ByoidcConfig) (code redirect_uri : string) : list (string * string) :=
  [ ("grant_type", "authorization_code"); ("code", code);
    ("client_id", byoidc_client_id cfg); ("client_secret", byoidc_client_secret cfg);
    ("redirect_uri", redirect_uri) ].

Definition handle_byoidc_token (conf : OAuthConf) (b : string) : prog serverE Response :=
  match byoidc conf with
  | None => Ret (token_error INTERNAL_SERVER_ERROR "{'error':'byoidc_not_configured'}")
  | Some cfg =>
  if negb (external_jwks conf)
  then Ret (token_error INTERNAL_SERVER_ERROR "{'error':'byoidc_jwks_not_loaded'}")
  else
  disc ⟵ http ExtDiscRead;
  if is_empty (token_endpoint disc)
  then Ret (token_error BAD_GATEWAY "{'error':'no_external_token_endpoint'}")
  else
  let params := parse_form_body b in
  let code := default "" (params !! "code") in
  let redirect_uri := default "" (params !! "redirect_uri") in
  r ⟵ http (HttpSend {|
        hr_method := "POST"; hr_url := token_endpoint disc; hr_headers := [];
        hr_body := FormBody (token_form cfg code redirect_uri); hr_follow_redirects := true |});
  match r with
  | None => Ret (token_error BAD_GATEWAY "{'error':'token_exchange_failed'}")
  | Some resp =>
  match (x ← hp_body resp; json_from_str x) with
  | None => Ret (token_error BAD_GATEWAY "{'error':'token_parse_failed'}")
  | Some token_resp =>
      _ ⟵ (match get_str "access_token" token_resp with
           | None => Ret tt
           | Some access_token =>
               c ⟵ validate_token access_token;
               match c with
               | Some claims => ensure_user_and_identity (claims_username claims)
               | None =>
                   match get_str "id_token" token_resp with
                   | None => Ret tt
                   | Some id_token =>
                       c ⟵ validate_token id_token;
                       match c with
                       | Some claims => ensure_user_and_identity (claims_username claims)
                       | None => Ret tt
                       end
                   end
               end
           end);
      Ret (json_response OK (json_to_string token_resp))
  end end end.

Definition claims_groups (claims : Value) : list string :=
  match get_array "groups" claims with
  | Some arr => omap as_str arr
  | None => ["system:authenticated"]
  end.

Definition handle_byoidc_userinfo (conf : OAuthConf) (req : Request) : prog serverE Response :=
  if negb (external_jwks conf)
  then Ret (token_error INTERNAL_SERVER_ERROR "{'error':'byoidc_not_configured'}")
  else
  let auth := default "" (authorization_of req) in
  match strip_prefix "Bearer " auth with
  | None => Ret (token_error UNAUTHORIZED "{'error':'missing bearer token'}")
  | Some token =>
      c ⟵ validate_token token;
      match c with
      | Some claims =>
          let username := claims_username claims in
          let email := default "" (get_str "email" claims) in
          Ret (json_response OK (json_to_string (userinfo_body username (email, claims_groups claims))))
      | None => Ret (token_error UNAUTHORIZED "{'error':'invalid_token'}")
      end
  end.

Definition no_keys : Response := json_response OK (dq "{'keys':[]}").

Definition handle_byoidc_jwks (conf : OAuthConf) : prog serverE Response :=
  if negb (external_jwks conf) then Ret no_keys
  else match byoidc conf with
  | None => Ret no_keys
  | Some _ =>
      disc ⟵ http ExtDiscRead;
      if is_empty (jwks_uri disc) then Ret no_keys
      else
        r ⟵ http (HttpSend (http_get (jwks_uri disc)));
        Ret match (resp ← r; b ← hp_body resp; Some (response_text (hp_headers resp) b)) with
             | Some text => json_response OK text
             | None => no_keys
             end
  end.

Definition proxied_headers (hs : list (string * string)) : list (string * string) :=
  omap (fun name => v ← header_get name hs; Some (name, v))
    ["location"; "content-type"; "www-authenticate"; "cache-control"] ++
  List.filter (fun kv => String.eqb kv.1 "set-cookie") hs.

Definition handle_byoidc_proxy (conf : OAuthConf) (method path : string) (query : option string)
    (b : string) (content_type authorization : option string) : prog serverE Response :=
  match byoidc conf with
  | None => Ret (text_response BAD_GATEWAY (line "BYOIDC not configured"))
  | Some cfg =>
  match url_parse (issuer_url cfg) with
  | None => Ret (text_response BAD_GATEWAY (line "invalid issuer URL"))
  | Some u =>
      let base := url_scheme u +:+ "://" +:+ default "localhost" (url_host_str u) in
      let port := match url_port u with Some p => ":" +:+ pretty p | None => "" end in
      let target := base +:+ port +:+ path in
      let target := match query with Some q => target +:+ "?" +:+ q | None => target end in
      let auth_hdr := match authorization with Some a => [("authorization", a)] | None => [] end in
      let req :=
        if String.eqb method "POST" then {|
          hr_method := "POST"; hr_url := target;
          hr_headers := match content_type with Some ct => [("content-type", ct)] | None => [] end
                          ++ auth_hdr;
          hr_body := RawBody b; hr_follow_redirects := false |}
        else {|
          hr_method := "GET"; hr_url := target; hr_headers := auth_hdr;
          hr_body := NoBody; hr_follow_redirects := false |} in
      r ⟵ http (HttpSend req);
      Ret match r with
           | None => text_response BAD_GATEWAY (line "proxy request failed")
           | Some resp =>
               let st := hp_status resp in
               let st := if (100 <=? st) && (st <? 1000) then st else BAD_GATEWAY in
               Resp st (proxied_headers (hp_headers resp)) (default "" (hp_body resp))
           end
  end end.
End Byoidc.
