(* ===== verification/OAuthServer.v ===== *)
(** * [oauth/mod.rs] and [oauth/watcher.rs]: request routing, eviction, user reload *)

From S2P Require Import Prelude RustStr Json Prog Kube Util Crates.
From S2P Require Import OAuthTypes OAuthEffects OAuthHelpers OAuthK8s OAuthHandlers OAuthByoidc.
Import UserStoreOps.
Open Scope list_scope.
Open Scope Z_scope.

Definition is_byoidc (m : AuthMode) : bool := match m with Byoidc => true | _ => false end.

(** The paths forwarded to the external provider. *)
Definition byoidc_proxied (path : string) : bool :=
  contains "/oauth2/" path || contains "/v2.0/" path ||
  starts_with "/oidc/" path || starts_with "/admin" path.

(** Why a request gets no response: [hyper]'s error reading its body, or a
    panic of its handler. *)
Inductive NoResponse : Type := BodyError | HandlerPanicked.

Section Server.
Context {CR : Crates}.

Definition handle_request (conf : OAuthConf) (req : Request) : prog serverE (result NoResponse Response) :=
  let path := req_path req in
  let method := req_method req in
  let byo := is_byoidc (auth_mode conf) in
  let ep m p := String.eqb method m && String.eqb path p in
  if ep "GET" "/.well-known/oauth-authorization-server" || ep "GET" "/.well-known/openid-configuration"
  then Ret (Ok (json_response OK (discovery_json (auth_mode conf))))
  else if ep "GET" "/oauth/jwks"
  then if byo then r ⟵ handle_byoidc_jwks conf; Ret (Ok r) else Ret (Ok (handle_jwks conf))
  else if ep "GET" "/oauth/authorize"
  then if byo && negb (is_cli_auth_request req)
       then r ⟵ handle_byoidc_authorize conf req;
            Ret (match r with Some r => Ok r | None => Err HandlerPanicked end)
       else r ⟵ handle_authorize_get req; Ret (Ok r)
  else if ep "GET" "/oauth/userinfo"
  then if byo then r ⟵ handle_byoidc_userinfo conf req; Ret (Ok r)
       else r ⟵ handle_userinfo req; Ret (Ok r)
  else
  let content_type := header_get "content-type" (req_headers req) ≫= header_to_str in
  let authorization := authorization_of req in
  match req_body req with
  | None => Ret (Err BodyError)
  | Some b =>
      if ep "POST" "/oauth/authorize"
      then r ⟵ handle_authorize_post b; Ret (Ok r)
      else if ep "POST" "/oauth/token"
      then if byo then r ⟵ handle_byoidc_token conf b; Ret (Ok r)
           else r ⟵ handle_token conf b authorization; Ret (Ok r)
      else if byo && byoidc_proxied path
      then r ⟵ handle_byoidc_proxy conf method path (req_query req) b content_type authorization;
           Ret (Ok r)
      else Ret (Ok (text_response NOT_FOUND (line "not found")))
  end.

(** One round of the background task of [run]: drop what has expired. *)
Definition evict : prog serverE unit :=
  let code_ttl := from_secs 300 in
  let token_ttl := from_secs 86400 in
  _ ⟵ trigger (CodesRetain (fun now v => elapsed now (ac_created v) <? code_ttl));
  _ ⟵ trigger (TokensRetain (fun now v => elapsed now (ti_created v) <? token_ttl));
  Ret tt.

(** ** [watcher.rs] *)

Definition HTPASSWD_SECRET : string := "htpass-secret".
Definition HTPASSWD_NS : string := "openshift-config".
Definition HTPASSWD_KEY : string := "htpasswd".

Definition htpasswd_data (secret : Secret) : option string :=
  match sec_data secret ≫= (fun d => d !! HTPASSWD_KEY) with
  | Some b => Some (from_utf8_lossy b)
  | None => sec_string_data secret ≫= (fun d => d !! HTPASSWD_KEY)
  end.

(** The body of the watch loop for one event ([None]: a watch error). *)
Definition on_htpasswd_event (event : option Secret) : prog serverE unit :=
  match event with
  | None => Ret tt
  | Some secret =>
      let name := default "" (om_name (sec_metadata secret)) in
      if negb (String.eqb name HTPASSWD_SECRET) then Ret tt
      else match htpasswd_data secret with
           | Some data => trigger (UsersWrite (from_htpasswd data))
           | None => Ret tt
           end
  end.

Definition watch_htpasswd_secret (events : list (option Secret)) : prog serverE unit :=
  for_each events on_htpasswd_event.

(** ** Start-up: [OAuthState::new] *)

Definition oauth_state_new (mode : AuthMode) (cfg : option ByoidcConfig) :
    prog serverE (option OAuthConf) :=
  keys ⟵ (match mode with
          | Oidc => jwt_keys_generate
          | _ => Ret None
          end);
  match mode, keys with
  | Oidc, None => Ret None (* panicked *)
  | _, _ =>
      match cfg with
      | Some c =>
          _ ⟵ jwks_cache_new (issuer_url c);
          Ret (Some {| auth_mode := mode; jwt_keys := keys; byoidc := Some c; external_jwks := true |})
      | None =>
          Ret (Some {| auth_mode := mode; jwt_keys := keys; byoidc := None; external_jwks := false |})
      end
  end.
End Server.
