(* ===== verification/OAuthSafety.v ===== *)
(** * Safety of the OAuth server under every interleaving of requests

    Monitors over the effects of one task: tokens are minted only from redeemed
    codes, codes are issued only to authenticated users of a registered client,
    and only a server in BYOIDC mode makes outgoing requests.  The pool theorem
    of [Prog] lifts them to any number of concurrent requests, evictions and
    user reloads. *)

From S2P Require Import Prelude RustStr Json Prog Kube Util Crates.
From S2P Require Import OAuthTypes OAuthEffects OAuthHelpers OAuthK8s OAuthHandlers OAuthByoidc OAuthServer.
Import UserStoreOps.
Open Scope list_scope.
Open Scope Z_scope.

(** ** Proof automation *)

Create HintDb confined.


Ltac only_step :=
  lazymatch goal with
  | |- True => exact I
  | |- only _ (Ret _) => exact I
  | |- only _ (Vis _ _) => cbn [only]; split; [try solve [repeat split]|intros ?]
  | |- only _ (trigger _) => prog_unfold
  | |- only _ (http _) => unfold http
  | |- only _ (let '_ := ?x in _) => destruct x eqn:?
  | |- only _ (if ?x then _ else _) => destruct x eqn:?
  | |- only _ (match ?x with _ => _ end) => destruct x eqn:?
  | |- only _ (prog_bind _ _) => apply only_bind; [|intros ?]
  end.
Ltac solve_only := cbv zeta; repeat first [solve [eauto 4 with confined nocore] | only_step].

Ltac wp_step :=
  lazymatch goal with
  | |- wp _ _ (Ret _) _ => cbn [wp]
  | |- wp _ _ (Vis _ _) _ => cbn [wp]; split; [|intros ?]
  | |- wp _ _ (trigger _) _ => prog_unfold
  | |- wp _ _ (http _) _ => unfold http
  | |- wp _ _ (let '_ := ?x in _) _ => destruct x eqn:?
  | |- wp _ _ (if ?x then _ else _) _ => destruct x eqn:?
  | |- wp _ _ (match ?x with _ => _ end) _ => destruct x eqn:?
  end.

(** ** Classes of effects *)

Section Confinement.
Context {CR : Crates}.

(** Leaves the codes, the tokens and the users as they are. *)
Definition quiet X (e : serverE X) : Prop :=
  match e with
  | inlE oe =>
      match oe with
      | CodesInsert _ _ | CodesRemove _ | CodesRetain _
      | TokensInsert _ _ | TokensRetain _ | UsersWrite _ => False
      | _ => True
      end
  | _ => True
  end.

(** Stays inside the cluster. *)
Definition internal X (e : serverE X) : Prop :=
  match e with inrE (inrE _) => False | _ => True end.

Definition quiet_internal X (e : serverE X) : Prop := quiet X e /\ internal X e.

Lemma qi_quiet {A} (p : prog serverE A) : only quiet_internal p -> only quiet p.
Proof. apply only_weaken. by intros X e []. Qed.
Lemma qi_internal {A} (p : prog serverE A) : only quiet_internal p -> only internal p.
Proof. apply only_weaken. by intros X e []. Qed.

Lemma qi_random n : only quiet_internal (generate_random_string n).
Proof. unfold generate_random_string. solve_only. Qed.
Lemma qi_validate_client c : only quiet_internal (validate_client c).
Proof. unfold validate_client. solve_only. Qed.
Lemma qi_ensure_user u : only quiet_internal (ensure_user_and_identity u).
Proof. unfold ensure_user_and_identity. solve_only. Qed.
Hint Resolve qi_random qi_validate_client qi_ensure_user : confined.
Hint Resolve qi_quiet qi_internal : confined.

Lemma qi_check_client ac id sec ver : only quiet_internal (check_client ac id sec ver).
Proof. unfold check_client. solve_only. Qed.
Lemma qi_mint_token conf u id : only quiet_internal (mint_token conf u id).
Proof. unfold mint_token. solve_only. Qed.
Lemma qi_userinfo req : only quiet_internal (handle_userinfo req).
Proof. unfold handle_userinfo, token_user. solve_only. Qed.
Hint Resolve qi_check_client qi_mint_token qi_userinfo : confined.

Lemma quiet_validate_token t : only quiet (validate_token t).
Proof. unfold validate_token. solve_only. Qed.
Hint Resolve quiet_validate_token : confined.
Lemma quiet_byoidc_authorize conf req : only quiet (handle_byoidc_authorize conf req).
Proof. unfold handle_byoidc_authorize. solve_only. Qed.
Lemma quiet_byoidc_token conf b : only quiet (handle_byoidc_token conf b).
Proof.
  unfold handle_byoidc_token.
  pose proof (fun u => qi_quiet _ (qi_ensure_user u)). solve_only.
Qed.
Lemma quiet_byoidc_userinfo conf req : only quiet (handle_byoidc_userinfo conf req).
Proof. unfold handle_byoidc_userinfo. solve_only. Qed.
Lemma quiet_byoidc_jwks conf : only quiet (handle_byoidc_jwks conf).
Proof. unfold handle_byoidc_jwks. solve_only. Qed.
Lemma quiet_byoidc_proxy conf m p q b ct a : only quiet (handle_byoidc_proxy conf m p q b ct a).
Proof. unfold handle_byoidc_proxy. solve_only. Qed.
End Confinement.
#[export] Hint Resolve qi_random qi_validate_client qi_ensure_user qi_check_client qi_mint_token
  qi_userinfo qi_quiet qi_internal quiet_byoidc_authorize quiet_byoidc_token quiet_byoidc_userinfo
  quiet_byoidc_jwks quiet_byoidc_proxy : confined.

(** ** The tasks of the server *)

Section Tasks.
Context {CR : Crates}.

(** A request is served, the background task runs one round, a watch event
    arrives. *)
Inductive task : Type :=
| Serve (req : Request)
| EvictRound
| WatchEvent (ev : option Secret).

Definition task_code (conf : OAuthConf) (t : task) : prog serverE unit :=
  match t with
  | Serve req => _ ⟵ handle_request conf req; Ret tt
  | EvictRound => evict
  | WatchEvent ev => on_htpasswd_event ev
  end.

Context {W : Type} `{!Host W}.

(** The environment may change anything but the server's own memory. *)
Definition env_step (s s' : OAuthStore * W) : Prop := s'.1 = s.1.

Definition server_reachable (conf : OAuthConf) (us : UserStore) (w : W) :
    config serverE task unit (OAuthStore * W) -> Prop :=
  reachable server_step (task_code conf) env_step (oauth_store_new us, w).
End Tasks.

(** ** Tokens come from codes *)

Section Tokens.
Context {CR : Crates}.

(** The state is the code redeemed and not yet turned into a token. *)
Definition token_allow X (st : option AuthCode) (e : serverE X) : Prop :=
  match e with
  | inlE (TokensInsert _ mk) =>
      exists ac, st = Some ac /\ forall now, mk now = {| ti_username := ac_username ac; ti_created := now |}
  | _ => True
  end.

Definition token_next X (st : option AuthCode) (e : serverE X) : X -> option AuthCode :=
  match e with
  | inlE oe =>
      match oe in oauthE X return X -> option AuthCode with
      | CodesRemove _ => fun r => r
      | TokensInsert _ _ => fun _ => None
      | _ => fun _ => st
      end
  | _ => fun _ => st
  end.

Definition token_monitor : monitor serverE :=
  {| mstate := option AuthCode; mallow := token_allow; mnext := token_next |}.

Lemma token_quiet {A} st (p : prog serverE A) Q :
  only quiet p -> (forall a, Q st a) -> wp token_monitor st p Q.
Proof.
  intros Hp HQ. eapply wp_mono; [eapply (wp_only quiet)|]; [|exact Hp|by intros ? a ->].
  by intros X [[]|[|]]; simpl.
Qed.

Lemma token_issue st u id uri rs ch m :
  wp token_monitor st (issue_auth_code u id uri rs ch m) (fun _ _ => True).
Proof.
  unfold issue_auth_code. apply wp_bind. apply token_quiet; [eauto with confined|]. intros code.
  apply wp_bind. prog_unfold. simpl. auto.
Qed.

Lemma token_finish conf ac id :
  wp token_monitor (Some ac) (finish_token conf ac id) (fun _ _ => True).
Proof.
  unfold finish_token. apply wp_bind. apply token_quiet; [eauto with confined|]. intros [t|]; [|done].
  apply wp_bind. prog_unfold. simpl. eauto.
Qed.

(** Dispatch a bind whose head is quiet. *)
Ltac quiet_head :=
  apply wp_bind; apply token_quiet; [solve [eauto with confined | prog_unfold; simpl; auto]|intros ?].

Lemma token_authorize_get req : wp token_monitor None (handle_authorize_get req) (fun _ _ => True).
Proof.
  unfold handle_authorize_get. cbv zeta.
  repeat first [exact I | apply token_issue | quiet_head | wp_step].
Qed.

Lemma token_authorize_post b : wp token_monitor None (handle_authorize_post b) (fun _ _ => True).
Proof.
  unfold handle_authorize_post. cbv zeta.
  repeat first [exact I | apply token_issue | quiet_head | wp_step].
Qed.

Lemma token_handle_token conf b a : wp token_monitor None (handle_token conf b a) (fun _ _ => True).
Proof.
  unfold handle_token. cbv zeta.
  repeat first [exact I | apply token_finish | quiet_head | wp_step];
    apply wp_bind; prog_unfold; cbn [wp mallow mnext token_monitor token_allow token_next]; split; [done|].
  intros [ac|]; [|done].
  repeat first [exact I | apply token_finish | quiet_head | wp_step].
Qed.

Lemma token_task conf t : wp token_monitor None (task_code conf t) (fun _ _ => True).
Proof.
  destruct t as [req| |ev]; simpl.
  - apply wp_bind. unfold handle_request. cbv zeta.
    repeat first
      [ exact I
      | quiet_head
      | apply wp_bind; eapply wp_mono;
        [first [apply token_authorize_get | apply token_authorize_post | apply token_handle_token]
        |intros ???]
      | wp_step ].
  - unfold evict. prog_unfold. simpl. auto.
  - unfold on_htpasswd_event. cbv zeta. repeat first [exact I | wp_step].
Qed.
End Tokens.

(** ** Codes come from authenticated users of registered clients *)

Section Codes.
Context {CR : Crates}.

(** The parameters of an authorization request. *)
Definition form_of (req : Request) : gmap string string :=
  if String.eqb (req_method req) "POST" then parse_form_body (default "" (req_body req))
  else parse_query (req_query req).

(** The request carries this user name and password. *)
Definition presents (req : Request) (user pass : string) : Prop :=
  if String.eqb (req_method req) "POST"
  then user <> "" /\ default "" (form_of req !! "username") = user /\
       default "" (form_of req !! "password") = pass
  else (authorization_of req ≫= strip_prefix "Basic ") ≫= decode_basic = Some (user, pass).

(** What the request may have issued, given the users it read and the client
    it looked up last. *)
Definition grantable (req : Request) (us : UserStore) (id : string) (client : Value)
    (mk : Z -> AuthCode) : Prop :=
  exists user pass uri,
    presents req user pass /\
    authenticate us user pass <> None /\
    form_of req !! "client_id" = Some id /\
    form_of req !! "redirect_uri" = Some uri /\
    uri_matches (redirect_uris_of client) uri = true /\
    forall now, mk now = {|
      ac_username := user; ac_client_id := id; ac_created := now;
      ac_code_challenge := form_of req !! "code_challenge";
      ac_code_challenge_method := form_of req !! "code_challenge_method" |}.

Record seen : Type := Seen {
  seen_users : option UserStore;
  seen_client : option (ApiResource * string * DynamicObject)
}.

Definition code_allow (t : task) X (st : seen) (e : serverE X) : Prop :=
  match e with
  | inlE (CodesInsert _ mk) =>
      exists req us id client,
        t = Serve req /\ seen_users st = Some us /\
        seen_client st = Some (oauth_client_ar, id, client) /\
        grantable req us id (data client) mk
  | _ => True
  end.

Definition kube_seen (st : seen) X (e : kubeE X) : X -> seen :=
  match e in kubeE X return X -> seen with
  | KGet k All name =>
      match k return KRes (Obj k) -> seen with
      | KDynamic ar => fun r =>
          match r with Ok o => Seen (seen_users st) (Some (ar, name, o)) | Err _ => st end
      | _ => fun _ => st
      end
  | _ => fun _ => st
  end.

Definition code_next X (st : seen) (e : serverE X) : X -> seen :=
  match e with
  | inlE oe =>
      match oe in oauthE X return X -> seen with
      | UsersRead => fun us => Seen (Some us) (seen_client st)
      | _ => fun _ => st
      end
  | inrE (inlE ke) => kube_seen st X ke
  | _ => fun _ => st
  end.

Definition code_monitor (t : task) : monitor serverE :=
  {| mstate := seen; mallow := code_allow t; mnext := code_next |}.

(** Programs that issue no code. *)
Definition no_issue X (e : serverE X) : Prop :=
  match e with inlE (CodesInsert _ _) => False | _ => True end.

Lemma quiet_no_issue {A} (p : prog serverE A) : only quiet p -> only no_issue p.
Proof. apply only_weaken. by intros X [[]|]. Qed.

Lemma code_no_issue {A} t st (p : prog serverE A) :
  only no_issue p -> wp (code_monitor t) st p (fun _ _ => True).
Proof.
  revert st. induction p as [|X e k IH]; intros st; simpl; [done|]. intros [He Hk].
  split; [|intros; by apply IH]. by destruct e as [[]|].
Qed.

(** What [validate_client] saw when it succeeded. *)
Lemma code_validate_client t st id :
  wp (code_monitor t) st (validate_client id) (fun st' r =>
    match r with
    | Some (_, uris) => exists o, st' = Seen (seen_users st) (Some (oauth_client_ar, id, o)) /\
                                  uris = redirect_uris_of (data o)
    | None => True
    end).
Proof. unfold validate_client. prog_unfold. simpl. split; [done|]. intros [o|e]; simpl; eauto. Qed.

Lemma code_ensure_user t st u :
  wp (code_monitor t) st (ensure_user_and_identity u) (fun st' _ => st' = st).
Proof. unfold ensure_user_and_identity. prog_unfold. simpl. split; [done|]. intros []; simpl; auto. Qed.

Lemma code_issue req us id o u uri rs st :
  st = Seen (Some us) (Some (oauth_client_ar, id, o)) ->
  (forall mk, (forall now, mk now = {|
      ac_username := u; ac_client_id := id; ac_created := now;
      ac_code_challenge := form_of req !! "code_challenge";
      ac_code_challenge_method := form_of req !! "code_challenge_method" |}) ->
    grantable req us id (data o) mk) ->
  wp (code_monitor (Serve req)) st
    (issue_auth_code u id uri rs (form_of req !! "code_challenge") (form_of req !! "code_challenge_method"))
    (fun _ _ => True).
Proof.
  intros -> Hg. unfold issue_auth_code, generate_random_string. prog_unfold.
  cbn [prog_bind wp]. split; [done|]. intros l. split; [|done].
  exists req, us, id, o. repeat split; [done..|]. by apply Hg.
Qed.

Ltac code_step :=
  first [exact I | wp_step].

Lemma code_authorize_get req st :
  String.eqb (req_method req) "GET" = true ->
  wp (code_monitor (Serve req)) st (handle_authorize_get req) (fun _ _ => True).
Proof.
  intros Hm. unfold handle_authorize_get. cbv zeta.
  assert (Hq : parse_query (req_query req) = form_of req).
  { unfold form_of. apply String.eqb_eq in Hm as ->. done. }
  rewrite Hq. clear Hq.
  destruct (form_of req !! "client_id") as [id|] eqn:Hid; [|done].
  destruct (form_of req !! "redirect_uri") as [uri|] eqn:Huri; [|done].
  apply wp_bind. eapply wp_mono; [apply code_validate_client|]. cbv beta.
  intros st1 [[sec uris]|]; [|done]. intros (o & -> & ->).
  destruct (uri_matches (redirect_uris_of (data o)) uri) eqn:Hu; cbn [negb]; [|done].
  destruct (authorization_of req ≫= strip_prefix "Basic ") as [enc|] eqn:Henc; [|done].
  destruct (decode_basic enc) as [[user pass]|] eqn:Hdec; [|done].
  apply wp_bind. prog_unfold. cbn [wp]. split; [done|]. intros us. cbn [mnext code_monitor code_next].
  destruct (authenticate us user pass) as [en|] eqn:Ha; [|done].
  apply wp_bind. eapply wp_mono; [apply code_ensure_user|]. cbv beta. intros st2 _ ->.
  eapply code_issue; [done|]. intros mk Hmk. exists user, pass, uri.
  split_and!; [|by rewrite Ha|done..].
  unfold presents. apply String.eqb_eq in Hm as ->. cbn [String.eqb Ascii.eqb Bool.eqb]. by rewrite Henc.
Qed.

Lemma code_authorize_post req b st :
  String.eqb (req_method req) "POST" = true -> req_body req = Some b ->
  wp (code_monitor (Serve req)) st (handle_authorize_post b) (fun _ _ => True).
Proof.
  intros Hm Hb. unfold handle_authorize_post. cbv zeta.
  assert (Hq : parse_form_body b = form_of req) by (unfold form_of; by rewrite Hm, Hb).
  rewrite Hq. clear Hq.
  destruct (form_of req !! "client_id") as [id|] eqn:Hid; [|done].
  destruct (form_of req !! "redirect_uri") as [uri|] eqn:Huri; [|done].
  destruct (is_empty _) eqn:Hne; [done|].
  apply wp_bind. prog_unfold. cbn [wp]. split; [done|]. intros us. cbn [mnext code_monitor code_next].
  destruct (authenticate us _ _) as [en|] eqn:Ha; [|done].
  apply wp_bind. eapply wp_mono; [apply code_validate_client|]. cbv beta.
  intros st1 [[sec uris]|]; [|done]. intros (o & -> & ->).
  destruct (uri_matches (redirect_uris_of (data o)) uri) eqn:Hu; cbn [negb]; [|done].
  apply wp_bind. eapply wp_mono; [apply code_ensure_user|]. cbv beta. intros st2 _ ->.
  eapply code_issue; [done|]. intros mk Hmk.
  exists (default "" (form_of req !! "username")), (default "" (form_of req !! "password")), uri.
  split_and!; [|by rewrite Ha|done..].
  unfold presents. rewrite Hm. split_and!; [|done..].
  intros He. by rewrite He in Hne.
Qed.

Lemma no_issue_token conf b a : only no_issue (handle_token conf b a).
Proof.
  unfold handle_token. cbv zeta.
  pose proof (fun ac i s v => quiet_no_issue _ (qi_quiet _ (qi_check_client ac i s v))).
  pose proof (fun c u i => quiet_no_issue _ (qi_quiet _ (qi_mint_token c u i))).
  unfold finish_token. repeat first [solve [auto] | only_step].
Qed.

Lemma code_task conf t : wp (code_monitor t) (Seen None None) (task_code conf t) (fun _ _ => True).
Proof.
  destruct t as [req| |ev].
  - simpl. apply wp_bind. unfold handle_request. cbv zeta.
    repeat first
      [ exact I
      | apply wp_bind; eapply wp_mono; [first
          [ apply code_authorize_get | eapply code_authorize_post
          | apply code_no_issue; first [apply no_issue_token | apply quiet_no_issue; eauto with confined]]
        |intros ???]
      | wp_step ]; repeat match goal with H : _ && _ = true |- _ => apply andb_true_iff in H as [? ?] end;
      done.
  - unfold evict. prog_unfold. simpl. auto.
  - apply code_no_issue. simpl. unfold on_htpasswd_event. cbv zeta. solve_only.
Qed.
End Codes.

(** ** The modes of the server *)

Section Modes.
Context {CR : Crates}.

Lemma internal_issue u id uri rs ch m : only internal (issue_auth_code u id uri rs ch m).
Proof. unfold issue_auth_code. solve_only. Qed.

Lemma internal_finish conf ac id : only internal (finish_token conf ac id).
Proof. unfold finish_token. solve_only. Qed.
Hint Resolve internal_issue internal_finish : confined.

Lemma internal_authorize_get req : only internal (handle_authorize_get req).
Proof. unfold handle_authorize_get. solve_only. Qed.
Lemma internal_authorize_post b : only internal (handle_authorize_post b).
Proof. unfold handle_authorize_post. solve_only. Qed.
Lemma internal_token conf b a : only internal (handle_token conf b a).
Proof. unfold handle_token. solve_only. Qed.
Hint Resolve internal_authorize_get internal_authorize_post internal_token : confined.

(** Outside BYOIDC mode nothing leaves the cluster. *)
Lemma internal_task conf t :
  is_byoidc (auth_mode conf) = false -> only internal (task_code conf t).
Proof.
  intros Hb. destruct t as [req| |ev]; simpl.
  - apply only_bind; [|done]. unfold handle_request. cbv zeta. rewrite Hb. cbn [andb]. solve_only.
  - simpl; auto.
  - unfold on_htpasswd_event. solve_only.
Qed.

(** Neither redeems a code nor mints a token. *)
Definition no_exchange X (e : serverE X) : Prop :=
  match e with inlE (CodesRemove _) | inlE (TokensInsert _ _) => False | _ => True end.

Lemma quiet_no_exchange {A} (p : prog serverE A) : only quiet p -> only no_exchange p.
Proof. apply only_weaken. by intros X [[]|]. Qed.
Hint Resolve quiet_no_exchange : confined.

Lemma no_exchange_issue u id uri rs ch m : only no_exchange (issue_auth_code u id uri rs ch m).
Proof. unfold issue_auth_code. repeat first [solve [eauto 4 with confined nocore] | only_step]. Qed.
Hint Resolve no_exchange_issue : confined.

Lemma no_exchange_authorize_get req : only no_exchange (handle_authorize_get req).
Proof.
  unfold handle_authorize_get. cbv zeta. repeat first [solve [eauto 4 with confined nocore] | only_step].
Qed.
Lemma no_exchange_authorize_post b : only no_exchange (handle_authorize_post b).
Proof.
  unfold handle_authorize_post. cbv zeta. repeat first [solve [eauto 4 with confined nocore] | only_step].
Qed.
Hint Resolve no_exchange_authorize_get no_exchange_authorize_post : confined.

Lemma no_exchange_task conf t :
  is_byoidc (auth_mode conf) = true -> only no_exchange (task_code conf t).
Proof.
  intros Hb. destruct t as [req| |ev]; simpl.
  - apply only_bind; [|done]. unfold handle_request. cbv zeta. rewrite Hb.
    repeat first [solve [eauto 4 with confined nocore] | only_step].
  - simpl; auto.
  - unfold on_htpasswd_event. solve_only.
Qed.
End Modes.
