(* ===== verification/OAuthConcurrency.v ===== *)
(** * What holds of the OAuth server whatever the schedule

    Consequences of the monitors of [OAuthSafety] for every reachable pool of
    requests, eviction rounds and watch events, over an arbitrary cluster,
    clock and random source. *)

From S2P Require Import Prelude RustStr Json Prog Kube Util Crates.
From S2P Require Import OAuthTypes OAuthEffects OAuthHelpers OAuthK8s OAuthHandlers OAuthByoidc OAuthServer.
From S2P Require Import OAuthSafety.
Import UserStoreOps.
Open Scope list_scope.
Open Scope Z_scope.

(** ** Reading events *)

Section Events.
Context {CR : Crates}.

(** A successful redemption: the code and what it stood for. *)
Definition ev_redeems (ev : event serverE) : option (string * AuthCode) :=
  match ev with
  | Ev (inlE oe) x =>
      match oe in oauthE X return X -> option (string * AuthCode) with
      | CodesRemove c => fun r => ac ← r; Some (c, ac)
      | _ => fun _ => None
      end x
  | _ => None
  end.

Definition ev_issues (ev : event serverE) : option (string * (Z -> AuthCode)) :=
  match ev with Ev (inlE (CodesInsert c mk)) _ => Some (c, mk) | _ => None end.

Lemma issue_not_redeem ev p : ev_issues ev = Some p -> ev_redeems ev = None.
Proof. by destruct ev as [X [[]|] x]. Qed.

Definition ev_mints (ev : event serverE) : option (string * (Z -> TokenInfo)) :=
  match ev with Ev (inlE (TokensInsert t mk)) _ => Some (t, mk) | _ => None end.

Definition ev_external (ev : event serverE) : bool :=
  match ev with Ev (inrE (inrE _)) _ => true | _ => false end.

Definition redeems (tr : list (nat * event serverE)) : list (string * AuthCode) :=
  omap (fun p => ev_redeems p.2) tr.
Definition issues (tr : list (nat * event serverE)) : list (string * (Z -> AuthCode)) :=
  omap (fun p => ev_issues p.2) tr.
Definition mints (tr : list (nat * event serverE)) : list (string * (Z -> TokenInfo)) :=
  omap (fun p => ev_mints p.2) tr.

Lemma redeems_cons i ev tr :
  redeems ((i, ev) :: tr) = match ev_redeems ev with Some p => p :: redeems tr | None => redeems tr end.
Proof. done. Qed.
Lemma issues_cons i ev tr :
  issues ((i, ev) :: tr) = match ev_issues ev with Some p => p :: issues tr | None => issues tr end.
Proof. done. Qed.

(** ** One task: every mint follows a redemption of its own *)

Lemma token_after evs ac :
  mon_after token_monitor None evs = Some ac ->
  exists l1 c l2, evs = l1 ++ Ev (inlE (CodesRemove c)) (Some ac) :: l2 /\
                  Forall (fun ev => ev_mints ev = None /\ ev_redeems ev = None) l2.
Proof.
  induction evs as [|ev evs IH] using rev_ind; [done|].
  rewrite mon_after_app. simpl. destruct ev as [X e x].
  assert (Hkeep : mnext token_monitor (mon_after token_monitor None evs) e x =
            mon_after token_monitor None evs ->
            ev_mints (Ev e x) = None /\ ev_redeems (Ev e x) = None ->
            mon_after token_monitor None evs = Some ac ->
            exists l1 c l2, evs ++ [Ev e x] = l1 ++ Ev (inlE (CodesRemove c)) (Some ac) :: l2 /\
                  Forall (fun ev => ev_mints ev = None /\ ev_redeems ev = None) l2).
  { intros _ Hq Hac. destruct (IH Hac) as (l1 & c & l2 & -> & Hl2).
    exists l1, c, (l2 ++ [Ev e x]). rewrite <- app_assoc. split; [done|]. apply Forall_app; auto. }
  destruct e as [oe|[]]; [destruct oe|..]; cbn [ev_eff ev_ret]; simpl in *;
    try solve [intros ?; apply Hkeep; auto].
  - intros ->. exists evs, code, []. split; [done|constructor].
  - done.
Qed.

Lemma token_mints_le evs :
  accepts token_monitor None evs ->
  (length (omap ev_mints evs) + (if mon_after token_monitor None evs then 1 else 0)
     <= length (omap ev_redeems evs))%nat.
Proof.
  induction evs as [|[X e x] evs IH] using rev_ind; [simpl; lia|].
  rewrite accepts_app, mon_after_app, !omap_app, !length_app. simpl. intros [Hacc [Hal _]].
  specialize (IH Hacc). destruct e as [oe|[]]; [destruct oe|..]; simpl in *; try lia.
  - destruct x as [ac|]; simpl; destruct (mon_after _ _ _); lia.
  - destruct Hal as (ac & Hst & _). rewrite Hst in IH. lia.
Qed.

(** ** From tasks to the trace *)

Lemma sum_by_task (f : event serverE -> nat) (tr : list (nat * event serverE)) n :
  Forall (fun p => (p.1 < n)%nat) tr ->
  sum_list_with (fun p => f p.2) tr =
    sum_list_with (fun i => sum_list_with f (events_of i tr)) (seq 0 n).
Proof.
  induction 1 as [|[j ev] tr Hj _ IH]; simpl.
  - induction (seq 0 n) as [|a l IHl]; simpl; [done|]. done.
  - rewrite IH. clear IH. simpl in Hj.
    assert (Hs : forall l, NoDup l ->
      sum_list_with (fun i => sum_list_with f (events_of i ((j, ev) :: tr))) l =
      ((if decide (j ∈ l) then f ev else 0) +
       sum_list_with (fun i => sum_list_with f (events_of i tr)) l)%nat).
    { induction 1 as [|a l Ha _ IHl]; [done|]. cbn [sum_list_with]. rewrite IHl, events_of_cons.
      rewrite sum_list_with_app. destruct (Nat.eqb_spec j a) as [->|Hne]; simpl.
      - rewrite (decide_True (P:=a ∈ a :: l)) by set_solver. rewrite decide_False by done. lia.
      - destruct (decide (j ∈ l)); [rewrite decide_True by set_solver|rewrite decide_False by set_solver]; lia. }
    rewrite Hs by apply NoDup_seq.
    rewrite decide_True; [done|]. apply elem_of_seq. lia.
Qed.

Lemma length_omap_sum {A B} (f : A -> option B) l :
  length (omap f l) = sum_list_with (fun a => if f a then 1 else 0)%nat l.
Proof. induction l as [|a l IH]; [done|]. simpl. rewrite <- IH. by destruct (f a). Qed.
End Events.

Section Pool.
Context {CR : Crates} {W : Type} `{!Host W}.
Context (conf : OAuthConf) (us : UserStore) (w : W).

Abbreviation cfg := (config serverE task unit (OAuthStore * W)).
Abbreviation codes_of c := (codes (@shared serverE task unit (OAuthStore * W) c).1).

(** What one effect does to the table of codes. *)
Lemma step_codes X (e : serverE X) (s s' : OAuthStore * W) x :
  server_step X e s = (x, s') ->
  match ev_issues (Ev e x), ev_redeems (Ev e x) with
  | Some (c, mk), _ => exists now, codes s'.1 = <[c := mk now]> (codes s.1)
  | None, Some (c, ac) => codes s.1 !! c = Some ac /\ codes s'.1 = delete c (codes s.1)
  | None, None => codes s'.1 ⊆ codes s.1
  end.
Proof.
  destruct s as [st w0]. unfold server_step, oauth_step, http_step.
  destruct e as [oe|[ke|he]]; [destruct oe|..|destruct he]; intros Hs;
    repeat match type of Hs with context [let '_ := ?t in _] => destruct t eqn:? end;
    injection Hs as <- <-; simpl.
  all: try solve [reflexivity | eauto | apply map_filter_subseteq].
  destruct (codes st !! code) eqn:Hc; simpl; [done|]. apply delete_subseteq.
Qed.

(** Every code is redeemed at most as often as it was issued. *)
Lemma redeem_count_inv c :
  server_reachable conf us w c ->
  (forall code, count_occ String.string_dec (redeems (trace c)).*1 code +
     (if codes_of c !! code then 1 else 0) <=
     count_occ String.string_dec (issues (trace c)).*1 code)%nat.
Proof.
  intros Hr. pattern c. eapply reachable_ind; [..|exact Hr]; [intros code; simpl; rewrite lookup_empty; lia|].
  clear c Hr. intros c c' IH Hs code.
  specialize (IH code).
  inversion Hs as [i X e k ts ps s s' x tr Hi Hh|l ts ps s tr|ts ps s s' tr He]; subst;
    cbn [trace shared] in *.
  - rewrite redeems_cons, issues_cons. apply step_codes in Hh. destruct (ev_issues (Ev e x)) as [[c0 mk]|] eqn:Hiss.
    + pose proof (issue_not_redeem _ _ Hiss) as Hr.
      destruct Hh as [now Hc]. rewrite Hr, Hc, fmap_cons. cbn [count_occ fst].
      destruct (String.string_dec c0 code) as [->|Hne].
      * rewrite lookup_insert_eq. destruct (codes s.1 !! code); lia.
      * rewrite lookup_insert_ne by done. lia.
    + destruct (ev_redeems (Ev e x)) as [[c0 ac]|].
      * destruct Hh as [Hin Hc]. rewrite Hc, fmap_cons. cbn [count_occ fst]. destruct (String.string_dec c0 code) as [->|Hne].
        -- rewrite lookup_delete_eq. rewrite Hin in IH. lia.
        -- rewrite lookup_delete_ne by done. lia.
      * assert (codes s'.1 !! code = None \/ codes s'.1 !! code = codes s.1 !! code) as [Hn|Hn].
        { destruct (codes s'.1 !! code) eqn:Hl; [|auto]. right. symmetry. eapply lookup_weaken; eauto. }
        -- rewrite Hn. lia.
        -- rewrite Hn. lia.
  - done.
  - unfold env_step in He. by rewrite He.
Qed.

Lemma redeem_length_inv c :
  server_reachable conf us w c ->
  (length (redeems (trace c)) + size (codes_of c) <= length (issues (trace c)))%nat.
Proof.
  intros Hr. pattern c. eapply reachable_ind; [..|exact Hr]; [simpl; rewrite map_size_empty; lia|].
  clear c Hr. intros c c' IH Hs.
  inversion Hs as [i X e k ts ps s s' x tr Hi Hh|l ts ps s tr|ts ps s s' tr He]; subst;
    cbn [trace shared] in *.
  - rewrite redeems_cons, issues_cons. apply step_codes in Hh. destruct (ev_issues (Ev e x)) as [[c0 mk]|] eqn:Hiss.
    + pose proof (issue_not_redeem _ _ Hiss) as Hr.
      destruct Hh as [now Hc]. rewrite Hr, Hc, map_size_insert. 
      destruct (codes s.1 !! c0); simpl; lia.
    + destruct (ev_redeems (Ev e x)) as [[c0 ac]|]; simpl.
      * destruct Hh as [Hin Hc]. rewrite Hc, map_size_delete, Hin.
        assert (size (codes s.1) <> 0%nat).
        { apply map_size_ne_0_lookup. by exists c0, ac. }
        lia.
      * apply map_subseteq_size in Hh. lia.
  - done.
  - unfold env_step in He. by rewrite He.
Qed.

Lemma mints_le_redeems c :
  server_reachable conf us w c ->
  (length (mints (trace c)) <= length (redeems (trace c)))%nat.
Proof.
  intros Hr. pose proof (pool_monitored _ _ _ (fun _ => token_monitor) (fun _ => None) _ c
    (token_task conf) Hr) as [Hacc [Hlen Htr]].
  unfold mints, redeems. rewrite !length_omap_sum.
  rewrite (sum_by_task (fun ev => if ev_mints ev then 1 else 0)%nat _ _ Htr).
  rewrite (sum_by_task (fun ev => if ev_redeems ev then 1 else 0)%nat _ _ Htr).
  assert (Hi : forall i, (i < length (pool c))%nat ->
    accepts token_monitor None (events_of i (trace c))).
  { intros i Hi. destruct (lookup_lt_is_Some_2 (tasks c) i) as [t Ht]; [lia|].
    destruct (lookup_lt_is_Some_2 (pool c) i Hi) as [p Hp]. by destruct (Hacc i t p Ht Hp). }
  assert (Hseq : forall i, i ∈ seq 0 (length (pool c)) -> accepts token_monitor None (events_of i (trace c))).
  { intros i Hin%elem_of_seq. apply Hi. lia. }
  clear - Hseq. induction (seq 0 (length (pool c))) as [|i l IH]; simpl; [lia|].
  pose proof (token_mints_le _ (Hseq i ltac:(set_solver))) as H.
  rewrite !length_omap_sum in H.
  assert (Hl : forall j, j ∈ l -> accepts token_monitor None (events_of j (trace c))) by set_solver.
  specialize (IH Hl). lia.
Qed.

(** ** Where codes and tokens come from *)

Lemma seen_events t evs :
  let st := mon_after (code_monitor t) (Seen None None) evs in
  (forall us0, seen_users st = Some us0 -> In (Ev (inlE UsersRead) us0) evs) /\
  (forall ar id o, seen_client st = Some (ar, id, o) ->
     In (Ev (inrE (inlE (KGet (KDynamic ar) All id))) (Ok o)) evs).
Proof.
  induction evs as [|[X e x] evs [IH1 IH2]] using rev_ind; [done|].
  cbv zeta in *. rewrite mon_after_app. simpl. setoid_rewrite in_app_iff.
  destruct e as [oe|[ke|he]]; [destruct oe|destruct ke as [k sc ?|? | | | | |]|..]; simpl in *;
    try solve [split; intros; left; eauto].
  - split; [intros us0 [= ->]; right; by left|intros; left; eauto].
  - destruct sc; [destruct k|]; try solve [split; intros; left; eauto].
    destruct x as [o|err]; simpl; [|split; intros; left; eauto].
    split; [intros; left; eauto|]. intros ar0 id0 o0 [= -> -> ->]. right. by left.
Qed.

(** The request behind an issued code. *)
Definition granted_by (c : cfg) (i : nat) (mk : Z -> AuthCode) : Prop :=
  exists req us0 id client,
    tasks c !! i = Some (Serve req) /\
    In (i, Ev (inlE UsersRead) us0) (trace c) /\
    In (i, Ev (inrE (inlE (KGet (KDynamic oauth_client_ar) All id))) (Ok client)) (trace c) /\
    grantable req us0 id (data client) mk.

Lemma elem_events_of i (ev : event serverE) tr : In ev (events_of i tr) -> In (i, ev) tr.
Proof.
  induction tr as [|[j ev'] tr IH]; [done|]. rewrite events_of_cons, in_app_iff. intros [H|H].
  - right. auto.
  - destruct (Nat.eqb_spec j i) as [->|]; [|done]. destruct H as [->|[]]. by left.
Qed.

Lemma code_granted c i code mk :
  server_reachable conf us w c ->
  In (i, Ev (inlE (CodesInsert code mk)) tt) (trace c) -> granted_by c i mk.
Proof.
  intros Hr Hin.
  destruct (trace_task _ _ _ code_monitor (fun _ => Seen None None) _ c _ _ (code_task conf) Hr Hin) as [t Ht].
  pose proof (pool_accepts _ _ _ code_monitor (fun _ => Seen None None) _ c i t (code_task conf) Hr Ht) as Hacc.
  apply events_of_elem, in_split in Hin as (l1 & l2 & Hev).
  rewrite Hev, accepts_app in Hacc. destruct Hacc as [_ [Hal _]]. simpl in Hal.
  destruct Hal as (req & us0 & id & o & -> & Hu & Hc & Hg).
  destruct (seen_events (Serve req) l1) as [H1 H2].
  exists req, us0, id, o. split_and!; [done|..|done]; apply elem_events_of; rewrite Hev, in_app_iff; left; auto.
Qed.

(** In the effects of one request, each mint follows a successful redemption
    with no other mint or redemption in between, and is that code's user's. *)
Lemma token_redeemed c i l1 tok mk l2 :
  server_reachable conf us w c ->
  events_of i (trace c) = l1 ++ Ev (inlE (TokensInsert tok mk)) tt :: l2 ->
  exists l0 code ac l0',
    l1 = l0 ++ Ev (inlE (CodesRemove code)) (Some ac) :: l0' /\
    Forall (fun ev => ev_mints ev = None /\ ev_redeems ev = None) l0' /\
    forall now, mk now = {| ti_username := ac_username ac; ti_created := now |}.
Proof.
  intros Hr Hev.
  assert (Hin : In (i, Ev (inlE (TokensInsert tok mk)) tt) (trace c)).
  { apply elem_events_of. rewrite Hev, in_app_iff. right. by left. }
  destruct (trace_task _ _ _ (fun _ => token_monitor) (fun _ => None) _ c _ _ (token_task conf) Hr Hin) as [t Ht].
  pose proof (pool_accepts _ _ _ (fun _ => token_monitor) (fun _ => None) _ c i t (token_task conf) Hr Ht) as Hacc.
  rewrite Hev, accepts_app in Hacc. destruct Hacc as [_ [(ac & Hst & Hmk) _]].
  apply token_after in Hst as (l0 & code & l0' & -> & Hl). exists l0, code, ac, l0'. auto.
Qed.

(** Every code in the table, and every redeemed one, was issued. *)
Definition issued (c : cfg) (code : string) (ac : AuthCode) : Prop :=
  exists j mk now, In (j, Ev (inlE (CodesInsert code mk)) tt) (trace c) /\ ac = mk now.

Lemma codes_issued c :
  server_reachable conf us w c ->
  (forall code ac, codes_of c !! code = Some ac -> issued c code ac) /\
  (forall i code ac, In (i, Ev (inlE (CodesRemove code)) (Some ac)) (trace c) -> issued c code ac).
Proof.
  intros Hr. pattern c. eapply reachable_ind; [..|exact Hr]; [split; [|done]; intros ??; simpl; by rewrite lookup_empty|].
  clear c Hr. intros c c' [IH1 IH2] Hs.
  inversion Hs as [i X e k ts ps s s' x tr Hi Hh|l ts ps s tr|ts ps s s' tr He]; subst;
    unfold issued in *; cbn [trace shared] in *.
  - assert (Hold : forall code ac, (exists j mk now, In (j, Ev (inlE (CodesInsert code mk)) tt) tr /\ ac = mk now) ->
      exists j mk now, In (j, Ev (inlE (CodesInsert code mk)) tt) ((i, Ev e x) :: tr) /\ ac = mk now).
    { intros code ac (j & mk & now & ? & ?). exists j, mk, now. split; [by right|done]. }
    pose proof (step_codes _ _ _ _ _ Hh) as Hsc. split.
    + intros code ac Hc. destruct (ev_issues (Ev e x)) as [[c0 mk]|] eqn:Hiss.
      * destruct Hsc as [now Hsc]. rewrite Hsc in Hc. apply lookup_insert_Some in Hc as [[-> <-]|[_ Hc]]; [|eauto].
        exists i, mk, now. split; [|done]. left.
        destruct e as [oe|]; [destruct oe|]; try discriminate Hiss. injection Hiss as -> ->. by destruct x.
      * destruct (ev_redeems (Ev e x)) as [[c0 ac0]|].
        -- destruct Hsc as [_ Hsc]. rewrite Hsc in Hc. apply lookup_delete_Some in Hc as [_ Hc]. eauto.
        -- eauto using lookup_weaken.
    + intros j code ac [Heq|Hin]; [|eauto]. apply pair_equal_spec in Heq as [-> Heq].
      rewrite Heq in Hsc. simpl in Hsc. destruct Hsc as [Hsc _]. eauto.
  - done.
  - unfold env_step in He. rewrite He. auto.
Qed.

(** A code is redeemed after it was issued: the issue is already in the part
    of the trace ([tr2], the trace being newest first) that precedes it. *)
Lemma redeemed_after_issue c :
  server_reachable conf us w c ->
  forall tr1 i code ac tr2,
    trace c = tr1 ++ (i, Ev (inlE (CodesRemove code)) (Some ac)) :: tr2 ->
    exists j mk now, In (j, Ev (inlE (CodesInsert code mk)) tt) tr2 /\ ac = mk now.
Proof.
  intros Hr.
  cut (server_reachable conf us w c /\ forall tr1 i code ac tr2,
    trace c = tr1 ++ (i, Ev (inlE (CodesRemove code)) (Some ac)) :: tr2 ->
    exists j mk now, In (j, Ev (inlE (CodesInsert code mk)) tt) tr2 /\ ac = mk now); [tauto|].
  pattern c. eapply reachable_ind; [..|exact Hr].
  { split; [apply rtc_refl|]. intros [] *; discriminate. }
  clear c Hr. intros c c' [Hr IH] Hs. split; [by eapply rtc_r|].
  inversion Hs as [i X e k ts ps s s' x tr Hi Hh|l ts ps s tr|ts ps s s' tr He]; subst; [|done..].
  cbn [trace] in *. intros [|p tr1] i0 code ac tr2 Heq; simpl in Heq;
    apply (f_equal (fun l => (hd_error l, tail l))) in Heq; cbn [hd_error tail] in Heq; apply pair_equal_spec in Heq as [Hh1 Htr]; [|eauto].
  rewrite <- Htr. apply (inj Some), pair_equal_spec in Hh1 as [_ Hev].
  pose proof (step_codes _ _ _ _ _ Hh) as Hsc. rewrite Hev in Hsc. simpl in Hsc. destruct Hsc as [Hsc _].
  destruct (codes_issued _ Hr) as [Hiss _]. by apply Hiss in Hsc.
Qed.

Lemma tokens_minted c :
  server_reachable conf us w c ->
  forall tok info, tokens (shared c).1 !! tok = Some info ->
  exists i mk now, In (i, Ev (inlE (TokensInsert tok mk)) tt) (trace c) /\ info = mk now.
Proof.
  intros Hr. pattern c. eapply reachable_ind; [..|exact Hr]; [intros ??; simpl; by rewrite lookup_empty|].
  clear c Hr. intros c c' IH Hs.
  inversion Hs as [i X e k ts ps s s' x tr Hi Hh|l ts ps s tr|ts ps s s' tr He]; subst;
    cbn [trace shared] in *.
  - intros tok info Htok.
    assert (Hcase : tokens s.1 !! tok = Some info \/
              exists mk now, Ev e x = Ev (inlE (TokensInsert tok mk)) tt /\ info = mk now).
    { revert Htok. clear -Hh. revert Hh. destruct s as [st w0].
      unfold server_step, oauth_step, http_step.
      destruct e as [oe|[ke|he]]; [destruct oe|..|destruct he]; intros Hs;
        repeat match type of Hs with context [let '_ := ?t in _] => destruct t eqn:? end;
        injection Hs as <- <-; simpl; try solve [auto].
      - rewrite lookup_insert_Some. intros [[-> <-]|[_ H]]; eauto.
      - rewrite retain_lookup. intros [H _]. auto. }
    destruct Hcase as [Hold|(mk & now & Heq & ->)].
    + destruct (IH _ _ Hold) as (j & mk & now & ? & ->). exists j, mk, now. split; [by right|done].
    + exists i, mk, now. split; [left; by rewrite Heq|done].
  - done.
  - unfold env_step in He. rewrite He. auto.
Qed.
End Pool.
