(* ===== verification/OAuthSample.v ===== *)
(** * A machine to run the OAuth server on, for witnesses only *)

From S2P Require Import Prelude RustStr Json Prog Kube Util Crates.
From S2P Require Import OAuthTypes OAuthEffects OAuthHelpers OAuthServer OAuthSafety.
Import UserStoreOps.
Open Scope list_scope.
Open Scope Z_scope.

(** A cluster, a clock that stands still, and a random source that repeats one
    character. *)
Record SampleWorld : Type := SW { sw_mem : MemWorld; sw_clock : Z }.

#[export] Instance sample_server : KubeServer SampleWorld := {
  kube_step := fun X e w => let '(x, m) := mem_step X e (sw_mem w) in (x, SW m (sw_clock w));
  utc_now := fun w => (mem_time (sw_mem w), w)
}.

#[export] Instance sample_host : @Host sample_crates SampleWorld := {|
  host_kube := sample_server;
  host_instant := fun w => (sw_clock w, w);
  host_system := fun w => (sw_clock w / 10 ^ 9, w);
  host_sleep := fun s w => SW (sw_mem w) (sw_clock w + from_secs s);
  host_sample := fun n w => (repeat "a"%char n, w);
  host_rsa := fun w => (("pem", []), w);
  host_http := fun _ w => (None, w);
  host_jwt_decode := fun _ _ w => (None, w)
|}.

(** A cluster with one public client. *)
Definition sample_client : DynamicObject :=
  Dyn (named "console" None) (jobj [ "redirectURIs" =: jstrs ["https://app"] ]).

Definition sample_mem : MemWorld :=
  Mem {[ dyn_key oauth_client_ar All "console" := sample_client ]} ∅ ∅ [] ∅ ∅ "1970-01-01T00:00:00+00:00".

Definition sample_world : SampleWorld := SW sample_mem 1000.

Definition sample_conf (m : AuthMode) : @OAuthConf sample_crates :=
  {| auth_mode := m; jwt_keys := None; byoidc := None; external_jwks := false |}.

Definition post (path b : string) : Request :=
  {| req_method := "POST"; req_path := path; req_query := None; req_headers := [];
     req_body := Some b |}.

Definition sample_login : Request :=
  post "/oauth/authorize"
    "client_id=console&redirect_uri=https://app/cb&username=admin&password=admin".

Definition sample_code : string := String.string_of_list_ascii (repeat "a"%char 32).
Definition sample_token : string := "sha256~" +:+ String.string_of_list_ascii (repeat "a"%char 43).

Definition sample_exchange : Request :=
  post "/oauth/token"
    ("grant_type=authorization_code&client_id=console&code=" +:+ sample_code).

(** A login, then the exchange of its code, run to the end one after the other. *)
Definition sample_schedule : list (task + nat) :=
  [inl (Serve sample_login)] ++ repeat (inr 0%nat) 6 ++
  [inl (Serve sample_exchange)] ++ repeat (inr 1%nat) 6.

Section Run.
#[local] Existing Instance sample_crates.

Definition sample_run : config serverE task unit (OAuthStore * SampleWorld) :=
  exec server_step (task_code (sample_conf Legacy)) sample_schedule
    (Config [] [] (oauth_store_new (Users default_users), sample_world) []).

Lemma sample_run_reachable :
  server_reachable (sample_conf Legacy) (Users default_users) sample_world sample_run.
Proof. apply exec_reachable. Qed.

End Run.
