(* ===== verification/OAuthTyping.v ===== *)
(** * The shape of codes and tokens

    A well-formedness invariant of the server's tables, for every schedule:
    codes are 32 alphanumerical characters, and the tokens of a server without
    signing keys are [sha256~] followed by 43 of them.  It needs the random
    generator to keep its promise ([AlphanumericLaw]). *)

From S2P Require Import Prelude RustStr Json Prog Kube Util Crates.
From S2P Require Import OAuthTypes OAuthEffects OAuthHelpers OAuthK8s OAuthHandlers OAuthByoidc OAuthServer.
From S2P Require Import OAuthSafety OAuthConcurrency OAuthSample.
Import UserStoreOps.
Open Scope list_scope.
Open Scope Z_scope.

Definition is_alphanumeric (a : ascii) : bool :=
  let n := nat_of_ascii a in
  ((48 <=? n) && (n <=? 57) || (65 <=? n) && (n <=? 90) || (97 <=? n) && (n <=? 122))%nat.

(** What [rand::distributions::Alphanumeric] promises: characters of
    [A-Za-z0-9], as many as were taken. *)
Class AlphanumericLaw {CR : Crates} (W : Type) `{!Host W} : Prop :=
  sample_alphanumeric : forall n (w : W),
    length (host_sample n w).1 = n /\ Forall (fun a => is_alphanumeric a = true) (host_sample n w).1.

(** [n] alphanumerical characters. *)
Definition alnum (n : nat) (s : string) : Prop :=
  String.length s = n /\ Forall (fun a => is_alphanumeric a = true) (String.list_ascii_of_string s).

Definition typed_store {CR : Crates} (conf : OAuthConf) (s : OAuthStore) : Prop :=
  map_Forall (fun code _ => alnum 32 code) (codes s) /\
  (jwt_keys conf = None -> map_Forall (fun tok _ => exists r, tok = "sha256~" +:+ r /\ alnum 43 r) (tokens s)).

Lemma alnum_of_list n l :
  length l = n -> Forall (fun a => is_alphanumeric a = true) l -> alnum n (String.string_of_list_ascii l).
Proof.
  intros Hl Hf. split; [|by rewrite String.list_ascii_of_string_of_list_ascii].
  subst n. clear Hf. induction l as [|a l IH]; [done|]. simpl. by rewrite IH.
Qed.

(** ** What is stored was sampled *)

Section Sampled.
Context {CR : Crates}.

(** The state is the last sample drawn, and how many characters were asked
    for. *)
Definition sample_allow (conf : OAuthConf) X (st : option (nat * list ascii)) (e : serverE X) : Prop :=
  match e with
  | inlE (CodesInsert code _) => exists l, st = Some (32%nat, l) /\ code = String.string_of_list_ascii l
  | inlE (TokensInsert tok _) =>
      jwt_keys conf = None ->
      exists l, st = Some (43%nat, l) /\ tok = "sha256~" +:+ String.string_of_list_ascii l
  | _ => True
  end.

Definition sample_next X (st : option (nat * list ascii)) (e : serverE X) : X -> option (nat * list ascii) :=
  match e with
  | inlE oe =>
      match oe in oauthE X return X -> option (nat * list ascii) with
      | SampleAlphanumeric n => fun l => Some (n, l)
      | _ => fun _ => st
      end
  | _ => fun _ => st
  end.

Definition sample_monitor (conf : OAuthConf) : monitor serverE :=
  {| mstate := option (nat * list ascii); mallow := sample_allow conf; mnext := sample_next |}.

(** Stores neither a code nor a token. *)
Definition no_insert X (e : serverE X) : Prop :=
  match e with inlE (CodesInsert _ _) | inlE (TokensInsert _ _) => False | _ => True end.

Lemma quiet_no_insert {A} (p : prog serverE A) : only quiet p -> only no_insert p.
Proof. apply only_weaken. by intros X [[]|]. Qed.

Lemma sample_no_insert {A} conf st (p : prog serverE A) :
  only no_insert p -> wp (sample_monitor conf) st p (fun _ _ => True).
Proof.
  revert st. induction p as [|X e k IH]; intros st; simpl; [done|]. intros [He Hk].
  split; [|auto]. by destruct e as [[]|].
Qed.

(** Step over a head that stores nothing. *)
Ltac storeless_head :=
  apply wp_bind; eapply wp_mono;
  [apply sample_no_insert;
   solve [apply quiet_no_insert; eauto with confined | prog_unfold; simpl; auto]
  |intros ???].

Lemma sample_issue conf st u id uri rs ch m :
  wp (sample_monitor conf) st (issue_auth_code u id uri rs ch m) (fun _ _ => True).
Proof.
  unfold issue_auth_code, generate_random_string. prog_unfold. cbn [prog_bind wp]. split; [done|]. intros l.
  split; [|done]. simpl. eauto.
Qed.

Lemma sample_finish conf st ac id :
  wp (sample_monitor conf) st (finish_token conf ac id) (fun _ _ => True).
Proof.
  unfold finish_token, mint_token. destruct (jwt_keys conf) as [keys|] eqn:Hk.
  - prog_unfold. cbn [prog_bind wp]. split; [done|]. intros us. split; [done|]. intros now.
    destruct (jwt_encode _ _ _); [|done]. cbn [prog_bind wp]. split; [|done]. simpl. by rewrite Hk.
  - unfold generate_random_string. prog_unfold. cbn [prog_bind wp]. split; [done|]. intros l.
    split; [|done]. simpl. eauto.
Qed.

Lemma sample_authorize_get conf st req : wp (sample_monitor conf) st (handle_authorize_get req) (fun _ _ => True).
Proof.
  unfold handle_authorize_get. cbv zeta. repeat first [exact I | apply sample_issue | storeless_head | wp_step].
Qed.

Lemma sample_authorize_post conf st b : wp (sample_monitor conf) st (handle_authorize_post b) (fun _ _ => True).
Proof.
  unfold handle_authorize_post. cbv zeta. repeat first [exact I | apply sample_issue | storeless_head | wp_step].
Qed.

Lemma sample_handle_token conf st b a : wp (sample_monitor conf) st (handle_token conf b a) (fun _ _ => True).
Proof.
  unfold handle_token. cbv zeta. repeat first [exact I | apply sample_finish | storeless_head | wp_step].
Qed.

Lemma sample_task conf t : wp (sample_monitor conf) None (task_code conf t) (fun _ _ => True).
Proof.
  destruct t as [req| |ev]; simpl.
  - apply wp_bind. unfold handle_request. cbv zeta.
    repeat first
      [ exact I
      | storeless_head
      | apply wp_bind; eapply wp_mono;
        [first [apply sample_authorize_get | apply sample_authorize_post | apply sample_handle_token]
        |intros ???]
      | wp_step ].
  - unfold evict. prog_unfold. simpl. auto.
  - unfold on_htpasswd_event. cbv zeta. repeat first [exact I | wp_step].
Qed.
End Sampled.

(** ** The invariant *)

Section Typed.
Context {CR : Crates} {W : Type} `{!Host W} `{!AlphanumericLaw W}.
Context (conf : OAuthConf) (us : UserStore) (w : W).

(** Samples are alphanumerical. *)
Definition good_sample (ev : event serverE) : Prop :=
  match ev with
  | Ev (inlE oe) x =>
      match oe in oauthE X return X -> Prop with
      | SampleAlphanumeric n => fun l => length l = n /\ Forall (fun a => is_alphanumeric a = true) l
      | _ => fun _ => True
      end x
  | _ => True
  end.

Lemma trace_samples c i ev : server_reachable conf us w c -> In (i, ev) (trace c) -> good_sample ev.
Proof using Type*.
  intros Hr. pattern c. eapply reachable_ind; [..|exact Hr]; [done|].
  clear c Hr. intros c c' IH Hs.
  inversion Hs as [j X e k ts ps s s' x tr Hi Hh|t ts ps s tr|ts ps s s' tr He]; subst; [|exact IH..].
  cbn [trace] in *. intros [Heq|Hin]; [|auto]. apply pair_equal_spec in Heq as [_ <-].
  destruct e as [oe|]; [destruct oe|]; try done. revert Hh. destruct s as [st w0]. simpl.
  pose proof (sample_alphanumeric n w0) as Hl. destruct (host_sample n w0) as [l0 w1]. by intros [= <- <-].
Qed.

Lemma last_sample evs n l :
  mon_after (sample_monitor conf) None evs = Some (n, l) -> In (Ev (inlE (SampleAlphanumeric n)) l) evs.
Proof.
  induction evs as [|[X e x] evs IH] using rev_ind; [done|].
  rewrite mon_after_app, in_app_iff. simpl.
  destruct e as [oe|]; [destruct oe|]; simpl; try solve [intros H; left; by apply IH].
  intros [= <- <-]. right. by left.
Qed.

(** What the monitor allowed at an event of the trace. *)
Lemma sampled_before c i ev :
  server_reachable conf us w c -> In (i, ev) (trace c) ->
  exists st, sample_allow conf _ st (ev_eff ev) /\
    forall n l, st = Some (n, l) -> alnum n (String.string_of_list_ascii l).
Proof using Type*.
  intros Hr Hin.
  destruct (trace_task _ _ _ (fun _ => sample_monitor conf) (fun _ => None) _ c _ _ (sample_task conf) Hr Hin) as [t Ht].
  pose proof (pool_accepts _ _ _ (fun _ => sample_monitor conf) (fun _ => None) _ c i t (sample_task conf) Hr Ht) as Hacc.
  apply events_of_elem, in_split in Hin as (l1 & l2 & Hev).
  rewrite Hev, accepts_app in Hacc. destruct Hacc as [_ [Hal _]].
  eexists. split; [exact Hal|]. intros n l Hm. apply last_sample in Hm.
  assert (Hin : In (i, Ev (inlE (SampleAlphanumeric n)) l) (trace c)).
  { apply elem_events_of. rewrite Hev, in_app_iff. by left. }
  destruct (trace_samples c i _ Hr Hin). by apply alnum_of_list.
Qed.

(** C9: in every reachable state, whatever the schedule, each outstanding code is
    32 alphanumerical characters and, without signing keys, each token is
    [sha256~] and 43 alphanumerical characters; so no stored token is taken
    for a JSON web token, and [handle_userinfo] resolves it from the table. *)
Theorem store_well_typed c :
  server_reachable conf us w c ->
  typed_store conf (shared c).1 /\
  (jwt_keys conf = None -> forall tok, is_Some (tokens (shared c).1 !! tok) ->
     token_user tok =
       (info ⟵ trigger (TokensGet tok);
        match info with
        | None => Ret None
        | Some info =>
            now ⟵ trigger InstantNow;
            Ret (if elapsed now (ti_created info) <? TOKEN_TTL then Some (ti_username info) else None)
        end)).
Proof using Type*.
  intros Hr.
  assert (Htok : jwt_keys conf = None ->
    map_Forall (fun tok _ => exists r, tok = "sha256~" +:+ r /\ alnum 43 r) (tokens (shared c).1)).
  { intros Hk tok info Ht. destruct (tokens_minted _ _ _ _ Hr _ _ Ht) as (i & mk & now & Hin & _).
    destruct (sampled_before _ _ _ Hr Hin) as (st & Hal & Hst).
    destruct (Hal Hk) as (l & Hl & ->). eauto. }
  split; [split; [|done]|].
  - intros code ac Hc. destruct (codes_issued _ _ _ _ Hr) as [Hiss _].
    destruct (Hiss _ _ Hc) as (i & mk & now & Hin & _).
    destruct (sampled_before _ _ _ Hr Hin) as (st & (l & Hl & ->) & Hst). eauto.
  - intros Hk tok [info Ht]. destruct (Htok Hk _ _ Ht) as (r & -> & _). done.
Qed.
End Typed.

Section Witness.
#[local] Existing Instance sample_crates.

#[local] Instance sample_host_alphanumeric : AlphanumericLaw SampleWorld.
Proof.
  intros n w. simpl. rewrite repeat_length. split; [done|]. apply List.Forall_forall. by intros a ->%repeat_spec.
Qed.

(** The token of the sample run. *)
Example store_well_typed_witness : exists r, sample_token = "sha256~" +:+ r /\ alnum 43 r.
Proof.
  destruct (store_well_typed _ _ _ sample_run sample_run_reachable) as [[_ Ht] _].
  apply (Ht eq_refl sample_token {| ti_username := "admin"; ti_created := 1000 |}). vm_compute. reflexivity.
Defined.
End Witness.
