(* ===== verification/OAuthIdentity.v ===== *)
(** * Who gets a User object

    The server makes [User] and [Identity] objects in the cluster.  For every
    schedule and in every mode: only for a user whose password the task has
    checked, or, with an external provider, whom a token names whose signature
    the task has checked with a key the server loaded when it started. *)

From S2P Require Import Prelude RustStr Json Prog Kube Util Crates.
From S2P Require Import OAuthTypes OAuthEffects OAuthHelpers OAuthK8s OAuthHandlers OAuthByoidc OAuthServer.
From S2P Require Import OAuthSafety OAuthConcurrency OAuthSample.
Import UserStoreOps.
Open Scope list_scope.
Open Scope Z_scope.

Section Monitor.
Context {CR : Crates}.

(** The key a token asks to be checked with. *)
Definition token_kid (token : string) : option string :=
  header ← (b ← b64_url_decode (split_first "."%char token); json_from_str b);
  Some (default "" (get_str "kid" header)).

(** What the task has read last: the users, the keys, and a token that was
    checked. *)
Record evidence : Type := Evidence {
  ev_users : option UserStore;
  ev_keys : option (gmap string DecodingKey);
  ev_token : option (string * DecodingKey * Value)
}.

Definition by_password (t : task) (st : evidence) (name : string) : Prop :=
  exists req us pass, t = Serve req /\ ev_users st = Some us /\ presents req name pass /\
    authenticate us name pass <> None.

Definition by_token (conf : OAuthConf) (st : evidence) (name : string) : Prop :=
  is_byoidc (auth_mode conf) = true /\
  exists keys tok kid dk claims, ev_keys st = Some keys /\ token_kid tok = Some kid /\ keys !! kid = Some dk /\
    ev_token st = Some (tok, dk, claims) /\ claims_username claims = name.

(** Writes a User object. *)
Definition user_write X (e : serverE X) : option string :=
  match e with
  | inrE (inlE (KPatch (KDynamic ar) _ name _ _)) =>
      if String.eqb (ar_plural ar) (ar_plural user_ar) then Some name else None
  | _ => None
  end.

Definition identity_allow (conf : OAuthConf) (t : task) X (st : evidence) (e : serverE X) : Prop :=
  match user_write X e with
  | Some name => by_password t st name \/ by_token conf st name
  | None => True
  end.

Definition identity_next X (st : evidence) (e : serverE X) : X -> evidence :=
  match e with
  | inlE oe =>
      match oe in oauthE X return X -> evidence with
      | UsersRead => fun us => Evidence (Some us) (ev_keys st) (ev_token st)
      | _ => fun _ => st
      end
  | inrE (inrE he) =>
      match he in httpE X return X -> evidence with
      | ExtKeysRead => fun m => Evidence (ev_users st) (Some m) (ev_token st)
      | JwtDecode tok dk => fun r =>
          match r with
          | Some claims => Evidence (ev_users st) (ev_keys st) (Some (tok, dk, claims))
          | None => st
          end
      | _ => fun _ => st
      end
  | _ => fun _ => st
  end.

Definition identity_monitor (conf : OAuthConf) (t : task) : monitor serverE :=
  {| mstate := evidence; mallow := identity_allow conf t; mnext := identity_next |}.

(** ** Programs that write no User *)

Definition no_user X (e : serverE X) : Prop := user_write X e = None.

Lemma identity_no_user {A} conf t st (p : prog serverE A) :
  only no_user p -> wp (identity_monitor conf t) st p (fun _ _ => True).
Proof.
  revert st. induction p as [|X e k IH]; intros st; simpl; [done|]. intros [He Hk].
  split; [|auto]. unfold identity_allow. by rewrite He.
Qed.

Lemma nu_random n : only no_user (generate_random_string n).
Proof. unfold generate_random_string. solve_only. Qed.
Lemma nu_validate_client c : only no_user (validate_client c).
Proof. unfold validate_client. solve_only. Qed.
Lemma nu_userinfo req : only no_user (handle_userinfo req).
Proof. unfold handle_userinfo, token_user. solve_only. Qed.
Lemma nu_validate_token t : only no_user (validate_token t).
Proof. unfold validate_token. solve_only. Qed.
Hint Resolve nu_random nu_validate_client nu_userinfo nu_validate_token : confined.

Lemma nu_issue u id uri rs ch m : only no_user (issue_auth_code u id uri rs ch m).
Proof. unfold issue_auth_code. solve_only. Qed.
Lemma nu_check_client ac id sec ver : only no_user (check_client ac id sec ver).
Proof. unfold check_client. solve_only. Qed.
Lemma nu_finish conf ac id : only no_user (finish_token conf ac id).
Proof. unfold finish_token, mint_token. solve_only. Qed.
Hint Resolve nu_issue nu_check_client nu_finish : confined.

Lemma nu_token conf b a : only no_user (handle_token conf b a).
Proof. unfold handle_token. solve_only. Qed.
Lemma nu_byoidc_authorize conf req : only no_user (handle_byoidc_authorize conf req).
Proof. unfold handle_byoidc_authorize. solve_only. Qed.
Lemma nu_byoidc_userinfo conf req : only no_user (handle_byoidc_userinfo conf req).
Proof. unfold handle_byoidc_userinfo. solve_only. Qed.
Lemma nu_byoidc_jwks conf : only no_user (handle_byoidc_jwks conf).
Proof. unfold handle_byoidc_jwks. solve_only. Qed.
Lemma nu_byoidc_proxy conf m p q b ct a : only no_user (handle_byoidc_proxy conf m p q b ct a).
Proof. unfold handle_byoidc_proxy. solve_only. Qed.
Hint Resolve nu_token nu_byoidc_authorize nu_byoidc_userinfo nu_byoidc_jwks nu_byoidc_proxy : confined.

(** ** Programs that do *)

Lemma identity_ensure conf t st name :
  by_password t st name \/ by_token conf st name ->
  wp (identity_monitor conf t) st (ensure_user_and_identity name) (fun _ _ => True).
Proof.
  intros He. unfold ensure_user_and_identity. prog_unfold. cbn [prog_bind wp].
  split; [exact He|]. intros [o|err]; [|done]. cbn [prog_bind wp]. split; [exact I|done].
Qed.

Lemma identity_validate_client conf t st id :
  wp (identity_monitor conf t) st (validate_client id) (fun st' _ => st' = st).
Proof. unfold validate_client. prog_unfold. cbn [prog_bind wp]. split; [exact I|]. by intros []. Qed.

Lemma identity_validate_token conf t st tok :
  wp (identity_monitor conf t) st (validate_token tok) (fun st' r =>
    match r with
    | Some claims => exists keys kid dk, ev_keys st' = Some keys /\ token_kid tok = Some kid /\
        keys !! kid = Some dk /\ ev_token st' = Some (tok, dk, claims)
    | None => True
    end).
Proof.
  unfold validate_token, token_kid. destruct (b64_url_decode _) as [b|]; [|done]. cbn [mbind option_bind].
  destruct (json_from_str b) as [header|]; [|done].
  cbn [mbind option_bind]. unfold http. cbn [prog_bind wp]. split; [exact I|]. intros keys.
  destruct (keys !! _) as [dk|] eqn:Hk; [|done]. cbn [prog_bind wp]. split; [exact I|].
  intros [claims|]; cbn [wp]; [|done]. simpl. eauto 10.
Qed.

Lemma identity_authorize_get conf req st :
  String.eqb (req_method req) "GET" = true ->
  wp (identity_monitor conf (Serve req)) st (handle_authorize_get req) (fun _ _ => True).
Proof.
  intros Hm. unfold handle_authorize_get. cbv zeta.
  destruct (parse_query (req_query req) !! "client_id") as [id|]; [|done].
  destruct (parse_query (req_query req) !! "redirect_uri") as [uri|]; [|done].
  apply wp_bind. eapply wp_mono; [apply identity_validate_client|]. cbv beta. intros st1 [[sec uris]|] ->; [|done].
  destruct (uri_matches uris uri); cbn [negb]; [|done].
  destruct (authorization_of req ≫= strip_prefix "Basic ") as [enc|] eqn:Henc; [|done].
  destruct (decode_basic enc) as [[user pass]|] eqn:Hdec; [|done].
  apply wp_bind. prog_unfold. cbn [wp]. split; [exact I|]. intros us. cbn [mnext identity_monitor identity_next].
  destruct (authenticate us user pass) as [en|] eqn:Ha; [|done].
  apply wp_bind. eapply wp_mono; [apply identity_ensure|intros; apply identity_no_user; eauto with confined].
  left. exists req, us, pass. split_and!; [done..| |by rewrite Ha].
  unfold presents. apply String.eqb_eq in Hm as ->. cbn [String.eqb Ascii.eqb Bool.eqb]. by rewrite Henc.
Qed.

Lemma identity_authorize_post conf req b st :
  String.eqb (req_method req) "POST" = true -> req_body req = Some b ->
  wp (identity_monitor conf (Serve req)) st (handle_authorize_post b) (fun _ _ => True).
Proof.
  intros Hm Hb. unfold handle_authorize_post. cbv zeta.
  assert (Hq : parse_form_body b = form_of req) by (unfold form_of; by rewrite Hm, Hb).
  rewrite Hq. clear Hq.
  destruct (form_of req !! "client_id") as [id|]; [|done].
  destruct (form_of req !! "redirect_uri") as [uri|]; [|done].
  destruct (is_empty _) eqn:Hne; [done|].
  apply wp_bind. prog_unfold. cbn [wp]. split; [exact I|]. intros us. cbn [mnext identity_monitor identity_next].
  destruct (authenticate us _ _) as [en|] eqn:Ha; [|done].
  apply wp_bind. eapply wp_mono; [apply identity_validate_client|]. cbv beta. intros st1 [[sec uris]|] ->; [|done].
  destruct (uri_matches uris uri); cbn [negb]; [|done].
  apply wp_bind. eapply wp_mono; [apply identity_ensure|intros; apply identity_no_user; eauto with confined].
  left. eexists req, us, _. split_and!; [done..| |by rewrite Ha].
  unfold presents. rewrite Hm. split_and!; [|done..]. intros He. by rewrite He in Hne.
Qed.

Lemma identity_byoidc_token conf t b st :
  is_byoidc (auth_mode conf) = true ->
  wp (identity_monitor conf t) st (handle_byoidc_token conf b) (fun _ _ => True).
Proof.
  intros Hb. unfold handle_byoidc_token. destruct (byoidc conf) as [cfg|]; [|done].
  destruct (external_jwks conf); cbn [negb]; [|done].
  apply wp_bind. unfold http. cbn [wp]. split; [exact I|]. intros disc.
  destruct (is_empty (token_endpoint disc)); [done|]. cbv zeta.
  apply wp_bind. cbn [wp]. split; [exact I|]. intros [resp|]; [|done].
  destruct (hp_body resp) as [x|]; [|done]. cbn [mbind option_bind].
  destruct (json_from_str x) as [tr|]; [|done]. apply wp_bind.
  assert (Htok : forall st', wp (identity_monitor conf t) st'
    (match get_str "id_token" tr with
     | None => Ret tt
     | Some id_token =>
         c ⟵ validate_token id_token;
         match c with Some claims => ensure_user_and_identity (claims_username claims) | None => Ret tt end
     end) (fun _ _ => True)).
  { intros st'. destruct (get_str "id_token" tr) as [id_token|]; [|done].
    apply wp_bind. eapply wp_mono; [apply identity_validate_token|]. cbv beta.
    intros st2 [claims|]; [|done]. intros (keys & kid & dk & ? & ? & ? & ?). apply identity_ensure.
    right. split; [done|]. exists keys, id_token, kid, dk, claims. auto. }
  destruct (get_str "access_token" tr) as [tok|]; [|done].
  apply wp_bind. eapply wp_mono; [apply identity_validate_token|]. cbv beta.
  intros st1 [claims|].
  - intros (keys & kid & dk & ? & ? & ? & ?). eapply wp_mono; [apply identity_ensure|done].
    right. split; [done|]. exists keys, tok, kid, dk, claims. auto.
  - intros _. eapply wp_mono; [apply Htok|done].
Qed.

Lemma identity_task conf t :
  wp (identity_monitor conf t) (Evidence None None None) (task_code conf t) (fun _ _ => True).
Proof.
  destruct t as [req| |ev].
  - simpl. apply wp_bind. unfold handle_request. cbv zeta.
    repeat first
      [ exact I
      | apply wp_bind; eapply wp_mono; [first
          [ apply identity_authorize_get | eapply identity_authorize_post | apply identity_byoidc_token
          | apply identity_no_user; solve [eauto with confined]]
        |intros ???]
      | wp_step ]; repeat match goal with H : _ && _ = true |- _ => apply andb_true_iff in H as [? ?] end;
      done.
  - apply identity_no_user. change (only no_user evict). unfold evict. solve_only.
  - apply identity_no_user. simpl. unfold on_htpasswd_event. cbv zeta. solve_only.
Qed.
End Monitor.

(** ** The keys of the external provider *)

Section Keys.
Context {CR : Crates} {W : Type} `{!Host W}.
Context (conf : OAuthConf) (s0 : OAuthStore) (w0 : W).

Abbreviation cfg := (config serverE task unit (OAuthStore * W)).
Abbreviation from_start := (reachable server_step (task_code conf) env_step (s0, w0)).

(** Does not replace the external keys. *)
Definition keeps_keys X (e : serverE X) : Prop :=
  match e with inrE (inrE (ExtKeysWrite _)) => False | _ => True end.

Lemma kk_ensure u : only keeps_keys (ensure_user_and_identity u).
Proof. unfold ensure_user_and_identity. solve_only. Qed.
Lemma kk_validate_client c : only keeps_keys (validate_client c).
Proof. unfold validate_client. solve_only. Qed.
Lemma kk_validate_token t : only keeps_keys (validate_token t).
Proof. unfold validate_token. solve_only. Qed.
Lemma kk_issue u id uri rs ch m : only keeps_keys (issue_auth_code u id uri rs ch m).
Proof. unfold issue_auth_code, generate_random_string. solve_only. Qed.
Lemma kk_check_client ac id sec ver : only keeps_keys (check_client ac id sec ver).
Proof. pose proof kk_validate_client. unfold check_client. solve_only. Qed.
Lemma kk_finish c ac id : only keeps_keys (finish_token c ac id).
Proof. unfold finish_token, mint_token, generate_random_string. solve_only. Qed.
Hint Resolve kk_ensure kk_validate_client kk_validate_token kk_issue kk_check_client kk_finish : confined.

Lemma kk_task t : only keeps_keys (task_code conf t).
Proof.
  destruct t as [req| |ev]; simpl.
  - apply only_bind; [|done]. unfold handle_request. cbv zeta.
    unfold handle_byoidc_jwks, handle_byoidc_authorize, handle_authorize_get, handle_byoidc_userinfo,
      handle_userinfo, token_user, handle_authorize_post, handle_byoidc_token, handle_token, handle_byoidc_proxy.
    solve_only.
  - change (only keeps_keys evict). unfold evict. solve_only.
  - unfold on_htpasswd_event. solve_only.
Qed.

(** A read of the external keys that gave [m]. *)
Definition ev_ext_keys (ev : event serverE) : option (gmap string DecodingKey) :=
  match ev with
  | Ev (inrE (inrE he)) x =>
      match he in httpE X return X -> option (gmap string DecodingKey) with
      | ExtKeysRead => fun m => Some m
      | _ => fun _ => None
      end x
  | _ => None
  end.

Lemma step_ext_keys X (e : serverE X) (s s' : OAuthStore * W) x :
  keeps_keys X e -> server_step X e s = (x, s') ->
  ext_keys s'.1 = ext_keys s.1 /\ forall m, ev_ext_keys (Ev e x) = Some m -> m = ext_keys s.1.
Proof.
  destruct s as [st w]. unfold server_step, oauth_step, http_step. intros Hk.
  destruct e as [oe|[ke|he]]; [destruct oe|..|destruct he]; intros Hs;
    repeat match type of Hs with context [let '_ := ?t in _] => destruct t eqn:? end;
    injection Hs as <- <-; simpl; split; try done.
  by intros m [= ->].
Qed.

(** Whatever the tasks do, the keys are those of the start. *)
Lemma keys_fixed c :
  from_start c ->
  ext_keys (shared c).1 = ext_keys s0 /\
  forall i ev m, In (i, ev) (trace c) -> ev_ext_keys ev = Some m -> m = ext_keys s0.
Proof.
  intros Hr. unfold reachable in Hr. pattern c. eapply rtc_ind_r; [..|exact Hr]; [by split|].
  clear c Hr. intros c c' Hr Hs [IH1 IH2].
  pose proof (pool_confined _ _ _ keeps_keys _ _ kk_task (rtc_r _ _ _ Hr Hs)) as Hf.
  inversion Hs as [j X e k ts ps s s' x tr Hi Hh|t ts ps s tr|ts ps s s' tr He]; subst;
    cbn [trace shared] in *.
  - inversion Hf as [|? ? Hk _]; subst. destruct (step_ext_keys _ _ _ _ _ Hk Hh) as [Hs' Hm].
    split; [by rewrite Hs'|]. intros i ev m [Heq|Hin]; [|eauto].
    apply pair_equal_spec in Heq as [_ <-]. intros Hev. rewrite <- IH1. by apply Hm.
  - done.
  - unfold env_step in He. rewrite He. done.
Qed.

(** What the state of the monitor stands for. *)
Lemma evidence_events t evs :
  let st := mon_after (identity_monitor conf t) (Evidence None None None) evs in
  (forall us, ev_users st = Some us -> In (Ev (inlE UsersRead) us) evs) /\
  (forall m, ev_keys st = Some m -> exists ev, In ev evs /\ ev_ext_keys ev = Some m) /\
  (forall tok dk claims, ev_token st = Some (tok, dk, claims) ->
     In (Ev (inrE (inrE (JwtDecode tok dk))) (Some claims)) evs).
Proof.
  induction evs as [|[X e x] evs (IH1 & IH2 & IH3)] using rev_ind; [done|].
  cbv zeta in *. rewrite mon_after_app. simpl. setoid_rewrite in_app_iff.
  assert (Hkeys : forall m, ev_keys (mon_after (identity_monitor conf t) (Evidence None None None) evs) = Some m ->
    exists ev, (In ev evs \/ In ev [Ev e x]) /\ ev_ext_keys ev = Some m).
  { intros m Hm. destruct (IH2 m Hm) as (ev & ? & ?). eauto. }
  destruct e as [oe|[ke|he]]; [destruct oe|..|destruct he]; simpl in *;
    try solve [split_and!; [intros; left; eauto|exact Hkeys|intros; left; eauto]].
  - split_and!; [intros us [= ->]; right; by left|exact Hkeys|intros; left; eauto].
  - destruct x as [v|]; simpl; [|split_and!; [intros; left; eauto|exact Hkeys|intros; left; eauto]].
    split_and!; [intros; left; eauto|exact Hkeys|]. intros tok dk0 claims [= -> -> ->]. right. by left.
  - split_and!; [intros; left; eauto| |intros; left; eauto].
    intros m [= ->]. eexists. split; [right; by left|done].
Qed.

(** C8: User objects are written only for users who have proved who they are.
    Whatever the schedule, the task that writes one served a request that
    presented the user's name and password, which the users it had read
    accept; or the server delegates to an external provider and the task has
    checked the signature of a token that names the user, with the key of the
    token's key id among the keys the server had when it started.  Those keys
    never change while it runs. *)
Theorem user_objects_authenticated c i ev name :
  from_start c -> In (i, ev) (trace c) -> user_write _ (ev_eff ev) = Some name ->
  ext_keys (shared c).1 = ext_keys s0 /\
  ((exists req us pass, tasks c !! i = Some (Serve req) /\ presents req name pass /\
      In (i, Ev (inlE UsersRead) us) (trace c) /\ authenticate us name pass <> None) \/
   (is_byoidc (auth_mode conf) = true /\
    exists tok kid dk claims, token_kid tok = Some kid /\ ext_keys s0 !! kid = Some dk /\
      In (i, Ev (inrE (inrE (JwtDecode tok dk))) (Some claims)) (trace c) /\ claims_username claims = name)).
Proof.
  intros Hr Hin Hw. destruct (keys_fixed c Hr) as [Hk Hread]. split; [done|].
  pose proof (identity_task conf) as Htask.
  destruct (trace_task _ _ _ (identity_monitor conf) (fun _ => Evidence None None None) _ c _ _ Htask Hr Hin) as [t Ht].
  pose proof (pool_accepts _ _ _ (identity_monitor conf) (fun _ => Evidence None None None) _ c i t Htask Hr Ht) as Hacc.
  apply events_of_elem, in_split in Hin as (l1 & l2 & Hev).
  rewrite Hev, accepts_app in Hacc. destruct Hacc as [_ [Hal _]].
  assert (Hback : forall ev, In ev l1 -> In (i, ev) (trace c)).
  { intros ev' H. apply elem_events_of. rewrite Hev, in_app_iff. by left. }
  destruct (evidence_events t l1) as (E1 & E2 & E3).
  cbn [mallow identity_monitor] in Hal. unfold identity_allow in Hal. rewrite Hw in Hal.
  destruct Hal as [(req & us & pass & -> & Hu & Hp & Ha)|(Hb & keys & tok & kid & dk & claims & H1 & H2 & H3 & H4 & H5)].
  - left. exists req, us, pass. split_and!; auto.
  - right. split; [done|]. destruct (E2 keys H1) as (ev' & Hin' & Hm).
    rewrite <- (Hread i ev' keys (Hback _ Hin') Hm). exists tok, kid, dk, claims. split_and!; auto.
Qed.
End Keys.

(** ** Witness *)

Section Witness.
#[local] Existing Instance sample_crates.

(** A write found in a trace. *)
Lemma in_user_write name (tr : list (nat * event serverE)) :
  existsb (fun p => match user_write _ (ev_eff p.2) with Some n => String.eqb n name | None => false end) tr = true ->
  exists i ev, In (i, ev) tr /\ user_write _ (ev_eff ev) = Some name.
Proof.
  intros ([i ev] & Hin & Hev)%existsb_exists. simpl in Hev. exists i, ev. split; [done|].
  destruct (user_write _ _); [|done]. by apply String.eqb_eq in Hev as ->.
Qed.

Example user_objects_authenticated_witness :
  exists i req us pass, tasks sample_run !! i = Some (Serve req) /\ presents req "admin" pass /\
    authenticate us "admin" pass <> None.
Proof.
  destruct (in_user_write "admin" (trace sample_run)) as (i & ev & Hin & Hw); [vm_compute; reflexivity|].
  destruct (user_objects_authenticated (sample_conf Legacy) _ _ sample_run i ev "admin" sample_run_reachable Hin Hw)
    as [_ [(req & us & pass & Ht & Hp & _ & Ha)|[Hb _]]]; [|discriminate Hb].
  exists i, req, us, pass. auto.
Defined.
End Witness.
