(* ===== verification/OAuthRefinement.v ===== *)
(** * The OAuth server refines an abstract grant machine

    [grant_step] is what an authorization server promises, without requests,
    clocks, locks or interleaving: a session that has read the user store may
    issue a code to a user that store accepts, a session trades a code for a
    grant and the grant for a token, the user store may be reloaded, and codes,
    grants and tokens may lapse.  The theorem of this file is a forward
    simulation from the pool of tasks of [OAuthSafety] to that machine. *)

From S2P Require Import Prelude RustStr Json Prog Kube Util Crates.
From S2P Require Import OAuthTypes OAuthEffects OAuthHelpers OAuthK8s OAuthHandlers OAuthByoidc OAuthServer.
From S2P Require Import OAuthSafety OAuthConcurrency OAuthSample.
Import UserStoreOps.
Open Scope list_scope.
Open Scope Z_scope.

(** ** The abstract machine *)

Record grants : Type := Grants {
  (** the user stores the server has been given, the current one first *)
  g_stores : list UserStore;
  (** the user store each session has read *)
  g_seen : gmap nat UserStore;
  (** the user each outstanding code stands for *)
  g_codes : gmap string string;
  (** the user each session has a grant for *)
  g_sessions : gmap nat string;
  (** the user each live token stands for *)
  g_tokens : gmap string string
}.

Definition no_grants (us : UserStore) : grants := Grants [us] ∅ ∅ ∅ ∅.

Inductive grant_step : grants -> grants -> Prop :=
| g_reload us l seen cs ss ts :
    grant_step (Grants l seen cs ss ts) (Grants (us :: l) seen cs ss ts)
| g_read i us l seen cs ss ts :
    grant_step (Grants (us :: l) seen cs ss ts) (Grants (us :: l) (<[i := us]> seen) cs ss ts)
| g_issue i us user pass code l seen cs ss ts :
    seen !! i = Some us -> authenticate us user pass <> None ->
    grant_step (Grants l seen cs ss ts) (Grants l seen (<[code := user]> cs) ss ts)
| g_redeem i code user l seen cs ss ts :
    cs !! code = Some user ->
    grant_step (Grants l seen cs ss ts) (Grants l seen (delete code cs) (<[i := user]> ss) ts)
| g_mint i tok user l seen cs ss ts :
    ss !! i = Some user ->
    grant_step (Grants l seen cs ss ts) (Grants l seen cs (delete i ss) (<[tok := user]> ts))
| g_lapse l seen cs ss ts cs' ss' ts' :
    cs' ⊆ cs -> ss' ⊆ ss -> ts' ⊆ ts ->
    grant_step (Grants l seen cs ss ts) (Grants l seen cs' ss' ts').

(** ** What the machine guarantees by itself

    Whoever holds a code, a grant or a token was accepted by a user store the
    machine was given. *)

Definition accepted (g : grants) (user : string) : Prop :=
  exists us pass, us ∈ g_stores g /\ authenticate us user pass <> None.

Record sound (g : grants) : Prop := {
  sound_seen : map_Forall (fun _ us => us ∈ g_stores g) (g_seen g);
  sound_codes : map_Forall (fun _ => accepted g) (g_codes g);
  sound_sessions : map_Forall (fun _ => accepted g) (g_sessions g);
  sound_tokens : map_Forall (fun _ => accepted g) (g_tokens g)
}.

Lemma accepted_mono g g' user : g_stores g ⊆ g_stores g' -> accepted g user -> accepted g' user.
Proof. intros Hs (us & pass & Hin & Ha). exists us, pass. set_solver. Qed.

Lemma map_Forall_subseteq `{Countable K} {V} (P : K -> V -> Prop) (m m' : gmap K V) :
  m' ⊆ m -> map_Forall P m -> map_Forall P m'.
Proof. intros Hm HP k v Hk. apply HP. by eapply lookup_weaken. Qed.

Lemma map_Forall_weaken `{Countable K} {V} (P Q : V -> Prop) (m : gmap K V) :
  (forall v, P v -> Q v) -> map_Forall (fun _ => P) m -> map_Forall (fun _ => Q) m.
Proof. intros HPQ HP k v Hk. eauto. Qed.

Lemma grant_step_sound g g' : sound g -> grant_step g g' -> sound g'.
Proof.
  intros [H1 H2 H3 H4] Hs. inversion Hs; subst; simpl in *; split; simpl;
    try solve [done | by eapply map_Forall_subseteq].
  - eapply map_Forall_weaken; [|exact H1]. set_solver.
  - eapply map_Forall_weaken; [|exact H2]. intros v. apply accepted_mono. set_solver.
  - eapply map_Forall_weaken; [|exact H3]. intros v. apply accepted_mono. set_solver.
  - eapply map_Forall_weaken; [|exact H4]. intros v. apply accepted_mono. set_solver.
  - apply map_Forall_insert_2; [set_solver|done].
  - apply map_Forall_insert_2; [|done]. exists us, pass. split; [|done]. simpl. by eapply (H1 i).
  - by eapply map_Forall_delete.
  - apply map_Forall_insert_2; [|done]. by eapply (H2 code).
  - by eapply map_Forall_delete.
  - apply map_Forall_insert_2; [|done]. by eapply (H3 i).
Qed.

Lemma grants_sound us g : rtc grant_step (no_grants us) g -> sound g.
Proof.
  intros Hr. pattern g. eapply rtc_ind_r; [..|exact Hr].
  - split; apply map_Forall_empty.
  - eauto using grant_step_sound.
Qed.

(** ** Simulation *)

Section Refinement.
Context {CR : Crates} {W : Type} `{!Host W}.
Context (conf : OAuthConf) (us0 : UserStore) (w : W).

Abbreviation cfg := (config serverE task unit (OAuthStore * W)).

Definition ev_reloads (ev : event serverE) : option UserStore :=
  match ev with Ev (inlE (UsersWrite us)) _ => Some us | _ => None end.
Definition reloads (tr : list (nat * event serverE)) : list UserStore :=
  omap (fun p => ev_reloads p.2) tr.

(** The user store task [i] has read last. *)
Definition store_seen (c : cfg) (i : nat) : option UserStore :=
  seen_users (mon_after (code_monitor EvictRound) (Seen None None) (events_of i (trace c))).

(** The grant task [i] holds: the code it has redeemed and not yet used. *)
Definition session (c : cfg) (i : nat) : option AuthCode :=
  mon_after token_monitor None (events_of i (trace c)).

Record refines (c : cfg) (g : grants) : Prop := {
  ref_stores : g_stores g = reloads (trace c) ++ [us0];
  ref_current : head (g_stores g) = Some (user_store (shared c).1);
  ref_seen i : g_seen g !! i = store_seen c i;
  ref_codes : g_codes g = ac_username <$> codes (shared c).1;
  ref_sessions i : g_sessions g !! i = ac_username <$> session c i;
  ref_tokens : g_tokens g = ti_username <$> tokens (shared c).1
}.

(** One effect of the server, seen from its users, codes and tokens. *)
Inductive store_step X (e : serverE X) (x : X) (s s' : OAuthStore) : Prop :=
| ss_issue code mk now :
    Ev e x = Ev (inlE (CodesInsert code mk)) tt -> user_store s' = user_store s ->
    codes s' = <[code := mk now]> (codes s) -> tokens s' = tokens s -> store_step X e x s s'
| ss_redeem code ac :
    Ev e x = Ev (inlE (CodesRemove code)) (Some ac) -> user_store s' = user_store s ->
    codes s !! code = Some ac -> codes s' = delete code (codes s) -> tokens s' = tokens s ->
    store_step X e x s s'
| ss_miss code :
    Ev e x = Ev (inlE (CodesRemove code)) None -> user_store s' = user_store s ->
    codes s' = codes s -> tokens s' = tokens s -> store_step X e x s s'
| ss_mint tok mk now :
    Ev e x = Ev (inlE (TokensInsert tok mk)) tt -> user_store s' = user_store s ->
    codes s' = codes s -> tokens s' = <[tok := mk now]> (tokens s) -> store_step X e x s s'
| ss_read :
    Ev e x = Ev (inlE UsersRead) (user_store s) -> s' = s -> store_step X e x s s'
| ss_reload us :
    Ev e x = Ev (inlE (UsersWrite us)) tt -> user_store s' = us ->
    codes s' = codes s -> tokens s' = tokens s -> store_step X e x s s'
| ss_other :
    (forall st, token_next X st e x = st) -> (forall st, seen_users (code_next X st e x) = seen_users st) ->
    ev_reloads (Ev e x) = None -> user_store s' = user_store s ->
    codes s' ⊆ codes s -> tokens s' ⊆ tokens s -> store_step X e x s s'.

Lemma server_store_step X (e : serverE X) (s s' : OAuthStore * W) x :
  server_step X e s = (x, s') -> store_step X e x s.1 s'.1.
Proof.
  destruct s as [st w0]. unfold server_step, oauth_step, http_step.
  destruct e as [oe|[ke|he]]; [destruct oe|..|destruct he]; intros Hs;
    repeat match type of Hs with context [let '_ := ?t in _] => destruct t eqn:? end;
    injection Hs as <- <-; simpl;
    try solve [apply ss_other; simpl; first [done | apply map_filter_subseteq]].
  - by eapply ss_issue.
  - destruct (codes st !! code) as [ac|] eqn:Hc.
    + by eapply ss_redeem.
    + eapply ss_miss; simpl; [done..| |done]. by apply delete_id.
  - by eapply ss_mint.
  - by apply ss_read.
  - by eapply ss_reload.
  - apply ss_other; [done| |done..]. intros st0. simpl.
    destruct ke as [k [|] ?|? | | | | |]; try done. destruct k; try done. simpl. by case_match.
Qed.

Lemma session_cons ts ps s tr j ev i :
  session (Config ts ps s ((j, ev) :: tr)) i =
    (if Nat.eqb j i then token_next _ (session (Config ts ps s tr) i) (ev_eff ev) (ev_ret ev)
     else session (Config ts ps s tr) i).
Proof. unfold session. cbn [trace]. rewrite events_of_cons, mon_after_app. by destruct (Nat.eqb j i). Qed.

Lemma store_seen_cons ts ps s tr j ev i :
  store_seen (Config ts ps s ((j, ev) :: tr)) i =
    (if Nat.eqb j i
     then seen_users (code_next _ (mon_after (code_monitor EvictRound) (Seen None None) (events_of i tr))
            (ev_eff ev) (ev_ret ev))
     else store_seen (Config ts ps s tr) i).
Proof. unfold store_seen. cbn [trace]. rewrite events_of_cons, mon_after_app. by destruct (Nat.eqb j i). Qed.

Lemma reloads_cons j ev tr :
  reloads ((j, ev) :: tr) = match ev_reloads ev with Some us => us :: reloads tr | None => reloads tr end.
Proof. done. Qed.

(** What the monitors say of the next effect of task [i]. *)
Lemma next_issue ts ps (s : OAuthStore * W) tr i X (e : serverE X) x k code mk :
  server_reachable conf us0 w (Config ts ps s tr) ->
  ps !! i = Some (Vis e k) -> Ev e x = Ev (inlE (CodesInsert code mk)) tt ->
  exists us pass, store_seen (Config ts ps s tr) i = Some us /\
    forall now, authenticate us (ac_username (mk now)) pass <> None.
Proof.
  intros Hr Hi He.
  destruct (pool_monitored _ _ _ code_monitor (fun _ => Seen None None) _ _ (code_task conf) Hr)
    as [Hm [Hlen _]]. cbn [pool tasks trace] in *.
  destruct (lookup_lt_is_Some_2 ts i) as [t Ht]; [rewrite Hlen; by eapply lookup_lt_Some|].
  destruct (Hm i t _ Ht Hi) as [_ [Hal _]].
  change (mallow (code_monitor t) (mon_after (code_monitor t) (Seen None None) (events_of i tr))
            (ev_eff (Ev e x))) in Hal.
  rewrite He in Hal.
  destruct Hal as (req & us & id & o & -> & Hu & _ & user & pass & uri & _ & Ha & _ & _ & _ & Hmk).
  exists us, pass. split; [exact Hu|]. intros now. by rewrite Hmk.
Qed.

Lemma next_mint ts ps (s : OAuthStore * W) tr i X (e : serverE X) x k tok mk :
  server_reachable conf us0 w (Config ts ps s tr) ->
  ps !! i = Some (Vis e k) -> Ev e x = Ev (inlE (TokensInsert tok mk)) tt ->
  exists ac, session (Config ts ps s tr) i = Some ac /\
    forall now, mk now = {| ti_username := ac_username ac; ti_created := now |}.
Proof.
  intros Hr Hi He.
  destruct (pool_monitored _ _ _ (fun _ => token_monitor) (fun _ => None) _ _ (token_task conf) Hr)
    as [Hm [Hlen _]]. cbn [pool tasks trace] in *.
  destruct (lookup_lt_is_Some_2 ts i) as [t Ht]; [rewrite Hlen; by eapply lookup_lt_Some|].
  destruct (Hm i t _ Ht Hi) as [_ [Hal _]].
  change (mallow token_monitor (mon_after token_monitor None (events_of i tr)) (ev_eff (Ev e x))) in Hal.
  by rewrite He in Hal.
Qed.

Lemma lookup_delete_at (m : gmap nat string) i j :
  delete i m !! j = if Nat.eqb i j then None else m !! j.
Proof.
  destruct (Nat.eqb_spec i j) as [->|Hne]; [by rewrite lookup_delete_eq|by rewrite lookup_delete_ne].
Qed.

Lemma lookup_insert_at {V} (m : gmap nat V) i j v :
  <[i := v]> m !! j = if Nat.eqb i j then Some v else m !! j.
Proof.
  destruct (Nat.eqb_spec i j) as [->|Hne]; [by rewrite lookup_insert_eq|by rewrite lookup_insert_ne].
Qed.

(** A step of the machine that matches the event [ev] of task [i]. *)
Lemma refines_event ts ps ps' (s s' : OAuthStore * W) tr i ev l seen cs ss tk l' seen' cs' ss' tk' :
  refines (Config ts ps s tr) (Grants l seen cs ss tk) ->
  grant_step (Grants l seen cs ss tk) (Grants l' seen' cs' ss' tk') ->
  l' = match ev_reloads ev with Some us => us :: l | None => l end ->
  head l' = Some (user_store s'.1) ->
  (forall j, seen' !! j = if Nat.eqb i j
     then seen_users (code_next _ (mon_after (code_monitor EvictRound) (Seen None None) (events_of j tr))
                        (ev_eff ev) (ev_ret ev))
     else seen !! j) ->
  cs' = ac_username <$> codes s'.1 ->
  (forall j, ss' !! j = if Nat.eqb i j
     then ac_username <$> token_next _ (session (Config ts ps s tr) j) (ev_eff ev) (ev_ret ev)
     else ss !! j) ->
  tk' = ti_username <$> tokens s'.1 ->
  exists g', grant_step (Grants l seen cs ss tk) g' /\ refines (Config ts ps' s' ((i, ev) :: tr)) g'.
Proof.
  intros [R1 _ R3 _ R5 _] Hg -> Hh Hseen -> Hss ->. simpl in R1, R3, R5.
  eexists. split; [exact Hg|].
  split; cbn [g_stores g_seen g_codes g_sessions g_tokens shared trace]; [|exact Hh| |reflexivity| |reflexivity].
  - rewrite reloads_cons, R1. by destruct (ev_reloads ev).
  - intros j. rewrite Hseen, store_seen_cons. destruct (Nat.eqb i j); [done|]. apply R3.
  - intros j. rewrite Hss, session_cons. destruct (Nat.eqb i j); [done|]. apply R5.
Qed.

(** One effect of a task is one step of the machine. *)
Lemma simulate_effect ts ps (s s' : OAuthStore * W) tr i X (e : serverE X) k x g :
  server_reachable conf us0 w (Config ts ps s tr) ->
  ps !! i = Some (Vis e k) -> server_step X e s = (x, s') ->
  refines (Config ts ps s tr) g ->
  exists g', grant_step g g' /\ refines (Config ts (<[i := k x]> ps) s' ((i, Ev e x) :: tr)) g'.
Proof.
  intros Hr Hi Hst Href. apply server_store_step in Hst. destruct g as [l seen cs ss tk].
  pose proof Href as [_ R2 R3 R4 R5 R6].
  cbn [g_stores g_seen g_codes g_sessions g_tokens shared trace] in *.
  assert (Hseen : forall j, seen !! j = if Nat.eqb i j then store_seen (Config ts ps s tr) j else seen !! j).
  { intros j. rewrite R3. by destruct (Nat.eqb i j). }
  assert (Hss : forall j, ss !! j = if Nat.eqb i j then ac_username <$> session (Config ts ps s tr) j else ss !! j).
  { intros j. rewrite R5. by destruct (Nat.eqb i j). }
  destruct Hst as [code mk now He Hu Hc Ht|code ac He Hu Hl Hc Ht|code He Hu Hc Ht|tok mk now He Hu Hc Ht
                  |He Hs|us He Hu Hc Ht|Hn1 Hn2 He Hu Hc Ht].
  - destruct (next_issue _ _ _ _ _ _ _ _ _ _ _ Hr Hi He) as (us & pass & Hus & Ha). rewrite He.
    rewrite <- R3 in Hus.
    eapply refines_event; [exact Href|by eapply g_issue|done|by rewrite Hu|done| |done|by rewrite Ht].
    by rewrite Hc, fmap_insert, R4.
  - rewrite He.
    eapply refines_event; [exact Href|eapply (g_redeem i code (ac_username ac))|done|by rewrite Hu|done| | |by rewrite Ht].
    + by rewrite R4, lookup_fmap, Hl.
    + by rewrite Hc, fmap_delete, R4.
    + intros j. rewrite lookup_insert_at. by destruct (Nat.eqb i j).
  - rewrite He.
    eapply refines_event; [exact Href|eapply (g_lapse _ _ _ _ _ cs (delete i ss) tk)|done|by rewrite Hu|done|by rewrite Hc| |by rewrite Ht];
      [done|apply delete_subseteq|done|].
    intros j. rewrite lookup_delete_at. by destruct (Nat.eqb i j).
  - destruct (next_mint _ _ _ _ _ _ _ _ _ _ _ Hr Hi He) as (ac & Hac & Hmk). rewrite He.
    eapply refines_event; [exact Href|eapply (g_mint i tok (ac_username ac))|done|by rewrite Hu|done|by rewrite Hc| |].
    + by rewrite R5, Hac.
    + intros j. rewrite lookup_delete_at. by destruct (Nat.eqb i j).
    + by rewrite Ht, fmap_insert, R6, Hmk.
  - rewrite He. destruct l as [|us l]; [done|]. injection R2 as ->.
    eapply refines_event; [exact Href|eapply (g_read i)|done|by rewrite Hs| |by rewrite Hs|done|by rewrite Hs].
    intros j. rewrite lookup_insert_at. by destruct (Nat.eqb i j).
  - rewrite He.
    eapply refines_event; [exact Href|eapply (g_reload us)|done|by rewrite Hu|done|by rewrite Hc|done|by rewrite Ht].
  - eapply refines_event; [exact Href|eapply (g_lapse _ _ _ _ _ (ac_username <$> codes s'.1) ss (ti_username <$> tokens s'.1))
      |by rewrite He|by rewrite Hu| |done| |done].
    + rewrite R4. by apply map_fmap_mono.
    + done.
    + rewrite R6. by apply map_fmap_mono.
    + intros j. cbn [ev_eff ev_ret]. rewrite Hn2. apply Hseen.
    + intros j. cbn [ev_eff ev_ret]. rewrite Hn1. apply Hss.
Qed.

Lemma refines_simulates c c' g :
  server_reachable conf us0 w c ->
  pool_step server_step (task_code conf) env_step c c' -> refines c g ->
  exists g', rtc grant_step g g' /\ refines c' g'.
Proof.
  intros Hr Hs Href.
  inversion Hs as [i X e k ts ps s s' x tr Hi Hh|t ts ps s tr|ts ps s s' tr He]; subst.
  - destruct (simulate_effect _ _ _ _ _ _ _ _ _ _ _ Hr Hi Hh Href) as (g' & Hg & Hg').
    exists g'. split; [by apply rtc_once|done].
  - exists g. split; [done|]. by destruct Href; split.
  - exists g. split; [done|]. unfold env_step in He. destruct Href; split; simpl in *; by rewrite ?He.
Qed.

(** C2: forward simulation: whatever the schedule of requests, eviction rounds and
    user reloads, the server's users, codes, grants in progress and tokens are
    those of a run of the abstract machine started with the server's users and
    no grants.  Hence the user of any live token was accepted by the user store
    the server started with or by one it was given later. *)
Theorem server_refines_grants c :
  server_reachable conf us0 w c ->
  exists g, rtc grant_step (no_grants us0) g /\ refines c g /\
    forall tok info, tokens (shared c).1 !! tok = Some info ->
      exists us pass, us ∈ reloads (trace c) ++ [us0] /\ authenticate us (ti_username info) pass <> None.
Proof.
  intros Hr.
  assert (Hsim : exists g, rtc grant_step (no_grants us0) g /\ refines c g).
  { unfold server_reachable, reachable in Hr. pattern c. eapply rtc_ind_r; [..|exact Hr].
    - exists (no_grants us0). split; [done|]. split; try done; simpl; by rewrite fmap_empty.
    - intros c1 c2 H1 Hs (g & Hg & Href). destruct (refines_simulates _ _ _ H1 Hs Href) as (g' & Hg' & Href').
      exists g'. split; [by etrans|done]. }
  destruct Hsim as (g & Hg & Href). exists g. split_and!; [done..|]. intros tok info Ht.
  destruct (grants_sound _ _ Hg) as [_ _ _ Hs]. rewrite <- (ref_stores _ _ Href).
  apply (Hs tok). by rewrite (ref_tokens _ _ Href), lookup_fmap, Ht.
Qed.
End Refinement.

Section Witness.
#[local] Existing Instance sample_crates.

Example server_refines_grants_witness :
  exists us pass, us ∈ reloads (trace sample_run) ++ [Users default_users] /\
    authenticate us "admin" pass <> None.
Proof.
  destruct (server_refines_grants _ _ _ sample_run sample_run_reachable) as (g & _ & _ & Htok).
  apply (Htok sample_token {| ti_username := "admin"; ti_created := 1000 |}). vm_compute. reflexivity.
Defined.
End Witness.
