(* ===== verification/OAuthGuarantees.v ===== *)
(** * Guarantees of the OAuth server over every schedule

    The statements a client or an operator relies on, each a short consequence
    of the invariants of [OAuthConcurrency], with a concrete run of the server
    in which its hypotheses hold. *)

From S2P Require Import Prelude RustStr Json Prog Kube Util Crates.
From S2P Require Import OAuthTypes OAuthEffects OAuthHelpers OAuthK8s OAuthHandlers OAuthByoidc OAuthServer.
From S2P Require Import OAuthSafety OAuthConcurrency OAuthSample.
Import UserStoreOps.
Open Scope list_scope.
Open Scope Z_scope.

(** An issue found by its code. *)
Lemma in_issue {CR : Crates} i code tr :
  existsb (fun p => Nat.eqb p.1 i &&
             match ev_issues p.2 with Some (c, _) => String.eqb c code | None => false end) tr = true ->
  exists mk, In (i, Ev (inlE (CodesInsert code mk)) tt) tr.
Proof.
  intros ([j ev] & Hin & Hev)%existsb_exists. apply andb_true_iff in Hev as [Hj Hev]. simpl in *.
  apply Nat.eqb_eq in Hj as ->. destruct ev as [X [[]|] x]; simpl in Hev; try done.
  apply String.eqb_eq in Hev as ->. destruct x. eauto.
Qed.

Section Guarantees.
Context {CR : Crates} {W : Type} `{!Host W}.
Context (conf : OAuthConf) (us : UserStore) (w : W).

(** The login a token goes back to: a request [j] that presented a user name
    and password accepted by the user store it read, for a client it found
    in the cluster with a redirect URI that starts with one of its own. *)
Definition login_of (c : config serverE task unit (OAuthStore * W)) (user id : string) (j : nat) : Prop :=
  exists req pass us0 client uri,
    tasks c !! j = Some (Serve req) /\
    presents req user pass /\
    In (j, Ev (inlE UsersRead) us0) (trace c) /\
    authenticate us0 user pass <> None /\
    In (j, Ev (inrE (inlE (KGet (KDynamic oauth_client_ar) All id))) (Ok client)) (trace c) /\
    form_of req !! "redirect_uri" = Some uri /\
    uri_matches (redirect_uris_of (data client)) uri = true.

Lemma granted_login (c : config serverE task unit (OAuthStore * W)) j mk now :
  granted_by c j mk -> login_of c (ac_username (mk now)) (ac_client_id (mk now)) j.
Proof.
  intros (req & us0 & id & client & Ht & Hu & Hc & user & pass & uri & Hp & Ha & _ & Huri & Hm & Hmk).
  rewrite Hmk. simpl. exists req, pass, us0, client, uri. auto 10.
Qed.

(** Token [tok] with [info], minted by request [i] out of the redemption of
    [code], which stood for [ac]: among the effects of [i] the mint follows
    that redemption with no other mint or redemption in between.  [past] is
    the trace before the redemption. *)
Definition minted_from (c : config serverE task unit (OAuthStore * W)) (i : nat)
    (tok : string) (info : TokenInfo) (code : string) (ac : AuthCode)
    (past : list (nat * event serverE)) : Prop :=
  exists l0 l0' mk l2 recent now,
    events_of i (trace c) =
      l0 ++ Ev (inlE (CodesRemove code)) (Some ac) :: l0' ++ Ev (inlE (TokensInsert tok mk)) tt :: l2 /\
    Forall (fun ev => ev_mints ev = None /\ ev_redeems ev = None) l0' /\
    info = mk now /\
    (forall t, mk t = {| ti_username := ac_username ac; ti_created := t |}) /\
    trace c = recent ++ (i, Ev (inlE (CodesRemove code)) (Some ac)) :: past /\
    events_of i past = l0.

Lemma token_minted_from c tok info :
  server_reachable conf us w c ->
  tokens (shared c).1 !! tok = Some info ->
  exists i code ac past, minted_from c i tok info code ac past.
Proof.
  intros Hr Htok.
  destruct (tokens_minted _ _ _ _ Hr _ _ Htok) as (i & mk & now & Hin & ->).
  apply events_of_elem, in_split in Hin as (l1 & l2 & Hev).
  destruct (token_redeemed _ _ _ _ _ _ _ _ _ Hr Hev) as (l0 & code & ac & l0' & -> & Hq & Hmk).
  rewrite <- app_assoc in Hev. simpl in Hev.
  destruct (events_of_split _ _ _ _ _ Hev) as (recent & past & Htr & Hpast).
  exists i, code, ac, past, l0, l0', mk, l2, recent, now. auto 10.
Qed.

(** C1: whatever the schedule of requests, eviction rounds and user reloads,
    every token in the table was minted by a request [i] that redeemed a code
    just before, with no other mint or redemption in between; that very code
    had been stored, earlier in the trace, by a request [j] which presented a
    user name and password the user store accepted, for a registered client
    and a redirect URI that starts with one of its own.  What was redeemed is
    what [j] stored, its client is the client [j] looked up, and the token
    names [j]'s user. *)
Theorem every_token_traces_to_a_login c tok info :
  server_reachable conf us w c ->
  tokens (shared c).1 !! tok = Some info ->
  exists i code ac past j mkc t,
    minted_from c i tok info code ac past /\
    In (j, Ev (inlE (CodesInsert code mkc)) tt) past /\
    ac = mkc t /\
    ti_username info = ac_username ac /\
    login_of c (ac_username ac) (ac_client_id ac) j.
Proof.
  intros Hr Htok.
  destruct (token_minted_from _ _ _ Hr Htok) as (i & code & ac & past & Hm).
  pose proof Hm as (l0 & l0' & mk & l2 & recent & now & _ & _ & Hinfo & Hmk & Htr & _).
  destruct (redeemed_after_issue _ _ _ _ Hr _ _ _ _ _ Htr) as (j & mkc & t & Hins & Hac).
  exists i, code, ac, past, j, mkc, t. split_and!; [done..| |].
  - by rewrite Hinfo, Hmk.
  - rewrite Hac. apply granted_login. eapply code_granted; [exact Hr|].
    rewrite Htr, in_app_iff. right. right. exact Hins.
Qed.

(** C3: a code is never redeemed more often than it was issued, and no more
    tokens are minted than codes redeemed, nor more codes redeemed than
    issued: concurrent exchanges of one code yield one token. *)
Theorem tokens_bounded_by_codes c :
  server_reachable conf us w c ->
  (forall code, count_occ String.string_dec (redeems (trace c)).*1 code <=
                count_occ String.string_dec (issues (trace c)).*1 code)%nat /\
  (length (mints (trace c)) <= length (redeems (trace c)) <= length (issues (trace c)))%nat.
Proof.
  intros Hr. split.
  - intros code. pose proof (redeem_count_inv _ _ _ _ Hr code). lia.
  - pose proof (redeem_length_inv _ _ _ _ Hr). pose proof (mints_le_redeems _ _ _ _ Hr). lia.
Qed.

(** A code is stored only by a request that presented a user name and
    password the user store accepted, named a client of the cluster and a
    redirect URI that starts with one of the client's; the code carries that
    user, that client, the time it is stored, and the PKCE challenge of the
    request. *)
Theorem code_issue_requires_login c i code mk :
  server_reachable conf us w c ->
  In (i, Ev (inlE (CodesInsert code mk)) tt) (trace c) ->
  granted_by c i mk.
Proof. apply code_granted. Qed.

(** C10: the two ways of running the server stay apart.  Outside BYOIDC mode
    no task ever contacts the external provider or touches its keys; in
    BYOIDC mode no code is redeemed and no token is minted, so the local
    token table stays empty. *)
Theorem modes_are_separate c :
  server_reachable conf us w c ->
  (is_byoidc (auth_mode conf) = false -> Forall (fun p => ev_external p.2 = false) (trace c)) /\
  (is_byoidc (auth_mode conf) = true ->
     mints (trace c) = [] /\ redeems (trace c) = [] /\ tokens (shared c).1 = ∅).
Proof.
  intros Hr. split; intros Hb.
  - pose proof (pool_confined _ _ _ internal _ _ (fun t => internal_task conf t Hb) Hr) as Hf.
    eapply Forall_impl; [|exact Hf]. by intros [i [X [|[|]] x]].
  - pose proof (pool_confined _ _ _ no_exchange _ _ (fun t => no_exchange_task conf t Hb) Hr) as Hf.
    assert (Hm : mints (trace c) = [] /\ redeems (trace c) = []).
    { clear Hr. induction Hf as [|[i [X [[]|[|]] x]] tr He _ [IH1 IH2]]; [done|..]; simpl in *; try done; auto. }
    destruct Hm as [Hm Hre]. split_and!; [done..|].
    apply map_empty. intros tok. destruct (_ !! tok) eqn:Ht; [|done].
    destruct (tokens_minted _ _ _ _ Hr _ _ Ht) as (i & mk & now & Hin & _).
    rewrite List.Forall_forall in Hf. by specialize (Hf _ Hin).
Qed.
End Guarantees.

Section Witnesses.
#[local] Existing Instance sample_crates.

Example every_token_traces_to_a_login_witness :
  exists i code ac past j mkc t,
    minted_from sample_run i sample_token {| ti_username := "admin"; ti_created := 1000 |} code ac past /\
    In (j, Ev (inlE (CodesInsert code mkc)) tt) past /\
    ac = mkc t /\ "admin" = ac_username ac /\
    login_of sample_run (ac_username ac) (ac_client_id ac) j.
Proof.
  apply (every_token_traces_to_a_login _ _ _ sample_run sample_token
           {| ti_username := "admin"; ti_created := 1000 |} sample_run_reachable).
  vm_compute. reflexivity.
Defined.

Example tokens_bounded_by_codes_witness :
  (length (mints (trace sample_run)) = 1)%nat /\
  (length (mints (trace sample_run)) <= length (redeems (trace sample_run)) <=
    length (issues (trace sample_run)))%nat.
Proof.
  split; [vm_compute; reflexivity|].
  apply (tokens_bounded_by_codes _ _ _ sample_run sample_run_reachable).
Defined.

Example code_issue_requires_login_witness : exists mk, granted_by sample_run 0 mk.
Proof.
  destruct (in_issue 0 sample_code (trace sample_run)) as [mk Hin]; [vm_compute; reflexivity|].
  exists mk. exact (code_issue_requires_login _ _ _ sample_run 0 sample_code mk sample_run_reachable Hin).
Defined.

Example modes_are_separate_witness :
  Nat.ltb 5 (length (trace sample_run)) = true /\ Forall (fun p => ev_external p.2 = false) (trace sample_run).
Proof.
  split; [vm_compute; reflexivity|].
  apply (modes_are_separate _ _ _ sample_run sample_run_reachable). reflexivity.
Defined.
End Witnesses.
