(* ===== verification/OAuthFlows.v ===== *)
(** * What the endpoints do, run one after the other

    The token endpoint decided exactly, single use of codes, the login flow
    end to end, and eviction and user reload as seen by later requests. *)

From S2P Require Import Prelude RustStr Json Prog Kube Util Crates.
From S2P Require Import OAuthTypes OAuthEffects OAuthHelpers OAuthK8s OAuthHandlers OAuthByoidc OAuthServer.
From S2P Require Import OAuthSafety OAuthSample.
Import UserStoreOps.
Open Scope list_scope.
Open Scope Z_scope.

Section Flows.
Context {CR : Crates} {W : Type} `{!Host W}.

Abbreviation world := (OAuthStore * W)%type.

(** ** Running quiet programs *)

Lemma quiet_store X (e : serverE X) (s : world) :
  quiet X e -> let s' := (server_step X e s).2 in
  codes s'.1 = codes s.1 /\ tokens s'.1 = tokens s.1 /\ user_store s'.1 = user_store s.1.
Proof.
  destruct s as [st w]. unfold server_step, oauth_step, http_step.
  destruct e as [oe|[ke|he]]; [destruct oe|..|destruct he]; simpl; try done; intros _;
    repeat match goal with |- context [let '_ := ?t in _] => destruct t end; done.
Qed.

Lemma run_quiet {A} (p : prog serverE A) (s : world) :
  only quiet p -> let s' := (run_server p s).2 in
  codes s'.1 = codes s.1 /\ tokens s'.1 = tokens s.1 /\ user_store s'.1 = user_store s.1.
Proof.
  intros Hp. cbv zeta.
  assert (Hq : forall X (e : serverE X) (s : world), quiet X e ->
    (fun s : world => (codes s.1, tokens s.1, user_store s.1)) (server_step X e s).2 =
    (codes s.1, tokens s.1, user_store s.1)).
  { intros X e s0 He. simpl. by destruct (quiet_store X e s0 He) as (-> & -> & ->). }
  pose proof (run_only quiet server_step _ p s Hq Hp) as H. simpl in H. by injection H.
Qed.

Lemma run_server_bind {A B} (p : prog serverE A) (f : A -> prog serverE B) (s : world) :
  run_server (prog_bind p f) s = let '(a, s') := run_server p s in run_server (f a) s'.
Proof. apply run_bind. Qed.

Lemma run_users_read (s : OAuthStore) (w : W) :
  run_server (trigger UsersRead) (s, w) = (user_store s, (s, w)).
Proof. done. Qed.

(** What the cluster answers to a lookup of the OAuth client [id]. *)
Definition client_lookup (w : W) (id : string) : KRes DynamicObject * W :=
  kube_step (KGet (KDynamic oauth_client_ar) All id) w.

Lemma run_validate_client (s : OAuthStore) (w : W) id :
  run_server (validate_client id) (s, w) =
    (match (client_lookup w id).1 with
     | Ok o => Some (client_secret_of (data o), redirect_uris_of (data o))
     | Err _ => None
     end, (s, (client_lookup w id).2)).
Proof.
  unfold run_server, validate_client, client_lookup. prog_unfold. cbn [prog_bind run server_step].
  destruct (kube_step _ w) as [[o|e] w']; done.
Qed.

(** ** The token endpoint *)

(** A request that gets as far as redeeming [code] as client [id]. *)
Definition exchanges (b : string) (auth : option string) (code id : string) : Prop :=
  let params := parse_form_body b in
  params !! "grant_type" = Some "authorization_code" /\
  params !! "code" = Some code /\
  (match params !! "client_id" with
   | Some i => Some i
   | None => extract_client_id_from_basic auth
   end) = Some id.

Definition redeem_part (conf : OAuthConf) (id : string) (params : gmap string string) (ac : AuthCode) :
    prog serverE Response :=
  now ⟵ trigger InstantNow;
  if CODE_TTL <? elapsed now (ac_created ac)
  then Ret (token_error BAD_REQUEST "{'error':'invalid_grant','error_description':'code expired'}")
  else if negb (String.eqb (ac_client_id ac) id)
  then Ret (token_error BAD_REQUEST "{'error':'invalid_grant','error_description':'client_id mismatch'}")
  else
    bad ⟵ check_client ac id (default "" (params !! "client_secret")) (params !! "code_verifier");
    match bad with
    | Some resp => Ret resp
    | None => finish_token conf ac id
    end.

Lemma run_handle_token conf b auth code id (s : OAuthStore) (w : W) :
  exchanges b auth code id ->
  run_server (handle_token conf b auth) (s, w) =
    let s' := set_codes s (delete code (codes s)) in
    match codes s !! code with
    | None => (token_error BAD_REQUEST "{'error':'invalid_grant'}", (s', w))
    | Some ac => run_server (redeem_part conf id (parse_form_body b) ac) (s', w)
    end.
Proof.
  intros (Hg & Hc & Hi). unfold handle_token. cbv zeta. rewrite Hg, Hc, Hi.
  change (String.eqb (default "" (Some "authorization_code")) "authorization_code") with true. cbn [negb].
  rewrite run_server_bind. prog_unfold. cbn [run_server run server_step oauth_step].
  destruct (codes s !! code); done.
Qed.

Lemma run_check_client ac id sec ver (s : OAuthStore) (w : W) :
  exists w', run_server (check_client ac id sec ver) (s, w) =
    (match ac_code_challenge ac with
     | Some ch =>
         match ver with
         | Some v => if negb (verify_pkce v ch (default "S256" (ac_code_challenge_method ac)))
                     then Some (token_error BAD_REQUEST
                            "{'error':'invalid_grant','error_description':'code_verifier mismatch'}")
                     else None
         | None => Some (token_error BAD_REQUEST
                     "{'error':'invalid_request','error_description':'missing code_verifier'}")
         end
     | None =>
         match (client_lookup w id).1 with
         | Ok o =>
             if negb (is_empty (client_secret_of (data o))) && negb (String.eqb sec (client_secret_of (data o)))
             then Some (token_error UNAUTHORIZED
                    "{'error':'invalid_client','error_description':'bad client_secret'}")
             else None
         | Err _ => Some (token_error BAD_REQUEST "{'error':'invalid_client'}")
         end
     end, (s, w')).
Proof.
  unfold check_client. destruct (ac_code_challenge ac) as [ch|]; [by eexists|].
  eexists. rewrite run_server_bind, run_validate_client. unfold run_server. simpl.
  destruct ((client_lookup w id).1) as [o|]; done.
Qed.

(** Redeeming and minting never put a code back. *)
Definition codes_fixed X (e : serverE X) : Prop :=
  match e with
  | inlE (CodesInsert _ _) | inlE (CodesRemove _) | inlE (CodesRetain _) => False
  | _ => True
  end.

Lemma quiet_codes_fixed {A} (p : prog serverE A) : only quiet p -> only codes_fixed p.
Proof. apply only_weaken. by intros X [[]|]. Qed.
Hint Resolve quiet_codes_fixed : confined.

Lemma codes_fixed_finish conf ac id : only codes_fixed (finish_token conf ac id).
Proof. unfold finish_token. solve_only. Qed.
Hint Resolve codes_fixed_finish : confined.

Lemma codes_fixed_redeem conf id params ac : only codes_fixed (redeem_part conf id params ac).
Proof. unfold redeem_part. solve_only. Qed.

Lemma run_codes_fixed {A} (p : prog serverE A) (s : world) :
  only codes_fixed p -> codes (run_server p s).2.1 = codes s.1.
Proof.
  apply (run_only codes_fixed server_step (fun s : world => codes s.1)).
  clear s. intros X e [st w]. unfold server_step, oauth_step, http_step.
  destruct e as [oe|[ke|he]]; [destruct oe|..|destruct he]; simpl; try done; intros _;
    repeat match goal with |- context [let '_ := ?t in _] => destruct t end; done.
Qed.

Lemma handle_token_codes conf b auth code id (s : OAuthStore) (w : W) :
  exchanges b auth code id ->
  codes (run_server (handle_token conf b auth) (s, w)).2.1 = delete code (codes s).
Proof.
  intros Hx. rewrite (run_handle_token _ _ _ _ _ _ _ Hx). cbv zeta.
  destruct (codes s !! code) as [ac|]; [|done].
  rewrite run_codes_fixed; [done|apply codes_fixed_redeem].
Qed.

Lemma run_finish_token_legacy conf ac id (s : OAuthStore) (w : W) :
  jwt_keys conf = None ->
  run_server (finish_token conf ac id) (s, w) =
    let '(l, w1) := host_sample 43 w in
    let tok := "sha256~" +:+ String.string_of_list_ascii l in
    let '(t, w2) := host_instant w1 in
    (json_response OK (json_to_string (token_body tok)),
     (set_tokens s (<[tok := {| ti_username := ac_username ac; ti_created := t |}]> (tokens s)), w2)).
Proof.
  intros Hk. unfold finish_token, mint_token, generate_random_string, run_server. rewrite Hk.
  prog_unfold. cbn [prog_bind run server_step oauth_step].
  destruct (host_sample 43 w) as [l w1]. cbn [prog_bind run server_step oauth_step].
  by destruct (host_instant w1).
Qed.

(** The client proves itself: with the verifier of the code's challenge when
    there is one, with the registered secret (if any) otherwise. *)
Definition client_proof (w : W) (ac : AuthCode) (id : string) (params : gmap string string) : Prop :=
  match ac_code_challenge ac with
  | Some ch => exists v, params !! "code_verifier" = Some v /\
                 verify_pkce v ch (default "S256" (ac_code_challenge_method ac)) = true
  | None => exists o, (client_lookup w id).1 = Ok o /\
              (client_secret_of (data o) = "" \/
               default "" (params !! "client_secret") = client_secret_of (data o))
  end.

Definition redeemable (w : W) (codes : gmap string AuthCode) (code id : string)
    (params : gmap string string) (ac : AuthCode) : Prop :=
  codes !! code = Some ac /\
  elapsed (host_instant w).1 (ac_created ac) <= CODE_TTL /\
  ac_client_id ac = id /\
  client_proof (host_instant w).2 ac id params.

Lemma check_client_proof ac id params (s : OAuthStore) (w : W) :
  let r := (run_server (check_client ac id (default "" (params !! "client_secret"))
              (params !! "code_verifier")) (s, w)).1 in
  (client_proof w ac id params /\ r = None) \/
  (~ client_proof w ac id params /\ exists resp, r = Some resp /\ status resp <> OK).
Proof.
  destruct (run_check_client ac id (default "" (params !! "client_secret")) (params !! "code_verifier") s w)
    as [w' ->]. cbn [fst]. unfold client_proof.
  destruct (ac_code_challenge ac) as [ch|].
  - destruct (params !! "code_verifier") as [v|]; [|right; split; [by intros (?&?&?)|by eexists]].
    destruct (verify_pkce v ch _) eqn:Hv; simpl; [left; eauto|].
    right. split; [intros (?&[= <-]&?); congruence|by eexists].
  - destruct ((client_lookup w id).1) as [o|]; [|right; split; [by intros (?&?&?)|by eexists]].
    destruct (is_empty (client_secret_of (data o))) eqn:He; simpl.
    + left. split; [|done]. exists o. split; [done|]. left. by destruct (client_secret_of (data o)).
    + destruct (String.eqb_spec (default "" (params !! "client_secret")) (client_secret_of (data o))) as [Heq|Hne]; simpl.
      * left. split; [|done]. exists o. auto.
      * right. split; [|by eexists]. intros (? & [= <-] & [H|H]); [|done]. by rewrite H in He.
Qed.

Lemma check_client_store ac id sec ver (s : OAuthStore) (w : W) :
  (run_server (check_client ac id sec ver) (s, w)).2.1 = s.
Proof. by destruct (run_check_client ac id sec ver s w) as [w' ->]. Qed.

Lemma redeem_part_ok conf id params ac (s : OAuthStore) (w : W) :
  elapsed (host_instant w).1 (ac_created ac) <= CODE_TTL -> ac_client_id ac = id ->
  client_proof (host_instant w).2 ac id params ->
  exists w1, run_server (redeem_part conf id params ac) (s, w) = run_server (finish_token conf ac id) (s, w1).
Proof.
  intros Ht Hid Hp. unfold redeem_part. rewrite run_server_bind. unfold run_server at 1. prog_unfold.
  cbn [run server_step oauth_step]. destruct (host_instant w) as [now w1]. simpl in *.
  replace (CODE_TTL <? elapsed now (ac_created ac)) with false by (symmetry; apply Z.ltb_ge; lia).
  rewrite (proj2 (String.eqb_eq _ _) Hid). cbn [negb]. rewrite run_server_bind.
  pose proof (check_client_proof ac id params s w1) as Hc.
  pose proof (check_client_store ac id (default "" (params !! "client_secret")) (params !! "code_verifier") s w1) as Hs.
  destruct (run_server (check_client _ _ _ _) (s, w1)) as [r [s2 w2]]. simpl in *. subst s2.
  destruct Hc as [[_ ->]|[Hn _]]; [|done]. by exists w2.
Qed.

Lemma redeem_part_refused conf id params ac (s : OAuthStore) (w : W) :
  status (run_server (redeem_part conf id params ac) (s, w)).1 = OK ->
  elapsed (host_instant w).1 (ac_created ac) <= CODE_TTL /\ ac_client_id ac = id /\
  client_proof (host_instant w).2 ac id params.
Proof.
  unfold redeem_part. rewrite run_server_bind. unfold run_server at 1. prog_unfold.
  cbn [run server_step oauth_step]. destruct (host_instant w) as [now w1]. simpl.
  destruct (Z.ltb_spec CODE_TTL (elapsed now (ac_created ac))); [done|].
  destruct (String.eqb_spec (ac_client_id ac) id) as [Hid|]; [|done]. cbn [negb].
  rewrite run_server_bind. pose proof (check_client_proof ac id params s w1) as Hc.
  destruct (run_server (check_client _ _ _ _) (s, w1)) as [r s2]. simpl in Hc.
  destruct Hc as [[Hp ->]|[_ (resp & -> & Hne)]]; [auto|]. done.
Qed.

(** C4: the token endpoint, decided.  An exchange is answered with 200 only if
    the code is in the table, no older than its lifetime, issued to the
    client that presents it, and the client proves itself by PKCE or by its
    secret; in legacy mode these conditions suffice, and the token then stands
    for the code's user. *)
Theorem token_endpoint_decided conf b auth code id (s : OAuthStore) (w : W) :
  exchanges b auth code id ->
  let '(r, (s', _)) := run_server (handle_token conf b auth) (s, w) in
  (status r = OK -> exists ac, redeemable w (codes s) code id (parse_form_body b) ac) /\
  (jwt_keys conf = None -> forall ac, redeemable w (codes s) code id (parse_form_body b) ac ->
     exists tok now, r = json_response OK (json_to_string (token_body tok)) /\
       starts_with "sha256~" tok = true /\
       tokens s' = <[tok := {| ti_username := ac_username ac; ti_created := now |}]> (tokens s)).
Proof.
  intros Hx. pose proof (run_handle_token conf b auth code id s w Hx) as Hrun. cbv zeta in Hrun.
  destruct (run_server (handle_token conf b auth) (s, w)) as [r [s' w']] eqn:Hr. split.
  - intros Hst. destruct (codes s !! code) as [ac|] eqn:Hc; [|by injection Hrun as -> -> ->].
    exists ac. split; [done|]. apply (redeem_part_refused conf id (parse_form_body b) ac (set_codes s (delete code (codes s)))).
    by rewrite <- Hrun.
  - intros Hk ac (Hc & Ht & Hid & Hp). rewrite Hc in Hrun.
    destruct (redeem_part_ok conf id (parse_form_body b) ac (set_codes s (delete code (codes s))) w Ht Hid Hp)
      as [w1 Heq].
    rewrite Heq, run_finish_token_legacy in Hrun by done.
    destruct (host_sample 43 w1) as [l w2]. destruct (host_instant w2) as [t w3].
    injection Hrun as -> -> ->. by exists ("sha256~" +:+ String.string_of_list_ascii l), t.
Qed.

(** C7: a code is good for one attempt.  Whatever the outcome of an exchange,
    the code is gone afterwards and every later exchange of it, by any client
    and with any credentials, is refused with [invalid_grant] and changes
    nothing. *)
Theorem code_single_use conf b1 auth1 b2 auth2 code id1 id2 (s : OAuthStore) (w w2 : W) :
  exchanges b1 auth1 code id1 -> exchanges b2 auth2 code id2 ->
  let s1 := (run_server (handle_token conf b1 auth1) (s, w)).2.1 in
  codes s1 = delete code (codes s) /\
  run_server (handle_token conf b2 auth2) (s1, w2) =
    (token_error BAD_REQUEST "{'error':'invalid_grant'}", (s1, w2)).
Proof.
  intros H1 H2. cbv zeta. pose proof (handle_token_codes conf _ _ _ _ s w H1) as Hc. split; [done|].
  rewrite (run_handle_token _ _ _ _ _ _ _ H2), Hc, lookup_delete_eq. cbv zeta.
  rewrite delete_id by apply lookup_delete_eq.
  rewrite <- Hc. by destruct (run_server (handle_token conf b1 auth1) (s, w)).2.1.
Qed.

(** ** The login flow *)

Lemma run_ensure_user u (s : OAuthStore) (w : W) :
  exists w', run_server (ensure_user_and_identity u) (s, w) = (tt, (s, w')).
Proof.
  unfold run_server, ensure_user_and_identity. prog_unfold. cbn [prog_bind run server_step].
  destruct (kube_step _ w) as [[o|e] w1]; cbn [prog_bind run server_step]; [|by eexists].
  destruct (kube_step _ w1) as [r w2]. by eexists.
Qed.

(** Where the browser is sent with a code. *)
Definition callback (u : Url) (code req_state : string) : string :=
  url_as_str (let u := url_append_pair u "code" code in
              if negb (is_empty req_state) then url_append_pair u "state" req_state else u).

Lemma run_issue user id uri u rs ch m (s : OAuthStore) (w : W) :
  url_parse uri = Some u ->
  exists code now w', run_server (issue_auth_code user id uri rs ch m) (s, w) =
    (Resp FOUND [("location", callback u code rs)] "",
     (set_codes s (<[code := {| ac_username := user; ac_client_id := id; ac_created := now;
                                ac_code_challenge := ch; ac_code_challenge_method := m |}]> (codes s)), w')).
Proof.
  intros Hu. unfold issue_auth_code, generate_random_string, run_server. prog_unfold.
  cbn [prog_bind run server_step oauth_step]. destruct (host_sample 32 w) as [l w1].
  cbn [prog_bind run server_step oauth_step]. destruct (host_instant w1) as [t w2]. rewrite Hu.
  by exists (String.string_of_list_ascii l), t, w2.
Qed.

(** A login form filled in with the credentials of a known user, for a
    registered client. *)
Record good_login (s : OAuthStore) (w : W) (b user id uri : string) : Prop := {
  gl_user : parse_form_body b !! "username" = Some user;
  gl_nonempty : user <> "";
  gl_auth : authenticate (user_store s) user (default "" (parse_form_body b !! "password")) <> None;
  gl_id : parse_form_body b !! "client_id" = Some id;
  gl_uri : parse_form_body b !! "redirect_uri" = Some uri;
  gl_client : exists o, (client_lookup w id).1 = Ok o /\ uri_matches (redirect_uris_of (data o)) uri = true
}.

Lemma run_login b user id uri u (s : OAuthStore) (w : W) :
  good_login s w b user id uri -> url_parse uri = Some u ->
  exists code now w', run_server (handle_authorize_post b) (s, w) =
    (Resp FOUND [("location", callback u code (default "" (parse_form_body b !! "state")))] "",
     (set_codes s (<[code := {| ac_username := user; ac_client_id := id; ac_created := now;
                                ac_code_challenge := parse_form_body b !! "code_challenge";
                                ac_code_challenge_method := parse_form_body b !! "code_challenge_method"
                              |}]> (codes s)), w')).
Proof.
  intros [Hu Hne Ha Hid Huri (o & Ho & Hm)] Hparse. unfold handle_authorize_post. cbv zeta.
  rewrite Hid, Huri, Hu. change (default "" (Some user)) with user.
  replace (is_empty user) with false by (by destruct user).
  rewrite run_server_bind, run_users_read.
  destruct (authenticate _ _ _) as [en|]; [|done].
  rewrite run_server_bind, run_validate_client, Ho, Hm. cbn [negb].
  rewrite run_server_bind. destruct (run_ensure_user user s (client_lookup w id).2) as [w1 ->].
  by apply run_issue.
Qed.

Lemma run_userinfo req tok info (s : OAuthStore) (w : W) :
  authorization_of req = Some ("Bearer " +:+ tok) ->
  starts_with "eyJ" tok = false ->
  tokens s !! tok = Some info ->
  elapsed (host_instant w).1 (ti_created info) < TOKEN_TTL ->
  (run_server (handle_userinfo req) (s, w)).1 =
    json_response OK (json_to_string (userinfo_body (ti_username info)
                                        (profile_of (user_store s) (ti_username info)))).
Proof.
  intros Ha Hj Ht He. unfold handle_userinfo, token_user. rewrite Ha. cbn [default from_option id].
  change (strip_prefix "Bearer " ("Bearer " +:+ tok)) with (Some tok). cbv iota. rewrite Hj.
  unfold run_server. prog_unfold. cbn [prog_bind run server_step oauth_step]. rewrite Ht.
  cbn [prog_bind run server_step oauth_step]. destruct (host_instant w) as [now w1]. simpl in He.
  replace (elapsed now (ti_created info) <? TOKEN_TTL) with true by (symmetry; by apply Z.ltb_lt).
  done.
Qed.

(** C5: the login flow of legacy mode works end to end.  A filled-in login
    form redirects the browser to the client with a fresh code; exchanging
    that code in time, with the proof its client owes, yields a token; and
    that token, while it lives, gets the profile of the user who logged in.
    Between the steps anything may happen to the rest of the server's
    memory and to the world. *)
Theorem login_flow conf b user id uri u (s : OAuthStore) (w : W) :
  jwt_keys conf = None ->
  good_login s w b user id uri -> url_parse uri = Some u ->
  let '(r1, (s1, _)) := run_server (handle_authorize_post b) (s, w) in
  exists code ac,
    r1 = Resp FOUND [("location", callback u code (default "" (parse_form_body b !! "state")))] "" /\
    codes s1 !! code = Some ac /\ ac_username ac = user /\
    forall b2 auth s2 w2,
      codes s2 !! code = codes s1 !! code ->
      exchanges b2 auth code id ->
      elapsed (host_instant w2).1 (ac_created ac) <= CODE_TTL ->
      client_proof (host_instant w2).2 ac id (parse_form_body b2) ->
      let '(r2, (s2', _)) := run_server (handle_token conf b2 auth) (s2, w2) in
      exists tok info,
        r2 = json_response OK (json_to_string (token_body tok)) /\
        tokens s2' !! tok = Some info /\ ti_username info = user /\
        forall req s3 w3,
          tokens s3 !! tok = tokens s2' !! tok ->
          authorization_of req = Some ("Bearer " +:+ tok) ->
          elapsed (host_instant w3).1 (ti_created info) < TOKEN_TTL ->
          (run_server (handle_userinfo req) (s3, w3)).1 =
            json_response OK (json_to_string (userinfo_body user (profile_of (user_store s3) user))).
Proof.
  intros Hk Hg Hu. destruct (run_login b user id uri u s w Hg Hu) as (code & now & w1 & ->).
  eexists code, _. split; [done|]. split; [apply lookup_insert_eq|]. split; [done|].
  intros b2 auth s2 w2 Hs2 Hx Ht Hp. simpl in Hs2. rewrite lookup_insert_eq in Hs2.
  rewrite (run_handle_token _ _ _ _ _ _ _ Hx), Hs2. cbv zeta.
  match goal with |- context [redeem_part conf id _ ?a] => set (ac := a) in * end.
  destruct (redeem_part_ok conf id (parse_form_body b2) ac (set_codes s2 (delete code (codes s2))) w2 Ht eq_refl Hp)
    as [w3 ->].
  rewrite run_finish_token_legacy by done.
  destruct (host_sample 43 w3) as [l w4]. destruct (host_instant w4) as [t w5].
  eexists _, _. split; [done|]. split; [apply lookup_insert_eq|]. split; [done|].
  intros req s3 w6 Hs3 Ha He. cbn [tokens set_tokens] in Hs3. rewrite lookup_insert_eq in Hs3.
  by rewrite (run_userinfo _ _ _ _ _ Ha eq_refl Hs3 He).
Qed.

(** ** Eviction *)

Lemma run_evict (s : OAuthStore) (w : W) :
  run_server evict (s, w) =
    let '(t1, w1) := host_instant w in
    let '(t2, w2) := host_instant w1 in
    (tt, (set_tokens (set_codes s (retain (fun v => elapsed t1 (ac_created v) <? CODE_TTL) (codes s)))
            (retain (fun v => elapsed t2 (ti_created v) <? TOKEN_TTL) (tokens s)), w2)).
Proof.
  unfold evict, run_server. prog_unfold. cbn [prog_bind run server_step oauth_step].
  destruct (host_instant w) as [t1 w1]. cbn [prog_bind run server_step oauth_step].
  by destruct (host_instant w1).
Qed.

Lemma token_user_live tok (s : OAuthStore) (w : W) :
  (run_server (token_user tok) (s, w)).1 =
    if starts_with "eyJ" tok then decode_jwt_username tok
    else info ← tokens s !! tok;
         if elapsed (host_instant w).1 (ti_created info) <? TOKEN_TTL
         then Some (ti_username info) else None.
Proof.
  unfold token_user. destruct (starts_with "eyJ" tok); [done|].
  unfold run_server. prog_unfold. cbn [prog_bind run server_step oauth_step].
  destruct (tokens s !! tok); [|done]. cbn [prog_bind run server_step oauth_step].
  by destruct (host_instant w).
Qed.

(** C30: eviction cannot be observed.  A round of the background task changes
    no answer about a token at any later time, and removes no code that could
    still be redeemed later (at the very instant a code reaches its lifetime
    the endpoint would still take it, so for codes "later" is strict). *)
Theorem eviction_unobservable (s : OAuthStore) (w w' : W) :
  let t1 := (host_instant w).1 in
  let t2 := (host_instant (host_instant w).2).1 in
  let s' := (run_server evict (s, w)).2.1 in
  (t2 <= (host_instant w').1 -> forall tok,
     (run_server (token_user tok) (s', w')).1 = (run_server (token_user tok) (s, w')).1) /\
  (t1 < (host_instant w').1 -> forall code id params ac,
     redeemable w' (codes s') code id params ac <-> redeemable w' (codes s) code id params ac).
Proof.
  cbv zeta. rewrite run_evict.
  destruct (host_instant w) as [t1 w1]. cbn [fst snd]. destruct (host_instant w1) as [t2 w2].
  cbn [fst snd set_tokens set_codes tokens codes]. split.
  - intros Ht tok. rewrite !token_user_live. destruct (starts_with "eyJ" tok); [done|].
    cbn [tokens]. unfold retain, set_tokens, set_codes. cbn [tokens]. rewrite map_lookup_filter.
    destruct (tokens s !! tok) as [info|]; [|done]. cbn [mbind option_bind].
    case_guard as Hk; [done|].
    cbn [snd] in Hk. apply not_true_is_false, Z.ltb_ge in Hk.
    replace (elapsed (host_instant w').1 (ti_created info) <? TOKEN_TTL) with false; [done|]. symmetry. apply Z.ltb_ge. unfold elapsed in *. lia.
  - intros Ht code id params ac. unfold redeemable, set_tokens, set_codes. cbn [codes]. rewrite retain_lookup.
    split; [intros ([? _] & ?); auto|]. intros (Hc & He & Hr). split; [|done]. split; [done|].
    apply Z.ltb_lt. unfold elapsed, CODE_TTL, from_secs in *. lia.
Qed.

(** ** User reload *)

(** The user list an event of the watch stands for. *)
Definition htpasswd_of (ev : option Secret) : option string :=
  secret ← ev;
  if String.eqb (default "" (om_name (sec_metadata secret))) HTPASSWD_SECRET
  then htpasswd_data secret else None.

Lemma run_htpasswd_event ev (s : OAuthStore) (w : W) :
  run_server (on_htpasswd_event ev) (s, w) =
    (tt, (set_users s (default (user_store s) (from_htpasswd <$> htpasswd_of ev)), w)).
Proof.
  destruct ev as [secret|]; [|by destruct s]. unfold on_htpasswd_event, htpasswd_of. simpl.
  destruct (String.eqb _ _); simpl; [|by destruct s].
  destruct (htpasswd_data secret); [done|by destruct s].
Qed.

(** After any sequence of watch events the users are those of the last
    event that carries the htpasswd secret with data, and nobody else; other
    secrets, missing data and watch errors change nothing, and codes and
    tokens are untouched. *)
Theorem watch_last_write_wins events (s : OAuthStore) (w : W) :
  run_server (watch_htpasswd_secret events) (s, w) =
    (tt, (set_users s (default (user_store s) (from_htpasswd <$> list.last (omap htpasswd_of events))), w)).
Proof.
  unfold watch_htpasswd_secret. revert s. induction events as [|ev events IH]; intros s; [by destruct s|].
  cbn [for_each omap list_omap]. rewrite run_server_bind, run_htpasswd_event, IH.
  destruct (htpasswd_of ev) as [d|]; cbn [fmap option_fmap option_map default from_option set_users user_store]; [|done].
  rewrite last_cons. by destruct (list.last (omap htpasswd_of events)).
Qed.

(** ** Bearer tokens that look like JWTs *)

(** C39: outside BYOIDC mode, the userinfo endpoint believes any bearer token
    of three parts that starts with [eyJ], as every JSON web token does, and
    whose payload names a user: neither the rest of its header, nor its
    signature, nor an expiry has any influence, and no token needs to have been
    issued. *)
Theorem userinfo_trusts_unsigned_jwt conf req h p sig payload claims user (s : OAuthStore) (w : W) :
  is_byoidc (auth_mode conf) = false ->
  req_method req = "GET" -> req_path req = "/oauth/userinfo" ->
  char_in "."%char h = false -> char_in "."%char p = false ->
  b64_url_decode p = Some payload -> json_from_str payload = Some claims ->
  get "preferred_username" claims = Some (VString user) ->
  authorization_of req = Some ("Bearer eyJ" +:+ h +:+ "." +:+ p +:+ "." +:+ sig) ->
  run_server (handle_request conf req) (s, w) =
    (Ok (json_response OK (json_to_string (userinfo_body user (profile_of (user_store s) user)))), (s, w)).
Proof.
  intros Hm Hme Hpa Hh Hp Hb Hj Hu Ha. unfold handle_request. cbv zeta. rewrite Hme, Hpa, Hm.
  cbn [String.eqb Ascii.eqb Bool.eqb andb orb].
  rewrite run_server_bind. unfold handle_userinfo, token_user. rewrite Ha. cbn [default from_option id].
  change (strip_prefix "Bearer " ("Bearer eyJ" +:+ h +:+ "." +:+ p +:+ "." +:+ sig))
    with (Some ("eyJ" +:+ h +:+ String "."%char (p +:+ String "."%char sig))).
  cbv iota. change (starts_with "eyJ" _) with true. cbv iota. unfold decode_jwt_username, splitn.
  rewrite sapp_assoc, split_once_app by done. rewrite split_once_app by done.
  cbv iota. rewrite Hb. cbn [mbind option_bind]. rewrite Hj. cbn [mbind option_bind]. by rewrite Hu.
Qed.
End Flows.

Section Witnesses.
#[local] Existing Instance sample_crates.

Definition sample_auth_code : AuthCode :=
  {| ac_username := "admin"; ac_client_id := "console"; ac_created := 0;
     ac_code_challenge := Some "fedcba"; ac_code_challenge_method := Some "S256" |}.

Definition sample_store : OAuthStore :=
  set_codes (oauth_store_new (Users default_users)) {[ "c1" := sample_auth_code ]}.

Definition exchange_body : string :=
  "grant_type=authorization_code&client_id=console&code=c1&code_verifier=abcdef".

Lemma sample_exchanges : exchanges exchange_body None "c1" "console".
Proof. repeat split. Qed.

Example token_endpoint_decided_witness :
  status (run_server (handle_token (sample_conf Legacy) exchange_body None) (sample_store, sample_world)).1 = OK /\
  let '(r, (s', _)) := run_server (handle_token (sample_conf Legacy) exchange_body None) (sample_store, sample_world) in
  (status r = OK -> exists ac, redeemable sample_world (codes sample_store) "c1" "console" (parse_form_body exchange_body) ac) /\
  (jwt_keys (sample_conf Legacy) = None -> forall ac,
     redeemable sample_world (codes sample_store) "c1" "console" (parse_form_body exchange_body) ac ->
     exists tok now, r = json_response OK (json_to_string (token_body tok)) /\
       starts_with "sha256~" tok = true /\
       tokens s' = <[tok := {| ti_username := ac_username ac; ti_created := now |}]> (tokens sample_store)).
Proof.
  split; [vm_compute; reflexivity|].
  exact (token_endpoint_decided (sample_conf Legacy) exchange_body None "c1" "console"
           sample_store sample_world sample_exchanges).
Defined.

Example code_single_use_witness :
  let s1 := (run_server (handle_token (sample_conf Legacy) exchange_body None) (sample_store, sample_world)).2.1 in
  codes s1 = delete "c1" (codes sample_store) /\
  run_server (handle_token (sample_conf Legacy) exchange_body None) (s1, sample_world) =
    (token_error BAD_REQUEST "{'error':'invalid_grant'}", (s1, sample_world)).
Proof.
  exact (code_single_use (sample_conf Legacy) exchange_body None exchange_body None "c1" "console" "console"
           sample_store sample_world sample_world sample_exchanges sample_exchanges).
Defined.

Definition login_body : string :=
  "client_id=console&redirect_uri=https://app/cb&username=admin&password=admin".

Definition fresh_store : OAuthStore := oauth_store_new (Users default_users).

Lemma sample_good_login : good_login fresh_store sample_world login_body "admin" "console" "https://app/cb".
Proof.
  constructor; try (vm_compute; reflexivity); try discriminate; try (vm_compute; discriminate).
  exists sample_client. split; vm_compute; reflexivity.
Qed.

Example login_flow_witness :
  exists code ac,
    codes (run_server (handle_authorize_post login_body) (fresh_store, sample_world)).2.1 !! code = Some ac /\
    ac_username ac = "admin".
Proof.
  pose proof (login_flow (sample_conf Legacy) login_body "admin" "console" "https://app/cb" "https://app/cb"
                fresh_store sample_world eq_refl sample_good_login eq_refl) as H.
  destruct (run_server (handle_authorize_post login_body) (fresh_store, sample_world)) as [r1 [s1 w1]].
  destruct H as (code & ac & _ & Hc & Hu & _). exists code, ac. auto.
Defined.

Example eviction_unobservable_witness :
  (run_server (token_user "t") ((run_server evict (sample_store, sample_world)).2.1, sample_world)).1 =
  (run_server (token_user "t") (sample_store, sample_world)).1.
Proof. apply (eviction_unobservable sample_store sample_world sample_world). vm_compute. discriminate. Defined.

Definition forged : Request :=
  {| req_method := "GET"; req_path := "/oauth/userinfo"; req_query := None;
     req_headers := [("authorization", dq "Bearer eyJh.{'preferred_username':'admin'}.forged")];
     req_body := None |}.

Example userinfo_trusts_unsigned_jwt_witness :
  run_server (handle_request (sample_conf Legacy) forged) (fresh_store, sample_world) =
    (Ok (json_response OK (json_to_string (userinfo_body "admin" (profile_of (Users default_users) "admin")))),
     (fresh_store, sample_world)).
Proof.
  apply (userinfo_trusts_unsigned_jwt (sample_conf Legacy) forged "h" (dq "{'preferred_username':'admin'}") "forged"
           (dq "{'preferred_username':'admin'}") (VObject [("preferred_username", VString "admin")]) "admin"
           fresh_store sample_world); vm_compute; reflexivity.
Defined.
End Witnesses.
