(* ===== verification/JsonCodec.v ===== *)
(** * A lossless text form of JSON values, for witnesses only

    [SerdeJson] leaves printing and parsing open; theorems about what a reader
    gets back assume that parsing undoes printing.  The codec here has that
    property by proof: values are countable, and a positive number is written
    as a string of two letters. *)

From S2P Require Import Prelude RustStr Json.
From stdpp Require Import countable.
Open Scope list_scope.

Definition leaf : Type := (string + Z + bool)%type.

Fixpoint to_tree (v : Value) : gen_tree leaf :=
  match v with
  | Null => GenNode 0 []
  | VBool b => GenNode 1 [GenLeaf (inr b)]
  | VNumber (PosInt n) => GenNode 2 [GenLeaf (inl (inr n))]
  | VNumber (NegInt n) => GenNode 3 [GenLeaf (inl (inr n))]
  | VNumber (Float n) => GenNode 4 [GenLeaf (inl (inr n))]
  | VString s => GenNode 5 [GenLeaf (inl (inl s))]
  | VArray l => GenNode 6 (to_tree <$> l)
  | VObject m => GenNode 7 ((fun kv => GenNode 8 [GenLeaf (inl (inl kv.1)); to_tree kv.2]) <$> m)
  end.

Fixpoint of_tree (t : gen_tree leaf) : Value :=
  match t with
  | GenNode 1 [GenLeaf (inr b)] => VBool b
  | GenNode 2 [GenLeaf (inl (inr n))] => VNumber (PosInt n)
  | GenNode 3 [GenLeaf (inl (inr n))] => VNumber (NegInt n)
  | GenNode 4 [GenLeaf (inl (inr n))] => VNumber (Float n)
  | GenNode 5 [GenLeaf (inl (inl s))] => VString s
  | GenNode 6 l => VArray (of_tree <$> l)
  | GenNode 7 l =>
      VObject ((fun t => match t with
                         | GenNode 8 [GenLeaf (inl (inl k)); t'] => (k, of_tree t')
                         | _ => ("", Null)
                         end) <$> l)
  | _ => Null
  end.

Lemma of_to_tree v : of_tree (to_tree v) = v.
Proof.
  revert v. fix IH 1. intros [| | []| |l|m]; simpl; try reflexivity.
  - f_equal. induction l as [|x l IHl]; simpl; [reflexivity|]. f_equal; [apply IH|apply IHl].
  - f_equal. induction m as [|[k x] m IHm]; simpl; [reflexivity|]. f_equal; [by rewrite IH|apply IHm].
Qed.

Fixpoint pos_string (p : positive) : string :=
  match p with
  | xH => ""
  | xO q => String "a"%char (pos_string q)
  | xI q => String "b"%char (pos_string q)
  end.

Fixpoint string_pos (s : string) : positive :=
  match s with
  | EmptyString => xH
  | String c r => if Ascii.eqb c "a"%char then xO (string_pos r) else xI (string_pos r)
  end.

Lemma string_pos_string p : string_pos (pos_string p) = p.
Proof. induction p as [p IH|p IH|]; simpl; by rewrite ?IH. Qed.

Definition codec : SerdeJson := {|
  json_to_string := fun v => pos_string (encode (to_tree v));
  json_from_str := fun s => of_tree <$> decode (string_pos s)
|}.

Lemma codec_roundtrip v : @json_from_str codec (@json_to_string codec v) = Some v.
Proof. simpl. rewrite string_pos_string, decode_encode. simpl. by rewrite of_to_tree. Qed.
