(* ===== verification/OAuthOidc.v ===== *)
(** * The login flow of OIDC mode

    With signing keys the token is a JSON web token, and the userinfo endpoint
    reads the user from it.  [JwtLaw] is what the flow relies on: the compact
    serialization of RFC 7515, and encoders that can be undone. *)

From S2P Require Import Prelude RustStr Json Prog Kube Util Crates JsonCodec.
From S2P Require Import OAuthTypes OAuthEffects OAuthHelpers OAuthK8s OAuthHandlers OAuthByoidc OAuthServer.
From S2P Require Import OAuthSafety OAuthConcurrency OAuthSample OAuthFlows.
Import UserStoreOps.
Open Scope list_scope.
Open Scope Z_scope.

Class JwtLaw {CR : Crates} : Prop := {
  (** header, payload and signature in base64url, separated by dots; a header
      is a JSON object, whose encoding starts with [eyJ] *)
  jwt_compact kid claims key tok :
    jwt_encode kid claims key = Some tok ->
    exists h sig, tok = "eyJ" +:+ h +:+ "." +:+ b64_url_encode (json_to_string claims) +:+ "." +:+ sig /\
      char_in "."%char h = false;
  url_encode_no_dot s : char_in "."%char (b64_url_encode s) = false;
  url_encode_decode s : b64_url_decode (b64_url_encode s) = Some s;
  json_print_parse v : json_from_str (json_to_string v) = Some v
}.

Section Oidc.
Context {CR : Crates} {JL : JwtLaw} {W : Type} `{!Host W}.

Lemma run_finish_token_oidc conf keys ac id (s : OAuthStore) (w : W) :
  jwt_keys conf = Some keys ->
  run_server (finish_token conf ac id) (s, w) =
    let '(now, w1) := host_system w in
    match jwt_encode (kid keys)
            (token_claims (ac_username ac) id (profile_of (user_store s) (ac_username ac)) now)
            (encoding_key keys) with
    | None => (token_error INTERNAL_SERVER_ERROR "{'error':'server_error'}", (s, w1))
    | Some tok =>
        let '(t, w2) := host_instant w1 in
        (json_response OK (json_to_string (token_body tok)),
         (set_tokens s (<[tok := {| ti_username := ac_username ac; ti_created := t |}]> (tokens s)), w2))
    end.
Proof.
  intros Hk. unfold finish_token, mint_token, run_server. rewrite Hk.
  prog_unfold. cbn [prog_bind run server_step oauth_step].
  destruct (host_system w) as [now w1]. cbn [prog_bind run server_step oauth_step].
  destruct (jwt_encode _ _ _); [|done]. cbn [prog_bind run server_step oauth_step].
  by destruct (host_instant w1).
Qed.

(** A token the server signed names its user. *)
Lemma minted_jwt_username kid key user id prof now tok :
  jwt_encode kid (token_claims user id prof now) key = Some tok ->
  starts_with "eyJ" tok = true /\ decode_jwt_username tok = Some user.
Proof using JL.
  intros (h & sig & -> & Hh)%jwt_compact. split; [done|].
  unfold decode_jwt_username, splitn.
  set (p := b64_url_encode _). pose proof (url_encode_no_dot (json_to_string (token_claims user id prof now))) as Hp.
  fold p in Hp.
  change ("eyJ" +:+ h +:+ "." +:+ p +:+ "." +:+ sig)
    with ("eyJ" +:+ (h +:+ String "."%char (p +:+ String "."%char sig))).
  rewrite sapp_assoc, split_once_app by done. rewrite split_once_app by done. cbv iota. subst p.
  rewrite url_encode_decode. cbn [mbind option_bind]. rewrite json_print_parse. done.
Qed.

(** C6: the login flow of OIDC mode works end to end.  A filled-in login form
    redirects the browser to the client with a fresh code.  Exchanging that
    code in time, with the proof its client owes, uses the code up and asks
    the signing library for a token over the user's claims at the time
    [now]: if it signs, the answer is that token, which the server remembers
    for the user who logged in, and the userinfo endpoint answers the token
    with that user's profile, whatever has happened to the server's memory
    since; the answer is a server error, with no token stored, exactly when
    the library does not sign those claims. *)
Theorem oidc_login_flow conf keys b user id uri u (s : OAuthStore) (w : W) :
  jwt_keys conf = Some keys ->
  good_login s w b user id uri -> url_parse uri = Some u ->
  let '(r1, (s1, _)) := run_server (handle_authorize_post b) (s, w) in
  exists code ac,
    r1 = Resp FOUND [("location", callback u code (default "" (parse_form_body b !! "state")))] "" /\
    codes s1 !! code = Some ac /\ ac_username ac = user /\
    forall b2 auth s2 w2,
      codes s2 !! code = codes s1 !! code ->
      exchanges b2 auth code id ->
      elapsed (host_instant w2).1 (ac_created ac) <= CODE_TTL ->
      client_proof (host_instant w2).2 ac id (parse_form_body b2) ->
      let '(r2, (s2', _)) := run_server (handle_token conf b2 auth) (s2, w2) in
      codes s2' = delete code (codes s2) /\
      exists now,
        match jwt_encode (kid keys) (token_claims user id (profile_of (user_store s2) user) now)
                (encoding_key keys) with
        | None =>
            r2 = token_error INTERNAL_SERVER_ERROR "{'error':'server_error'}" /\ tokens s2' = tokens s2
        | Some tok =>
            r2 = json_response OK (json_to_string (token_body tok)) /\
            (exists t, tokens s2' = <[tok := {| ti_username := user; ti_created := t |}]> (tokens s2)) /\
            forall req s3 w3,
              authorization_of req = Some ("Bearer " +:+ tok) ->
              run_server (handle_userinfo req) (s3, w3) =
                (json_response OK (json_to_string (userinfo_body user (profile_of (user_store s3) user))),
                 (s3, w3))
        end.
Proof using JL.
  intros Hk Hg Hu. destruct (run_login b user id uri u s w Hg Hu) as (code & now0 & w1 & ->).
  eexists code, _. split; [done|]. split; [apply lookup_insert_eq|]. split; [done|].
  intros b2 auth s2 w2 Hs2 Hx Ht Hp. simpl in Hs2. rewrite lookup_insert_eq in Hs2.
  rewrite (run_handle_token _ _ _ _ _ _ _ Hx), Hs2. cbv zeta.
  match goal with |- context [redeem_part conf id _ ?a] => set (ac := a) in * end.
  destruct (redeem_part_ok conf id (parse_form_body b2) ac (set_codes s2 (delete code (codes s2))) w2 Ht eq_refl Hp)
    as [w3 ->].
  rewrite (run_finish_token_oidc conf keys) by done. cbn [set_codes user_store].
  destruct (host_system w3) as [now w4].
  change (ac_username ac) with user.
  destruct (jwt_encode _ _ _) as [tok|] eqn:Hj; [|split; [done|]; exists now; by rewrite Hj].
  destruct (host_instant w4) as [t w5]. split; [done|]. exists now. rewrite Hj.
  split; [done|]. split; [by exists t|].
  intros req s3 w6 Ha. apply minted_jwt_username in Hj as [He Hd].
  unfold handle_userinfo. rewrite Ha. cbn [default from_option]. unfold Datatypes.id.
  change (strip_prefix "Bearer " ("Bearer " +:+ tok)) with (Some tok). cbv iota.
  unfold token_user. by rewrite He, Hd.
Qed.
End Oidc.

(** ** Witness *)

Module OidcSample.

(** Two letters for each byte. *)
Fixpoint letters (s : string) : string :=
  match s with
  | EmptyString => ""
  | String a r =>
      let n := nat_of_ascii a in
      String (ascii_of_nat (65 + n / 16)) (String (ascii_of_nat (65 + n mod 16)) (letters r))
  end.

Fixpoint unletters (s : string) : option string :=
  match s with
  | EmptyString => Some ""
  | String a (String b r) =>
      r ← unletters r;
      Some (String (ascii_of_nat ((nat_of_ascii a - 65) * 16 + (nat_of_ascii b - 65))) r)
  | _ => None
  end.

Lemma unletters_letters s : unletters (letters s) = Some s.
Proof.
  induction s as [|a s IH]; [done|]. cbn [letters unletters]. rewrite IH. cbn [mbind option_bind].
  do 2 f_equal. clear. destruct a as [[] [] [] [] [] [] [] []]; reflexivity.
Qed.

Lemma letters_no_dot s : char_in "."%char (letters s) = false.
Proof.
  induction s as [|a s IH]; [done|]. cbn [letters char_in]. rewrite IH, orb_false_r.
  clear. destruct a as [[] [] [] [] [] [] [] []]; reflexivity.
Qed.

Definition base64 : Base64 :=
  {| b64_std_encode := letters; b64_std_decode := unletters; b64_url_encode := letters; b64_url_decode := unletters |}.

Definition jwt : JsonWebToken := {|
  EncodingKey := string; DecodingKey := string * string; from_rsa_pem := Some;
  jwt_encode := fun kid claims key =>
    Some ("eyJ" +:+ letters kid +:+ "." +:+ letters (@json_to_string codec claims) +:+ "." +:+ letters key);
  from_rsa_components := fun n e => Some (n, e) |}.

Definition crates : Crates := {|
  crates_json := codec; crates_base64 := base64; crates_ring := sample_ring;
  crates_url := sample_url; crates_jwt := jwt; crates_http := sample_http |}.
#[local] Existing Instance crates.

#[local] Instance law : JwtLaw.
Proof.
  split.
  - intros kid claims key tok [= <-]. eexists _, _. split; [reflexivity|]. apply letters_no_dot.
  - apply letters_no_dot.
  - apply unletters_letters.
  - apply codec_roundtrip.
Qed.

#[local] Instance host : Host SampleWorld := {|
  host_kube := sample_server;
  host_instant := fun w => (sw_clock w, w);
  host_system := fun w => (sw_clock w / 10 ^ 9, w);
  host_sleep := fun s w => SW (sw_mem w) (sw_clock w + from_secs s);
  host_sample := fun n w => (repeat "a"%char n, w);
  host_rsa := fun w => (("pem", []), w);
  host_http := fun _ w => (None, w);
  host_jwt_decode := fun _ _ w => (None, w)
|}.

Definition keys : JwtKeys := {| encoding_key := ("key" : EncodingKey); kid := "k1"; n_b64 := "n"; e_b64 := "e" |}.
Definition conf : OAuthConf := {| auth_mode := Oidc; jwt_keys := Some keys; byoidc := None; external_jwks := false |}.
Definition store : OAuthStore := oauth_store_new (Users default_users).

Lemma logs_in : good_login store sample_world login_body "admin" "console" "https://app/cb".
Proof.
  constructor; try (vm_compute; reflexivity); try discriminate; try (vm_compute; discriminate).
  exists sample_client. split; vm_compute; reflexivity.
Qed.

Definition exchange_body : string :=
  "grant_type=authorization_code&client_id=console&code=" +:+ sample_code.

Lemma exchange_body_exchanges : exchanges exchange_body None sample_code "console".
Proof. repeat split; vm_compute; reflexivity. Qed.

(** The login, the exchange and the profile, one after the other. *)
Example oidc_login_flow_witness :
  let s1 := (run_server (handle_authorize_post login_body) (store, sample_world)).2.1 in
  exists tok,
    (run_server (handle_token conf exchange_body None) (s1, sample_world)).1 =
      json_response OK (json_to_string (token_body tok)) /\
    forall req, authorization_of req = Some ("Bearer " +:+ tok) ->
      (run_server (handle_userinfo req) (s1, sample_world)).1 =
        json_response OK (json_to_string (userinfo_body "admin" (profile_of (Users default_users) "admin"))).
Proof.
  pose proof (oidc_login_flow conf keys login_body "admin" "console" "https://app/cb" "https://app/cb"
                store sample_world eq_refl logs_in eq_refl) as H.
  assert (Hs1 : (run_server (handle_authorize_post login_body) (store, sample_world)).2.1 =
    set_codes store {[ sample_code := {| ac_username := "admin"; ac_client_id := "console"; ac_created := 1000;
                         ac_code_challenge := None; ac_code_challenge_method := None |} ]})
    by (vm_compute; reflexivity).
  destruct (run_server (handle_authorize_post login_body) (store, sample_world)) as [r1 [s1 w1]].
  simpl in Hs1. subst s1. destruct H as (code & ac & _ & Hc & _ & H).
  cbn [codes set_codes] in Hc. apply lookup_singleton_Some in Hc as [<- <-].
  specialize (H exchange_body None _ sample_world eq_refl exchange_body_exchanges ltac:(vm_compute; discriminate)).
  assert (client_proof (host_instant sample_world).2
    {| ac_username := "admin"; ac_client_id := "console"; ac_created := 1000;
       ac_code_challenge := None; ac_code_challenge_method := None |} "console" (parse_form_body exchange_body)) as Hp.
  { exists sample_client. split; [vm_compute; reflexivity|]. left. vm_compute. reflexivity. }
  specialize (H Hp). cbn [fst snd].
  destruct (run_server (handle_token conf exchange_body None) _) as [r2 [s2 w2]].
  destruct H as [_ (now & -> & _ & Hu)]. eexists. split; [reflexivity|].
  intros req Ha. by rewrite (Hu req _ _ Ha).
Defined.
End OidcSample.
