(* ===== verification/Controller.v ===== *)
(** * Controllers

    What a [run] function of the simulator hands to [kube::runtime::Controller]
    is a [Controller]: a reconciler and an error policy.  [turn] is one
    reconciliation with the action the reconciler or, after an error, the
    error policy asks for.  When the runtime makes these calls is its own
    business and is not modelled; the theorems speak of the object after any
    number of them ([rounds]) and of the action each one answers.

    Several controllers of the simulator share one shape: look at an object,
    and if its status is not what it should be, send one merge patch of the
    status.  [StatusController] is the interface of such a controller, with
    the law that makes it settle; [status_settles] is the convergence theorem
    every instance gets. *)

From S2P Require Import Prelude RustStr Json Prog Kube.
Open Scope list_scope.
Open Scope Z_scope.

(** ** Reconciliations *)

Record Controller (E : Type -> Type) (O Er : Type) : Type := {
  ctl_reconcile : O -> prog E (result Er Action);
  ctl_error_policy : O -> Er -> Action
}.
Arguments ctl_reconcile {E O Er} c o.
Arguments ctl_error_policy {E O Er} c o e.

Section Rounds.
Context {E : Type -> Type} {O Er S : Type}.
Context (h : forall X, E X -> S -> X * S) (c : Controller E O Er).

(** One reconciliation, and what is to happen next. *)
Definition turn (o : O) (s : S) : Action * S :=
  match run h (ctl_reconcile c o) s with
  | (Ok a, s') => (a, s')
  | (Err e, s') => (ctl_error_policy c o e, s')
  end.

(** The object [look] finds, reconciled once; and [n] times, each time as it
    is stored by then. *)
Context (look : S -> option O).

Definition round (s : S) : S := match look s with Some o => (turn o s).2 | None => s end.
Definition rounds (n : nat) (s : S) : S := Nat.iter n round s.

(** ** Coming to rest

    After [k] reconciliations the object is settled.  From then on
    reconciling it changes nothing and asks for nothing; before, every
    reconciliation settles it or asks to be repeated. *)
Definition comes_to_rest (settled : O -> bool) (k : nat) (s : S) : Prop :=
  (exists o, look (rounds k s) = Some o /\ settled o = true) /\
  (forall n, (k <= n)%nat -> rounds n s = rounds k s) /\
  (forall n o, look (rounds n s) = Some o ->
     if settled o then turn o (rounds n s) = (AwaitChange, rounds n s)
     else (exists d, (turn o (rounds n s)).1 = Requeue d) \/
          exists o', look (rounds (Datatypes.S n) s) = Some o' /\ settled o' = true).

(** [faults] bounds the failures still to come.  A settled object is left
    alone; reconciling one that is not either settles it or costs a failure
    and asks for another attempt. *)
Context (settled : O -> bool) (settles : O -> Prop) (faults : S -> nat).
Context (quiet : forall o s, look s = Some o -> settled o = true -> turn o s = (AwaitChange, s)).
Context (busy : forall o s a s', look s = Some o -> settles o -> settled o = false -> turn o s = (a, s') ->
  exists o', look s' = Some o' /\
    (settled o' = true \/ settles o' /\ (exists d, a = Requeue d) /\ (faults s' < faults s)%nat)).

Lemma rounds_invariant o s n :
  look s = Some o -> settles o ->
  exists o', look (rounds n s) = Some o' /\
    (settled o' = true \/ settles o' /\ (faults (rounds n s) + n <= faults s)%nat).
Proof using Type*.
  intros Hl Ho. induction n as [|n (o1 & Hl1 & IH)].
  { exists o. split; [done|]. right. split; [done|]. cbn. lia. }
  change (rounds (Datatypes.S n) s) with (round (rounds n s)). unfold round. rewrite Hl1.
  destruct (settled o1) eqn:Hs.
  - rewrite (quiet _ _ Hl1 Hs). exists o1. auto.
  - destruct IH as [|[Ho1 Hf]]; [done|]. destruct (turn o1 (rounds n s)) as [a s'] eqn:Ht.
    destruct (busy _ _ _ _ Hl1 Ho1 Hs Ht) as (o2 & Hl2 & [H2|(H2 & _ & Hlt)]); exists o2; cbn [snd]; auto.
    split; [done|]. right. split; [done|]. lia.
Qed.

Lemma rounds_rest o s :
  look s = Some o -> settles o -> comes_to_rest settled (faults s + 1) s.
Proof using Type*.
  intros Hl Ho.
  assert (Hk : exists o', look (rounds (faults s + 1) s) = Some o' /\ settled o' = true).
  { destruct (rounds_invariant o s (faults s + 1) Hl Ho) as (o' & Hl' & [Hs|[_ Hf]]); [eauto|lia]. }
  split_and!; [exact Hk| |].
  - intros n Hn. replace n with ((n - (faults s + 1)) + (faults s + 1))%nat by lia.
    destruct Hk as (o' & Hl' & Hs). generalize (n - (faults s + 1))%nat as m.
    induction m as [|m IH]; [done|].
    change (rounds (Datatypes.S m + (faults s + 1)) s) with (round (rounds (m + (faults s + 1)) s)).
    rewrite IH. unfold round. by rewrite Hl', (quiet _ _ Hl' Hs).
  - intros n o1 Hl1. destruct (settled o1) eqn:Hs; [by apply quiet|].
    destruct (rounds_invariant o s n Hl Ho) as (o2 & Hl2 & Hc). assert (o2 = o1) as -> by congruence.
    destruct Hc as [|[Ho1 _]]; [congruence|]. destruct (turn o1 (rounds n s)) as [a s'] eqn:Ht.
    destruct (busy _ _ _ _ Hl1 Ho1 Hs Ht) as (o3 & Hl3 & [H3|(_ & Hd & _)]); [right|by left].
    exists o3. split; [|done]. change (rounds (Datatypes.S n) s) with (round (rounds n s)).
    unfold round. by rewrite Hl1, Ht.
Qed.
End Rounds.

(** Controllers with the same code do the same. *)
Lemma rounds_ext {E O Er S} h (c1 c2 : Controller E O Er) (look : S -> option O) :
  (forall o, ctl_reconcile c1 o = ctl_reconcile c2 o) ->
  (forall o e, ctl_error_policy c1 o e = ctl_error_policy c2 o e) ->
  (forall o s, turn h c1 o s = turn h c2 o s) /\ forall n s, rounds h c1 look n s = rounds h c2 look n s.
Proof.
  intros Hr He. assert (Ht : forall o s, turn h c1 o s = turn h c2 o s).
  { intros o s. unfold turn. rewrite Hr. destruct (run _ _ s) as [[a|e] s']; [done|]. by rewrite He. }
  split; [exact Ht|]. intros n s. induction n as [|n IH]; [done|].
  change (rounds h c1 look (Datatypes.S n) s) with (round h c1 look (rounds h c1 look n s)).
  rewrite IH. unfold round. change (rounds h c2 look (Datatypes.S n) s) with (round h c2 look (rounds h c2 look n s)).
  unfold round. destruct (look _); [|done]. by rewrite Ht.
Qed.

Lemma rest_ext {E O Er S} h (c1 c2 : Controller E O Er) (look : S -> option O) f g k s :
  (forall o, ctl_reconcile c1 o = ctl_reconcile c2 o) ->
  (forall o e, ctl_error_policy c1 o e = ctl_error_policy c2 o e) ->
  (forall o, f o = g o) ->
  comes_to_rest h c2 look g k s -> comes_to_rest h c1 look f k s.
Proof.
  intros Hr He Hfg. destruct (rounds_ext h c1 c2 look Hr He) as [Ht Hn]. unfold comes_to_rest.
  intros ((o & H1 & Hs) & H2 & H3). split_and!.
  - exists o. by rewrite Hn, Hfg.
  - intros n Hle. rewrite !Hn. auto.
  - intros n o1. rewrite !Hn, Hfg, Ht. intros Ho. specialize (H3 n o1 Ho). destruct (g o1); [done|].
    destruct H3 as [H3|(o2 & Ho2 & Hs2)]; [by left|right]. exists o2. by rewrite Hfg.
Qed.

(** ** Controllers that maintain a status *)

Class StatusController : Type := {
  sc_ar : ApiResource;
  (** where the object lives, and the field manager of the patch *)
  sc_scope : ObjectMeta -> Scope;
  sc_manager : string;
  sc_needs : DynamicObject -> bool;
  (** the status wanted, from the object and the current time *)
  sc_status : DynamicObject -> string -> Value;
  (** the objects for which writing the status settles the matter *)
  sc_settles : DynamicObject -> Prop;
  (** what to do after a failure *)
  sc_policy : DynamicObject -> KubeError -> Action;
  sc_retries o e : exists d, sc_policy o e = Requeue d;
  sc_law o now :
    sc_settles o -> sc_needs o = true ->
    sc_needs (Dyn (dyn_metadata o) (merge_patch (VObject [("status", sc_status o now)]) (data o))) = false
}.

Definition own_namespace (m : ObjectMeta) : Scope := Namespaced (default "" (om_namespace m)).

(** A server some of whose answers fail, [faults] of them at most.  A status
    patch whose answer is an error may or may not have been applied. *)
Class FlakyServer (W : Type) `{!KubeServer W} `{!MergeStatusLaw W} : Type := {
  faults : W -> nat;
  faults_now w : faults (utc_now w).2 = faults w;
  faults_patch w ar sc name pp st o e w' :
    dyn_lookup w ar sc name = Some o ->
    kube_step (KPatchStatus (KDynamic ar) sc name pp (Merge (VObject [("status", st)]))) w = (Err e, w') ->
    (faults w' < faults w)%nat /\
    (dyn_lookup w' ar sc name = Some o \/
     dyn_lookup w' ar sc name =
       Some (Dyn (dyn_metadata o) (merge_patch (VObject [("status", st)]) (data o))))
}.

Section Status.
Context (C : StatusController).

Definition status_reconcile (o : DynamicObject) : prog ctrlE (KRes Action) :=
  if sc_needs o then
    now ⟵ trigger UtcNowRfc3339;
    _ ⟵? trigger (KPatchStatus (KDynamic sc_ar) (sc_scope (dyn_metadata o)) (name_any o)
                    (Some sc_manager) (Merge (VObject [("status", sc_status o now)])));
    Ret (Ok AwaitChange)
  else Ret (Ok AwaitChange).

(** The object as the API server has it. *)
Definition stored {W} `{!KubeServer W} `{!MergeStatusLaw W} (w : W) (o : DynamicObject) : Prop :=
  dyn_lookup w sc_ar (sc_scope (dyn_metadata o)) (name_any o) = Some o.

Context {W : Type} `{!KubeServer W} `{!MergeStatusLaw W}.

(** What one reconciliation leaves behind. *)
Lemma status_step o (w : W) w' a :
  stored w o -> run_ctrl (status_reconcile o) w = (Ok a, w') ->
  exists o', stored w' o' /\ name_any o' = name_any o /\ namespace o' = namespace o /\
    (sc_needs o = false -> o' = o /\ w' = w) /\
    (sc_needs o = true -> exists now, data o' = merge_patch (VObject [("status", sc_status o now)]) (data o)) /\
    (sc_settles o -> sc_needs o' = false).
Proof.
  unfold run_ctrl, status_reconcile. intros Hst. destruct (sc_needs o) eqn:Hn.
  - simpl. pose proof (dyn_lookup_now w) as Hnow.
    destruct (utc_now w) as [now w1]. simpl in Hnow. simpl.
    destruct (kube_step _ w1) as [[x|e] w2] eqn:Hk; simpl; [|done]. intros [= <- <-].
    unfold stored in Hst. rewrite <- Hnow in Hst.
    pose proof (dyn_patch_status _ _ _ _ _ _ _ _ _ Hst Hk) as Hl.
    exists (Dyn (dyn_metadata o) (merge_patch (VObject [("status", sc_status o now)]) (data o))).
    split_and!; [exact Hl|done|done|done|eauto|]. intros Hs. by apply sc_law.
  - simpl. intros [= <- <-]. exists o. split_and!; [exact Hst|done|done|done|done|done].
Qed.

(** Reconciling an object that settles, and then what the server stores, sends
    nothing the second time. *)
Lemma status_settles o (w : W) w' a :
  stored w o -> sc_settles o -> run_ctrl (status_reconcile o) w = (Ok a, w') ->
  exists o', stored w' o' /\ name_any o' = name_any o /\ namespace o' = namespace o /\
    sc_needs o' = false /\ run_ctrl (status_reconcile o') w' = (Ok AwaitChange, w').
Proof.
  intros Hst Hs Hr. destruct (status_step o w w' a Hst Hr) as (o' & ? & ? & ? & _ & _ & Hn).
  exists o'. split_and!; [done..|auto|]. unfold status_reconcile. by rewrite (Hn Hs).
Qed.

(** ** Status controllers terminate *)

Definition status_run : Controller ctrlE DynamicObject KubeError :=
  {| ctl_reconcile := status_reconcile; ctl_error_policy := sc_policy |}.

(** The stored object under the name and namespace of [o]. *)
Definition look_at (o : DynamicObject) (w : W) : option DynamicObject :=
  dyn_lookup w sc_ar (sc_scope (dyn_metadata o)) (name_any o).

Context `{!FlakyServer W}.

Lemma status_busy k o (w w' : W) a :
  look_at k w = Some o -> name_any o = name_any k -> sc_scope (dyn_metadata o) = sc_scope (dyn_metadata k) ->
  sc_settles o -> sc_needs o = true -> turn ctrl_step status_run o w = (a, w') ->
  exists o', look_at k w' = Some o' /\ name_any o' = name_any k /\
    sc_scope (dyn_metadata o') = sc_scope (dyn_metadata k) /\
    (sc_needs o' = false \/ sc_settles o' /\ (exists d, a = Requeue d) /\ (faults w' < faults w)%nat).
Proof.
  intros Hl Hnm Hsc Hs Hn. unfold turn. cbn [ctl_reconcile ctl_error_policy status_run].
  unfold status_reconcile. rewrite Hn. simpl.
  pose proof (dyn_lookup_now w) as Hnow. pose proof (faults_now w) as Hfn.
  destruct (utc_now w) as [now w1]. simpl in *. unfold look_at in *. rewrite <- Hnow in Hl.
  rewrite Hnm, Hsc. destruct (kube_step _ w1) as [[x|e] w2] eqn:Hk; simpl; intros [= <- <-].
  - exists (Dyn (dyn_metadata o) (merge_patch (VObject [("status", sc_status o now)]) (data o))).
    rewrite (dyn_patch_status _ _ _ _ _ _ _ _ _ Hl Hk). split_and!; [done..|]. left. by apply sc_law.
  - destruct (faults_patch _ _ _ _ _ _ _ _ _ Hl Hk) as [Hlt [Hl2|Hl2]]; rewrite Hl2; eexists;
      (split; [reflexivity|]); split_and!; try done.
    + right. split_and!; [done|apply sc_retries|]. by rewrite <- Hfn.
    + left. by apply sc_law.
Qed.

Lemma status_rest o (w : W) :
  stored w o -> sc_settles o ->
  comes_to_rest ctrl_step status_run (look_at o) (fun x => negb (sc_needs x)) (faults w + 1) w.
Proof.
  intros Hst Ho.
  apply (rounds_rest ctrl_step status_run (look_at o) (fun x => negb (sc_needs x))
    (fun x => sc_settles x /\ name_any x = name_any o /\ sc_scope (dyn_metadata x) = sc_scope (dyn_metadata o))
    faults) with (o := o); [| |done|done].
  - intros x v _ Hx%negb_true_iff. unfold turn. cbn [ctl_reconcile status_run]. unfold status_reconcile. by rewrite Hx.
  - intros x v a v' Hl (Hx & Hn & Hsc) Hne%negb_false_iff Ht.
    destruct (status_busy o x v v' a) as (x' & Hl' & Hn' & Hsc' & Hx'); [done..|].
    exists x'. split; [done|]. rewrite negb_true_iff. destruct Hx' as [|(? & ? & ?)]; auto.
Qed.
End Status.
