(* ===== verification/PodMutate.v ===== *)
(** * [pod_mutate.rs]: the admission webhook that gives pods an [fsGroup]

    The uid range of a namespace, the JSON patch of an admission review, the
    webhook's registration, and the controller that annotates namespaces with
    their range. *)

From S2P Require Import Prelude RustStr SipHash Json Prog Kube Util Crates JsonCodec OAuthHelpers Controller.
Open Scope list_scope.
Open Scope Z_scope.

Definition WEBHOOK_PORT : Z := 8443.
Definition UID_RANGE_ANNOTATION : string := "openshift.io/sa.scc.uid-range".
Definition SUPPLEMENTAL_GROUPS_ANNOTATION : string := "openshift.io/sa.scc.supplemental-groups".

Definition SKIP_NAMESPACES : list string :=
  [ "kube-system"; "kube-public"; "kube-node-lease"; "ocp-sim"; "local-path-storage" ].

(** [DefaultHasher] over a string: the standard library does not document the
    function, only that it yields a [u64].  [std_hasher] below is the one it has. *)
Class StdHasher : Type := {
  default_hash : string -> Z;
  default_hash_u64 s : 0 <= default_hash s < 2 ^ 64
}.

Section PodMutate.
Context `{!StdHasher}.

Definition uid_range_for_namespace (name : string) : Z :=
  let h := default_hash name in
  let block := h mod 100000 in
  1000000000 + block * 10000.

(** ** Admission *)

Definition build_admission_response `{!SerdeJson} `{!Base64} (uid : string) (patch : option (list Value)) : Value :=
  let response := [ "uid" =: VString uid; "allowed" =: VBool true ] in
  let response :=
    match patch with
    | Some ops =>
        let patch_b64 := b64_std_encode (json_to_string (VArray ops)) in
        obj_insert "patch" (VString patch_b64)
          (obj_insert "patchType" (VString "JSONPatch") response)
    | None => response
    end in
  jobj [ "apiVersion" =: VString "admission.k8s.io/v1"; "kind" =: VString "AdmissionReview";
         "response" =: jobj response ].

(** [v.get("runAsNonRoot").and_then(as_bool).unwrap_or(false)] under an
    optional security context. *)
Definition run_as_non_root (sc : option Value) : bool :=
  default false ((sc ≫= get "runAsNonRoot") ≫= as_bool).

Definition add_op (path : string) (v : Value) : Value :=
  jobj [ "op" =: VString "add"; "path" =: VString path; "value" =: v ].

Definition compute_patch (pod : Value) (namespace : string) : option (list Value) :=
  spec ← get "spec" pod;
  let sc := get "securityContext" spec in
  let fs_group := sc ≫= get "fsGroup" in
  match fs_group with
  | Some _ => None
  | None =>
      let run_as_non_root_pod := run_as_non_root sc in
      let run_as_non_root_container :=
        match get_array "containers" spec with
        | Some containers =>
            existsb (fun c => run_as_non_root (get "securityContext" c)) containers
        | None => false
        end in
      if negb run_as_non_root_pod && negb run_as_non_root_container then None
      else
        let uid := cast_i64 (uid_range_for_namespace namespace) in
        match sc with
        | Some _ => Some [add_op "/spec/securityContext/fsGroup" (jint uid)]
        | None => Some [add_op "/spec/securityContext" (jobj [ "fsGroup" =: jint uid ])]
        end
  end.

(** The webhook's HTTP handler; [Err] when the body cannot be read. *)
Definition handle_request `{!SerdeJson} `{!Base64} (req : Request) : result unit Response :=
  if negb (String.eqb (req_method req) "POST") || negb (String.eqb (req_path req) "/mutate/pods")
  then Ok (Resp NOT_FOUND [] ("not found" +:+ newline))
  else match req_body req with
  | None => Err tt
  | Some b =>
      match json_from_str b with
      | None => Ok (Resp BAD_REQUEST [] ("bad request" +:+ newline))
      | Some review =>
          let request := index "request" review in
          let uid := default "" (as_str (index "uid" request)) in
          let namespace := default "default" (as_str (index "namespace" request)) in
          let pod := index "object" request in
          let patch := compute_patch pod namespace in
          Ok (Resp OK [("content-type", "application/json")]
                (json_to_string (build_admission_response uid patch)))
      end
  end.

(** ** Registration *)

Definition pod_webhook (ca_cert_pem node_ip : string) : Webhook := {|
  wh_name := "scc.ocp-sim.io";
  wh_url := Some ("https://" +:+ node_ip +:+ ":" +:+ pretty WEBHOOK_PORT +:+ "/mutate/pods");
  wh_ca_bundle := Some ca_cert_pem;
  wh_rules := Some [ {| ro_api_groups := Some [""]; ro_api_versions := Some ["v1"];
                        ro_operations := Some ["CREATE"]; ro_resources := Some ["pods"];
                        ro_scope := Some "Namespaced" |} ];
  wh_failure_policy := Some "Ignore";
  wh_side_effects := "None";
  wh_admission_review_versions := ["v1"];
  wh_namespace_selector :=
    Some [ {| lsr_key := "kubernetes.io/metadata.name"; lsr_operator := "NotIn";
              lsr_values := Some SKIP_NAMESPACES |} ];
  wh_reinvocation_policy := Some "Never";
  wh_timeout_seconds := Some 5 |}.

(** The CA bundle is encoded and decoded again on the way. *)
Definition setup_webhook_with_ip `{!Base64} (ca_cert_pem node_ip : string) : prog ctrlE (KRes unit) :=
  let ca_bundle := b64_std_encode ca_cert_pem in
  let bytes := default "" (b64_std_decode ca_bundle) in
  let mwc := {| wc_metadata := named "ocp-sim-scc" None;
                wc_webhooks := Some [pod_webhook bytes node_ip] |} in
  _ ⟵? trigger (KPatch KMutatingWebhook All "ocp-sim-scc" (Some "ocp-sim") (ApplyObj (mwc : Obj KMutatingWebhook)));
  Ret (Ok tt).

(** ** The namespace controller *)

Definition uid_range_patch (range : string) : Value :=
  jobj [ "metadata" =: jobj [ "annotations" =:
           jobj [ UID_RANGE_ANNOTATION =: VString range;
                  SUPPLEMENTAL_GROUPS_ANNOTATION =: VString range ] ] ].

Definition has_annotation (k : string) (m : ObjectMeta) : bool :=
  match om_annotations m with
  | Some a => bool_decide (is_Some (a !! k))
  | None => false
  end.

Definition reconcile_namespace (ns : Namespace) : prog ctrlE (KRes Action) :=
  let name := name_any ns in
  if existsb (String.eqb name) SKIP_NAMESPACES then Ret (Ok AwaitChange)
  else if has_annotation UID_RANGE_ANNOTATION (ns_metadata ns) then Ret (Ok AwaitChange)
  else
    let uid := uid_range_for_namespace name in
    let range := pretty uid +:+ "/10000" in
    _ ⟵? trigger (KPatch KNamespace All name None (Merge (uid_range_patch range)));
    Ret (Ok AwaitChange).

Definition error_policy_ns (_ : Namespace) (_ : KubeError) : Action := Requeue 10.

(** The controller [run] starts before it serves the webhook. *)
Definition uid_range_controller : Controller ctrlE Namespace KubeError :=
  {| ctl_reconcile := reconcile_namespace; ctl_error_policy := error_policy_ns |}.
End PodMutate.

(** ** Proofs *)

(** A JSON pointer without escapes, as a path of member names. *)
Definition pointer (p : string) : list string :=
  match splitn 16 "/"%char p with
  | "" :: r => r
  | r => r
  end.

(** RFC 6902 on a list of [add] operations. *)
Definition apply_op (doc : option Value) (op : Value) : option Value :=
  doc ← doc;
  p ← get_str "path" op;
  v ← get "value" op;
  if bool_decide (get_str "op" op = Some "add") then json_add (pointer p) v doc else None.
Definition apply_patch (ops : list Value) (doc : Value) : option Value := foldl apply_op (Some doc) ops.

Section Proofs.
Context `{!StdHasher}.

Lemma uid_range_bounds name :
  1000000000 <= uid_range_for_namespace name <= 1999990000 /\
  uid_range_for_namespace name mod 10000 = 0.
Proof.
  unfold uid_range_for_namespace.
  pose proof (Z.mod_pos_bound (default_hash name) 100000 ltac:(lia)). split; [lia|].
  change 1000000000 with (100000 * 10000). rewrite <- Z.mul_add_distr_r. apply Z_mod_mult.
Qed.

Lemma uid_cast name : cast_i64 (uid_range_for_namespace name) = uid_range_for_namespace name.
Proof. apply cast_i64_id. pose proof (uid_range_bounds name). lia. Qed.

Lemma pretty_range name : cast_i32 (uid_range_for_namespace name) = uid_range_for_namespace name.
Proof. apply cast_i32_id. pose proof (uid_range_bounds name). lia. Qed.

(** C34: the uid range of a namespace is a block of 10000 ids that starts at a
    multiple of 10000, from 10^9 on and below 2^31, so neither the cast to
    [i64] nor a 32-bit gid in the kernel changes it; it is one of 100000 such
    blocks, and the blocks of two namespaces are equal or disjoint. *)
Theorem uid_range_well_formed name1 name2 :
  let u1 := uid_range_for_namespace name1 in
  let u2 := uid_range_for_namespace name2 in
  u1 mod 10000 = 0 /\
  1000000000 <= u1 /\ u1 + 10000 <= 2000000000 /\ u1 + 10000 <= 2 ^ 31 /\ cast_i64 u1 = u1 /\ cast_i32 u1 = u1 /\
  (u1 = u2 \/ u1 + 10000 <= u2 \/ u2 + 10000 <= u1).
Proof.
  cbv zeta. rewrite uid_cast, pretty_range.
  pose proof (uid_range_bounds name1) as [? H1]. pose proof (uid_range_bounds name2) as [? H2].
  split; [exact H1|]. apply Z.mod_divide in H1 as [a Ha], H2 as [b Hb]; [|lia..]. repeat split; lia.
Qed.

(** What the webhook looks at. *)
Definition wants_fs_group (pod : Value) : Prop :=
  exists spec, get "spec" pod = Some spec /\
    (get "securityContext" spec ≫= get "fsGroup") = None /\
    (run_as_non_root (get "securityContext" spec) = true \/
     exists cs c, get_array "containers" spec = Some cs /\ In c cs /\
                  run_as_non_root (get "securityContext" c) = true).

Lemma compute_patch_iff pod ns : compute_patch pod ns <> None <-> wants_fs_group pod.
Proof.
  unfold compute_patch, wants_fs_group.
  destruct (get "spec" pod) as [spec|]; cbn [mbind option_bind]; [|split; [done|by intros (? & ? & _)]].
  destruct (get "securityContext" spec ≫= get "fsGroup") eqn:Hfs.
  { split; [done|]. intros (? & [= <-] & ? & _). congruence. }
  assert (Hsome : forall b : bool, b = false ->
    (if b then None else
     match get "securityContext" spec with
     | Some _ => Some [add_op "/spec/securityContext/fsGroup" (jint (cast_i64 (uid_range_for_namespace ns)))]
     | None => Some [add_op "/spec/securityContext"
                       (jobj [ "fsGroup" =: jint (cast_i64 (uid_range_for_namespace ns)) ])]
     end) <> None).
  { intros b ->. by destruct (get "securityContext" spec). }
  destruct (run_as_non_root (get "securityContext" spec)) eqn:Hr.
  { split; [intros _; exists spec; auto|intros _; by apply Hsome]. }
  destruct (get_array "containers" spec) as [cs|] eqn:Hcs.
  2: { split; [done|]. intros (? & [= <-] & _ & [?|(? & ? & ? & _)]); congruence. }
  destruct (existsb _ cs) eqn:He; cbn [negb andb].
  - apply existsb_exists in He as (c & Hin & Hc).
    split; [intros _; exists spec; eauto 10|intros _; by apply (Hsome false)].
  - split; [done|]. intros (? & [= <-] & _ & [?|(? & c & ? & Hin & Hc)]); [congruence|].
    assert (existsb (fun c => run_as_non_root (get "securityContext" c)) cs = true).
    { apply existsb_exists. exists c. split; [congruence|done]. }
    congruence.
Qed.

(** A pod as the API server sends it: its security context, if present, is an
    object. *)
Definition sc_object (spec : Value) : Prop :=
  match get "securityContext" spec with
  | None | Some (VObject _) => True
  | Some _ => False
  end.

Lemma wants_fs_group_obj pod :
  wants_fs_group pod -> exists pm sm, pod = VObject pm /\ assoc "spec" pm = Some (VObject sm).
Proof.
  intros (spec & Hs & _ & Hr). destruct pod as [| | | | |pm]; try discriminate Hs.
  destruct spec as [| | | | |sm]; [..|by exists pm, sm];
    destruct Hr as [Hr|(cs & c & Hcs & _)]; try discriminate Hr; discriminate Hcs.
Qed.

(** The patched pod, written out. *)
Lemma apply_compute_patch pm sm ns ops :
  assoc "spec" pm = Some (VObject sm) -> sc_object (VObject sm) ->
  compute_patch (VObject pm) ns = Some ops ->
  apply_patch ops (VObject pm) =
    Some (VObject (obj_insert "spec"
      (VObject (obj_insert "securityContext"
        (VObject (obj_insert "fsGroup" (jint (uid_range_for_namespace ns))
           (members (default Null (assoc "securityContext" sm))))) sm)) pm)).
Proof.
  intros Hs Hsc Hp.
  assert (Hops : ops = match assoc "securityContext" sm with
    | Some _ => [add_op "/spec/securityContext/fsGroup" (jint (uid_range_for_namespace ns))]
    | None => [add_op "/spec/securityContext" (jobj [ "fsGroup" =: jint (uid_range_for_namespace ns) ])]
    end).
  { revert Hp. unfold compute_patch. simpl. rewrite Hs. simpl. rewrite uid_cast.
    repeat (case_match; simpl; try done); congruence. }
  subst ops. unfold sc_object in Hsc. simpl in Hsc.
  destruct (assoc "securityContext" sm) as [[| | | | |scm]|] eqn:Hc; try done;
    unfold apply_patch, apply_op, add_op, jobj, get_str; simpl; rewrite Hs; simpl; rewrite ?Hc; done.
Qed.

(** C20: what admission does to a pod.  The webhook answers with a patch
    exactly for the pods that want to run as non-root and have no fsGroup; the
    patch then applies, gives the pod the fsGroup of its namespace, changes
    no other field at any level, and a second review finds nothing to do. *)
Theorem admission_injects_fs_group pod ns :
  (compute_patch pod ns <> None <-> wants_fs_group pod) /\
  forall ops, compute_patch pod ns = Some ops -> sc_object (index "spec" pod) ->
    exists pod', apply_patch ops pod = Some pod' /\
      let spec' := index "spec" pod' in
      let sc' := index "securityContext" spec' in
      get "fsGroup" sc' = Some (jint (uid_range_for_namespace ns)) /\
      (forall k, k <> "spec" -> get k pod' = get k pod) /\
      (forall k, k <> "securityContext" -> get k spec' = get k (index "spec" pod)) /\
      (forall k, k <> "fsGroup" -> get k sc' = get k (index "securityContext" (index "spec" pod))) /\
      (forall ns', compute_patch pod' ns' = None).
Proof.
  split; [apply compute_patch_iff|]. intros ops Hops Hsc.
  destruct (wants_fs_group_obj pod) as (pm & sm & -> & Hs); [apply (compute_patch_iff _ ns); congruence|].
  rewrite (get_index "spec" (VObject pm) (VObject sm) Hs) in *.
  eexists. split; [by apply apply_compute_patch|]. cbv zeta.
  rewrite (get_index "spec" _ _ (get_insert "spec" _ pm)).
  rewrite (get_index "securityContext" _ _ (get_insert "securityContext" _ sm)).
  split_and!.
  - apply get_insert.
  - intros k Hk. by apply get_insert_ne.
  - intros k Hk. by apply get_insert_ne.
  - intros k Hk. rewrite get_insert_ne by done. unfold index. rewrite !get_members. simpl.
    by destruct (assoc "securityContext" sm) as [[]|].
  - intros ns'. unfold compute_patch. rewrite get_insert. cbn [mbind option_bind].
    rewrite get_insert. cbn [mbind option_bind]. by rewrite get_insert.
Qed.

(** C21: the API server reads from the webhook's answer exactly the patch that
    was computed, under the uid it asked about: encoding the operations as
    JSON in base64 in JSON loses nothing, and a review is never denied. *)
Theorem admission_response_roundtrip `{!SerdeJson} `{!Base64} req review :
  (forall v, json_from_str (json_to_string v) = Some v) ->
  (forall x, b64_std_decode (b64_std_encode x) = Some x) ->
  req_method req = "POST" -> req_path req = "/mutate/pods" ->
  req_body req = Some (json_to_string review) ->
  let request := index "request" review in
  let patch := compute_patch (index "object" request) (default "default" (as_str (index "namespace" request))) in
  exists resp answer,
    handle_request req = Ok resp /\ status resp = OK /\
    json_from_str (body resp) = Some answer /\
    let response := index "response" answer in
    get "allowed" response = Some (VBool true) /\
    get_str "uid" response = Some (default "" (as_str (index "uid" request))) /\
    (get_str "patchType" response = Some "JSONPatch" <-> patch <> None) /\
    ((get_str "patch" response ≫= b64_std_decode) ≫= json_from_str) = VArray <$> patch.
Proof.
  intros Hj Hb Hm Hp Hbody. cbv zeta. eexists _, _. split_and!.
  - unfold handle_request. rewrite Hm, Hp, Hbody. simpl. rewrite Hj. done.
  - done.
  - apply Hj.
  - by destruct (compute_patch _ _).
  - by destruct (compute_patch _ _).
  - by destruct (compute_patch _ _).
  - destruct (compute_patch _ _) as [ops|]; [|done].
    unfold build_admission_response, index, get_str, jobj. simpl. rewrite Hb. simpl. by rewrite Hj.
Qed.

(** ** The namespace controller *)

Lemma annotate_has range m :
  has_annotation UID_RANGE_ANNOTATION (annotate (uid_range_patch range) m) = true.
Proof.
  unfold has_annotation, annotate, patch_annotations. simpl.
  apply bool_decide_eq_true. rewrite lookup_insert_eq. eauto.
Qed.

(** C24: the annotation and the admission webhook agree, and the controller
    converges.  A namespace outside the skip list that has no range gets, by
    one patch, the range whose first id is the fsGroup the webhook injects
    there; reconciling the annotated namespace sends nothing; skipped
    namespaces are never touched. *)
Theorem namespace_annotation_converges {W} `{!KubeServer W} `{!AnnotateNamespaceLaw W} (ns : Namespace) (w : W) :
  ns_lookup w (name_any ns) = Some ns ->
  let '(r, w') := run_ctrl (reconcile_namespace ns) w in
  forall ns', ns_lookup w' (name_any ns) = Some ns' -> r = Ok AwaitChange ->
    (existsb (String.eqb (name_any ns)) SKIP_NAMESPACES = false ->
       has_annotation UID_RANGE_ANNOTATION (ns_metadata ns) = false ->
       default ∅ (om_annotations (ns_metadata ns')) !! UID_RANGE_ANNOTATION =
         Some (pretty (uid_range_for_namespace (name_any ns)) +:+ "/10000")) /\
    (existsb (String.eqb (name_any ns)) SKIP_NAMESPACES = true -> ns' = ns) /\
    run_ctrl (reconcile_namespace ns') w' = (Ok AwaitChange, w').
Proof.
  intros Hw. unfold run_ctrl. destruct (existsb (String.eqb (name_any ns)) SKIP_NAMESPACES) eqn:Hsk.
  { unfold reconcile_namespace. rewrite Hsk. cbn [run]. intros ns' Hl _.
    assert (ns' = ns) as -> by congruence. by rewrite Hsk. }
  destruct (has_annotation UID_RANGE_ANNOTATION (ns_metadata ns)) eqn:Ha.
  { unfold reconcile_namespace. rewrite Hsk, Ha. cbn [run]. intros ns' Hl _.
    assert (ns' = ns) as -> by congruence. by rewrite Hsk, Ha. }
  unfold reconcile_namespace at 1. rewrite Hsk, Ha. simpl.
  destruct (kube_step _ w) as [[o'|e] w'] eqn:Hstep; simpl; [|done].
  intros ns' Hl _. rewrite (ns_patch _ _ _ _ _ _ _ Hw Hstep) in Hl. injection Hl as <-.
  split_and!; [intros _ _|done|].
  - simpl. apply lookup_insert_eq.
  - unfold reconcile_namespace. cbn [ns_metadata]. rewrite annotate_has.
    by destruct (existsb _ _).
Qed.
End Proofs.

(** ** Witnesses *)

(** The hasher of the standard library. *)
Definition std_hasher : StdHasher := {| default_hash := hash_str; default_hash_u64 := hash_str_u64 |}.

Section Witnesses.
#[local] Existing Instance std_hasher.

Definition sample_pod : Value :=
  jobj [ "metadata" =: jobj [ "name" =: VString "p" ];
         "spec" =: jobj [ "securityContext" =: jobj [ "runAsNonRoot" =: VBool true ] ] ].

Example admission_injects_fs_group_witness :
  exists ops pod', compute_patch sample_pod "demo" = Some ops /\
    apply_patch ops sample_pod = Some pod' /\ compute_patch pod' "demo" = None.
Proof.
  destruct (admission_injects_fs_group sample_pod "demo") as [_ H].
  destruct (H _ eq_refl I) as (pod' & Hp & _ & _ & _ & _ & Hn).
  eexists _, pod'. split; [reflexivity|]. split; [exact Hp|]. apply Hn.
Defined.

Definition identity_base64 : Base64 :=
  {| b64_std_encode := id; b64_std_decode := Some; b64_url_encode := id; b64_url_decode := Some |}.

Definition sample_review : Value :=
  jobj [ "request" =: jobj [ "uid" =: VString "u1"; "namespace" =: VString "demo"; "object" =: sample_pod ] ].

Definition sample_request : Request :=
  {| req_method := "POST"; req_path := "/mutate/pods"; req_query := None; req_headers := [];
     req_body := Some (@json_to_string codec sample_review) |}.

Example admission_response_roundtrip_witness :
  exists resp answer, @handle_request _ codec identity_base64 sample_request = Ok resp /\
    @json_from_str codec (body resp) = Some answer /\
    get_str "uid" (index "response" answer) = Some "u1".
Proof.
  destruct (@admission_response_roundtrip _ codec identity_base64 sample_request sample_review
    codec_roundtrip (fun x => eq_refl) eq_refl eq_refl eq_refl)
    as (resp & answer & Hr & _ & Hj & _ & Hu & _).
  exists resp, answer. split; [exact Hr|]. split; [exact Hj|]. exact Hu.
Defined.

Definition demo_namespace : Namespace := {| ns_metadata := named "demo" None; ns_status := None |}.
Definition demo_mem : MemWorld :=
  Mem ∅ ∅ {[ "demo" := demo_namespace ]} [] ∅ ∅ "1970-01-01T00:00:00+00:00".

Example namespace_annotation_converges_witness :
  let '(r, w') := run_ctrl (reconcile_namespace demo_namespace) demo_mem in
  r = Ok AwaitChange /\
  forall ns', ns_lookup w' "demo" = Some ns' -> run_ctrl (reconcile_namespace ns') w' = (Ok AwaitChange, w').
Proof.
  pose proof (namespace_annotation_converges demo_namespace demo_mem eq_refl) as H.
  destruct (run_ctrl (reconcile_namespace demo_namespace) demo_mem) as [r w'] eqn:Hr.
  assert (Hok : r = Ok AwaitChange).
  { change r with ((r, w').1). rewrite <- Hr. vm_compute. reflexivity. }
  split; [exact Hok|]. intros ns' Hn. destruct (H ns' Hn Hok) as (_ & _ & Hc). exact Hc.
Defined.
End Witnesses.
