(* ===== verification/Route.v ===== *)
(** * [route.rs]: admission of routes *)

From S2P Require Import Prelude RustStr Json Prog Kube Util Controller.
Open Scope list_scope.
Open Scope Z_scope.

Definition DOMAIN : string := "apps.ocp-sim.test".

(** A condition of the given type with status "True". *)
Definition condition_true (type : string) (c : Value) : bool :=
  bool_decide (get_str "type" c = Some type) && bool_decide (get_str "status" c = Some "True").

Definition is_admitted (route : DynamicObject) : bool :=
  match (get "status" (data route) ≫= get "ingress") ≫= as_array with
  | Some arr =>
      existsb (fun ingress =>
        match get_array "conditions" ingress with
        | Some conds => existsb (condition_true "Admitted") conds
        | None => false
        end) arr
  | None => false
  end.

Definition compute_host (route : DynamicObject) : string :=
  let fallback := name_any route +:+ "-" +:+ default "" (namespace route) +:+ "." +:+ DOMAIN in
  match (get "spec" (data route) ≫= get "host") ≫= as_str with
  | Some host => if negb (is_empty host) then host else fallback
  | None => fallback
  end.

Definition route_status (host now : string) : Value :=
  jobj [ "ingress" =: VArray [
    jobj [ "host" =: VString host;
           "routerName" =: VString "default";
           "routerCanonicalHostname" =: VString ("router-default." +:+ DOMAIN);
           "conditions" =: VArray [
             jobj [ "type" =: VString "Admitted"; "status" =: VString "True";
                    "lastTransitionTime" =: VString now ] ] ] ] ].

Definition reconcile_route (route : DynamicObject) : prog ctrlE (KRes Action) :=
  let ns := default "" (namespace route) in
  let name := name_any route in
  let host := compute_host route in
  if negb (is_admitted route) then
    now ⟵ trigger UtcNowRfc3339;
    _ ⟵? trigger (KPatchStatus (KDynamic route_ar) (Namespaced ns) name (Some "ocp-sim")
                    (Merge (jobj [ "status" =: route_status host now ])));
    Ret (Ok AwaitChange)
  else Ret (Ok AwaitChange).

Definition error_policy (_ : DynamicObject) (_ : KubeError) : Action := Requeue 10.

Definition route_run : Controller ctrlE DynamicObject KubeError :=
  {| ctl_reconcile := reconcile_route; ctl_error_policy := error_policy |}.

(** ** Proofs *)

(** Whatever was there, a merged route status is an admitted one. *)
Lemma route_status_admits meta host now d :
  is_admitted (Dyn meta (merge_patch (jobj [ "status" =: route_status host now ]) d)) = true.
Proof.
  unfold is_admitted. cbn [data]. unfold jobj at 1. rewrite get_merge_single by done. cbn [mbind option_bind].
  unfold route_status, jobj at 1. rewrite get_merge_single by done. reflexivity.
Qed.

#[export] Instance route_controller : StatusController.
Proof.
  refine {| sc_ar := route_ar; sc_scope := own_namespace; sc_manager := "ocp-sim"; sc_needs := fun o => negb (is_admitted o);
            sc_status := fun o now => route_status (compute_host o) now; sc_settles := fun _ => True;
            sc_policy := error_policy; sc_retries := fun _ _ => ex_intro _ 10 eq_refl |}.
  intros o now _ _. by rewrite route_status_admits.
Defined.

Lemma reconcile_route_status o : reconcile_route o = status_reconcile route_controller o.
Proof. done. Qed.

Lemma compute_host_nonempty o : compute_host o <> "".
Proof.
  unfold compute_host. destruct (_ ≫= as_str) as [[|c h]|]; simpl; [|done|];
    by destruct (name_any o).
Qed.

(** C23: route admission converges.  When reconciling a stored route succeeds,
    the stored route is admitted and its spec is what it was; a route that was
    not admitted carries its host (never empty) in the first ingress entry; an
    admitted one is left alone; and reconciling what is now stored sends
    nothing. *)
Theorem route_admission_converges {W} `{!KubeServer W} `{!MergeStatusLaw W} (route : DynamicObject) (w w' : W) a :
  stored route_controller w route -> run_ctrl (reconcile_route route) w = (Ok a, w') ->
  exists route', stored route_controller w' route' /\
    is_admitted route' = true /\
    get "spec" (data route') = get "spec" (data route) /\ compute_host route' = compute_host route /\
    compute_host route <> "" /\
    (is_admitted route = true -> route' = route /\ w' = w) /\
    (is_admitted route = false -> exists i r,
       get_array "ingress" (index "status" (data route')) = Some (i :: r) /\
       get_str "host" i = Some (compute_host route)) /\
    run_ctrl (reconcile_route route') w' = (Ok AwaitChange, w').
Proof.
  rewrite reconcile_route_status. intros Hst Hr.
  destruct (status_step _ _ _ _ _ Hst Hr) as (o' & Hst' & Hname & Hns & Hold & Hnew & Hset).
  cbn [sc_needs route_controller sc_settles] in *. specialize (Hset I). exists o'.
  assert (Hspec : get "spec" (data o') = get "spec" (data route)).
  { destruct (is_admitted route); cbn [negb] in *; [by destruct Hold as [-> _]|].
    destruct (Hnew eq_refl) as [now ->]. by apply get_merge_single_ne. }
  split_and!; [done|by destruct (is_admitted o')|done| |apply compute_host_nonempty|intros Ha; apply Hold; by rewrite Ha| |].
  - unfold compute_host. by rewrite Hspec, Hname, Hns.
  - intros Ha. rewrite Ha in Hnew. destruct (Hnew eq_refl) as [now Hd]. rewrite Hd.
    unfold index, get_array. rewrite get_merge_single by done. cbn [default from_option].
    unfold sc_status, route_controller, route_status, jobj at 1. simpl.
    rewrite assoc_insert_eq. simpl. eexists _, _. split; done.
  - unfold reconcile_route. by rewrite Hset.
Qed.

Definition sample_route : DynamicObject := Dyn (named "web" (Some "demo")) (jobj [ "spec" =: jobj [] ]).
Definition route_mem : MemWorld :=
  Mem {[ dyn_key route_ar (Namespaced "demo") "web" := sample_route ]} ∅ ∅ [] ∅ ∅ "2024-01-01T00:00:00+00:00".

Lemma sample_route_run :
  run_ctrl (reconcile_route sample_route) route_mem =
    (Ok AwaitChange, (run_ctrl (reconcile_route sample_route) route_mem).2).
Proof. apply pair_eta. vm_compute. reflexivity. Qed.

Lemma sample_route_stored : stored route_controller route_mem sample_route.
Proof. vm_compute. reflexivity. Qed.

Example route_admission_converges_witness :
  exists route', stored route_controller (run_ctrl (reconcile_route sample_route) route_mem).2 route' /\
    is_admitted route' = true.
Proof.
  destruct (route_admission_converges sample_route route_mem _ AwaitChange sample_route_stored sample_route_run)
    as (route' & H1 & H2 & _).
  exists route'. split; [exact H1|exact H2].
Defined.
