(* ===== verification/ImageStream.v ===== *)
(** * [imagestream.rs]: the status of image streams *)

From S2P Require Import Prelude RustStr Json Prog Kube Util Controller.
Open Scope list_scope.
Open Scope Z_scope.

(** The array at [section.tags]. *)
Definition tags_of (section : string) (is_ : DynamicObject) : option (list Value) :=
  (get section (data is_) ≫= get "tags") ≫= as_array.

(** Name and image of a spec tag, and of a status tag, with the defaults of the
    comparison. *)
Definition spec_tag_name (t : Value) : string := default "" (get_str "name" t).
Definition spec_tag_image (t : Value) : string := default "" ((get "from" t ≫= get "name") ≫= as_str).
Definition status_tag_name (st : Value) : string := default "" (get_str "tag" st).
Definition status_tag_image (st : Value) : string :=
  default "" (((get_array "items" st ≫= head) ≫= get "dockerImageReference") ≫= as_str).

Definition status_needs_update (is_ : DynamicObject) : bool :=
  match tags_of "spec" is_ with
  | None | Some [] => false
  | Some spec_tags =>
      match tags_of "status" is_ with
      | None => true
      | Some status_tags =>
          if negb (Nat.eqb (length spec_tags) (length status_tags)) then true
          else
            existsb (fun spec_tag =>
              negb (existsb (fun st =>
                String.eqb (status_tag_name st) (spec_tag_name spec_tag) &&
                String.eqb (status_tag_image st) (spec_tag_image spec_tag)) status_tags)) spec_tags
      end
  end.

(** The closure of the [filter_map]. *)
Definition status_tag (now : string) (tag : Value) : option Value :=
  tag_name ← get_str "name" tag;
  from ← get "from" tag;
  image_ref ← get_str "name" from;
  Some (jobj [ "tag" =: VString tag_name;
               "items" =: VArray [ jobj [ "dockerImageReference" =: VString image_ref;
                                          "created" =: VString now;
                                          "generation" =: jint 1;
                                          "image" =: VString "" ] ] ]).

Definition imagestream_status (spec_tags : list Value) (now : string) : Value :=
  jobj [ "dockerImageRepository" =: VString "";
         "tags" =: VArray (omap (status_tag now) spec_tags) ].

Definition reconcile_imagestream (is_ : DynamicObject) : prog ctrlE (KRes Action) :=
  let ns := default "" (namespace is_) in
  let name := name_any is_ in
  if negb (status_needs_update is_) then Ret (Ok AwaitChange)
  else match tags_of "spec" is_ with
  | None | Some [] => Ret (Ok AwaitChange)
  | Some spec_tags =>
      now ⟵ trigger UtcNowRfc3339;
      _ ⟵? trigger (KPatchStatus (KDynamic imagestream_ar) (Namespaced ns) name (Some "ocp-sim")
                      (Merge (jobj [ "status" =: imagestream_status spec_tags now ])));
      Ret (Ok AwaitChange)
  end.

Definition error_policy (_ : DynamicObject) (_ : KubeError) : Action := Requeue 30.

Definition imagestream_run : Controller ctrlE DynamicObject KubeError :=
  {| ctl_reconcile := reconcile_imagestream; ctl_error_policy := error_policy |}.

(** ** Proofs *)

(** A tag with a name and an image to import. *)
Definition tag_ok (t : Value) : Prop :=
  exists n f i, get_str "name" t = Some n /\ get "from" t = Some f /\ get_str "name" f = Some i.

Definition well_tagged (is_ : DynamicObject) : Prop :=
  Forall tag_ok (default [] (tags_of "spec" is_)).

Lemma status_tag_some now t :
  tag_ok t -> exists st, status_tag now t = Some st /\
    status_tag_name st = spec_tag_name t /\ status_tag_image st = spec_tag_image t.
Proof.
  intros (n & f & i & Hn & Hf & Hi). unfold status_tag, spec_tag_name, spec_tag_image.
  rewrite Hn, Hf. cbn [mbind option_bind]. rewrite Hi. unfold get_str in Hi. rewrite Hi.
  eexists. split; [done|]. split; done.
Qed.

Lemma status_tag_none now t : ~ tag_ok t -> status_tag now t = None.
Proof.
  intros Hno. unfold status_tag. destruct (get_str "name" t) as [n|] eqn:Hn; [|done]. simpl.
  destruct (get "from" t) as [f|] eqn:Hf; [|done]. simpl.
  destruct (get_str "name" f) as [i|] eqn:Hi; [|done]. destruct Hno. by exists n, f, i.
Qed.

(** The tags after the patch has been merged. *)
Lemma merged_tags meta tags now d :
  let o' := Dyn meta (merge_patch (jobj [ "status" =: imagestream_status tags now ]) d) in
  tags_of "status" o' = Some (omap (status_tag now) tags) /\ tags_of "spec" o' = tags_of "spec" (Dyn meta d).
Proof.
  unfold tags_of. cbn [data]. split.
  - unfold jobj at 1. rewrite get_merge_single by done. cbn [mbind option_bind].
    unfold imagestream_status, jobj at 1. simpl. by rewrite assoc_insert_eq.
  - unfold jobj at 1. by rewrite get_merge_single_ne.
Qed.

Lemma omap_status_length now tags :
  (length (omap (status_tag now) tags) <= length tags)%nat /\
  (length (omap (status_tag now) tags) = length tags -> Forall (fun t => status_tag now t <> None) tags).
Proof.
  induction tags as [|t tags [IH1 IH2]]; [split; [simpl; lia|constructor]|].
  rewrite omap_cons_eq. destruct (status_tag now t) eqn:Ht; cbn [length].
  - split; [lia|]. intros H. constructor; [congruence|]. apply IH2. lia.
  - split; [lia|]. intros H. lia.
Qed.

Lemma omap_status_covers now tags :
  Forall tag_ok tags ->
  length (omap (status_tag now) tags) = length tags /\
  forall t, In t tags -> exists st, In st (omap (status_tag now) tags) /\
    status_tag_name st = spec_tag_name t /\ status_tag_image st = spec_tag_image t.
Proof.
  induction 1 as [|t tags Ht _ [IH1 IH2]]; [done|].
  destruct (status_tag_some now t Ht) as (st & Hst & Hn & Hi). rewrite omap_cons_eq, Hst. simpl. split; [by rewrite IH1|].
  intros t' [<-|Hin]; [by exists st; auto|]. destruct (IH2 t' Hin) as (st' & ? & ? & ?). exists st'. auto.
Qed.

Lemma settled_tags meta tags now d :
  tags_of "spec" (Dyn meta d) = Some tags -> Forall tag_ok tags ->
  status_needs_update (Dyn meta (merge_patch (jobj [ "status" =: imagestream_status tags now ]) d)) = false.
Proof.
  intros Hs Hok. destruct (merged_tags meta tags now d) as [H1 H2].
  unfold status_needs_update. rewrite H2, Hs, H1.
  destruct (omap_status_covers now tags Hok) as [Hlen Hcov].
  destruct tags as [|t0 tags]; [done|]. rewrite Hlen, Nat.eqb_refl. cbn [negb].
  apply not_true_is_false. intros (t & Hin & Ht)%existsb_exists.
  destruct (Hcov t Hin) as (st & Hst & Hn & Hi). apply negb_true_iff in Ht.
  assert (Hex : existsb (fun st => String.eqb (status_tag_name st) (spec_tag_name t) &&
                String.eqb (status_tag_image st) (spec_tag_image t)) (omap (status_tag now) (t0 :: tags)) = true).
  { apply existsb_exists. exists st. split; [done|]. by rewrite Hn, Hi, !String.eqb_refl. }
  congruence.
Qed.

#[export] Instance imagestream_controller : StatusController.
Proof.
  refine {| sc_ar := imagestream_ar; sc_scope := own_namespace; sc_manager := "ocp-sim"; sc_needs := status_needs_update;
            sc_status := fun o now => imagestream_status (default [] (tags_of "spec" o)) now;
            sc_settles := well_tagged; sc_policy := error_policy;
            sc_retries := fun _ _ => ex_intro _ 30 eq_refl |}.
  intros [meta d] now Hok Hn. unfold well_tagged in Hok. cbn [dyn_metadata data].
  destruct (tags_of "spec" (Dyn meta d)) as [tags|] eqn:Ht.
  - by apply settled_tags.
  - unfold status_needs_update in Hn. by rewrite Ht in Hn.
Defined.

Lemma needs_spec_tags o : status_needs_update o = true -> exists t ts, tags_of "spec" o = Some (t :: ts).
Proof. unfold status_needs_update. destruct (tags_of "spec" o) as [[|t ts]|]; eauto; done. Qed.

Lemma reconcile_imagestream_status o : reconcile_imagestream o = status_reconcile imagestream_controller o.
Proof.
  unfold reconcile_imagestream, status_reconcile. cbn [sc_needs imagestream_controller].
  destruct (status_needs_update o) eqn:Hn; [|done]. destruct (needs_spec_tags o Hn) as (t & ts & Ht).
  cbn [negb sc_status imagestream_controller]. by rewrite Ht.
Qed.

(** Image stream import converges on well-formed specs.  When every spec
    tag names an image, a successful reconciliation leaves a stored image
    stream whose status carries each spec tag with its image and needs no
    update; reconciling it again sends nothing. *)
Theorem imagestream_import_converges {W} `{!KubeServer W} `{!MergeStatusLaw W} (is_ : DynamicObject) (w w' : W) a :
  stored imagestream_controller w is_ -> well_tagged is_ ->
  run_ctrl (reconcile_imagestream is_) w = (Ok a, w') ->
  exists is', stored imagestream_controller w' is' /\
    status_needs_update is' = false /\
    run_ctrl (reconcile_imagestream is') w' = (Ok AwaitChange, w').
Proof.
  rewrite reconcile_imagestream_status. intros Hst Hok Hr.
  destruct (status_settles imagestream_controller is_ w w' a Hst Hok Hr) as (o' & ? & _ & _ & Hn & Hr').
  exists o'. rewrite reconcile_imagestream_status. auto.
Qed.

(** A tag that lacks its name or its image is missing from the status that is
    written, so that status needs an update again. *)
Lemma malformed_needs o now tags t :
  tags_of "spec" o = Some tags -> In t tags -> ~ tag_ok t ->
  tags_of "status" o = None \/ tags_of "status" o = Some (omap (status_tag now) tags) ->
  status_needs_update o = true.
Proof.
  intros Hspec Hin Hbad Hst. unfold status_needs_update. rewrite Hspec.
  destruct tags as [|t0 ts]; [done|]. destruct Hst as [Hst|Hst]; rewrite Hst; [done|].
  destruct (Nat.eqb_spec (length (t0 :: ts)) (length (omap (status_tag now) (t0 :: ts)))) as [He|]; [|done].
  destruct (omap_status_length now (t0 :: ts)) as [_ Hall]. symmetry in He. apply Hall in He.
  rewrite List.Forall_forall in He. destruct (He t Hin). by apply status_tag_none.
Qed.

(** The time of the import can be read off a status with a well-formed tag. *)
Lemma status_tags_time now now' tags t :
  In t tags -> tag_ok t -> omap (status_tag now) tags = omap (status_tag now') tags -> now = now'.
Proof.
  intros Hin Hok. induction tags as [|t0 tags IH]; [done|]. rewrite !omap_cons_eq.
  assert (Hnone : status_tag now t0 = None <-> status_tag now' t0 = None).
  { unfold status_tag. destruct (get_str "name" t0); [|done]. simpl. destruct (get "from" t0) as [f|]; [|done].
    simpl. by destruct (get_str "name" f). }
  destruct Hin as [->|Hin].
  - destruct Hok as (n & f & i & Hn & Hf & Hi).
    assert (Hst : forall s, status_tag s t = Some (jobj [ "tag" =: VString n;
      "items" =: VArray [ jobj [ "dockerImageReference" =: VString i; "created" =: VString s;
                                 "generation" =: jint 1; "image" =: VString "" ] ] ])).
    { intros s. unfold status_tag. rewrite Hn, Hf. cbn [mbind option_bind]. by rewrite Hi. }
    rewrite !Hst. unfold jobj. intros H. by injection H.
  - destruct (status_tag now t0) as [v|] eqn:H1, (status_tag now' t0) as [v'|] eqn:H2.
    + intros [= _ H]. auto.
    + destruct Hnone as [_ H]. by specialize (H eq_refl).
    + destruct Hnone as [H _]. by specialize (H eq_refl).
    + auto.
Qed.

(** ** Witnesses *)

Definition sample_imagestream (tags : list Value) : DynamicObject :=
  Dyn (named "nginx" (Some "demo")) (jobj [ "spec" =: jobj [ "tags" =: VArray tags ] ]).
Definition good_tag : Value :=
  jobj [ "name" =: VString "latest"; "from" =: jobj [ "name" =: VString "docker.io/nginx" ] ].
Definition bad_tag : Value := jobj [ "name" =: VString "empty" ].
Definition imagestream_mem (tags : list Value) : MemWorld :=
  Mem {[ dyn_key imagestream_ar (Namespaced "demo") "nginx" := sample_imagestream tags ]} ∅ ∅ [] ∅ ∅ "now".

Example imagestream_import_converges_witness :
  exists is', status_needs_update is' = false /\
    stored imagestream_controller
      (run_ctrl (reconcile_imagestream (sample_imagestream [good_tag])) (imagestream_mem [good_tag])).2 is'.
Proof.
  destruct (imagestream_import_converges (sample_imagestream [good_tag]) (imagestream_mem [good_tag])
    (run_ctrl (reconcile_imagestream (sample_imagestream [good_tag])) (imagestream_mem [good_tag])).2 AwaitChange)
    as (is' & H1 & H2 & _).
  - vm_compute. reflexivity.
  - repeat constructor. exists "latest", (jobj [ "name" =: VString "docker.io/nginx" ]), "docker.io/nginx". auto.
  - apply pair_eta. vm_compute. reflexivity.
  - exists is'. split; [exact H2|exact H1].
Defined.
