(* ===== verification/Project.v ===== *)
(** * [project.rs]: projects mirror namespaces, and namespaces projects *)

From S2P Require Import Prelude RustStr Json Prog Kube Util Controller.
Open Scope list_scope.
Open Scope Z_scope.

(** A label map as JSON, in key order. *)
Definition labels_value (labels : gmap string string) : Value :=
  VObject ((fun kv => (kv.1, VString kv.2)) <$> map_to_list labels).

Definition project_of (name : string) (labels : gmap string string) (phase : string) : Value :=
  jobj [ "apiVersion" =: VString "project.openshift.io/v1";
         "kind" =: VString "Project";
         "metadata" =: jobj [ "name" =: VString name; "labels" =: labels_value labels ];
         "status" =: jobj [ "phase" =: VString phase ] ].

Definition reconcile_namespace (ns : Namespace) : prog ctrlE (KRes Action) :=
  let name := name_any ns in
  let phase := default "Active" (ns_status ns ≫= id) in
  let labels := default ∅ (om_labels (ns_metadata ns)) in
  _ ⟵? trigger (KPatch (KDynamic project_ar) All name (Some "ocp-sim-project")
                  (Apply (project_of name labels phase)));
  Ret (Ok AwaitChange).

Definition namespace_of (name : string) (labels : option (gmap string string)) : Namespace := {|
  ns_metadata := {|
    om_name := Some name; om_generate_name := None; om_namespace := None; om_labels := labels;
    om_annotations := None; om_uid := None; om_generation := None; om_owner_references := None |};
  ns_status := None |}.

Definition reconcile_project (proj : DynamicObject) : prog ctrlE (KRes Action) :=
  let name := name_any proj in
  existing ⟵? trigger (KGetOpt KNamespace All name);
  match existing with
  | Some _ => Ret (Ok AwaitChange)
  | None =>
      let ns := namespace_of name (om_labels (dyn_metadata proj)) in
      r ⟵ trigger (KCreate KNamespace All (ns : Obj KNamespace));
      match r with
      | Ok _ => Ret (Ok AwaitChange)
      | Err (ApiError code) => if code =? 409 then Ret (Ok AwaitChange) else Ret (Err (ApiError code))
      | Err e => Ret (Err e)
      end
  end.

Definition ns_error_policy (_ : Namespace) (_ : KubeError) : Action := Requeue 10.
Definition proj_error_policy (_ : DynamicObject) (_ : KubeError) : Action := Requeue 10.

(** The two controllers of [run], raced against each other. *)
Definition project_run :
    Controller ctrlE Namespace KubeError * Controller ctrlE DynamicObject KubeError :=
  ({| ctl_reconcile := reconcile_namespace; ctl_error_policy := ns_error_policy |},
   {| ctl_reconcile := reconcile_project; ctl_error_policy := proj_error_policy |}).

(** ** Proofs *)

(** C32: every project gets its namespace.  When reconciling a project
    succeeds, a namespace of its name exists, and one that was there is left
    as it is.  If there was none, the run has asked for one with the project's
    name and labels: either that was granted, and the namespace carries all the
    project's labels, or the answer was that there is one by now (409). *)
Theorem project_has_namespace {W} `{!KubeServer W} `{!NamespaceLaw W} (proj : DynamicObject) (w w' : W) a :
  run_ctrl (reconcile_project proj) w = (Ok a, w') ->
  let log := run_log ctrl_step (reconcile_project proj) w in
  let sent := namespace_of (name_any proj) (om_labels (dyn_metadata proj)) in
  a = AwaitChange /\
  exists ns, namespace_at w' (name_any proj) = Some ns /\
    match namespace_at w (name_any proj) with
    | Some ns0 => ns = ns0
    | None => exists r, In (Ev (inject (KCreate KNamespace All (sent : Obj KNamespace))) r) log /\
        match r with
        | Ok _ => default ∅ (om_labels (dyn_metadata proj)) ⊆ default ∅ (om_labels (ns_metadata ns))
        | Err e => e = ApiError 409
        end
    end.
Proof.
  cbv zeta. unfold run_ctrl, reconcile_project. rewrite run_try_bind, run_log_try_bind.
  prog_unfold. cbn [run run_log ctrl_step].
  destruct_kube w as [[existing|e] w1] eqn:Hget; [|done].
  apply namespace_get_opt in Hget as [-> Hsame].
  destruct (namespace_at w (name_any proj)) as [ns|] eqn:Hns; cbn [run run_log].
  { intros [= <- <-]. split; [done|]. exists ns. by rewrite Hsame, Hns. }
  rewrite run_bind, run_log_bind. cbn [run run_log ctrl_step].
  destruct_kube w1 as [r w2] eqn:Hc. destruct r as [o'|[code|]]; cbn [run].
  - intros [= <- <-]. split; [done|]. apply namespace_create in Hc as (ns & Hat & Hl). exists ns.
    split; [exact Hat|]. eexists. split; [right; by left|]. exact Hl.
  - destruct (Z.eqb_spec code 409) as [->|]; [|done]. intros [= <- <-]. split; [done|].
    apply namespace_conflict in Hc as [ns Hat]. exists ns. split; [exact Hat|].
    eexists. split; [right; by left|done].
  - done.
Qed.

Definition sample_project : DynamicObject :=
  Dyn {| om_name := Some "demo"; om_generate_name := None; om_namespace := None;
         om_labels := Some {[ "team" := "a" ]}; om_annotations := None; om_uid := None;
         om_generation := None; om_owner_references := None |} (jobj []).

Example project_has_namespace_witness :
  exists ns, namespace_at (run_ctrl (reconcile_project sample_project) mem_empty).2 "demo" = Some ns /\
    default ∅ (om_labels (ns_metadata ns)) !! "team" = Some "a".
Proof.
  assert (Hrun : run_ctrl (reconcile_project sample_project) mem_empty =
    (Ok AwaitChange, (run_ctrl (reconcile_project sample_project) mem_empty).2)).
  { apply pair_eta. vm_compute. reflexivity. }
  destruct (project_has_namespace sample_project mem_empty _ AwaitChange Hrun) as (_ & ns & Hns & _).
  exists ns. split; [exact Hns|]. vm_compute in Hns. injection Hns as <-. reflexivity.
Defined.
