(* ===== verification/LoadBalancer.v ===== *)
(** * [loadbalancer.rs]: addresses for services of type LoadBalancer *)

From S2P Require Import Prelude RustStr Json Prog Kube.
Open Scope list_scope.
Open Scope Z_scope.

(** [NEXT_OCTET.fetch_add(1, ...)] on an [AtomicU8]. *)
Inductive lbE : Type -> Type :=
| FetchAddOctet : lbE Z.

Abbreviation balancerE := (lbE +' kubeE).

Definition next_lb_ip : prog balancerE string :=
  n ⟵ trigger FetchAddOctet;
  Ret ("10.254.0." +:+ pretty n).

Definition needs_ip (svc : Service) : bool :=
  let is_lb := bool_decide ((svc_spec svc ≫= ss_type) = Some "LoadBalancer") in
  if negb is_lb then false
  else match (svc_status svc ≫= id) ≫= id with
       | None => true
       | Some l => match l with [] => true | _ => false end
       end.

Definition lb_status (ip : string) : Value :=
  jobj [ "status" =: jobj [ "loadBalancer" =: jobj [ "ingress" =: VArray [ jobj [ "ip" =: VString ip ] ] ] ] ].

(** The body of the watch loop for one event ([None]: a watch error); a failed
    patch is only logged. *)
Definition on_service_event (event : option Service) : prog balancerE unit :=
  match event with
  | Some svc =>
      if negb (needs_ip svc) then Ret tt
      else
        let ns := default "" (namespace svc) in
        let name := name_any svc in
        ip ⟵ next_lb_ip;
        _ ⟵ trigger (KPatchStatus KService (Namespaced ns) name (Some "ocp-sim") (Merge (lb_status ip)));
        Ret tt
  | None => Ret tt
  end.

Definition run_balancer (events : list (option Service)) : prog balancerE unit :=
  for_each events on_service_event.

(** ** Running it *)

Section Run.
Context {W : Type} `{!KubeServer W}.

(** [fetch_add] returns the old value and wraps at 256. *)
Definition lb_step X (e : balancerE X) : Z * W -> X * (Z * W) :=
  match e with
  | inlE le => match le in lbE X return Z * W -> X * (Z * W) with
               | FetchAddOctet => fun '(n, w) => (n, (cast_u8 (n + 1), w))
               end
  | inrE ke => fun '(n, w) => let '(x, w') := kube_step ke w in (x, (n, w'))
  end.

(** The same with a log of the patches sent: namespace, name and address. *)
Definition patch_ip (v : Value) : option string :=
  let ingress := index "ingress" (index "loadBalancer" (index "status" v)) in
  (as_array ingress ≫= head) ≫= get_str "ip".

Definition sent X (e : balancerE X) : option (string * string * string) :=
  match e with
  | inrE (KPatchStatus KService (Namespaced ns) name _ (Merge v)) =>
      ip ← patch_ip v; Some (ns, name, ip)
  | _ => None
  end.

Definition lb_log_step X (e : balancerE X) (s : Z * W * list (string * string * string)) :
    X * (Z * W * list (string * string * string)) :=
  let '(x, s') := lb_step X e s.1 in
  (x, (s', s.2 ++ match sent X e with Some p => [p] | None => [] end)).

(** The services of the events that get an address. *)
Definition served (events : list (option Service)) : list Service :=
  List.filter needs_ip (omap id events).

(** The [k]-th address handed out. *)
Definition nth_ip (n0 : Z) (k : nat) : string := "10.254.0." +:+ pretty (cast_u8 (n0 + Z.of_nat k)).

Definition assignment (n0 : Z) (k : nat) (svc : Service) : string * string * string :=
  (default "" (namespace svc), name_any svc, nth_ip n0 k).

Lemma cast_u8_step n k : cast_u8 (cast_u8 (n + 1) + k) = cast_u8 (n + (1 + k)).
Proof. unfold cast_u8. rewrite Zplus_mod_idemp_l. f_equal. lia. Qed.

Lemma nth_ip_step n k : nth_ip (cast_u8 (n + 1)) k = nth_ip n (S k).
Proof. unfold nth_ip. rewrite cast_u8_step. do 2 f_equal. f_equal. lia. Qed.

Lemma run_service_event svc n (w : W) log :
  needs_ip svc = true ->
  exists w', run lb_log_step (on_service_event (Some svc)) (n, w, log) =
    (tt, (cast_u8 (n + 1), w', log ++ [(default "" (namespace svc), name_any svc, "10.254.0." +:+ pretty n)])).
Proof.
  intros Hn. unfold on_service_event, next_lb_ip. rewrite Hn. unfold trigger, inject, inject_l, inject_r, inject_refl, inject.
  cbn [negb prog_bind run]. unfold lb_log_step at 1. cbn [lb_step sent fst snd]. rewrite app_nil_r.
  unfold lb_log_step. cbn [lb_step sent fst snd].
  match goal with |- context [kube_step ?e w] => destruct (kube_step e w) as [r w'] end.
  by exists w'.
Qed.

Lemma run_balancer_log events n (w : W) log :
  0 <= n < 256 ->
  (run lb_log_step (run_balancer events) (n, w, log)).2.2 = log ++ imap (assignment n) (served events).
Proof.
  unfold run_balancer. revert n w log. induction events as [|ev events IH]; intros n w log Hn.
  { simpl. by rewrite app_nil_r. }
  cbn [for_each]. rewrite run_bind. unfold served.
  destruct ev as [svc|]; [|by apply IH]. rewrite omap_cons_eq. cbn [id List.filter].
  destruct (needs_ip svc) eqn:Hnd.
  - destruct (run_service_event svc n w log Hnd) as [w' ->]. rewrite IH by (apply Z.mod_pos_bound; lia).
    rewrite <- app_assoc. f_equal. rewrite imap_cons. cbn [app]. f_equal.
    + unfold assignment, nth_ip. rewrite Z.add_0_r. unfold cast_u8. by rewrite Z.mod_small.
    + apply imap_ext. intros k x _. unfold assignment. simpl. by rewrite nth_ip_step.
  - unfold on_service_event. rewrite Hnd. cbn [negb run]. by rewrite IH.
Qed.

Lemma nth_ip_inj n0 i j :
  (i < j < i + 256)%nat -> nth_ip n0 i <> nth_ip n0 j.
Proof.
  intros Hij Heq. unfold nth_ip in Heq. apply (inj (String.append "10.254.0.")) in Heq.
  apply (inj pretty) in Heq. unfold cast_u8 in Heq.
  assert (Hd : (n0 + Z.of_nat j - (n0 + Z.of_nat i)) mod 2 ^ 8 = 0).
  { rewrite Zminus_mod, Heq, Z.sub_diag. done. }
  replace (n0 + Z.of_nat j - (n0 + Z.of_nat i)) with (Z.of_nat (j - i)) in Hd by lia.
  rewrite Z.mod_small in Hd; lia.
Qed.

(** C31: the addresses handed out.  Each service event that needs an address
    gets the next one, in the order of the events and whatever the API server
    answers, starting at 10.254.0.1; any 256 consecutive assignments are
    distinct; the 256th is the network address 10.254.0.0, and the 257th
    repeats the first, because the counter is a [u8]. *)
Theorem balancer_assignments events (w : W) :
  (run lb_log_step (run_balancer events) (1, w, [])).2.2 = imap (assignment 1) (served events) /\
  (forall i j, (i < j < i + 256)%nat -> nth_ip 1 i <> nth_ip 1 j) /\
  nth_ip 1 0 = "10.254.0.1" /\ nth_ip 1 255 = "10.254.0.0" /\
  forall i, nth_ip 1 (i + 256) = nth_ip 1 i.
Proof.
  split_and!.
  - by rewrite run_balancer_log.
  - intros i j. apply nth_ip_inj.
  - done.
  - done.
  - intros i. unfold nth_ip, cast_u8. do 2 f_equal. rewrite Nat2Z.inj_add.
    replace (1 + (Z.of_nat i + Z.of_nat 256)) with (1 + Z.of_nat i + 1 * 2 ^ 8) by lia. by rewrite Z_mod_plus_full.
Qed.
End Run.
