(* ===== verification/JobSet.v ===== *)
(** * [jobset.rs]: the jobs of a job set, and its status *)

From S2P Require Import Prelude RustStr Json Prog Kube Util Controller.
Open Scope list_scope.
Open Scope Z_scope.

(** [serde_json::from_value] at the types of [k8s-openapi]; [None] on error. *)
Class BatchDecode : Type := {
  job_spec_from_value : Value -> option JobSpec;
  pod_template_from_value : Value -> option PodTemplateSpec
}.

(** The three [u32] counters of a reconciliation. *)
Record Counts : Type := { total_jobs : Z; succeeded_jobs : Z; failed_jobs : Z }.
Definition zero_counts : Counts := {| total_jobs := 0; succeeded_jobs := 0; failed_jobs := 0 |}.

Definition count_total (c : Counts) : Counts :=
  {| total_jobs := cast_u32 (total_jobs c + 1); succeeded_jobs := succeeded_jobs c; failed_jobs := failed_jobs c |}.
Definition count_succeeded (c : Counts) : Counts :=
  {| total_jobs := total_jobs c; succeeded_jobs := cast_u32 (succeeded_jobs c + 1); failed_jobs := failed_jobs c |}.
Definition count_failed (c : Counts) : Counts :=
  {| total_jobs := total_jobs c; succeeded_jobs := succeeded_jobs c; failed_jobs := cast_u32 (failed_jobs c + 1) |}.

(** What an existing job adds to the counters. *)
Definition job_succeeded (j : Job) : bool := 0 <? default 0 (job_status j ≫= jst_succeeded).
Definition job_failed (j : Job) : bool := 0 <? default 0 (job_status j ≫= jst_failed).

Definition count_existing (j : Job) (c : Counts) : Counts :=
  if job_succeeded j then count_succeeded c else if job_failed j then count_failed c else c.

Definition terminal_state (js : DynamicObject) : option string :=
  (get "status" (data js) ≫= get "terminalState") ≫= as_str.
Definition suspended (js : DynamicObject) : bool :=
  default false ((get "spec" (data js) ≫= get "suspend") ≫= as_bool).
Definition replicated_jobs (js : DynamicObject) : option (list Value) :=
  (get "spec" (data js) ≫= get "replicatedJobs") ≫= as_array.

(** Name and number of replicas of an entry; the number is cut to 32 bits. *)
Definition rj_name (rj : Value) : string := default "worker" (get_str "name" rj).
Definition rj_replicas (rj : Value) : Z := cast_u32 (default 1 (get "replicas" rj ≫= as_u64)).

(** [0..replicas] *)
Definition indices (replicas : Z) : list Z := Z.of_nat <$> seq 0 (Z.to_nat replicas).

Definition job_name (name rj : string) (idx : Z) : string :=
  name +:+ "-" +:+ rj +:+ "-" +:+ pretty idx.

Section Jobs.
Context `{BD : !BatchDecode}.

Definition job_template (rj : Value) : option JobSpec :=
  (get "template" rj ≫= get "spec") ≫= job_spec_from_value.
Definition pod_template (rj : Value) : option PodTemplateSpec :=
  ((get "template" rj ≫= get "spec") ≫= get "template") ≫= pod_template_from_value.

Definition child_spec (rj : Value) : JobSpec :=
  match job_template rj with
  | Some jt =>
      match pt_spec (js_template jt), pod_template rj with
      | None, Some pt => {| js_template := pt; js_rest := js_rest jt |}
      | _, _ => jt
      end
  | None => {| js_template := default default_pod_template (pod_template rj); js_rest := [] |}
  end.

Definition child_job (name ns uid : string) (rj : Value) (idx : Z) : Job := {|
  job_metadata := {|
    om_name := Some (job_name name (rj_name rj) idx);
    om_generate_name := None;
    om_namespace := Some ns;
    om_labels := Some (list_to_map
      [ ("jobset.x-k8s.io/jobset-name", name);
        ("jobset.x-k8s.io/replicatedjob-name", rj_name rj);
        ("jobset.x-k8s.io/job-index", pretty idx) ]);
    om_annotations := None;
    om_uid := None;
    om_generation := None;
    om_owner_references := Some
      [ {| or_api_version := "jobset.x-k8s.io/v1alpha2"; or_kind := "JobSet"; or_name := name;
           or_uid := uid; or_controller := Some true; or_block_owner_deletion := Some true |} ] |};
  job_spec := Some (child_spec rj);
  job_status := None |}.

(** The body of the inner loop. *)
Definition visit_job (name ns uid : string) (rj : Value) (idx : Z) (c : Counts) : prog ctrlE (KRes Counts) :=
  let c := count_total c in
  existing ⟵? trigger (KGetOpt KJob (Namespaced ns) (job_name name (rj_name rj) idx));
  match existing with
  | Some existing => Ret (Ok (count_existing existing c))
  | None =>
      r ⟵ trigger (KCreate KJob (Namespaced ns) (child_job name ns uid rj idx : Obj KJob));
      match r with
      | Ok _ => Ret (Ok c)
      | Err (ApiError code) => if code =? 409 then Ret (Ok c) else Ret (Err (ApiError code))
      | Err e => Ret (Err e)
      end
  end.

(** The body of the outer loop. *)
Definition visit_replicated (name ns uid : string) (rj : Value) (c : Counts) : prog ctrlE (KRes Counts) :=
  try_fold (visit_job name ns uid rj) (indices (rj_replicas rj)) c.

Definition condition (type reason now message : string) : Value :=
  VArray [ jobj [ "type" =: VString type; "status" =: VString "True"; "lastTransitionTime" =: VString now;
                  "reason" =: VString reason; "message" =: VString message ] ].

Definition terminal_status (state now : string) (c : Counts) : Value :=
  jobj [ "terminalState" =: VString state;
         "conditions" =: condition state state now
           (pretty (succeeded_jobs c) +:+ "/" +:+ pretty (total_jobs c) +:+ " jobs succeeded") ].
Definition running_status (now : string) (c : Counts) : Value :=
  jobj [ "conditions" =: condition "Running" "JobsRunning" now
           (pretty (succeeded_jobs c) +:+ "/" +:+ pretty (total_jobs c) +:+ " jobs completed") ].

Definition patch_jobset (ns name : string) (st : Value) : prog ctrlE (KRes DynamicObject) :=
  trigger (KPatchStatus (KDynamic jobset_ar) (Namespaced ns) name (Some "ocp-sim")
             (Merge (jobj [ "status" =: st ]))).

(** All jobs are accounted for, and there are some. *)
Definition all_finished (c : Counts) : bool :=
  (cast_u32 (succeeded_jobs c + failed_jobs c) =? total_jobs c) && (0 <? total_jobs c).

Definition reconcile_jobset (js : DynamicObject) : prog ctrlE (KRes Action) :=
  let name := name_any js in
  let ns := default "default" (namespace js) in
  if suspended js then Ret (Ok AwaitChange)
  else match terminal_state js with
  | Some _ => Ret (Ok AwaitChange)
  | None =>
  match replicated_jobs js with
  | None => Ret (Ok AwaitChange)
  | Some rjs =>
      let uid := default "" (om_uid (dyn_metadata js)) in
      c ⟵? try_fold (visit_replicated name ns uid) rjs zero_counts;
      if all_finished c then
        now ⟵ trigger UtcNowRfc3339;
        let state := if 0 <? failed_jobs c then "Failed" else "Completed" in
        _ ⟵? patch_jobset ns name (terminal_status state now c);
        Ret (Ok AwaitChange)
      else
        r ⟵ (if 0 <? total_jobs c then
               now ⟵ trigger UtcNowRfc3339;
               _ ⟵? patch_jobset ns name (running_status now c);
               Ret (Ok tt)
             else Ret (Ok tt));
        match r with
        | Ok _ => Ret (Ok (Requeue 5))
        | Err e => Ret (Err e)
        end
  end end.

Definition error_policy (_ : DynamicObject) (_ : KubeError) : Action := Requeue 10.

Definition jobset_run : Controller ctrlE DynamicObject KubeError :=
  {| ctl_reconcile := reconcile_jobset; ctl_error_policy := error_policy |}.
End Jobs.

(** ** What the theorems rely on: jobs, without other writers

    A read answers with the stored job.  A creation that succeeds stores a job
    under the name sent, whatever the server has filled in, that has neither
    succeeded nor failed yet and leaves the other jobs alone; a conflict means
    the job is there; of a creation that fails otherwise nothing is known.
    Jobs and dynamic objects do not disturb each other. *)
Class JobLaw (W : Type) `{!KubeServer W} `{!MergeStatusLaw W} : Type := {
  job_at : W -> string -> string -> option Job;
  job_get_opt w ns name o w' :
    kube_step (KGetOpt KJob (Namespaced ns) name) w = (Ok o, w') ->
    o = job_at w ns name /\ (forall ns' n, job_at w' ns' n = job_at w ns' n);
  job_create w ns (o o1 : Job) w' :
    job_status o = None ->
    kube_step (KCreate KJob (Namespaced ns) o) w = (Ok o1, w') ->
    (forall ns' n, (ns', n) <> (ns, name_any o) -> job_at w' ns' n = job_at w ns' n) /\
    exists o', job_at w' ns (name_any o) = Some o' /\ job_succeeded o' = false /\ job_failed o' = false;
  job_conflict w ns (o : Job) w' :
    kube_step (KCreate KJob (Namespaced ns) o) w = (Err (ApiError 409), w') ->
    is_Some (job_at w ns (name_any o));
  job_status_frame w ar sc name pp p r w' ns n :
    kube_step (KPatchStatus (KDynamic ar) sc name pp p) w = (r, w') -> job_at w' ns n = job_at w ns n;
  job_now_frame w ns n : job_at (utc_now w).2 ns n = job_at w ns n;
  dyn_get_job_frame w ns name r w' ar sc n :
    kube_step (KGetOpt KJob (Namespaced ns) name) w = (r, w') -> dyn_lookup w' ar sc n = dyn_lookup w ar sc n;
  dyn_create_job_frame w ns (o : Job) r w' ar sc n :
    kube_step (KCreate KJob (Namespaced ns) o) w = (r, w') -> dyn_lookup w' ar sc n = dyn_lookup w ar sc n
}.
Arguments JobLaw W {_ _}.

#[global] Instance mem_job_law : JobLaw MemWorld.
Proof.
  refine {| job_at := fun w ns name => mem_jobs w !! (ns, name) |}; simpl.
  - intros w ns name o w' [= <- <-]. done.
  - intros w ns o o1 w' Hs. destruct (mem_jobs w !! (ns, name_any o)) eqn:Ho; [done|]. intros [= <- <-].
    cbn. split; [intros ns' n Hne; by rewrite lookup_insert_ne|].
    exists o. rewrite lookup_insert_eq. unfold job_succeeded, job_failed. by rewrite Hs.
  - intros w ns o w'. destruct (mem_jobs w !! (ns, name_any o)) eqn:Ho; [|done]. intros _. by eexists.
  - intros w ar sc name pp p r w' ns n. unfold mem_patch.
    destruct (mem_apply _ _ _); by intros [= <- <-].
  - done.
  - intros w ns name r w' ar sc n [= <- <-]. done.
  - intros w ns o r w' ar sc n. by destruct (mem_jobs w !! (ns, name_any o)); intros [= <- <-].
Defined.

(** ** Proofs *)

(** Invariants of [try_fold]. *)
Lemma run_try_fold {E Er A S St} (h : forall X, E X -> St -> X * St) (body : A -> S -> prog E (result Er S))
    (P : list A -> S -> St -> Prop) l d s w s' w' :
  P d s w ->
  (forall d x s w s' w', P d s w -> run h (body x s) w = (Ok s', w') -> P (d ++ [x]) s' w') ->
  run h (try_fold body l s) w = (Ok s', w') -> P (d ++ l) s' w'.
Proof.
  intros H0 Hb. revert d s w H0. induction l as [|x l IH]; intros d s w H0; simpl.
  - intros [= <- <-]. by rewrite app_nil_r.
  - rewrite run_try_bind. destruct (run h (body x s) w) as [[s1|e] w1] eqn:Hx; [|done].
    intros Hr. replace (d ++ x :: l) with ((d ++ [x]) ++ l) by by rewrite <- app_assoc.
    eapply IH; [|exact Hr]. by eapply Hb.
Qed.

Lemma cast_u32_succ n : cast_u32 (cast_u32 n + 1) = cast_u32 (n + 1).
Proof. unfold cast_u32. by rewrite Zplus_mod_idemp_l. Qed.

Section Proofs.
Context `{BD : !BatchDecode} {W : Type} `{!KubeServer W} `{!MergeStatusLaw W} `{!JobLaw W}.
Context (name ns uid : string).

(** The children of a list of entries, in the order of the loops. *)
Definition children (rjs : list Value) : list (Value * Z) :=
  rjs ≫= (fun rj => (fun idx => (rj, idx)) <$> indices (rj_replicas rj)).

Definition child_name (p : Value * Z) : string := job_name name (rj_name p.1) p.2.

(** The verdict on a child in a given world. *)
Definition succeeded_in (w : W) (p : Value * Z) : bool :=
  match job_at w ns (child_name p) with Some j => job_succeeded j | None => false end.
Definition failed_in (w : W) (p : Value * Z) : bool :=
  match job_at w ns (child_name p) with Some j => negb (job_succeeded j) && job_failed j | None => false end.

Definition number (f : Value * Z -> bool) (l : list (Value * Z)) : Z := Z.of_nat (length (List.filter f l)).

(** After visiting [done] from world [w0]. *)
Record visited (w0 : W) (done : list (Value * Z)) (c : Counts) (w : W) : Prop := {
  vi_total : total_jobs c = cast_u32 (Z.of_nat (length done));
  vi_succeeded : succeeded_jobs c = cast_u32 (number (succeeded_in w0) done);
  vi_failed : failed_jobs c = cast_u32 (number (failed_in w0) done);
  vi_exist : Forall (fun p => is_Some (job_at w ns (child_name p))) done;
  vi_old : forall ns' n j, job_at w0 ns' n = Some j -> job_at w ns' n = Some j;
  vi_new : forall n j, job_at w0 ns n = None -> job_at w ns n = Some j ->
             job_succeeded j = false /\ job_failed j = false;
  vi_dyn : forall ar sc n, dyn_lookup w ar sc n = dyn_lookup w0 ar sc n
}.

Lemma number_snoc f l p : number f (l ++ [p]) = number f l + (if f p then 1 else 0).
Proof.
  unfold number. rewrite List.filter_app, length_app. simpl. destruct (f p); simpl; lia.
Qed.

Lemma count_existing_spec w0 done c w p j :
  visited w0 done c w -> job_at w ns (child_name p) = Some j ->
  let c' := count_existing j (count_total c) in
  total_jobs c' = cast_u32 (Z.of_nat (length (done ++ [p]))) /\
  succeeded_jobs c' = cast_u32 (number (succeeded_in w0) (done ++ [p])) /\
  failed_jobs c' = cast_u32 (number (failed_in w0) (done ++ [p])).
Proof.
  intros [Ht Hs Hf _ Hold Hnew _] Hj. cbv zeta. rewrite !number_snoc, length_app, Nat2Z.inj_add.
  assert (Hv : succeeded_in w0 p = job_succeeded j /\ failed_in w0 p = negb (job_succeeded j) && job_failed j).
  { unfold succeeded_in, failed_in. destruct (job_at w0 ns (child_name p)) as [j0|] eqn:H0.
    - apply Hold in H0. by assert (j0 = j) as -> by congruence.
    - by destruct (Hnew _ _ H0 Hj) as [-> ->]. }
  destruct Hv as [-> ->]. unfold count_existing. destruct (job_succeeded j), (job_failed j);
    simpl; rewrite ?Z.add_0_r, ?Ht, ?Hs, ?Hf, ?cast_u32_succ; done.
Qed.

Lemma created_spec w0 done c w p :
  visited w0 done c w -> job_at w ns (child_name p) = None ->
  let c' := count_total c in
  total_jobs c' = cast_u32 (Z.of_nat (length (done ++ [p]))) /\
  succeeded_jobs c' = cast_u32 (number (succeeded_in w0) (done ++ [p])) /\
  failed_jobs c' = cast_u32 (number (failed_in w0) (done ++ [p])).
Proof.
  intros [Ht Hs Hf _ Hold _ _] Hj. cbv zeta. rewrite !number_snoc, length_app, Nat2Z.inj_add.
  assert (H0 : job_at w0 ns (child_name p) = None).
  { destruct (job_at w0 ns (child_name p)) as [j|] eqn:Hx; [|done]. apply Hold in Hx. congruence. }
  unfold succeeded_in, failed_in. rewrite H0, !Z.add_0_r. simpl. by rewrite Ht, cast_u32_succ.
Qed.

Lemma visit_job_visited w0 done c w rj idx c' w' :
  visited w0 done c w ->
  run_ctrl (visit_job name ns uid rj idx c) w = (Ok c', w') ->
  visited w0 (done ++ [(rj, idx)]) c' w'.
Proof.
  intros Hv. pose proof Hv as [_ _ _ Hex Hold Hnew Hdyn].
  unfold run_ctrl, visit_job. rewrite run_try_bind. cbv zeta. prog_unfold. cbn [run ctrl_step].
  destruct_kube w as [[o|e0] w1] eqn:Hg; [|done].
  pose proof (fun ar sc n => dyn_get_job_frame _ _ _ _ _ ar sc n Hg) as Hd1.
  apply job_get_opt in Hg as [-> Hsame].
  change (job_name name (rj_name rj) idx) with (child_name (rj, idx)).
  destruct (job_at w ns (child_name (rj, idx))) as [j|] eqn:Hj; simpl.
  { intros [= <- <-]. destruct (count_existing_spec _ _ _ _ _ _ Hv Hj) as (H1 & H2 & H3).
    split; [done..| | | |].
    - apply Forall_app. split; [|repeat constructor; rewrite Hsame, Hj; eauto].
      eapply Forall_impl; [|exact Hex]. intros p. by rewrite Hsame.
    - intros ns' n j'. rewrite Hsame. apply Hold.
    - intros n j'. rewrite Hsame. apply Hnew.
    - intros ar sc n. by rewrite Hd1. }
  destruct (created_spec _ _ _ _ _ Hv Hj) as (H1 & H2 & H3).
  set (cj := child_job name ns uid rj idx).
  destruct_kube w1 as [r w2] eqn:Hc.
  pose proof (fun ar sc n => dyn_create_job_frame _ _ _ _ _ ar sc n Hc) as Hd2.
  assert (Hjn : name_any cj = child_name (rj, idx)) by done.
  destruct r as [o'|[code|]]; cbn [run]; [|destruct (Z.eqb_spec code 409) as [->|]; cbn [run]|].
  - intros [= <- <-]. apply job_create in Hc as (Hoth & o2 & Ho2 & Hsu & Hfa); [|done]. rewrite Hjn in *.
    assert (Hother : forall ns' n, (ns', n) <> (ns, child_name (rj, idx)) -> job_at w2 ns' n = job_at w ns' n).
    { intros ns' n Hn. by rewrite Hoth. }
    assert (Hkeep : forall ns' n j', job_at w ns' n = Some j' -> job_at w2 ns' n = Some j').
    { intros ns' n j' Hw. rewrite Hother; [done|]. intros [= -> ->]. congruence. }
    split; [done..| | | |].
    + apply Forall_app. split; [|repeat constructor; by exists o2].
      eapply Forall_impl; [|exact Hex]. intros p [j' Hp]. eauto.
    + eauto.
    + intros n j' H0 Hw2. destruct (decide (n = child_name (rj, idx))) as [->|Hne].
      * by assert (j' = o2) as -> by congruence.
      * rewrite Hother in Hw2 by congruence. eauto.
    + intros ar sc n. by rewrite Hd2, Hd1.
  - apply job_conflict in Hc as [j' Hj']. rewrite Hjn, Hsame in Hj'. congruence.
  - done.
  - done.
Qed.

Lemma visit_all_visited w rjs c' w' :
  run_ctrl (try_fold (visit_replicated name ns uid) rjs zero_counts) w = (Ok c', w') ->
  visited w (children rjs) c' w'.
Proof.
  intros Hr. unfold run_ctrl in Hr.
  eapply (run_try_fold _ _ (fun l c w1 => visited w (children l) c w1) rjs []) in Hr; [exact Hr| |].
  - split; [done..|constructor|done| |done]. intros n j Hn. congruence.
  - intros d rj c w1 c1 w2 Hv Hrun. unfold visit_replicated in Hrun.
    unfold children. rewrite bind_app. simpl. rewrite app_nil_r.
    assert (Hin : visited w (children d ++ ((fun idx => (rj, idx)) <$> ([] ++ indices (rj_replicas rj)))) c1 w2).
    { eapply (run_try_fold _ _ (fun l c w1 => visited w (children d ++ ((fun idx => (rj, idx)) <$> l)) c w1) _ []) in Hrun;
        [exact Hrun| |].
      - simpl. by rewrite app_nil_r.
      - intros d2 idx c2 w3 c3 w4 Hv2 Hr2. rewrite fmap_app, app_assoc. by eapply visit_job_visited. }
    exact Hin.
Qed.
End Proofs.

Section Verdict.
Context `{BD : !BatchDecode} {W : Type} `{!KubeServer W} `{!MergeStatusLaw W} `{!JobLaw W}.

Definition finished_in (name ns : string) (w : W) (p : Value * Z) : bool :=
  succeeded_in name ns w p || failed_in name ns w p.

Lemma number_le f l : 0 <= number f l <= Z.of_nat (length l).
Proof. unfold number. pose proof (List.filter_length_le f l). lia. Qed.

Lemma number_finished name ns w l :
  number (succeeded_in name ns w) l + number (failed_in name ns w) l = number (finished_in name ns w) l.
Proof.
  unfold number, finished_in. induction l as [|p l IH]; [done|]. simpl.
  unfold succeeded_in, failed_in in *. destruct (job_at w ns (child_name name p)) as [j|]; simpl; [|done].
  destruct (job_succeeded j), (job_failed j); simpl; lia.
Qed.

Lemma number_all f l : number f l = Z.of_nat (length l) <-> forall p, In p l -> f p = true.
Proof.
  unfold number. induction l as [|p l IH]; [done|]. simpl.
  pose proof (List.filter_length_le f l). destruct (f p) eqn:Hp; simpl.
  - rewrite !Nat2Z.inj_succ, Z.succ_inj_wd, IH. naive_solver.
  - split; [lia|]. intros Hall. specialize (Hall p (or_introl eq_refl)). congruence.
Qed.

Lemma number_pos f l : 0 <? number f l = existsb f l.
Proof.
  unfold number. induction l as [|p l IH]; [done|]. simpl. destruct (f p); simpl; [|done].
  apply Z.ltb_lt. lia.
Qed.

(** The counters decide, as long as they do not wrap. *)
Lemma visited_verdict name ns w0 l c w :
  visited name ns w0 l c w -> Z.of_nat (length l) < 2 ^ 32 ->
  (all_finished c = true <-> l <> [] /\ forall p, In p l -> finished_in name ns w0 p = true) /\
  (0 <? failed_jobs c) = existsb (failed_in name ns w0) l.
Proof.
  intros [Ht Hs Hf _ _ _ _] Hlen. unfold all_finished. rewrite Ht, Hs, Hf.
  pose proof (number_le (succeeded_in name ns w0) l). pose proof (number_le (failed_in name ns w0) l).
  pose proof (number_le (finished_in name ns w0) l). pose proof (number_finished name ns w0 l).
  rewrite !(cast_u32_id (number _ l)), (cast_u32_id (Z.of_nat _)) by lia.
  rewrite cast_u32_id by lia. split; [|apply number_pos].
  rewrite andb_true_iff, Z.eqb_eq, Z.ltb_lt, <- number_all, number_finished. destruct l; simpl; [naive_solver lia|].
  split; [intros []; split; [done|lia]|intros []; lia].
Qed.

Lemma terminal_merged meta d st now c :
  terminal_state (Dyn meta (merge_patch (jobj [ "status" =: terminal_status st now c ]) d)) = Some st.
Proof.
  unfold terminal_state. cbn [data]. unfold jobj at 1. rewrite get_merge_single by done. cbn [mbind option_bind].
  unfold terminal_status, jobj at 1. simpl. rewrite assoc_insert_ne by done. by rewrite assoc_insert_eq.
Qed.

Lemma terminal_running meta d now c :
  terminal_state (Dyn meta (merge_patch (jobj [ "status" =: running_status now c ]) d)) = terminal_state (Dyn meta d).
Proof.
  unfold terminal_state. cbn [data]. unfold jobj at 1. rewrite get_merge_single by done. cbn [mbind option_bind].
  unfold running_status, jobj at 1. rewrite get_merge_single_ne by done. unfold index.
  by destruct (get "status" d).
Qed.

Abbreviation ns_of js := (default "default" (namespace js)).

(** The object as the API server has it. *)
Definition jobset_stored (w : W) (js : DynamicObject) : Prop :=
  dyn_lookup w jobset_ar (Namespaced (ns_of js)) (name_any js) = Some js.

Lemma reconcile_jobset_idle js (w : W) :
  suspended js = true \/ terminal_state js <> None \/ replicated_jobs js = None ->
  run_ctrl (reconcile_jobset js) w = (Ok AwaitChange, w).
Proof.
  intros Hidle. unfold reconcile_jobset. destruct (suspended js); [done|].
  destruct (terminal_state js); [done|]. destruct (replicated_jobs js); [|done]. naive_solver.
Qed.

(** A status patch of the job set, with the clock read before it. *)
Lemma run_patch_jobset js st (w : W) (k : prog ctrlE (KRes Action)) a w' :
  jobset_stored w js ->
  run_ctrl (prog_bind (trigger UtcNowRfc3339) (fun now =>
    try_bind (patch_jobset (ns_of js) (name_any js) (st now)) (fun _ => k))) w = (Ok a, w') ->
  exists now w1, run_ctrl k w1 = (Ok a, w') /\
    (forall ns n, job_at w1 ns n = job_at w ns n) /\
    dyn_lookup w1 jobset_ar (Namespaced (ns_of js)) (name_any js) =
      Some (Dyn (dyn_metadata js) (merge_patch (jobj [ "status" =: st now ]) (data js))).
Proof.
  unfold run_ctrl. intros Hst. rewrite run_bind. unfold trigger at 1, inject at 1, inject_r at 1, inject at 1, inject_refl at 1.
  cbn [run ctrl_step]. pose proof (dyn_lookup_now w) as Hd. pose proof (job_now_frame w) as Hj.
  destruct (utc_now w) as [now w0]. cbn [fst snd] in *. rewrite run_try_bind.
  unfold patch_jobset. prog_unfold. cbn [run ctrl_step].
  destruct_kube w0 as [[o|e] w1] eqn:Hp; [|done]. intros Hk. exists now, w1. split; [exact Hk|]. split.
  - intros ns n. rewrite <- Hj. by eapply job_status_frame.
  - eapply dyn_patch_status; [|exact Hp]. rewrite Hd. exact Hst.
Qed.

(** The job set is still open, with the same specification. *)
Definition still_open (w' : W) (js : DynamicObject) : Prop :=
  exists js', jobset_stored w' js' /\ terminal_state js' = None /\ get "spec" (data js') = get "spec" (data js) /\
    name_any js' = name_any js /\ namespace js' = namespace js.

(** The end of a reconciliation that leaves the set open. *)
Lemma run_leave_open js c (w w' : W) a :
  jobset_stored w js -> terminal_state js = None ->
  run_ctrl (r ⟵ (if 0 <? total_jobs c then
                   now ⟵ trigger UtcNowRfc3339;
                   _ ⟵? patch_jobset (ns_of js) (name_any js) (running_status now c);
                   Ret (Ok tt)
                 else Ret (Ok tt));
            match r with Ok _ => Ret (Ok (Requeue 5)) | Err e => Ret (Err e) end) w = (Ok a, w') ->
  a = Requeue 5 /\ (forall ns n, job_at w' ns n = job_at w ns n) /\ still_open w' js.
Proof.
  intros Hst Ht. destruct (0 <? total_jobs c).
  - intros Hr. assert (Hr' : run_ctrl (now ⟵ trigger UtcNowRfc3339;
      _ ⟵? patch_jobset (ns_of js) (name_any js) (running_status now c); Ret (Ok (Requeue 5))) w = (Ok a, w')).
    { rewrite <- Hr. unfold run_ctrl, patch_jobset. prog_unfold. cbn. destruct (utc_now w) as [now w1].
      by destruct (kube_step _ w1) as [[] ?]. }
    apply (run_patch_jobset js (fun now => running_status now c)) in Hr' as (now & w1 & Hk & Hj & Hl); [|done].
    injection Hk as <- <-. split_and!; [done|done|].
    exists (Dyn (dyn_metadata js) (merge_patch (jobj [ "status" =: running_status now c ]) (data js))).
    split; [exact Hl|].
    rewrite terminal_running. split_and!; [by destruct js| |done|done]. cbn [data].
    unfold jobj at 1. by rewrite get_merge_single_ne.
  - intros [= <- <-]. split_and!; [done|done|]. exists js. auto.
Qed.

(** C19: one reconciliation of a running job set.  When it succeeds, every
    child job exists and no job that was there has changed.  If there are
    children and each of them had finished, the job set is closed, as "Failed"
    if one of them had failed and as "Completed" otherwise, and then nothing
    more is ever sent for it.  In all other cases the stored job set stays
    open, with its specification, and the controller comes back after five
    seconds. *)
Theorem jobset_reconciled js rjs (w w' : W) a :
  suspended js = false -> terminal_state js = None -> replicated_jobs js = Some rjs ->
  jobset_stored w js -> Z.of_nat (length (children rjs)) < 2 ^ 32 ->
  run_ctrl (reconcile_jobset js) w = (Ok a, w') ->
  let kids := children rjs in
  let all_done := kids <> [] /\ forall p, In p kids -> finished_in (name_any js) (ns_of js) w p = true in
  Forall (fun p => is_Some (job_at w' (ns_of js) (child_name (name_any js) p))) kids /\
  (forall ns n j, job_at w ns n = Some j -> job_at w' ns n = Some j) /\
  (all_done ->
     a = AwaitChange /\ exists js', jobset_stored w' js' /\
       terminal_state js' =
         Some (if existsb (failed_in (name_any js) (ns_of js) w) kids then "Failed" else "Completed") /\
       run_ctrl (reconcile_jobset js') w' = (Ok AwaitChange, w')) /\
  (~ all_done -> a = Requeue 5 /\ still_open w' js).
Proof.
  intros Hsus Hterm Hrj Hst Hlen Hrun. cbv zeta.
  unfold run_ctrl, reconcile_jobset in Hrun. rewrite Hsus, Hterm, Hrj in Hrun. cbv zeta in Hrun.
  rewrite run_try_bind in Hrun.
  destruct (run ctrl_step (try_fold _ _ _) w) as [[c|e] w1] eqn:Hfold; [|done].
  apply visit_all_visited in Hfold as Hv.
  destruct (visited_verdict _ _ _ _ _ _ Hv Hlen) as [Hfin Hfail].
  destruct Hv as [_ _ _ Hex Hold _ Hdyn].
  assert (Hst1 : jobset_stored w1 js) by (unfold jobset_stored; by rewrite Hdyn).
  destruct (all_finished c) eqn:Hall.
  - apply (run_patch_jobset js (fun now => terminal_status (if 0 <? failed_jobs c then "Failed" else "Completed") now c))
      in Hrun as (now & w2 & Hk & Hj & Hl); [|done].
    injection Hk as <- <-. split; [eapply Forall_impl; [|exact Hex]; intros p; by rewrite Hj|].
    split; [intros; rewrite Hj; eauto|]. split; [|tauto]. intros _. split; [done|].
    exists (Dyn (dyn_metadata js) (merge_patch (jobj [ "status" =:
      terminal_status (if 0 <? failed_jobs c then "Failed" else "Completed") now c ]) (data js))).
    split; [exact Hl|]. rewrite terminal_merged, <- Hfail. split; [done|].
    apply reconcile_jobset_idle. rewrite terminal_merged. auto.
  - apply (run_leave_open js c w1) in Hrun as (-> & Hj & Hopen); [|done..].
    split; [eapply Forall_impl; [|exact Hex]; intros p; by rewrite Hj|].
    split; [intros; rewrite Hj; eauto|]. split; [|done]. intros Hx. apply Hfin in Hx. done.
Qed.
End Verdict.

(** ** Witness *)

Section Witnesses.
#[local] Instance sample_decode : BatchDecode :=
  {| job_spec_from_value := fun _ => None; pod_template_from_value := fun _ => None |}.

Definition sample_jobset : DynamicObject :=
  Dyn (named "train" (Some "demo"))
    (jobj [ "spec" =: jobj [ "replicatedJobs" =: VArray [ jobj [ "name" =: VString "w"; "replicas" =: jint 2 ] ] ] ]).
Definition done_job (n : string) (st : JobStatus) : Job :=
  {| job_metadata := named n (Some "demo"); job_spec := None; job_status := Some st |}.
Definition jobset_mem : MemWorld :=
  Mem {[ dyn_key jobset_ar (Namespaced "demo") "train" := sample_jobset ]}
    (list_to_map [ (("demo", "train-w-0"), done_job "train-w-0" {| jst_succeeded := Some 1; jst_failed := None |});
                   (("demo", "train-w-1"), done_job "train-w-1" {| jst_succeeded := None; jst_failed := Some 1 |}) ])
    ∅ [] ∅ ∅ "now".

Example jobset_reconciled_witness :
  exists js', jobset_stored (run_ctrl (reconcile_jobset sample_jobset) jobset_mem).2 js' /\
    terminal_state js' = Some "Failed".
Proof.
  destruct (jobset_reconciled sample_jobset [ jobj [ "name" =: VString "w"; "replicas" =: jint 2 ] ] jobset_mem
    (run_ctrl (reconcile_jobset sample_jobset) jobset_mem).2 AwaitChange) as (_ & _ & H & _).
  1-3: reflexivity.
  - vm_compute. reflexivity.
  - vm_compute. reflexivity.
  - apply pair_eta. vm_compute. reflexivity.
  - destruct H as (_ & js' & H1 & H2 & _).
    { split; [discriminate|]. intros p [<-|[<-|[]]]; vm_compute; reflexivity. }
    exists js'. split; [exact H1|]. rewrite H2. vm_compute. reflexivity.
Defined.
End Witnesses.
