(* ===== verification/Tls.v ===== *)
(** * Certificates: [CaState] of [main.rs], [sign_cert] and [sign_tls_config] of [util.rs]

    Keys and certificates are made by [rcgen] and read by [rustls]; both crates
    are parameters.  Generating a key pair is an effect. *)

From S2P Require Import Prelude RustStr Prog.
Open Scope list_scope.

Class Rcgen : Type := {
  KeyPair : Type;
  Params : Type;
  Issuer : Type;
  Certificate : Type;
  key_from_pem : string -> option KeyPair;
  (** [CertificateParams::new(sans)] *)
  params_new : list string -> option Params;
  (** [is_ca = IsCa::Ca(BasicConstraints::Unconstrained)] *)
  params_set_ca : Params -> Params;
  params_push_common_name : Params -> string -> Params;
  issuer_from_params : Params -> KeyPair -> Issuer;
  signed_by : Params -> KeyPair -> Issuer -> option Certificate;
  self_signed : Params -> KeyPair -> option Certificate;
  cert_pem : Certificate -> string;
  serialize_pem : KeyPair -> string
}.

Class Rustls : Type := {
  CertDer : Type;
  KeyDer : Type;
  ServerConfig : Type;
  pem_certs : string -> option (list CertDer);
  (** no key in the input is [Some None] *)
  pem_private_key : string -> option (option KeyDer);
  with_single_cert : list CertDer -> KeyDer -> option ServerConfig
}.

Inductive certE `{!Rcgen} : Type -> Type :=
| GenerateKeyPair : certE (option KeyPair).

Record CaState : Type := { ca_cert_pem : string; ca_key_pem : string }.

Section Tls.
Context `{RC : !Rcgen} {E : Type -> Type} `{!Inject certE E}.

Definition ca_common_name : string := "ocp-sim-service-ca".

(** [CaState::generate]; [None] stands for a panic of an [unwrap]. *)
Definition ca_generate : prog E (option CaState) :=
  match params_new [] with
  | None => Ret None
  | Some params =>
      let params := params_push_common_name (params_set_ca params) ca_common_name in
      k ⟵ trigger (E:=certE) GenerateKeyPair;
      Ret (key_pair ← k;
           cert ← self_signed params key_pair;
           Some {| ca_cert_pem := cert_pem cert; ca_key_pem := serialize_pem key_pair |})
  end.

(** The certificate and its key in PEM; [None] on any error. *)
Definition sign_cert (ca : CaState) (sans : list string) : prog E (option (string * string)) :=
  match key_from_pem (ca_key_pem ca) with
  | None => Ret None
  | Some ca_key =>
  match params_new [] with
  | None => Ret None
  | Some ca_params =>
      let ca_params := params_push_common_name (params_set_ca ca_params) ca_common_name in
      let issuer := issuer_from_params ca_params ca_key in
      let cn := default "ocp-sim" (head sans) in
      match params_new sans with
      | None => Ret None
      | Some params =>
          let params := params_push_common_name params cn in
          k ⟵ trigger (E:=certE) GenerateKeyPair;
          Ret (key_pair ← k;
               cert ← signed_by params key_pair issuer;
               Some (cert_pem cert, serialize_pem key_pair))
      end
  end end.

Definition sign_tls_config `{!Rustls} (ca : CaState) (sans : list string) : prog E (option ServerConfig) :=
  r ⟵ sign_cert ca sans;
  Ret ('(cert, key) ← r;
       certs ← pem_certs cert;
       k ← pem_private_key key;
       key ← k;
       with_single_cert certs key).
End Tls.
