(* ===== verification/ServiceCa.v ===== *)
(** * [service_ca.rs]: serving certificates and CA bundles *)

From S2P Require Import Prelude RustStr Json Prog Kube Crates Controller Tls.
Open Scope list_scope.
Open Scope Z_scope.

Definition SERVING_CERT_ANNOTATION : string := "service.beta.openshift.io/serving-cert-secret-name".
Definition INJECT_CABUNDLE_ANNOTATION : string := "service.beta.openshift.io/inject-cabundle".
Definition FINGERPRINT : string := "ocp-sim/ca-fingerprint".

Section ServiceCa.
Context `{RC : !Rcgen} `{B64 : !Base64}.

Abbreviation caE := (certE +' kubeE).

Definition ca_bundle_base64 (ca : CaState) : string := b64_std_encode (ca_cert_pem ca).

(** ** Serving certificates *)

Definition tls_secret (svc : Service) (ns secret_name fingerprint cert key : string) : Secret := {|
  sec_metadata := {|
    om_name := Some secret_name;
    om_generate_name := None;
    om_namespace := Some ns;
    om_labels := None;
    om_annotations := Some {[ FINGERPRINT := fingerprint ]};
    om_uid := None;
    om_generation := None;
    om_owner_references := Some
      [ {| or_api_version := "v1"; or_kind := "Service"; or_name := name_any svc;
           or_uid := default "" (om_uid (svc_metadata svc));
           or_controller := Some true; or_block_owner_deletion := Some true |} ] |};
  sec_type := Some "kubernetes.io/tls";
  sec_data := Some (list_to_map [ ("tls.crt", cert); ("tls.key", key) ]);
  sec_string_data := None |}.

Definition fingerprint_of (s : Secret) : option string :=
  om_annotations (sec_metadata s) ≫= (fun a => a !! FINGERPRINT).

(** From the point where no current secret is left. *)
Definition create_serving_cert (svc : Service) (ca : CaState) (ns secret_name : string) : prog caE (KRes Action) :=
  let cn := name_any svc +:+ "." +:+ ns +:+ ".svc" in
  let fqdn := cn +:+ ".cluster.local" in
  pair ⟵ sign_cert ca [cn; fqdn];
  match pair with
  | None => Ret (Ok (Requeue 30))
  | Some (cert, key) =>
      let secret := tls_secret svc ns secret_name (ca_bundle_base64 ca) cert key in
      _ ⟵? trigger (KCreate KSecret (Namespaced ns) (secret : Obj KSecret));
      Ret (Ok AwaitChange)
  end.

Definition reconcile_service (svc : Service) (ca : CaState) : prog caE (KRes Action) :=
  match om_annotations (svc_metadata svc) ≫= (fun a => a !! SERVING_CERT_ANNOTATION) with
  | None => Ret (Ok AwaitChange)
  | Some secret_name =>
      let ns := default "" (namespace svc) in
      existing ⟵? trigger (KGetOpt KSecret (Namespaced ns) secret_name);
      match existing with
      | Some existing =>
          if bool_decide (fingerprint_of existing = Some (ca_bundle_base64 ca)) then Ret (Ok AwaitChange)
          else
            _ ⟵? trigger (KDelete KSecret (Namespaced ns) secret_name);
            create_serving_cert svc ca ns secret_name
      | None => create_serving_cert svc ca ns secret_name
      end
  end.

Definition error_policy_svc (_ : Service) (_ : KubeError) : Action := Requeue 10.

(** ** Config maps *)

Definition is_true (k : string) (m : option (gmap string string)) : bool :=
  bool_decide ((m ≫= (fun a => a !! k)) = Some "true").

Definition target_key (inject_trusted : bool) : string :=
  if inject_trusted then "odh-ca-bundle.crt" else "service-ca.crt".

Definition reconcile_configmap (cm : ConfigMap) (ca : CaState) : prog caE (KRes Action) :=
  let inject_serving := is_true INJECT_CABUNDLE_ANNOTATION (om_annotations (cm_metadata cm)) in
  let inject_trusted :=
    is_true "config.openshift.io/inject-trusted-cabundle" (om_labels (cm_metadata cm)) in
  if negb inject_serving && negb inject_trusted then Ret (Ok AwaitChange)
  else
    let key := target_key inject_trusted in
    let has_ca_key :=
      match cm_data cm ≫= (fun d => d !! key) with
      | Some v => negb (is_empty (trim v))
      | None => false
      end in
    if has_ca_key then Ret (Ok AwaitChange)
    else
      let ns := default "" (namespace cm) in
      let cm_name := name_any cm in
      _ ⟵? trigger (KPatch KConfigMap (Namespaced ns) cm_name (Some "ocp-sim")
                      (Merge (jobj [ "data" =: jobj [ key =: VString (ca_cert_pem ca) ] ])));
      Ret (Ok AwaitChange).

Definition error_policy_cm (_ : ConfigMap) (_ : KubeError) : Action := Requeue 10.

(** ** Webhook configurations *)

Definition needs_cabundle_injection (annotations : option (gmap string string)) : bool :=
  is_true INJECT_CABUNDLE_ANNOTATION annotations.

(** The bundle the source compares: the first webhook's. *)
Definition existing_bundle (wc : WebhookConfiguration) : option string :=
  (wc_webhooks wc ≫= head) ≫= wh_ca_bundle.

Definition bundle_patch (wc : WebhookConfiguration) (ca_b64 : string) : list Value :=
  imap (fun i _ => jobj [ "op" =: VString "add"; "path" =: VString (bundle_path i); "value" =: VString ca_b64 ])
    (default [] (wc_webhooks wc)).

Definition reconcile_mutating_webhook (mwc : WebhookConfiguration) (ca : CaState) : prog caE (KRes Action) :=
  if negb (needs_cabundle_injection (om_annotations (wc_metadata mwc))) then Ret (Ok AwaitChange)
  else if bool_decide (existing_bundle mwc = Some (ca_cert_pem ca)) then Ret (Ok AwaitChange)
  else
    _ ⟵? trigger (KPatch KMutatingWebhook All (name_any mwc) None
                    (JsonPatch (bundle_patch mwc (ca_bundle_base64 ca))));
    Ret (Ok AwaitChange).

Definition error_policy_mwc (_ : WebhookConfiguration) (_ : KubeError) : Action := Requeue 10.

Definition reconcile_validating_webhook (vwc : WebhookConfiguration) (ca : CaState) : prog caE (KRes Action) :=
  if negb (needs_cabundle_injection (om_annotations (wc_metadata vwc))) then Ret (Ok AwaitChange)
  else if bool_decide (existing_bundle vwc = Some (ca_cert_pem ca)) then Ret (Ok AwaitChange)
  else
    _ ⟵? trigger (KPatch KValidatingWebhook All (name_any vwc) None
                    (JsonPatch (bundle_patch vwc (ca_bundle_base64 ca))));
    Ret (Ok AwaitChange).

Definition error_policy_vwc (_ : WebhookConfiguration) (_ : KubeError) : Action := Requeue 10.

Definition run_service_controller (ca : CaState) : Controller caE Service KubeError :=
  {| ctl_reconcile := fun svc => reconcile_service svc ca; ctl_error_policy := error_policy_svc |}.
Definition run_configmap_controller (ca : CaState) : Controller caE ConfigMap KubeError :=
  {| ctl_reconcile := fun cm => reconcile_configmap cm ca; ctl_error_policy := error_policy_cm |}.
Definition run_mutating_webhook_controller (ca : CaState) : Controller caE WebhookConfiguration KubeError :=
  {| ctl_reconcile := fun mwc => reconcile_mutating_webhook mwc ca; ctl_error_policy := error_policy_mwc |}.
Definition run_validating_webhook_controller (ca : CaState) : Controller caE WebhookConfiguration KubeError :=
  {| ctl_reconcile := fun vwc => reconcile_validating_webhook vwc ca; ctl_error_policy := error_policy_vwc |}.
End ServiceCa.

(** ** Running the controllers *)

Class CaHost `{!Rcgen} (W : Type) : Type := {
  ca_kube :: KubeServer W;
  generate_key_pair : W -> option KeyPair * W
}.

Definition ca_step `{RC : !Rcgen} {W} `{!CaHost W} X (e : (certE +' kubeE) X) : W -> X * W :=
  match e with
  | inlE ce => match ce in certE X return W -> X * W with GenerateKeyPair => generate_key_pair end
  | inrE ke => kube_step ke
  end.

Definition run_ca `{RC : !Rcgen} {W} `{!CaHost W} {A} (p : prog (certE +' kubeE) A) (w : W) : A * W :=
  run ca_step p w.

(** What a creation keeps of the secret it was sent: the type, the data, the
    owners and the annotations.  The server assigns the rest of the metadata,
    and may add annotations. *)
Definition keeps_secret (sent stored : Secret) : Prop :=
  sec_type stored = sec_type sent /\ sec_data stored = sec_data sent /\
  om_owner_references (sec_metadata stored) = om_owner_references (sec_metadata sent) /\
  default ∅ (om_annotations (sec_metadata sent)) ⊆ default ∅ (om_annotations (sec_metadata stored)).

(** Secrets, without other writers: a read answers with the stored secret; a
    creation that succeeds has stored one under the name sent. *)
Class SecretLaw (W : Type) `{!Rcgen} `{!CaHost W} : Type := {
  secret_at : W -> string -> string -> option Secret;
  secret_get_opt w ns name o w' :
    kube_step (KGetOpt KSecret (Namespaced ns) name) w = (Ok o, w') ->
    o = secret_at w ns name /\ forall ns' n, secret_at w' ns' n = secret_at w ns' n;
  secret_create w ns (o : Secret) o' w' :
    kube_step (KCreate KSecret (Namespaced ns) o) w = (Ok o', w') ->
    exists s, secret_at w' ns (name_any o) = Some s /\ keeps_secret o s
}.
Arguments SecretLaw W {_ _}.

(** ** Proofs *)

Section Proofs.
Context `{RC : !Rcgen} `{B64 : !Base64} {W : Type} `{CH : !CaHost W} `{SL : !SecretLaw W}.

(** A serving certificate of the service from this CA, with its key. *)
Definition serving_secret (svc : Service) (ca : CaState) (cert key : string) (s : Secret) : Prop :=
  sec_type s = Some "kubernetes.io/tls" /\
  sec_data s = Some (list_to_map [ ("tls.crt", cert); ("tls.key", key) ]) /\
  fingerprint_of s = Some (ca_bundle_base64 ca) /\
  om_owner_references (sec_metadata s) = Some
    [ {| or_api_version := "v1"; or_kind := "Service"; or_name := name_any svc;
         or_uid := default "" (om_uid (svc_metadata svc));
         or_controller := Some true; or_block_owner_deletion := Some true |} ].

Lemma keeps_serving svc ca ns sn cert key s :
  keeps_secret (tls_secret svc ns sn (ca_bundle_base64 ca) cert key) s -> serving_secret svc ca cert key s.
Proof.
  intros (Ht & Hd & Ho & Ha). split_and!; [exact Ht|exact Hd| |exact Ho].
  unfold fingerprint_of. cbn in Ha. rewrite map_subseteq_spec in Ha.
  specialize (Ha FINGERPRINT _ (lookup_singleton_eq _ _)).
  destruct (om_annotations (sec_metadata s)) as [m|]; [exact Ha|done].
Qed.

(** The names a serving certificate is for. *)
Definition serving_names (svc : Service) (ns : string) : list string :=
  [ name_any svc +:+ "." +:+ ns +:+ ".svc"; (name_any svc +:+ "." +:+ ns +:+ ".svc") +:+ ".cluster.local" ].

Lemma run_create_serving_cert svc ca ns sn (w : W) a w' :
  run_ca (create_serving_cert svc ca ns sn) w = (Ok a, w') ->
  match (run_ca (sign_cert ca (serving_names svc ns)) w).1 with
  | None => a = Requeue 30
  | Some (cert, key) => a = AwaitChange /\
      exists s, secret_at w' ns sn = Some s /\ serving_secret svc ca cert key s
  end.
Proof.
  unfold create_serving_cert, run_ca. cbv zeta. rewrite run_bind. unfold serving_names.
  destruct (run ca_step (sign_cert _ _) w) as [[[cert key]|] w1]; [|by intros [= <- _]].
  rewrite run_try_bind. prog_unfold. cbn [run ca_step fst].
  destruct_kube w1 as [[o|e] w2] eqn:Hc; [|done]. intros [= <- <-]. split; [done|].
  apply secret_create in Hc as (s & Hs & Hk). exists s. split; [exact Hs|]. by apply keeps_serving in Hk.
Qed.

(** The state in which a reconciliation signs: after the secret was asked for
    and, if there was one, deleted. *)
Definition before_signing (w : W) (ns sn : string) : W :=
  let w1 := (kube_step (KGetOpt KSecret (Namespaced ns) sn) w).2 in
  match secret_at w ns sn with
  | Some _ => (kube_step (KDelete KSecret (Namespaced ns) sn) w1).2
  | None => w1
  end.

Lemma reconcile_current svc ca sn s (w w' : W) r :
  (om_annotations (svc_metadata svc) ≫= (fun m => m !! SERVING_CERT_ANNOTATION)) = Some sn ->
  secret_at w (default "" (namespace svc)) sn = Some s -> fingerprint_of s = Some (ca_bundle_base64 ca) ->
  run_ca (reconcile_service svc ca) w = (Ok r, w') ->
  r = AwaitChange /\ w' = (kube_step (KGetOpt KSecret (Namespaced (default "" (namespace svc))) sn) w).2.
Proof.
  intros Hsn Hs Hf. unfold reconcile_service, run_ca. rewrite Hsn. cbv zeta.
  rewrite run_try_bind. prog_unfold. cbn [run ca_step].
  destruct_kube w as [[o|e] w3] eqn:Hg; [|done].
  apply secret_get_opt in Hg as Hg2. destruct Hg2 as [-> _]. rewrite Hs.
  rewrite bool_decide_eq_true_2 by done. intros [= <- <-]. split; [done|].
  symmetry. exact (f_equal snd Hg).
Qed.

(** C22: serving certificates follow the CA.  When a service asks for a
    certificate and its reconciliation succeeds: if the secret of that name
    carries the fingerprint of the current CA, it is left alone; if there is
    none, or one of another CA, a certificate for the service's two names is
    signed, and there is then a TLS secret of that name with the certificate
    and its key, the fingerprint of the current CA and the service as its
    owner; if signing fails, the service is tried again after thirty seconds
    instead.  In the other cases reconciling again only reads the
    secret. *)
Theorem serving_cert_current svc ca sn (w w' : W) a :
  (om_annotations (svc_metadata svc) ≫= (fun m => m !! SERVING_CERT_ANNOTATION)) = Some sn ->
  run_ca (reconcile_service svc ca) w = (Ok a, w') ->
  let ns := default "" (namespace svc) in
  let again := forall r w2, run_ca (reconcile_service svc ca) w' = (Ok r, w2) ->
    r = AwaitChange /\ w2 = (kube_step (KGetOpt KSecret (Namespaced ns) sn) w').2 in
  if bool_decide (option_map fingerprint_of (secret_at w ns sn) = Some (Some (ca_bundle_base64 ca)))
  then a = AwaitChange /\ secret_at w' ns sn = secret_at w ns sn /\ again
  else match (run_ca (sign_cert ca (serving_names svc ns)) (before_signing w ns sn)).1 with
       | None => a = Requeue 30
       | Some (cert, key) => a = AwaitChange /\
           (exists s, secret_at w' ns sn = Some s /\ serving_secret svc ca cert key s) /\ again
       end.
Proof.
  intros Hsn Hrun ns again.
  assert (Hagain : forall s, secret_at w' ns sn = Some s -> fingerprint_of s = Some (ca_bundle_base64 ca) -> again).
  { intros s Hs Hf r w2 Hr. by apply (reconcile_current svc ca sn s). }
  revert Hrun. unfold reconcile_service at 1, run_ca at 1. rewrite Hsn. cbv zeta. fold ns.
  rewrite run_try_bind. prog_unfold. cbn [run ca_step]. unfold before_signing.
  destruct_kube w as [[o|e] w1] eqn:Hg; [|done].
  assert (Hw1 : (kube_step (KGetOpt KSecret (Namespaced ns) sn) w).2 = w1) by exact (f_equal snd Hg).
  rewrite Hw1. apply secret_get_opt in Hg as [-> Hsame].
  assert (Hnew : forall v, run_ca (create_serving_cert svc ca ns sn) v = (Ok a, w') ->
    match (run_ca (sign_cert ca (serving_names svc ns)) v).1 with
    | None => a = Requeue 30
    | Some (cert, key) => a = AwaitChange /\
        (exists s, secret_at w' ns sn = Some s /\ serving_secret svc ca cert key s) /\ again
    end).
  { intros v Hc%run_create_serving_cert. destruct (run_ca _ v).1 as [[cert key]|]; [|done].
    destruct Hc as (-> & s & Hs & Hk). split; [done|]. split; [eauto|]. apply (Hagain s Hs). apply Hk. }
  destruct (secret_at w ns sn) as [s|] eqn:Hs; cbn [option_map].
  2:{ rewrite bool_decide_eq_false_2 by done. apply Hnew. }
  destruct (decide (fingerprint_of s = Some (ca_bundle_base64 ca))) as [Hf|Hf].
  - rewrite !bool_decide_eq_true_2 by congruence. intros [= <- <-]. rewrite Hsame, Hs.
    split_and!; [done..|]. apply (Hagain s); [by rewrite Hsame|done].
  - rewrite !bool_decide_eq_false_2 by congruence. rewrite run_try_bind. cbn [run ca_step].
    destruct (kube_step _ w1) as [[u|e] w2]; [|done]. cbn [snd]. apply Hnew.
Qed.
End Proofs.

(** Config maps, without other writers: a merge patch of one data key sets it. *)
Class ConfigMapLaw (W : Type) `{!Rcgen} `{!CaHost W} : Type := {
  cm_at : W -> string -> string -> option ConfigMap;
  cm_patch w ns name pp k v o o' w' :
    cm_at w ns name = Some o ->
    kube_step (KPatch KConfigMap (Namespaced ns) name pp (Merge (jobj [ "data" =: jobj [ k =: VString v ] ]))) w
      = (Ok o', w') ->
    cm_at w' ns name =
      Some {| cm_metadata := cm_metadata o; cm_data := Some (<[k := v]> (default ∅ (cm_data o))) |}
}.
Arguments ConfigMapLaw W {_ _}.

(** The metadata with another generation. *)
Definition set_generation (g : option Z) (m : ObjectMeta) : ObjectMeta := {|
  om_name := om_name m; om_generate_name := om_generate_name m; om_namespace := om_namespace m;
  om_labels := om_labels m; om_annotations := om_annotations m; om_uid := om_uid m;
  om_generation := g; om_owner_references := om_owner_references m |}.

(** Webhook configurations, without other writers: a JSON patch of CA bundles
    is applied in order; the server records the generation of the result. *)
Class WebhookLaw (W : Type) `{!Rcgen} `{!CaHost W} `{!Base64} : Type := {
  wc_at : W -> Kind -> string -> option WebhookConfiguration;
  next_generation : WebhookConfiguration -> list Webhook -> option Z;
  wc_patch w name pp ops o whs o' w' :
    wc_at w KMutatingWebhook name = Some o -> wc_webhooks o = Some whs ->
    kube_step (KPatch KMutatingWebhook All name pp (JsonPatch ops)) w = (Ok o', w') ->
    exists whs', apply_bundle_ops b64_std_decode ops whs = Some whs' /\
      wc_at w' KMutatingWebhook name =
        Some {| wc_metadata := set_generation (next_generation o whs') (wc_metadata o); wc_webhooks := Some whs' |}
}.
Arguments WebhookLaw W {_ _ _}.

Section Bundles.
Context `{RC : !Rcgen} `{B64 : !Base64} {W : Type} `{CH : !CaHost W}.

(** The config map asks for the bundle, under this key. *)
Definition wanted_key (cm : ConfigMap) : option string :=
  let serving := is_true INJECT_CABUNDLE_ANNOTATION (om_annotations (cm_metadata cm)) in
  let trusted := is_true "config.openshift.io/inject-trusted-cabundle" (om_labels (cm_metadata cm)) in
  if serving || trusted then Some (target_key trusted) else None.

Definition has_bundle (cm : ConfigMap) (k : string) : bool :=
  match cm_data cm ≫= (fun d => d !! k) with Some v => negb (is_empty (trim v)) | None => false end.

Lemma reconcile_configmap_quiet cm ca k :
  wanted_key cm = Some k -> has_bundle cm k = true -> reconcile_configmap cm ca = Ret (Ok AwaitChange).
Proof.
  unfold wanted_key, has_bundle, reconcile_configmap. intros Hk Hb.
  destruct (is_true _ _), (is_true _ _); cbn [orb andb negb] in *; try done; apply (inj Some) in Hk; subst k; by rewrite Hb.
Qed.

(** CA injection into config maps happens once.  A config map that asks
    for the bundle and has none gets the CA's certificate under its key, and
    nothing else changes; from then on no reconciliation writes to it, not
    even with another CA, so a bundle from before a restart is never
    refreshed. *)
Theorem configmap_injected_once `{!ConfigMapLaw W} cm ca k (w w' : W) a :
  cm_at w (default "" (namespace cm)) (name_any cm) = Some cm ->
  wanted_key cm = Some k -> is_empty (trim (ca_cert_pem ca)) = false ->
  run_ca (reconcile_configmap cm ca) w = (Ok a, w') ->
  exists cm', cm_at w' (default "" (namespace cm)) (name_any cm) = Some cm' /\
    (if has_bundle cm k then cm' = cm /\ w' = w
     else cm' = {| cm_metadata := cm_metadata cm;
                   cm_data := Some (<[k := ca_cert_pem ca]> (default ∅ (cm_data cm))) |}) /\
    forall ca2 w2, run_ca (reconcile_configmap cm' ca2) w2 = (Ok AwaitChange, w2).
Proof.
  intros Hst Hk Hca. destruct (has_bundle cm k) eqn:Hb.
  { rewrite (reconcile_configmap_quiet _ _ _ Hk Hb). intros [= <- <-]. exists cm.
    split; [done|]. split; [done|]. intros. by rewrite (reconcile_configmap_quiet _ _ _ Hk Hb). }
  intros Hr.
  assert (Hpatch : exists o', kube_step (KPatch KConfigMap (Namespaced (default "" (namespace cm))) (name_any cm)
            (Some "ocp-sim") (Merge (jobj [ "data" =: jobj [ k =: VString (ca_cert_pem ca) ] ]))) w = (Ok o', w')).
  { revert Hr. unfold reconcile_configmap, run_ca. cbv zeta. unfold wanted_key, has_bundle in *.
    destruct (is_true INJECT_CABUNDLE_ANNOTATION _), (is_true _ (om_labels _)); cbn [orb] in Hk; try done;
      apply (inj Some) in Hk; subst k; cbn [negb andb]; rewrite Hb, run_try_bind; prog_unfold; cbn [run ca_step];
      destruct_kube w as [[o|e] w1] eqn:Hp; try done; intros [= _ <-]; by exists o. }
  destruct Hpatch as [o' Hp]. eexists. split; [by eapply cm_patch|]. split; [done|].
  intros ca2 w2. rewrite (reconcile_configmap_quiet _ ca2 k); [done|done|].
  unfold has_bundle. simpl. by rewrite lookup_insert_eq, Hca.
Qed.

(** ** Webhooks *)

Lemma find_bundle_path i n : (i < n)%nat ->
  List.find (fun j => String.eqb (bundle_path i) (bundle_path j)) (seq 0 n) = Some i.
Proof.
  intros Hi.
  destruct (List.find _ (seq 0 n)) as [j|] eqn:Hf.
  - apply List.find_some in Hf as [_ Hj]. apply String.eqb_eq in Hj. unfold bundle_path in Hj.
    apply (inj (String.append "/webhooks/")) in Hj. apply sapp_inj_r in Hj.
    apply (inj pretty) in Hj. f_equal. lia.
  - eapply List.find_none in Hf; [|apply in_seq; split; [lia|exact Hi]]. by rewrite String.eqb_refl in Hf.
Qed.

Lemma apply_bundle_op_eq dec (b b64 : string) i whs :
  dec b64 = Some b -> (i < length whs)%nat ->
  apply_bundle_op dec (jobj [ "op" =: VString "add"; "path" =: VString (bundle_path i); "value" =: VString b64 ]) whs =
    Some (alter (set_ca_bundle b) i whs).
Proof.
  intros Hd Hi. unfold apply_bundle_op, jobj.
  change (get_str "path" _) with (Some (bundle_path i)). change (get_str "value" _) with (Some b64).
  cbn [mbind option_bind]. rewrite Hd. cbn [mbind option_bind]. by rewrite find_bundle_path.
Qed.

Lemma apply_bundle_patch dec (b b64 : string) l1 l2 :
  dec b64 = Some b ->
  apply_bundle_ops dec
    (imap (fun i _ => jobj [ "op" =: VString "add"; "path" =: VString (bundle_path (length l1 + i));
                             "value" =: VString b64 ]) l2)
    (map (set_ca_bundle b) l1 ++ l2) = Some (map (set_ca_bundle b) (l1 ++ l2)).
Proof.
  intros Hdec. revert l1. induction l2 as [|wh l2 IH]; intros l1; [by rewrite !app_nil_r|].
  rewrite imap_cons. cbn [apply_bundle_ops].
  rewrite Nat.add_0_r, (apply_bundle_op_eq dec b) by (done || rewrite length_app, length_map; simpl; lia).
  cbn [mbind option_bind].
  rewrite alter_app_r_alt by (rewrite length_map; lia). rewrite length_map, Nat.sub_diag. simpl.
  replace (map (set_ca_bundle b) l1 ++ set_ca_bundle b wh :: l2)
    with (map (set_ca_bundle b) (l1 ++ [wh]) ++ l2) by (rewrite map_app, <- app_assoc; done).
  replace (l1 ++ wh :: l2) with ((l1 ++ [wh]) ++ l2) by (rewrite <- app_assoc; done).
  rewrite <- IH. f_equal. apply imap_ext. intros i x _. cbn [compose].
  replace (length (l1 ++ [wh]) + i)%nat with (length l1 + S i)%nat; [done|]. rewrite length_app. simpl. lia.
Qed.

Lemma existing_bundle_first mwc b :
  existing_bundle mwc = Some b <->
  exists wh r, wc_webhooks mwc = Some (wh :: r) /\ wh_ca_bundle wh = Some b.
Proof.
  unfold existing_bundle. destruct (wc_webhooks mwc) as [[|wh r]|]; simpl; split; try done;
    try (intros (? & ? & ? & ?); done); [|intros (? & ? & [= <- <-] & ?); done].
  intros Hb. by exists wh, r.
Qed.

(** C33: the CA reaches every webhook.  When the first webhook of an annotated
    configuration does not carry the CA's certificate, a successful
    reconciliation leaves every webhook of the stored configuration with it
    and changes nothing else, but for the generation the server records;
    reconciling that sends nothing. *)
Theorem webhook_bundles_injected `{!WebhookLaw W} mwc ca whs (w w' : W) a :
  (forall x, b64_std_decode (b64_std_encode x) = Some x) ->
  wc_at w KMutatingWebhook (name_any mwc) = Some mwc -> wc_webhooks mwc = Some whs -> whs <> [] ->
  needs_cabundle_injection (om_annotations (wc_metadata mwc)) = true ->
  existing_bundle mwc <> Some (ca_cert_pem ca) ->
  run_ca (reconcile_mutating_webhook mwc ca) w = (Ok a, w') ->
  let whs' := map (set_ca_bundle (ca_cert_pem ca)) whs in
  let mwc' := {| wc_metadata := set_generation (next_generation mwc whs') (wc_metadata mwc);
                 wc_webhooks := Some whs' |} in
  wc_at w' KMutatingWebhook (name_any mwc) = Some mwc' /\
  forall w2, run_ca (reconcile_mutating_webhook mwc' ca) w2 = (Ok AwaitChange, w2).
Proof.
  intros Hb64 Hst Hwh Hne Hann Hold. unfold reconcile_mutating_webhook, run_ca. rewrite Hann. cbn [negb].
  rewrite bool_decide_eq_false_2 by done. rewrite run_try_bind. prog_unfold. cbn [run ca_step].
  destruct_kube w as [[o|e] w1] eqn:Hp; [|done]. intros [= <- <-]. cbv zeta. split.
  - destruct (wc_patch _ _ _ _ _ _ _ _ Hst Hwh Hp) as (whs' & Hops & Hl). rewrite Hl.
    unfold bundle_patch in Hops. rewrite Hwh in Hops. change (default [] (Some whs)) with whs in Hops.
    pose proof (apply_bundle_patch b64_std_decode (ca_cert_pem ca) (ca_bundle_base64 ca) [] whs (Hb64 _)) as Hall.
    cbn [map app length Nat.add] in Hall. rewrite Hall in Hops. by injection Hops as <-.
  - intros w2. cbn [wc_metadata set_generation om_annotations]. rewrite Hann. cbn [negb].
    rewrite bool_decide_eq_true_2; [done|]. apply existing_bundle_first.
    destruct whs as [|wh r]; [done|]. by exists (set_ca_bundle (ca_cert_pem ca) wh), (map (set_ca_bundle (ca_cert_pem ca)) r).
Qed.

(** Only the first webhook is looked at.  If it carries the CA's
    certificate, neither webhook controller sends anything, whatever bundles
    the other webhooks have. *)
Theorem webhook_only_first_checked wc ca wh r :
  wc_webhooks wc = Some (wh :: r) -> wh_ca_bundle wh = Some (ca_cert_pem ca) ->
  reconcile_mutating_webhook wc ca = Ret (Ok AwaitChange) /\
  reconcile_validating_webhook wc ca = Ret (Ok AwaitChange).
Proof.
  intros Hw Hb. assert (He : existing_bundle wc = Some (ca_cert_pem ca)) by (apply existing_bundle_first; eauto).
  unfold reconcile_mutating_webhook, reconcile_validating_webhook.
  destruct (needs_cabundle_injection _); [|done]. cbn [negb]. by rewrite bool_decide_eq_true_2.
Qed.
End Bundles.

(** ** Witnesses: a machine with secrets, config maps and webhooks *)

Module CaSample.

Definition rcgen : Rcgen := {|
  KeyPair := string; Params := list string; Issuer := string; Certificate := string;
  key_from_pem := Some; params_new := Some; params_set_ca := id;
  params_push_common_name := fun p cn => p ++ [cn];
  issuer_from_params := fun _ k => k;
  signed_by := fun p k i => Some (str_join "," p +:+ "/" +:+ k +:+ "/" +:+ i);
  self_signed := fun p k => Some (str_join "," p +:+ "/" +:+ k);
  cert_pem := id; serialize_pem := id |}.

Definition base64 : Base64 :=
  {| b64_std_encode := id; b64_std_decode := Some; b64_url_encode := id; b64_url_decode := Some |}.

Record World : Type := CW {
  secrets : gmap (string * string) Secret;
  config_maps : gmap (string * string) ConfigMap;
  webhooks : gmap string WebhookConfiguration
}.

(** The single data key of a merge patch. *)
Definition merged_key (v : Value) : option (string * string) :=
  match v with
  | VObject [(_, VObject [(k, VString x)])] => Some (k, x)
  | _ => None
  end.

(** The server assigns a uid. *)
Definition with_uid (s : Secret) : Secret := {|
  sec_metadata := let m := sec_metadata s in
    {| om_name := om_name m; om_generate_name := om_generate_name m; om_namespace := om_namespace m;
       om_labels := om_labels m; om_annotations := om_annotations m; om_uid := Some "uid-1";
       om_generation := om_generation m; om_owner_references := om_owner_references m |};
  sec_type := sec_type s; sec_data := sec_data s; sec_string_data := sec_string_data s |}.

(** And counts the generations of a webhook configuration. *)
Definition generation_after (wc : WebhookConfiguration) (_ : list Webhook) : option Z :=
  Some (default 0 (om_generation (wc_metadata wc)) + 1).

Definition get_opt (k : Kind) (sc : Scope) (n : string) (w : World) : KRes (option (Obj k)) :=
  match k return KRes (option (Obj k)) with
  | KSecret => Ok (secrets w !! (scope_key sc, n))
  | _ => Err TransportError
  end.

Definition create (k : Kind) (sc : Scope) : Obj k -> World -> KRes (Obj k) * World :=
  match k return Obj k -> World -> KRes (Obj k) * World with
  | KSecret => fun o w =>
      match secrets w !! (scope_key sc, name_any o) with
      | Some _ => (Err (ApiError 409), w)
      | None => (Ok (with_uid o), CW (<[(scope_key sc, name_any o) := with_uid o]> (secrets w)) (config_maps w) (webhooks w))
      end
  | _ => fun _ w => (Err TransportError, w)
  end.

Definition patch (k : Kind) (sc : Scope) (n : string) : Patch (Obj k) -> World -> KRes (Obj k) * World :=
  match k return Patch (Obj k) -> World -> KRes (Obj k) * World with
  | KConfigMap => fun p w =>
      match p, config_maps w !! (scope_key sc, n) with
      | Merge v, Some cm =>
          match merged_key v with
          | Some (key, x) =>
              let cm' := {| cm_metadata := cm_metadata cm;
                            cm_data := Some (<[key := x]> (default ∅ (cm_data cm))) |} in
              (Ok cm', CW (secrets w) (<[(scope_key sc, n) := cm']> (config_maps w)) (webhooks w))
          | None => (Err (ApiError 400), w)
          end
      | _, _ => (Err (ApiError 404), w)
      end
  | KMutatingWebhook => fun p w =>
      match p, webhooks w !! n with
      | JsonPatch ops, Some wc =>
          match apply_bundle_ops Some ops (default [] (wc_webhooks wc)) with
          | Some whs =>
              let wc' := {| wc_metadata := set_generation (generation_after wc whs) (wc_metadata wc);
                            wc_webhooks := Some whs |} in
              (Ok wc', CW (secrets w) (config_maps w) (<[n := wc']> (webhooks w)))
          | None => (Err (ApiError 422), w)
          end
      | _, _ => (Err (ApiError 404), w)
      end
  | _ => fun _ w => (Err TransportError, w)
  end.

Definition step X (e : kubeE X) : World -> X * World :=
  match e in kubeE X return World -> X * World with
  | KGet _ _ _ => fun w => (Err TransportError, w)
  | KGetOpt k sc n => fun w => (get_opt k sc n w, w)
  | KList _ _ _ => fun w => (Err TransportError, w)
  | KCreate k sc o => create k sc o
  | KDelete k sc n => fun w =>
      match k with
      | KSecret => (Ok tt, CW (delete (scope_key sc, n) (secrets w)) (config_maps w) (webhooks w))
      | _ => (Err TransportError, w)
      end
  | KPatch k sc n _ p => patch k sc n p
  | KPatchStatus _ _ _ _ _ => fun w => (Err TransportError, w)
  end.

End CaSample.

Section Witnesses.
#[local] Existing Instances CaSample.rcgen CaSample.base64.

#[local] Instance sample_ca_host : CaHost CaSample.World := {|
  ca_kube := {| kube_step := CaSample.step; utc_now := fun w => ("now", w) |};
  generate_key_pair := fun w => (Some "key", w) |}.

#[local] Instance sample_secret_law : SecretLaw CaSample.World.
Proof.
  refine {| secret_at := fun w ns n => CaSample.secrets w !! (ns, n) |}.
  - intros w ns name o w' Hg. injection Hg as <- <-. done.
  - intros w ns o o' w'. cbn. destruct (CaSample.secrets w !! (ns, name_any o)); [done|].
    intros Hc. injection Hc as _ <-. exists (CaSample.with_uid o). split; [apply lookup_insert_eq|done].
Defined.

#[local] Instance sample_cm_law : ConfigMapLaw CaSample.World.
Proof.
  refine {| cm_at := fun w ns n => CaSample.config_maps w !! (ns, n) |}.
  intros w ns name pp k v o o' w' Ho. cbn. rewrite Ho. intros Hp. injection Hp as _ <-. apply lookup_insert_eq.
Defined.

#[local] Instance sample_webhook_law : WebhookLaw CaSample.World.
Proof.
  refine {| wc_at := fun w _ n => CaSample.webhooks w !! n; next_generation := CaSample.generation_after |}.
  intros w name pp ops o whs o' w' Ho Hw. cbn. rewrite Ho, Hw. cbn.
  destruct (apply_bundle_ops Some ops whs) as [whs'|]; [|done]. intros Hp. injection Hp as _ <-.
  exists whs'. split; [done|]. apply lookup_insert_eq.
Defined.

Definition sample_ca : CaState := {| ca_cert_pem := "CA"; ca_key_pem := "CAKEY" |}.

Definition annotated (name ns k v : string) : ObjectMeta := {|
  om_name := Some name; om_generate_name := None; om_namespace := Some ns; om_labels := None;
  om_annotations := Some {[ k := v ]}; om_uid := None; om_generation := None; om_owner_references := None |}.

Definition sample_service : Service :=
  {| svc_metadata := annotated "web" "demo" SERVING_CERT_ANNOTATION "web-tls"; svc_spec := None; svc_status := None |}.
Definition sample_cm : ConfigMap :=
  {| cm_metadata := annotated "ca" "demo" INJECT_CABUNDLE_ANNOTATION "true"; cm_data := None |}.
Definition sample_webhook (b : option string) : Webhook := {|
  wh_name := "w"; wh_url := None; wh_ca_bundle := b; wh_rules := None; wh_failure_policy := None;
  wh_side_effects := "None"; wh_admission_review_versions := []; wh_namespace_selector := None;
  wh_reinvocation_policy := None; wh_timeout_seconds := None |}.
Definition sample_wc : WebhookConfiguration :=
  {| wc_metadata := annotated "hooks" "" INJECT_CABUNDLE_ANNOTATION "true";
     wc_webhooks := Some [sample_webhook None; sample_webhook (Some "old")] |}.
Definition sample_ca_world : CaSample.World :=
  CaSample.CW {[ ("demo", "web-tls") := tls_secret sample_service "demo" "web-tls" "OLD" "c" "k" ]}
    {[ ("demo", "ca") := sample_cm ]} {[ "hooks" := sample_wc ]}.

Example serving_cert_current_witness :
  exists s, secret_at (run_ca (reconcile_service sample_service sample_ca) sample_ca_world).2 "demo" "web-tls" = Some s /\
    fingerprint_of s = Some "CA" /\ om_uid (sec_metadata s) = Some "uid-1".
Proof.
  assert (Hrun : run_ca (reconcile_service sample_service sample_ca) sample_ca_world =
    (Ok AwaitChange, (run_ca (reconcile_service sample_service sample_ca) sample_ca_world).2)).
  { apply pair_eta. vm_compute. reflexivity. }
  pose proof (serving_cert_current sample_service sample_ca "web-tls" sample_ca_world _ AwaitChange eq_refl Hrun) as H.
  cbv zeta in H. rewrite bool_decide_eq_false_2 in H by (vm_compute; discriminate).
  destruct (run_ca (sign_cert _ _) _).1 as [[cert key]|] in H; [|discriminate H].
  destruct H as (_ & (s & Hs & _ & _ & Hf & _) & _). exists s. split; [exact Hs|]. split; [exact Hf|].
  vm_compute in Hs. injection Hs as <-. reflexivity.
Defined.

Example configmap_injected_once_witness :
  exists cm', cm_at (run_ca (reconcile_configmap sample_cm sample_ca) sample_ca_world).2 "demo" "ca" = Some cm' /\
    forall ca2 w2, run_ca (reconcile_configmap cm' ca2) w2 = (Ok AwaitChange, w2).
Proof.
  destruct (configmap_injected_once sample_cm sample_ca "service-ca.crt" sample_ca_world
    (run_ca (reconcile_configmap sample_cm sample_ca) sample_ca_world).2 AwaitChange) as (cm' & H1 & _ & H2).
  - vm_compute. reflexivity.
  - vm_compute. reflexivity.
  - vm_compute. reflexivity.
  - apply pair_eta. vm_compute. reflexivity.
  - exists cm'. split; [exact H1|exact H2].
Defined.

Example webhook_bundles_injected_witness :
  wc_at (run_ca (reconcile_mutating_webhook sample_wc sample_ca) sample_ca_world).2 KMutatingWebhook "hooks" =
    Some {| wc_metadata := set_generation (Some 1) (wc_metadata sample_wc);
            wc_webhooks := Some [sample_webhook (Some "CA"); sample_webhook (Some "CA")] |}.
Proof.
  destruct (webhook_bundles_injected sample_wc sample_ca [sample_webhook None; sample_webhook (Some "old")]
    sample_ca_world (run_ca (reconcile_mutating_webhook sample_wc sample_ca) sample_ca_world).2 AwaitChange) as [H _].
  - intros x. reflexivity.
  - vm_compute. reflexivity.
  - reflexivity.
  - discriminate.
  - vm_compute. reflexivity.
  - vm_compute. discriminate.
  - apply pair_eta. vm_compute. reflexivity.
  - exact H.
Defined.

Example webhook_only_first_checked_witness :
  reconcile_mutating_webhook
    {| wc_metadata := wc_metadata sample_wc;
       wc_webhooks := Some [sample_webhook (Some "CA"); sample_webhook (Some "old")] |} sample_ca =
    Ret (Ok AwaitChange).
Proof.
  apply (webhook_only_first_checked
    {| wc_metadata := wc_metadata sample_wc;
       wc_webhooks := Some [sample_webhook (Some "CA"); sample_webhook (Some "old")] |} sample_ca
    (sample_webhook (Some "CA")) [sample_webhook (Some "old")]); reflexivity.
Defined.
End Witnesses.
