(* ===== verification/GatewayConfig.v ===== *)
(** * [gateway.rs], first half: HTTPRoutes and the Envoy configuration

    What the controller reads from Gateway API objects, and the Envoy files it
    writes: bootstrap, listeners (LDS), routes (RDS) and clusters (CDS).  The
    files are built by string formatting, and so are they here. *)

From S2P Require Import Prelude RustStr Json Prog Kube Util.
Open Scope list_scope.
Open Scope Z_scope.

Definition CONTROLLER_NAME : string := "openshift.io/gateway-controller/v1".
Definition GATEWAY_NS : string := "openshift-ingress".
Definition ENVOY_IMAGE : string := "docker.io/envoyproxy/envoy:v1.31-latest".
Definition GATEWAY_CLASS_NAME : string := "data-science-gateway-class".
Definition GATEWAY_NAME : string := "data-science-gateway".
Definition KUBE_AUTH_PROXY_SVC : string := "kube-auth-proxy".
Definition KUBE_AUTH_PROXY_PORT : Z := 8443.
Definition ENVOY_LISTEN_PORT : Z := 8443.
Definition SERVICE_PORT : Z := 443.
Definition TLS_SECRET_NAME : string := "data-science-gateway-service-tls".

Definition service_full_name (gateway_name class_name : string) : string :=
  gateway_name +:+ "-" +:+ class_name.

(** ** Reading Gateway API objects *)

Definition is_our_gateway_class (gc : DynamicObject) : bool :=
  bool_decide (get "spec" (data gc) ≫= get_str "controllerName" = Some CONTROLLER_NAME).

Definition is_accepted_condition (cond : Value) : bool :=
  bool_decide (get_str "type" cond = Some "Accepted") &&
  bool_decide (get_str "status" cond = Some "True").

Definition is_gateway_class_accepted (gc : DynamicObject) : bool :=
  match get "status" (data gc) ≫= get_array "conditions" with
  | Some arr => existsb is_accepted_condition arr
  | None => false
  end.

Definition is_gateway_accepted (gw : DynamicObject) : bool :=
  match get "status" (data gw) ≫= get_array "conditions" with
  | Some arr => existsb is_accepted_condition arr
  | None => false
  end.

Definition extract_listener_hostname (gw : DynamicObject) : option string :=
  spec ← get "spec" (data gw);
  arr ← get_array "listeners" spec;
  listener ← head arr;
  get_str "hostname" listener.

Record HttpRouteBackend : Type := {
  service_name : string;
  hb_namespace : string;
  port : Z
}.
Record HttpRouteRule : Type := {
  path_prefix : string;
  backends : list HttpRouteBackend
}.

(** One entry of [backendRefs]; entries without a name are dropped. *)
Definition extract_backend_ref (route_ns : string) (backend : Value) : option HttpRouteBackend :=
  let svc_name := default "" (get_str "name" backend) in
  let ns := default route_ns (get_str "namespace" backend) in
  let p := cast_u16 (default 80 (get "port" backend ≫= as_u64)) in
  if is_empty svc_name then None
  else Some {| service_name := svc_name; hb_namespace := ns; port := p |}.

Definition extract_rule (route_ns : string) (rule : Value) : HttpRouteRule := {|
  path_prefix :=
    default "/" (arr ← get_array "matches" rule;
                 m ← head arr;
                 p ← get "path" m;
                 get_str "value" p);
  backends :=
    match get_array "backendRefs" rule with
    | Some arr => omap (extract_backend_ref route_ns) arr
    | None => []
    end |}.

Definition extract_httproute_rules (route : DynamicObject) : list HttpRouteRule :=
  match get "spec" (data route) with
  | None => []
  | Some spec =>
      let route_ns := default "" (namespace route) in
      match get_array "rules" spec with
      | None => []
      | Some rule_arr => extract_rule route_ns <$> rule_arr
      end
  end.

(** The ports for which a DestinationRule sets a TLS mode. *)
Definition tls_port_of (setting : Value) : option Z :=
  _ ← get "tls" setting ≫= get_str "mode";
  p ← get "port" setting;
  n ← get "number" p ≫= as_u64;
  Some (cast_u16 n).

Definition extract_tls_ports (dr : DynamicObject) : gset Z :=
  match (spec ← get "spec" (data dr);
         policy ← get "trafficPolicy" spec;
         get_array "portLevelSettings" policy) with
  | Some settings => list_to_set (omap tls_port_of settings)
  | None => ∅
  end.

(** The ports of all listed DestinationRules, gathered by
    [sync_httproute_config]; the [host] of a rule plays no part. *)
Definition tls_ports_of (drs : list DynamicObject) : gset Z := ⋃ (extract_tls_ports <$> drs).

(** ** Text *)

Definition indent_lines (s : string) (spaces : nat) : string :=
  let prefix := str_repeat " " spaces in
  str_join newline ((fun line => if is_empty line then "" else prefix +:+ line) <$> lines s).

Definition LUA_FILTER_SCRIPT : string := dq "function envoy_on_request(request_handle)
  local access_token = request_handle:headers():get('x-auth-request-access-token')
  local auth_user = request_handle:headers():get('x-auth-request-user')

  if access_token then
    request_handle:headers():add('x-forwarded-access-token', access_token)
    request_handle:headers():replace('authorization', 'Bearer ' .. access_token)
  elseif auth_user then
    local auth_header = request_handle:headers():get('authorization')
    if auth_header then
      local token = auth_header:match('^Bearer%s+(.+)')
      if token then
        request_handle:headers():add('x-forwarded-access-token', token)
      end
    end
  end

  if access_token or auth_user then
    local cookie_header = request_handle:headers():get('cookie')
    if cookie_header then
      local filtered_cookies = {}
      local cookie_pattern = '^{{cookie_name}}'
      for cookie in cookie_header:gmatch('([^;]+)') do
        local trimmed = cookie:match('^%s*(.-)%s*$')
        if trimmed and trimmed ~= '' then
          local cookie_name = trimmed:match('^([^=]+)')
          if cookie_name and not cookie_name:match(cookie_pattern) then
            table.insert(filtered_cookies, trimmed)
          end
        end
      end
      if #filtered_cookies > 0 then
        request_handle:headers():replace('cookie', table.concat(filtered_cookies, '; '))
      else
        request_handle:headers():remove('cookie')
      end
    end
  end
end
".

Definition generate_bootstrap_yaml : string := "node:
  cluster: ocp-sim-gateway
  id: ocp-sim-gateway-node

dynamic_resources:
  lds_config:
    path_config_source:
      path: /etc/envoy/xds/lds.yaml
      watched_directory:
        path: /etc/envoy/xds
  cds_config:
    path_config_source:
      path: /etc/envoy/xds/cds.yaml
      watched_directory:
        path: /etc/envoy/xds

admin:
  address:
    socket_address:
      address: 127.0.0.1
      port_value: 15000
".

Definition generate_lds_yaml (_hostname : string) : string :=
  let lua_script := str_replace "{{cookie_name}}" "_oauth2_proxy" LUA_FILTER_SCRIPT in
  dq "resources:
- '@type': type.googleapis.com/envoy.config.listener.v3.Listener
  name: gateway-https
  address:
    socket_address:
      address: 0.0.0.0
      port_value: " +:+ pretty ENVOY_LISTEN_PORT +:+ dq "
  filter_chains:
  - transport_socket:
      name: envoy.transport_sockets.tls
      typed_config:
        '@type': type.googleapis.com/envoy.extensions.transport_sockets.tls.v3.DownstreamTlsContext
        common_tls_context:
          tls_certificates:
          - certificate_chain:
              filename: /etc/envoy/tls/tls.crt
            private_key:
              filename: /etc/envoy/tls/tls.key
    filters:
    - name: envoy.filters.network.http_connection_manager
      typed_config:
        '@type': type.googleapis.com/envoy.extensions.filters.network.http_connection_manager.v3.HttpConnectionManager
        stat_prefix: gateway
        rds:
          route_config_name: gateway-routes
          config_source:
            path_config_source:
              path: /etc/envoy/xds/rds.yaml
              watched_directory:
                path: /etc/envoy/xds
        http_filters:
        - name: envoy.filters.http.ext_authz
          typed_config:
            '@type': type.googleapis.com/envoy.extensions.filters.http.ext_authz.v3.ExtAuthz
            transport_api_version: V3
            http_service:
              server_uri:
                uri: https://" +:+ KUBE_AUTH_PROXY_SVC +:+ "." +:+ GATEWAY_NS +:+ ".svc.cluster.local:" +:+ pretty KUBE_AUTH_PROXY_PORT +:+ "/oauth2/auth
                cluster: " +:+ KUBE_AUTH_PROXY_SVC +:+ dq "
                timeout: 5s
              authorization_request:
                allowed_headers:
                  patterns:
                  - exact: cookie
                  - exact: authorization
              authorization_response:
                allowed_upstream_headers:
                  patterns:
                  - exact: x-auth-request-user
                  - exact: x-auth-request-email
                  - exact: x-auth-request-access-token
                  - exact: authorization
                allowed_client_headers:
                  patterns:
                  - exact: set-cookie
        - name: envoy.filters.http.lua
          typed_config:
            '@type': type.googleapis.com/envoy.extensions.filters.http.lua.v3.Lua
            inline_code: |
" +:+ indent_lines lua_script 14 +:+ dq "
        - name: envoy.filters.http.router
          typed_config:
            '@type': type.googleapis.com/envoy.extensions.filters.http.router.v3.Router
        upgrade_configs:
        - upgrade_type: websocket
".

(** [sort_by] is stable: rules with prefixes of equal length keep their order. *)
Fixpoint insert_by_len (x : HttpRouteRule) (l : list HttpRouteRule) : list HttpRouteRule :=
  match l with
  | [] => [x]
  | y :: r =>
      if (String.length (path_prefix y) <=? String.length (path_prefix x))%nat then x :: l
      else y :: insert_by_len x r
  end.
Definition sort_by_len (l : list HttpRouteRule) : list HttpRouteRule := foldr insert_by_len [] l.

Definition cluster_name (b : HttpRouteBackend) : string :=
  service_name b +:+ "_" +:+ hb_namespace b +:+ "_" +:+ pretty (port b).

Definition route_entry (prefix cluster : string) : string :=
  dq "            - match:
                prefix: '" +:+ prefix +:+ dq "'
              route:
                cluster: " +:+ cluster +:+ "
                upgrade_configs:
                - upgrade_type: websocket
".

Definition rule_entry (rule : HttpRouteRule) : string :=
  match backends rule with
  | backend :: _ => route_entry (path_prefix rule) (cluster_name backend)
  | [] => ""
  end.

Definition no_backends_entry : string :=
  dq "            - match:
                prefix: '/'
              direct_response:
                status: 503
                body:
                  inline_string: 'no backends configured'
".

Definition generate_rds_yaml (hostname : string) (routes : list HttpRouteRule) : string :=
  let route_entries := str_concat (rule_entry <$> sort_by_len routes) in
  let route_entries := if is_empty route_entries then no_backends_entry else route_entries in
  dq "resources:
- '@type': type.googleapis.com/envoy.config.route.v3.RouteConfiguration
  name: gateway-routes
  virtual_hosts:
  - name: gateway
    domains:
    - '" +:+ hostname +:+ dq "'
    - '*'
    routes:
" +:+ route_entries.

Definition auth_proxy_cluster : string :=
  dq "- '@type': type.googleapis.com/envoy.config.cluster.v3.Cluster
  name: " +:+ KUBE_AUTH_PROXY_SVC +:+ dq "
  type: STRICT_DNS
  lb_policy: ROUND_ROBIN
  transport_socket:
    name: envoy.transport_sockets.tls
    typed_config:
      '@type': type.googleapis.com/envoy.extensions.transport_sockets.tls.v3.UpstreamTlsContext
      common_tls_context:
        validation_context:
          trust_chain_verification: ACCEPT_UNTRUSTED
  load_assignment:
    cluster_name: " +:+ KUBE_AUTH_PROXY_SVC +:+ "
    endpoints:
    - lb_endpoints:
      - endpoint:
          address:
            socket_address:
              address: " +:+ KUBE_AUTH_PROXY_SVC +:+ "." +:+ GATEWAY_NS +:+ ".svc.cluster.local
              port_value: " +:+ pretty KUBE_AUTH_PROXY_PORT +:+ "
".

Definition tls_socket : string := dq "  transport_socket:
    name: envoy.transport_sockets.tls
    typed_config:
      '@type': type.googleapis.com/envoy.extensions.transport_sockets.tls.v3.UpstreamTlsContext
      common_tls_context:
        validation_context:
          trust_chain_verification: ACCEPT_UNTRUSTED
".

Definition backend_cluster (tls_ports : gset Z) (backend : HttpRouteBackend) : string :=
  let tls_block := if decide (port backend ∈ tls_ports) then tls_socket else "" in
  dq "- '@type': type.googleapis.com/envoy.config.cluster.v3.Cluster
  name: " +:+ cluster_name backend +:+ "
  type: STRICT_DNS
  lb_policy: ROUND_ROBIN
" +:+ tls_block +:+ "  load_assignment:
    cluster_name: " +:+ cluster_name backend +:+ "
    endpoints:
    - lb_endpoints:
      - endpoint:
          address:
            socket_address:
              address: " +:+ service_name backend +:+ "." +:+ hb_namespace backend +:+ ".svc.cluster.local
              port_value: " +:+ pretty (port backend) +:+ "
".

(** The loop over the backends, with the set of names already written. *)
Fixpoint backend_clusters (tls_ports : gset Z) (seen : gset string) (bs : list HttpRouteBackend) : string :=
  match bs with
  | [] => ""
  | backend :: r =>
      if decide (cluster_name backend ∈ seen) then backend_clusters tls_ports seen r
      else backend_cluster tls_ports backend +:+
           backend_clusters tls_ports ({[cluster_name backend]} ∪ seen) r
  end.

Definition generate_cds_yaml (routes : list HttpRouteRule) (tls_ports : gset Z) : string :=
  "resources:" +:+ newline +:+ auth_proxy_cluster +:+
  backend_clusters tls_ports ∅ (List.flat_map backends routes).
