(* ===== verification/GatewayRouting.v ===== *)
(** * What Envoy reads: routing by longest prefix

    [read_rds] and [read_cds] are what a reader finds in the generated files:
    the routes, as prefix and cluster, and the clusters, as name, TLS or not,
    address and port.  Envoy takes the first route whose prefix the path
    starts with, and connects to the cluster it names.  The theorem of this
    file says where a request goes, in terms of the rules of the HTTPRoutes. *)

From S2P Require Import Prelude RustStr Json Prog Kube Util GatewayConfig.
Open Scope list_scope.
Open Scope Z_scope.

(** ** Readers *)

Fixpoint read_routes (pending : option string) (ls : list string) : list (string * string) :=
  match ls with
  | [] => []
  | l :: r =>
      match strip_prefix (dq "                prefix: '") l with
      | Some q => read_routes (Some (split_first dquote q)) r
      | None =>
          match strip_prefix "                cluster: " l, pending with
          | Some c, Some p => (p, c) :: read_routes None r
          | _, _ => read_routes pending r
          end
      end
  end.
Definition read_rds (text : string) : list (string * string) := read_routes None (lines text).

Record Cluster : Type := {
  cl_name : string;
  cl_tls : bool;
  cl_address : string;
  cl_port : string
}.

Fixpoint read_clusters (name : string) (tls : bool) (addr : string) (ls : list string) : list Cluster :=
  match ls with
  | [] => []
  | l :: r =>
      match strip_prefix "  name: " l with
      | Some n => read_clusters n false "" r
      | None =>
      if String.eqb l "  transport_socket:" then read_clusters name true addr r else
      match strip_prefix "              address: " l with
      | Some a => read_clusters name tls a r
      | None =>
      match strip_prefix "              port_value: " l with
      | Some p => {| cl_name := name; cl_tls := tls; cl_address := addr; cl_port := p |}
                  :: read_clusters name tls addr r
      | None => read_clusters name tls addr r
      end end end
  end.
Definition read_cds (text : string) : list Cluster := read_clusters "" false "" (lines text).

(** The first route that matches, and the cluster it names. *)
Definition envoy_upstream (rds cds path : string) : option Cluster :=
  r ← List.find (fun r => starts_with r.1 path) (read_rds rds);
  List.find (fun c => String.eqb (cl_name c) r.2) (read_cds cds).

(** ** Well-formed input: DNS names, and prefixes a quoted scalar can hold *)

Definition is_dns_char (c : ascii) : bool :=
  in_range 97 122 c || in_range 48 57 c || Ascii.eqb c "-"%char || Ascii.eqb c "."%char.
Definition is_dns_name (s : string) : bool := forall_chars is_dns_char s.

Definition is_prefix_char (c : ascii) : bool :=
  in_range 33 126 c && negb (Ascii.eqb c dquote) && negb (Ascii.eqb c "\"%char).

Definition wf_backend (b : HttpRouteBackend) : bool :=
  is_dns_name (service_name b) && is_dns_name (hb_namespace b).
Definition wf_rule (r : HttpRouteRule) : bool :=
  forall_chars is_prefix_char (path_prefix r) && forallb wf_backend (backends r).

(** ** Sorting *)

Definition plen (r : HttpRouteRule) : nat := String.length (path_prefix r).

Lemma insert_by_len_elem x l y : In y (insert_by_len x l) <-> y = x \/ In y l.
Proof.
  induction l as [|z l IH]; simpl; [naive_solver|].
  destruct (_ <=? _)%nat; simpl; naive_solver.
Qed.

Lemma sort_by_len_elem l y : In y (sort_by_len l) <-> In y l.
Proof. induction l as [|x l IH]; simpl; [done|]. rewrite insert_by_len_elem. naive_solver. Qed.

Inductive descending : list HttpRouteRule -> Prop :=
| desc_nil : descending []
| desc_cons x l : (forall y, In y l -> (plen y <= plen x)%nat) -> descending l -> descending (x :: l).

Lemma insert_descending x l : descending l -> descending (insert_by_len x l).
Proof.
  induction 1 as [|y l Hy Hl IH]; simpl; [by repeat constructor|].
  destruct (Nat.leb_spec (plen y) (plen x)) as [H|H]; unfold plen in H.
  - rewrite (proj2 (Nat.leb_le _ _) H). repeat constructor; [|done..].
    intros z [<-|Hz]; [done|]. specialize (Hy z Hz). unfold plen in *. lia.
  - rewrite (proj2 (Nat.leb_gt _ _) H). constructor; [|done].
    intros z [->|Hz]%insert_by_len_elem; [unfold plen; lia|auto].
Qed.

Lemma sort_descending l : descending (sort_by_len l).
Proof. induction l; simpl; [constructor|by apply insert_descending]. Qed.

(** The first match after an insertion: the new rule, unless a longer one
    matches. *)
Lemma find_insert (P : HttpRouteRule -> bool) x l :
  descending l ->
  List.find P (insert_by_len x l) =
    if P x && match List.find P l with Some y => (plen y <=? plen x)%nat | None => true end
    then Some x else List.find P l.
Proof.
  induction 1 as [|y l Hy Hl IH]; simpl; [by destruct (P x)|]. unfold plen in *.
  destruct (Nat.leb_spec (String.length (path_prefix y)) (String.length (path_prefix x))) as [H|H]; simpl.
  - destruct (P x) eqn:Hx; simpl; [|done]. destruct (P y) eqn:Hpy.
    + by rewrite (proj2 (Nat.leb_le _ _) H).
    + destruct (List.find P l) as [z|] eqn:Hz; [|done].
      apply List.find_some in Hz as [Hz _]. specialize (Hy z Hz).
      by rewrite (proj2 (Nat.leb_le _ _)) by lia.
  - rewrite IH. destruct (P y) eqn:Hpy; [|done].
    by rewrite (proj2 (Nat.leb_gt _ _) H), andb_false_r.
Qed.

(** [r] is the rule that wins among [rules] for the requests of [P]: the
    longest, and the first of the longest. *)
Definition wins (P : HttpRouteRule -> bool) (rules : list HttpRouteRule) (r : HttpRouteRule) : Prop :=
  exists pre post, rules = pre ++ r :: post /\ P r = true /\
    (forall r', In r' pre -> P r' = true -> (plen r' < plen r)%nat) /\
    (forall r', In r' post -> P r' = true -> (plen r' <= plen r)%nat).

Lemma wins_max P rules r r' : wins P rules r -> In r' rules -> P r' = true -> (plen r' <= plen r)%nat.
Proof.
  intros (pre & post & -> & _ & Hpre & Hpost) [Hin|[->|Hin]]%in_app_iff Hp; [|done|auto].
  specialize (Hpre r' Hin Hp). lia.
Qed.

Lemma find_sorted P rules :
  match List.find P (sort_by_len rules) with
  | Some r => wins P rules r
  | None => forall r, In r rules -> P r = false
  end.
Proof.
  induction rules as [|x rules IH]; simpl; [done|]. rewrite find_insert by apply sort_descending.
  destruct (List.find P (sort_by_len rules)) as [y|].
  - destruct (P x) eqn:Hx; simpl; [destruct (Nat.leb_spec (plen y) (plen x)) as [Hle|Hlt]|].
    + exists [], rules. split_and!; [done..|]. intros r' Hin Hp.
      pose proof (wins_max P rules y r' IH Hin Hp). lia.
    + destruct IH as (pre & post & -> & Hy & Hpre & Hpost).
      exists (x :: pre), post. split_and!; [done..| |done]. intros r' [<-|Hin] Hp; [done|auto].
    + destruct IH as (pre & post & -> & Hy & Hpre & Hpost).
      exists (x :: pre), post. split_and!; [done..| |done]. intros r' [<-|Hin] Hp; [congruence|auto].
  - destruct (P x) eqn:Hx; simpl.
    + exists [], rules. split_and!; [done..|]. intros r' Hin Hp. specialize (IH r' Hin). congruence.
    + intros r [<-|Hin]; [done|auto].
Qed.

(** ** The text, line by line *)

Lemma dns_plain s : is_dns_name s = true -> plain_line s = true.
Proof.
  apply forall_chars_impl. intros c Hc. unfold is_dns_char, in_range in Hc.
  destruct (Ascii.eqb_spec c nl) as [->|]; [done|]. by destruct (Ascii.eqb_spec c cr) as [->|].
Qed.

Lemma prefix_plain s : forall_chars is_prefix_char s = true -> plain_line s = true.
Proof.
  apply forall_chars_impl. intros c Hc. unfold is_prefix_char, in_range in Hc.
  destruct (Ascii.eqb_spec c nl) as [->|]; [done|]. by destruct (Ascii.eqb_spec c cr) as [->|].
Qed.

Lemma plain_app a b : plain_line (a +:+ b) = plain_line a && plain_line b.
Proof. apply forall_chars_app. Qed.

Definition route_lines (p c : string) : list string :=
  [ "            - match:"; dq "                prefix: '" +:+ p +:+ dq "'"; "              route:";
    "                cluster: " +:+ c; "                upgrade_configs:";
    "                - upgrade_type: websocket" ].

Lemma route_entry_lines p c : route_entry p c = unlines (route_lines p c).
Proof.
  unfold route_lines, route_entry. rewrite !unlines_cons, <- !sapp_assoc. reflexivity.
Qed.

Lemma read_route_lines p c r :
  char_in dquote p = false ->
  read_routes None (route_lines p c ++ r) = (p, c) :: read_routes None r.
Proof.
  intros Hp. unfold route_lines. cbn [app read_routes].
  rewrite !strip_prefix_app. unfold split_first. 
  change (dq "'") with (String dquote ""). rewrite split_once_app by done. reflexivity.
Qed.

Lemma pretty_N_go_dns x s : is_dns_name s = true -> is_dns_name (pretty.pretty_N_go x s) = true.
Proof.
  revert s. induction (N.lt_wf_0 x) as [x _ IH]; intros s Hs.
  destruct (decide (x = 0)%N) as [->|Hx]; [done|].
  rewrite pretty.pretty_N_go_step by lia. apply IH; [apply N.div_lt; lia|].
  unfold is_dns_name in *. simpl. rewrite Hs, andb_true_r.
  generalize (x mod 10)%N. intros [|p]; [done|]. unfold pretty.pretty_N_char.
  repeat (destruct p as [p|p|]; try done).
Qed.

Lemma pretty_Z_dns (z : Z) : is_dns_name (pretty z) = true.
Proof.
  assert (forall n : N, is_dns_name (pretty n) = true) as HN.
  { intros n. unfold pretty, pretty.pretty_N. case_decide; [done|]. by apply pretty_N_go_dns. }
  destruct z as [|p|p]; [done|apply HN|]. unfold is_dns_name. 
  change (pretty (Z.neg p)) with (String "-"%char (pretty (N.pos p))). simpl. apply HN.
Qed.

Lemma cluster_name_plain b : wf_backend b = true -> plain_line (cluster_name b) = true.
Proof.
  intros [H1 H2]%andb_true_iff. unfold cluster_name.
  rewrite !plain_app, (dns_plain _ H1), (dns_plain _ H2), (dns_plain _ (pretty_Z_dns (port b))). done.
Qed.

(** Names of clusters determine the backend. *)
Lemma no_underscore s : is_dns_name s = true -> char_in "_"%char s = false.
Proof. intros H. by eapply forall_chars_char_in. Qed.

Lemma underscore_inj a b c d :
  is_dns_name a = true -> is_dns_name c = true -> a +:+ "_" +:+ b = c +:+ "_" +:+ d -> a = c /\ b = d.
Proof.
  intros Ha Hc Heq. pose proof (split_once_app "_"%char a b (no_underscore _ Ha)) as E.
  change (String "_" b) with ("_" +:+ b) in E. rewrite Heq in E.
  change ("_" +:+ d) with (String "_" d) in E. rewrite split_once_app in E by by apply no_underscore.
  by injection E as -> ->.
Qed.

Lemma cluster_name_inj b b' :
  wf_backend b = true -> wf_backend b' = true -> cluster_name b = cluster_name b' -> b = b'.
Proof.
  intros [H1 H2]%andb_true_iff [H1' H2']%andb_true_iff Heq.
  apply underscore_inj in Heq as [Hs Heq]; [|done..].
  apply underscore_inj in Heq as [Hn Hp]; [|done..]. apply (inj pretty) in Hp.
  destruct b, b'; simpl in *. congruence.
Qed.

(** *** Routes *)

(** The routes written, in order. *)
Definition rule_route (r : HttpRouteRule) : option (string * string) :=
  b ← head (backends r); Some (path_prefix r, cluster_name b).

Definition rds_header (hostname : string) : list string :=
  [ "resources:"; dq "- '@type': type.googleapis.com/envoy.config.route.v3.RouteConfiguration";
    "  name: gateway-routes"; "  virtual_hosts:"; "  - name: gateway"; "    domains:";
    dq "    - '" +:+ hostname +:+ dq "'"; dq "    - '*'"; "    routes:" ].

Lemma generate_rds_split hostname rules :
  generate_rds_yaml hostname rules =
    unlines (rds_header hostname) +:+
    (let e := str_concat (rule_entry <$> sort_by_len rules) in if is_empty e then no_backends_entry else e).
Proof.
  unfold generate_rds_yaml, rds_header. rewrite !unlines_cons_app, <- !sapp_assoc. reflexivity.
Qed.

Lemma wf_rule_backend r b : wf_rule r = true -> In b (backends r) -> wf_backend b = true.
Proof. intros [_ H]%andb_true_iff. rewrite forallb_forall in H. auto. Qed.

Lemma read_entries rules :
  forallb wf_rule rules = true ->
  read_routes None (lines (str_concat (rule_entry <$> rules))) = omap rule_route rules.
Proof.
  induction rules as [|r rules IH]; [done|]. cbn [forallb]. intros [Hr Hrs]%andb_true_iff.
  specialize (IH Hrs). rewrite fmap_cons, omap_cons_eq. cbn [str_concat foldr].
  change (foldr String.append "" (rule_entry <$> rules)) with (str_concat (rule_entry <$> rules)).
  unfold rule_entry at 1, rule_route at 1. destruct (backends r) as [|b bs] eqn:Hb; [exact IH|].
  cbn [head mbind option_bind].
  pose proof (wf_rule_backend r b Hr ltac:(rewrite Hb; by left)) as Hwb.
  apply andb_true_iff in Hr as [Hp _].
  rewrite route_entry_lines, lines_unlines.
  - rewrite read_route_lines; [by rewrite IH|]. by eapply forall_chars_char_in.
  - unfold route_lines. cbn [forallb]. rewrite !plain_app, (prefix_plain _ Hp), (cluster_name_plain _ Hwb).
    reflexivity.
Qed.

Lemma entries_empty rules :
  is_empty (str_concat (rule_entry <$> rules)) = true -> omap rule_route rules = [].
Proof.
  induction rules as [|r rules IH]; [done|]. rewrite fmap_cons, omap_cons_eq.
  unfold rule_entry at 1, rule_route at 1. by destruct (backends r).
Qed.

Lemma read_rds_generated hostname rules :
  plain_line hostname = true -> forallb wf_rule rules = true ->
  read_rds (generate_rds_yaml hostname rules) = omap rule_route (sort_by_len rules).
Proof.
  intros Hh Hwf. unfold read_rds. rewrite generate_rds_split, lines_unlines.
  2:{ unfold rds_header. cbn [forallb]. rewrite !plain_app, Hh. reflexivity. }
  assert (Hs : forallb wf_rule (sort_by_len rules) = true).
  { rewrite forallb_forall in *. intros r Hr. apply Hwf. by apply sort_by_len_elem. }
  cbv zeta. destruct (is_empty _) eqn:He.
  - rewrite entries_empty by done. reflexivity.
  - etransitivity; [|by apply read_entries]. reflexivity.
Qed.

(** *** Clusters *)

Definition tls_lines : list string :=
  [ "  transport_socket:"; "    name: envoy.transport_sockets.tls"; "    typed_config:";
    dq "      '@type': type.googleapis.com/envoy.extensions.transport_sockets.tls.v3.UpstreamTlsContext";
    "      common_tls_context:"; "        validation_context:";
    "          trust_chain_verification: ACCEPT_UNTRUSTED" ].

Definition cluster_lines (c : Cluster) : list string :=
  [ dq "- '@type': type.googleapis.com/envoy.config.cluster.v3.Cluster"; "  name: " +:+ cl_name c;
    "  type: STRICT_DNS"; "  lb_policy: ROUND_ROBIN" ] ++
  (if cl_tls c then tls_lines else []) ++
  [ "  load_assignment:"; "    cluster_name: " +:+ cl_name c; "    endpoints:"; "    - lb_endpoints:";
    "      - endpoint:"; "          address:"; "            socket_address:";
    "              address: " +:+ cl_address c; "              port_value: " +:+ cl_port c ].

(** The upstream a backend stands for. *)
Definition backend_upstream (tls_ports : gset Z) (b : HttpRouteBackend) : Cluster := {|
  cl_name := cluster_name b;
  cl_tls := bool_decide (port b ∈ tls_ports);
  cl_address := service_name b +:+ "." +:+ hb_namespace b +:+ ".svc.cluster.local";
  cl_port := pretty (port b) |}.

Definition auth_proxy_upstream : Cluster := {|
  cl_name := "kube-auth-proxy"; cl_tls := true;
  cl_address := "kube-auth-proxy.openshift-ingress.svc.cluster.local"; cl_port := "8443" |}.

Lemma auth_proxy_lines : auth_proxy_cluster = unlines (cluster_lines auth_proxy_upstream).
Proof. vm_compute. reflexivity. Qed.

Lemma backend_cluster_lines tls b :
  backend_cluster tls b = unlines (cluster_lines (backend_upstream tls b)).
Proof.
  unfold backend_cluster, cluster_lines. cbn [backend_upstream cl_name cl_tls cl_address cl_port].
  case_decide as Hd.
  - rewrite bool_decide_eq_true_2 by done. unfold tls_lines. cbn [app].
    rewrite !unlines_cons, <- !sapp_assoc. reflexivity.
  - rewrite bool_decide_eq_false_2 by done. cbn [app].
    rewrite !unlines_cons, <- !sapp_assoc. reflexivity.
Qed.

(** One line of the clusters file. *)
Lemma read_other_line n t a l r :
  strip_prefix "  name: " l = None -> String.eqb l "  transport_socket:" = false ->
  strip_prefix "              address: " l = None -> strip_prefix "              port_value: " l = None ->
  read_clusters n t a (l :: r) = read_clusters n t a r.
Proof. cbn [read_clusters]. by intros -> -> -> ->. Qed.

Lemma read_name_line n t a x r : read_clusters n t a (("  name: " +:+ x) :: r) = read_clusters x false "" r.
Proof. cbn [read_clusters]. by rewrite strip_prefix_app. Qed.

Lemma read_tls_line n t a r : read_clusters n t a ("  transport_socket:" :: r) = read_clusters n true a r.
Proof. reflexivity. Qed.

Lemma read_address_line n t a x r :
  read_clusters n t a (("              address: " +:+ x) :: r) = read_clusters n t x r.
Proof. cbn [read_clusters]. rewrite strip_prefix_app. reflexivity. Qed.

Lemma read_port_line n t a x r :
  read_clusters n t a (("              port_value: " +:+ x) :: r) =
    {| cl_name := n; cl_tls := t; cl_address := a; cl_port := x |} :: read_clusters n t a r.
Proof. cbn [read_clusters]. rewrite strip_prefix_app. reflexivity. Qed.

Ltac read_lines :=
  repeat first
    [ rewrite read_name_line | rewrite read_tls_line | rewrite read_address_line | rewrite read_port_line
    | rewrite read_other_line by reflexivity ].

Lemma read_cluster_lines n t a c r :
  read_clusters n t a (cluster_lines c ++ r) = c :: read_clusters (cl_name c) (cl_tls c) (cl_address c) r.
Proof.
  unfold cluster_lines, tls_lines.
  destruct c as [cn [] ca cp]; cbn [app cl_tls cl_name cl_address cl_port]; by read_lines.
Qed.

Definition plain_cluster (c : Cluster) : bool :=
  plain_line (cl_name c) && plain_line (cl_address c) && plain_line (cl_port c).

Lemma lines_cluster c r :
  plain_cluster c = true -> lines (unlines (cluster_lines c) +:+ r) = cluster_lines c ++ lines r.
Proof.
  unfold plain_cluster. intros [[H1 H2]%andb_true_iff H3]%andb_true_iff. apply lines_unlines.
  unfold cluster_lines. destruct (cl_tls c); cbn [app tls_lines forallb]; rewrite !plain_app, H1, H2, H3;
    reflexivity.
Qed.

Lemma backend_upstream_plain tls b : wf_backend b = true -> plain_cluster (backend_upstream tls b) = true.
Proof.
  intros Hb. unfold plain_cluster. cbn [backend_upstream cl_name cl_address cl_port].
  rewrite (cluster_name_plain _ Hb), (dns_plain _ (pretty_Z_dns (port b))), !plain_app.
  apply andb_true_iff in Hb as [H1 H2]. by rewrite (dns_plain _ H1), (dns_plain _ H2).
Qed.

(** The backends that get a cluster: the first of each name. *)
Fixpoint distinct (seen : gset string) (bs : list HttpRouteBackend) : list HttpRouteBackend :=
  match bs with
  | [] => []
  | b :: r => if decide (cluster_name b ∈ seen) then distinct seen r
              else b :: distinct ({[cluster_name b]} ∪ seen) r
  end.

Lemma read_backend_clusters tls bs seen n t a :
  forallb wf_backend bs = true ->
  read_clusters n t a (lines (backend_clusters tls seen bs)) = backend_upstream tls <$> distinct seen bs.
Proof.
  revert seen n t a. induction bs as [|b bs IH]; intros seen n t a; [done|].
  cbn [forallb backend_clusters distinct]. intros [Hb Hbs]%andb_true_iff. case_decide; [by apply IH|].
  rewrite backend_cluster_lines, lines_cluster by by apply backend_upstream_plain.
  rewrite read_cluster_lines, fmap_cons. f_equal. by apply IH.
Qed.

Lemma read_cds_generated rules tls :
  forallb wf_rule rules = true ->
  read_cds (generate_cds_yaml rules tls) =
    auth_proxy_upstream :: (backend_upstream tls <$> distinct ∅ (List.flat_map backends rules)).
Proof.
  intros Hwf. unfold read_cds, generate_cds_yaml.
  change ("resources:" +:+ newline +:+ auth_proxy_cluster +:+ ?r)
    with ("resources:" +:+ String nl (auth_proxy_cluster +:+ r)).
  rewrite lines_cons by reflexivity. rewrite auth_proxy_lines, lines_cluster by reflexivity.
  change (drop_last_cr "resources:") with "resources:". 
  change (read_clusters "" false "" ("resources:" :: ?l)) with (read_clusters "" false "" l).
  rewrite read_cluster_lines. f_equal. apply read_backend_clusters.
  rewrite forallb_forall in *. intros b (r & Hr & Hb)%in_flat_map. by eapply wf_rule_backend, Hb; apply Hwf.
Qed.

Lemma distinct_elem seen bs b : In b (distinct seen bs) -> In b bs /\ cluster_name b ∉ seen.
Proof.
  revert seen. induction bs as [|x bs IH]; intros seen; simpl; [done|]. case_decide.
  - intros []%IH. auto.
  - intros [<-|[? ?]%IH]; [auto|]. set_solver.
Qed.

Lemma distinct_names seen bs : NoDup (cluster_name <$> distinct seen bs).
Proof.
  revert seen. induction bs as [|x bs IH]; intros seen; simpl; [constructor|]. case_decide; [done|].
  rewrite fmap_cons. constructor; [|done].
  intros (y & Hy & Hin%list_elem_of_In)%list_elem_of_fmap.
  apply distinct_elem in Hin as [_ Hni]. set_solver.
Qed.

Lemma distinct_covers seen bs b :
  In b bs -> cluster_name b ∉ seen -> exists b', In b' (distinct seen bs) /\ cluster_name b' = cluster_name b.
Proof.
  revert seen. induction bs as [|x bs IH]; intros seen; simpl; [done|]. intros [->|Hin] Hs.
  - rewrite decide_False by done. exists b. simpl. auto.
  - case_decide; [by apply IH|]. destruct (decide (cluster_name x = cluster_name b)) as [Heq|Hne].
    + exists x. simpl. auto.
    + destruct (IH ({[cluster_name x]} ∪ seen) Hin) as (b' & ? & ?); [set_solver|]. exists b'. simpl. auto.
Qed.

Lemma auth_proxy_name b : cluster_name b <> "kube-auth-proxy".
Proof.
  intros Heq. assert (H : char_in "_"%char (cluster_name b) = true).
  { unfold cluster_name. autorewrite with ruststr. by rewrite orb_true_r. }
  by rewrite Heq in H.
Qed.

(** The cluster found by the name of a backend is that backend's. *)
Lemma find_cluster rules tls b :
  forallb wf_rule rules = true -> In b (List.flat_map backends rules) ->
  List.find (fun c => String.eqb (cl_name c) (cluster_name b)) (read_cds (generate_cds_yaml rules tls)) =
    Some (backend_upstream tls b).
Proof.
  intros Hwf Hb. rewrite read_cds_generated by done.
  assert (Hall : forall b, In b (List.flat_map backends rules) -> wf_backend b = true).
  { rewrite forallb_forall in Hwf. intros x (r & Hr & Hx)%in_flat_map.
    by eapply wf_rule_backend, Hx; apply Hwf. }
  destruct (distinct_covers ∅ _ b Hb ltac:(set_solver)) as (b' & Hin & Hn).
  cbn [List.find auth_proxy_upstream cl_name].
  destruct (String.eqb_spec "kube-auth-proxy" (cluster_name b)) as [He|_]; [by destruct (auth_proxy_name b)|].
  assert (Hsub : forall x, In x (distinct ∅ (List.flat_map backends rules)) -> wf_backend x = true)
    by (intros x [? _]%distinct_elem; auto).
  revert Hin Hsub. generalize (distinct ∅ (List.flat_map backends rules)).
  induction l as [|x l IH]; [done|]. intros Hin Hsub. rewrite fmap_cons. cbn [List.find backend_upstream cl_name].
  destruct (String.eqb_spec (cluster_name x) (cluster_name b)) as [He|Hne].
  - f_equal. apply cluster_name_inj in He as ->; [done|apply Hsub; by left|auto].
  - apply IH; [|intros; apply Hsub; by right]. destruct Hin as [->|]; [congruence|done].
Qed.

(** A rule serves a path if its prefix matches and it has a backend. *)
Definition serves (path : string) (r : HttpRouteRule) : bool :=
  starts_with (path_prefix r) path && match backends r with [] => false | _ => true end.

Lemma find_route path rules :
  List.find (fun r => starts_with r.1 path) (omap rule_route rules) =
    r ← List.find (serves path) rules; rule_route r.
Proof.
  induction rules as [|r rules IH]; [done|]. rewrite omap_cons_eq. cbn [List.find].
  unfold serves at 1. unfold rule_route at 1. destruct (backends r) as [|b bs] eqn:Hb.
  - rewrite andb_false_r. exact IH.
  - cbn [head mbind option_bind List.find fst]. rewrite andb_true_r.
    destruct (starts_with (path_prefix r) path); [|exact IH]. cbn [mbind option_bind].
    unfold rule_route. by rewrite Hb.
Qed.

(** Some DestinationRule of [drs] has a port-level setting for port [p] with
    a TLS mode.  Any mode counts, [DISABLE] included, and the host of the rule
    is not looked at. *)
Definition asks_tls (drs : list DynamicObject) (p : Z) : Prop :=
  exists dr settings setting mode n,
    In dr drs /\
    (get "spec" (data dr) ≫= get "trafficPolicy") ≫= get_array "portLevelSettings" = Some settings /\
    In setting settings /\
    get "tls" setting ≫= get_str "mode" = Some mode /\
    (get "port" setting ≫= get "number") ≫= as_u64 = Some n /\
    p = cast_u16 n.

Lemma tls_port_of_spec setting p :
  tls_port_of setting = Some p <->
  exists mode n, get "tls" setting ≫= get_str "mode" = Some mode /\
    (get "port" setting ≫= get "number") ≫= as_u64 = Some n /\ p = cast_u16 n.
Proof.
  unfold tls_port_of. destruct (get "tls" setting ≫= get_str "mode") as [mode|]; cbn [mbind option_bind].
  2:{ split; [done|]. by intros (? & ? & ? & _). }
  destruct (get "port" setting) as [v|]; cbn [mbind option_bind].
  2:{ split; [done|]. by intros (? & ? & _ & ? & _). }
  destruct (get "number" v ≫= as_u64) as [n|]; cbn [mbind option_bind].
  - split; [intros [= <-]; by exists mode, n|]. by intros (? & ? & _ & [= <-] & ->).
  - split; [done|]. by intros (? & ? & _ & ? & _).
Qed.

Lemma elem_tls_ports_of drs p : p ∈ tls_ports_of drs <-> asks_tls drs p.
Proof.
  unfold tls_ports_of. rewrite elem_of_union_list. split.
  - intros (ps & (dr & -> & Hdr)%list_elem_of_fmap & Hp). unfold extract_tls_ports in Hp.
    destruct (get "spec" (data dr)) as [spec|] eqn:Hs; cbn [mbind option_bind] in Hp; [|set_solver].
    destruct (get "trafficPolicy" spec) as [tp|] eqn:Ht; cbn [mbind option_bind] in Hp; [|set_solver].
    destruct (get_array "portLevelSettings" tp) as [settings|] eqn:Ha; [|set_solver].
    apply elem_of_list_to_set, list_elem_of_omap in Hp as (setting & Hin & Hp).
    apply tls_port_of_spec in Hp as (mode & n & Hm & Hn & ->).
    exists dr, settings, setting, mode, n.
    rewrite Hs. cbn [mbind option_bind]. rewrite Ht. cbn [mbind option_bind].
    rewrite <- !list_elem_of_In. auto 10.
  - intros (dr & settings & setting & mode & n & Hdr & Hs & Hin & Hm & Hn & ->).
    exists (extract_tls_ports dr). apply list_elem_of_In in Hdr, Hin.
    split; [by apply list_elem_of_fmap_2|]. unfold extract_tls_ports.
    destruct (get "spec" (data dr)) as [spec|]; cbn [mbind option_bind] in *; [|done].
    destruct (get "trafficPolicy" spec) as [tp|]; cbn [mbind option_bind] in *; [|done].
    rewrite Hs. apply elem_of_list_to_set, list_elem_of_omap. exists setting. split; [done|].
    apply tls_port_of_spec. eauto.
Qed.

(** C11: Reading back the route and cluster files generated from a list of
    HTTPRoute rules and a list of DestinationRules, a request path goes to the
    first backend of the rule with the longest matching prefix (the first such
    rule, among rules with a backend), at that backend's service address and
    port; over TLS exactly when some DestinationRule has a port-level setting
    with a TLS mode, whichever it is, for that port number, whichever host the
    rule is for; it goes nowhere only if no rule with a backend matches. *)
Theorem gateway_longest_prefix hostname rules drs path :
  plain_line hostname = true -> forallb wf_rule rules = true ->
  match envoy_upstream (generate_rds_yaml hostname rules) (generate_cds_yaml rules (tls_ports_of drs)) path with
  | Some u => exists r b bs, wins (serves path) rules r /\ backends r = b :: bs /\
      cl_address u = service_name b +:+ "." +:+ hb_namespace b +:+ ".svc.cluster.local" /\
      cl_port u = pretty (port b) /\
      (cl_tls u = true <-> asks_tls drs (port b))
  | None => forall r, In r rules -> serves path r = false
  end.
Proof.
  intros Hh Hwf. unfold envoy_upstream. rewrite read_rds_generated, find_route by done.
  pose proof (find_sorted (serves path) rules) as Hf.
  destruct (List.find (serves path) (sort_by_len rules)) as [r|]; [|exact Hf].
  pose proof Hf as (pre & post & Hr & Hs & _). unfold serves in Hs. apply andb_true_iff in Hs as [_ Hs].
  cbn [mbind option_bind]. unfold rule_route. destruct (backends r) as [|b bs] eqn:Hb; [done|].
  cbn [head mbind option_bind snd]. rewrite find_cluster; [|done|].
  { exists r, b, bs. split_and!; [done..|]. cbn [backend_upstream cl_tls].
    by rewrite bool_decide_eq_true, elem_tls_ports_of. }
  apply in_flat_map. exists r. rewrite Hb, Hr. split; [apply in_elt|by left].
Qed.

(** C26: No two clusters of the generated cluster file have the same name, the
    authorization proxy's is the first, and every route of the generated route
    file names one of them. *)
Theorem gateway_clusters_defined hostname rules tls :
  plain_line hostname = true -> forallb wf_rule rules = true ->
  let clusters := read_cds (generate_cds_yaml rules tls) in
  NoDup (cl_name <$> clusters) /\
  head clusters = Some auth_proxy_upstream /\
  forall p c, In (p, c) (read_rds (generate_rds_yaml hostname rules)) -> In c (cl_name <$> clusters).
Proof.
  intros Hh Hwf clusters. unfold clusters. rewrite read_rds_generated by done. split_and!.
  - rewrite read_cds_generated, fmap_cons by done. constructor.
    + intros (x & Hx & Hin)%list_elem_of_fmap. apply list_elem_of_fmap in Hin as (b & -> & _).
      apply (auth_proxy_name b). symmetry. exact Hx.
    + rewrite <- list_fmap_compose. apply distinct_names.
  - by rewrite read_cds_generated.
  - intros p c Hin. apply list_elem_of_In, list_elem_of_omap in Hin as (r & Hin & Hr).
    apply list_elem_of_In, (proj1 (sort_by_len_elem _ _)) in Hin. unfold rule_route in Hr.
    destruct (backends r) as [|b bs] eqn:Hb; [done|]. injection Hr as <- <-.
    assert (Hbin : In b (List.flat_map backends rules)).
    { apply in_flat_map. exists r. rewrite Hb. split; [done|by left]. }
    pose proof (find_cluster rules tls b Hwf Hbin) as Hfc. apply List.find_some in Hfc as [Hi _].
    by apply (List.in_map cl_name) in Hi.
Qed.

(** ** Witnesses *)

Definition sample_rules : list HttpRouteRule :=
  [ {| path_prefix := "/"; backends := [ {| service_name := "web"; hb_namespace := "apps"; port := 80 |} ] |};
    {| path_prefix := "/api"; backends := [ {| service_name := "api"; hb_namespace := "apps"; port := 8443 |} ] |};
    {| path_prefix := "/api/v2"; backends := [] |} ].

Definition sample_dest_rule : DynamicObject :=
  Dyn (named "tls" (Some "openshift-ingress"))
    (jobj [ "spec" =: jobj [ "host" =: VString "elsewhere"; "trafficPolicy" =: jobj [ "portLevelSettings" =: VArray
      [ jobj [ "port" =: jobj [ "number" =: jint 8443 ]; "tls" =: jobj [ "mode" =: VString "DISABLE" ] ] ] ] ] ]).

Example gateway_longest_prefix_witness :
  envoy_upstream (generate_rds_yaml "gw.apps.ocp-sim.test" sample_rules)
    (generate_cds_yaml sample_rules (tls_ports_of [sample_dest_rule])) "/api/v2/x" =
    Some {| cl_name := "api_apps_8443"; cl_tls := true; cl_address := "api.apps.svc.cluster.local";
            cl_port := "8443" |} /\
  exists r b, wins (serves "/api/v2/x") sample_rules r /\ head (backends r) = Some b /\
    asks_tls [sample_dest_rule] (port b).
Proof.
  pose proof (gateway_longest_prefix "gw.apps.ocp-sim.test" sample_rules [sample_dest_rule] "/api/v2/x"
                eq_refl eq_refl) as H.
  assert (He : envoy_upstream (generate_rds_yaml "gw.apps.ocp-sim.test" sample_rules)
    (generate_cds_yaml sample_rules (tls_ports_of [sample_dest_rule])) "/api/v2/x" =
    Some {| cl_name := "api_apps_8443"; cl_tls := true; cl_address := "api.apps.svc.cluster.local";
            cl_port := "8443" |}) by (vm_compute; reflexivity).
  rewrite He in *. split; [reflexivity|]. destruct H as (r & b & bs & Hw & Hb & _ & _ & Ht).
  exists r, b. split; [exact Hw|]. split; [by rewrite Hb|]. by apply Ht.
Defined.

Example gateway_clusters_defined_witness :
  NoDup (cl_name <$> read_cds (generate_cds_yaml sample_rules {[8443]})) /\
  In "api_apps_8443" (cl_name <$> read_cds (generate_cds_yaml sample_rules {[8443]})).
Proof.
  destruct (gateway_clusters_defined "gw.apps.ocp-sim.test" sample_rules {[8443]} eq_refl eq_refl)
    as (H1 & _ & H3).
  split; [exact H1|]. apply (H3 "/api"). vm_compute. by left.
Defined.
