(* ===== verification/Gateway.v ===== *)
(** * [gateway.rs], second half: the controllers of the Gateway API

    GatewayClass acceptance, the Envoy infrastructure of a Gateway, and the
    configuration kept in step with HTTPRoutes and DestinationRules. *)

From S2P Require Import Prelude RustStr Json Prog Kube Util Controller GatewayConfig GatewayRouting.
Open Scope list_scope.
Open Scope Z_scope.

(** ** GatewayClass *)

Definition accepted_condition (message : option string) (now : string) (generation : Z) : Value :=
  jobj ([ "type" =: VString "Accepted"; "status" =: VString "True"; "reason" =: VString "Accepted" ] ++
        match message with Some m => [ "message" =: VString m ] | None => [] end ++
        [ "lastTransitionTime" =: VString now; "observedGeneration" =: jint generation ]).

Definition generation (o : DynamicObject) : Z := default 0 (om_generation (dyn_metadata o)).

Definition gateway_class_status (gc : DynamicObject) (now : string) : Value :=
  jobj [ "conditions" =: VArray
    [ accepted_condition (Some "GatewayClass accepted by ocp-sim") now (generation gc) ] ].

Definition reconcile_gateway_class (gc : DynamicObject) : prog ctrlE (KRes Action) :=
  if negb (is_our_gateway_class gc) then Ret (Ok AwaitChange)
  else
    let name := name_any gc in
    if is_gateway_class_accepted gc then Ret (Ok AwaitChange)
    else
      now ⟵ trigger UtcNowRfc3339;
      _ ⟵? trigger (KPatchStatus (KDynamic gateway_class_ar) All name (Some "ocp-sim-gateway")
                      (Merge (jobj [ "status" =: gateway_class_status gc now ])));
      Ret (Ok AwaitChange).

(** ** Envoy's objects *)

Definition config_map (name ns : string) (d : gmap string string) : ConfigMap :=
  {| cm_metadata := named name (Some ns); cm_data := Some d |}.

Definition xds_files (hostname : string) (rules : list HttpRouteRule) (tls_ports : gset Z) :
    list (string * string) :=
  [ ("lds.yaml", generate_lds_yaml hostname);
    ("rds.yaml", generate_rds_yaml hostname rules);
    ("cds.yaml", generate_cds_yaml rules tls_ports) ].

Definition ensure_envoy_configmaps (ns hostname : string) : prog ctrlE (KRes unit) :=
  bootstrap ⟵? trigger (KGetOpt KConfigMap (Namespaced ns) "envoy-bootstrap");
  _ ⟵? (match bootstrap with
        | Some _ => Ret (Ok tt)
        | None =>
            let cm := config_map "envoy-bootstrap" ns {[ "bootstrap.yaml" := generate_bootstrap_yaml ]} in
            _ ⟵? trigger (KCreate KConfigMap (Namespaced ns) cm);
            Ret (Ok tt)
        end);
  xds ⟵? trigger (KGetOpt KConfigMap (Namespaced ns) "envoy-xds-config");
  match xds with
  | Some _ => Ret (Ok tt)
  | None =>
      let cm := config_map "envoy-xds-config" ns (list_to_map (xds_files hostname [] ∅)) in
      _ ⟵? trigger (KCreate KConfigMap (Namespaced ns) cm);
      Ret (Ok tt)
  end.

Definition read_only_mount (name path : string) : VolumeMount :=
  {| vm_name := name; vm_mount_path := path; vm_read_only := Some true |}.
Definition config_map_volume (name cm : string) : Volume :=
  {| vol_name := name; vol_config_map := Some cm; vol_secret := None |}.

Definition envoy_deployment (ns gateway_name : string) : Deployment :=
  let labels : gmap string string :=
    list_to_map [ ("app", "envoy-gateway"); ("gateway.networking.k8s.io/gateway-name", gateway_name) ] in
  {| dep_metadata := named gateway_name (Some ns);
     dep_spec := Some {|
       ds_replicas := Some 1;
       ds_selector := Some labels;
       ds_template_labels := Some labels;
       ds_template_spec := Some {|
         pod_containers := [
           {| ct_name := "envoy";
              ct_image := Some ENVOY_IMAGE;
              ct_args := Some ["-c"; "/etc/envoy/bootstrap/bootstrap.yaml"; "--log-level"; "info"];
              ct_ports := Some [ {| cp_container_port := ENVOY_LISTEN_PORT; cp_name := Some "https";
                                    cp_protocol := Some "TCP" |} ];
              ct_volume_mounts := Some [ read_only_mount "bootstrap" "/etc/envoy/bootstrap";
                                         read_only_mount "xds" "/etc/envoy/xds";
                                         read_only_mount "tls" "/etc/envoy/tls" ] |} ];
         pod_volumes := Some [
           config_map_volume "bootstrap" "envoy-bootstrap";
           config_map_volume "xds" "envoy-xds-config";
           {| vol_name := "tls"; vol_config_map := None;
              vol_secret := Some {| sv_secret_name := Some TLS_SECRET_NAME; sv_optional := Some true |} |} ] |} |} |}.

Definition ensure_envoy_deployment (ns gateway_name : string) : prog ctrlE (KRes unit) :=
  existing ⟵? trigger (KGetOpt KDeployment (Namespaced ns) gateway_name);
  match existing with
  | Some _ => Ret (Ok tt)
  | None =>
      _ ⟵? trigger (KCreate KDeployment (Namespaced ns) (envoy_deployment ns gateway_name));
      Ret (Ok tt)
  end.

Definition envoy_service (ns svc_name : string) : Service :=
  {| svc_metadata := {|
       om_name := Some svc_name; om_generate_name := None; om_namespace := Some ns; om_labels := None;
       om_annotations := Some {[ "service.beta.openshift.io/serving-cert-secret-name" := TLS_SECRET_NAME ]};
       om_uid := None; om_generation := None; om_owner_references := None |};
     svc_spec := Some {|
       ss_type := None; ss_cluster_ip := None;
       ss_selector := Some {[ "app" := "envoy-gateway" ]};
       ss_ports := Some [ {| sp_name := Some "https"; sp_port := SERVICE_PORT;
                             sp_target_port := Some (IntPort ENVOY_LISTEN_PORT);
                             sp_protocol := Some "TCP" |} ] |};
     svc_status := None |}.

Definition ensure_envoy_service (ns svc_name : string) : prog ctrlE (KRes unit) :=
  existing ⟵? trigger (KGetOpt KService (Namespaced ns) svc_name);
  match existing with
  | Some _ => Ret (Ok tt)
  | None =>
      _ ⟵? trigger (KCreate KService (Namespaced ns) (envoy_service ns svc_name));
      Ret (Ok tt)
  end.

(** ** Configuration from HTTPRoutes *)

Definition references_our_gateway (route : DynamicObject) : bool :=
  match get "spec" (data route) ≫= get_array "parentRefs" with
  | Some refs => existsb (fun pr => bool_decide (get_str "name" pr = Some GATEWAY_NAME)) refs
  | None => false
  end.

Definition rules_of (routes : list DynamicObject) : list HttpRouteRule :=
  List.flat_map (fun route => if references_our_gateway route then extract_httproute_rules route else []) routes.

Definition sync_httproute_config (ns hostname : string) : prog ctrlE (KRes unit) :=
  route_list ⟵? trigger (KList (KDynamic httproute_ar) All None);
  let all_rules := rules_of route_list in
  dr_list ⟵ trigger (KList (KDynamic destination_rule_ar) (Namespaced ns) None);
  let tls_ports := match dr_list with Ok drs => tls_ports_of drs | Err _ => ∅ end in
  let patch := jobj [ "data" =: jobj ((fun kv => (kv.1, VString kv.2)) <$> xds_files hostname all_rules tls_ports) ] in
  _ ⟵? trigger (KPatch KConfigMap (Namespaced ns) "envoy-xds-config" (Some "ocp-sim-gateway") (Merge patch));
  Ret (Ok tt).

(** ** Gateway, HTTPRoute, DestinationRule *)

Definition gateway_status (gw : DynamicObject) (now : string) : Value :=
  jobj [ "conditions" =: VArray
           [ accepted_condition (Some "Gateway accepted by ocp-sim") now (generation gw);
             jobj [ "type" =: VString "Programmed"; "status" =: VString "True";
                    "reason" =: VString "Programmed"; "message" =: VString "Envoy configured by ocp-sim";
                    "lastTransitionTime" =: VString now; "observedGeneration" =: jint (generation gw) ] ];
         "listeners" =: VArray
           [ jobj [ "name" =: VString "https";
                    "supportedKinds" =: VArray
                      [ jobj [ "group" =: VString "gateway.networking.k8s.io"; "kind" =: VString "HTTPRoute" ] ];
                    "attachedRoutes" =: jint 0;
                    "conditions" =: VArray [ accepted_condition None now (generation gw) ] ] ] ].

Definition reconcile_gateway (gw : DynamicObject) : prog ctrlE (KRes Action) :=
  let name := name_any gw in
  let ns := default "" (namespace gw) in
  let class_name := default "" (get "spec" (data gw) ≫= get_str "gatewayClassName") in
  if negb (String.eqb class_name GATEWAY_CLASS_NAME) then Ret (Ok AwaitChange)
  else
    let hostname := default "" (extract_listener_hostname gw) in
    let svc_name := service_full_name name class_name in
    _ ⟵? ensure_envoy_configmaps ns hostname;
    _ ⟵? ensure_envoy_deployment ns name;
    _ ⟵? ensure_envoy_service ns svc_name;
    _ ⟵? sync_httproute_config ns hostname;
    if negb (is_gateway_accepted gw) then
      now ⟵ trigger UtcNowRfc3339;
      _ ⟵? trigger (KPatchStatus (KDynamic gateway_ar) (Namespaced ns) name (Some "ocp-sim-gateway")
                      (Merge (jobj [ "status" =: gateway_status gw now ])));
      Ret (Ok AwaitChange)
    else Ret (Ok AwaitChange).

Definition gateway_hostname (gw : option DynamicObject) : string :=
  match gw with Some gw => default "" (extract_listener_hostname gw) | None => "" end.

Definition reconcile_httproute (route : DynamicObject) : prog ctrlE (KRes Action) :=
  if negb (references_our_gateway route) then Ret (Ok AwaitChange)
  else
    gw ⟵? trigger (KGetOpt (KDynamic gateway_ar) (Namespaced GATEWAY_NS) GATEWAY_NAME);
    _ ⟵? sync_httproute_config GATEWAY_NS (gateway_hostname gw);
    Ret (Ok AwaitChange).

Definition reconcile_destination_rule (_dr : DynamicObject) : prog ctrlE (KRes Action) :=
  gw ⟵? trigger (KGetOpt (KDynamic gateway_ar) (Namespaced GATEWAY_NS) GATEWAY_NAME);
  _ ⟵? sync_httproute_config GATEWAY_NS (gateway_hostname gw);
  Ret (Ok AwaitChange).

Definition error_policy (_obj : DynamicObject) (_error : KubeError) : Action := Requeue 10.

Definition gateway_class_run : Controller ctrlE DynamicObject KubeError :=
  {| ctl_reconcile := reconcile_gateway_class; ctl_error_policy := error_policy |}.

(** The four controllers [run] joins, with the kind of object each watches. *)
Definition gateway_run : list (ApiResource * Controller ctrlE DynamicObject KubeError) :=
  [ (gateway_class_ar, gateway_class_run);
    (gateway_ar, {| ctl_reconcile := reconcile_gateway; ctl_error_policy := error_policy |});
    (httproute_ar, {| ctl_reconcile := reconcile_httproute; ctl_error_policy := error_policy |});
    (destination_rule_ar, {| ctl_reconcile := reconcile_destination_rule; ctl_error_policy := error_policy |}) ].

(** ** GatewayClass acceptance settles *)

Lemma gateway_class_status_accepts meta gc now d :
  is_gateway_class_accepted (Dyn meta (merge_patch (jobj [ "status" =: gateway_class_status gc now ]) d)) = true.
Proof.
  unfold is_gateway_class_accepted. cbn [data]. unfold jobj at 1. rewrite get_merge_single by done.
  cbn [mbind option_bind]. unfold gateway_class_status, jobj at 1, get_array.
  rewrite get_merge_single by done. reflexivity.
Qed.

#[export] Instance gateway_class_controller : StatusController.
Proof.
  refine {| sc_ar := gateway_class_ar; sc_scope := fun _ => All; sc_manager := "ocp-sim-gateway";
            sc_needs := fun gc => is_our_gateway_class gc && negb (is_gateway_class_accepted gc);
            sc_status := gateway_class_status; sc_settles := fun _ => True;
            sc_policy := error_policy; sc_retries := fun _ _ => ex_intro _ 10 eq_refl |}.
  intros o now _ _. rewrite gateway_class_status_accepts. apply andb_false_r.
Defined.

Lemma reconcile_gateway_class_status gc :
  reconcile_gateway_class gc = status_reconcile gateway_class_controller gc.
Proof.
  unfold reconcile_gateway_class, status_reconcile. cbn [sc_needs gateway_class_controller].
  by destruct (is_our_gateway_class gc), (is_gateway_class_accepted gc).
Qed.

(** Reconciling a stored GatewayClass that names this controller leaves it
    accepted, keeps it this controller's, and reconciling what is then stored
    sends nothing; a class of another controller is never touched. *)
Theorem gatewayclass_converges {W} `{!KubeServer W} `{!MergeStatusLaw W} gc (w : W) w' a :
  stored gateway_class_controller w gc ->
  run_ctrl (reconcile_gateway_class gc) w = (Ok a, w') ->
  exists gc', stored gateway_class_controller w' gc' /\
    is_our_gateway_class gc' = is_our_gateway_class gc /\
    (is_our_gateway_class gc = false -> w' = w) /\
    (is_our_gateway_class gc = true -> is_gateway_class_accepted gc' = true) /\
    run_ctrl (reconcile_gateway_class gc') w' = (Ok AwaitChange, w').
Proof.
  intros Hst. rewrite reconcile_gateway_class_status. intros Hr.
  destruct (status_step _ _ _ _ _ Hst Hr) as (gc' & Hst' & _ & _ & Hold & Hnew & Hset).
  specialize (Hset I). cbn [sc_needs gateway_class_controller] in *. exists gc'.
  rewrite reconcile_gateway_class_status.
  assert (Hour : is_our_gateway_class gc' = is_our_gateway_class gc).
  { destruct (is_our_gateway_class gc && negb (is_gateway_class_accepted gc)) eqn:Hn.
    - destruct (Hnew eq_refl) as [now Hd]. unfold is_our_gateway_class. rewrite Hd. by rewrite get_merge_single_ne.
    - by destruct (Hold eq_refl) as [-> _]. }
  split_and!; [done|done| | |].
  - intros Ho. apply Hold. by rewrite Ho.
  - intros Ho. rewrite Hour, Ho in Hset. by apply negb_false_iff in Hset.
  - unfold status_reconcile. cbn [sc_needs gateway_class_controller]. by rewrite Hset.
Qed.

(** ** What the infrastructure theorems rely on

    Without other writers, the objects of the API server by kind, namespace
    and name, and its listings of custom objects. *)

Class GatewayView (W : Type) : Type := {
  obj_at : W -> forall k : Kind, string -> string -> option (Obj k);
  listing : W -> ApiResource -> Scope -> list DynamicObject
}.

Section View.
Context {W : Type} `{!GatewayView W}.

(** Nothing is removed; nothing changes at all. *)
Definition grows (w w' : W) : Prop :=
  forall k ns n, is_Some (obj_at w k ns n) -> is_Some (obj_at w' k ns n).
Definition same_listings (w w' : W) : Prop := forall ar sc, listing w' ar sc = listing w ar sc.
Definition unchanged (w w' : W) : Prop :=
  (forall k ns n, obj_at w' k ns n = obj_at w k ns n) /\ same_listings w w'.

#[global] Instance grows_preorder : PreOrder grows.
Proof. split; [by intros w k ns n|]. intros w1 w2 w3 H1 H2 k ns n ?. auto. Qed.

Lemma unchanged_grows w w' : unchanged w w' -> grows w w'.
Proof. intros [H _] k ns n ?. by rewrite H. Qed.
End View.

(** Merging string members into the data of a config map. *)
Definition set_data (kvs : list (string * string)) (d : gmap string string) : gmap string string :=
  list_to_map kvs ∪ d.

Class GatewayStore (W : Type) `{!KubeServer W} `{!GatewayView W} : Prop := {
  gs_get_opt (w : W) k ns n o w' :
    kube_step (KGetOpt k (Namespaced ns) n) w = (Ok o, w') -> o = obj_at w k ns n /\ unchanged w w';
  gs_list (w : W) ar sc r w' :
    kube_step (KList (KDynamic ar) sc None) w = (r, w') ->
    unchanged w w' /\ forall l, r = Ok l -> l = listing w ar sc;
  gs_create (w : W) k ns o o' w' :
    match k with KDynamic _ => False | _ => True end ->
    kube_step (KCreate k (Namespaced ns) o) w = (Ok o', w') ->
    is_Some (obj_at w' k ns (obj_name k o)) /\ grows w w' /\ same_listings w w' ;
  gs_patch_data (w : W) ns n pp kvs cm o' w' :
    obj_at w KConfigMap ns n = Some cm ->
    kube_step (KPatch KConfigMap (Namespaced ns) n pp
      (Merge (jobj [ "data" =: jobj ((fun kv => (kv.1, VString kv.2)) <$> kvs) ]))) w = (Ok o', w') ->
    (exists cm', obj_at w' KConfigMap ns n = Some cm' /\
       cm_data cm' = Some (set_data kvs (default ∅ (cm_data cm)))) /\ grows w w';
  gs_status (w : W) ar ns n pp p r w' :
    kube_step (KPatchStatus (KDynamic ar) (Namespaced ns) n pp p) w = (r, w') ->
    grows w w' /\ forall ns n, obj_at w' KConfigMap ns n = obj_at w KConfigMap ns n;
  gs_now (w : W) : unchanged w (utc_now w).2
}.
Arguments GatewayStore W {_ _}.

(** ** The infrastructure of a gateway *)

Section Provision.
Context {W : Type} `{!KubeServer W} `{!GatewayView W} {GS : GatewayStore W}.

(** A step that looks for an object and creates it if there is none. *)
Definition ensure (k : Kind) (ns : string) (name : string) (o : Obj k) : prog ctrlE (KRes unit) :=
  existing ⟵? trigger (KGetOpt k (Namespaced ns) name);
  match existing with
  | Some _ => Ret (Ok tt)
  | None => _ ⟵? trigger (KCreate k (Namespaced ns) o); Ret (Ok tt)
  end.

(** The effects [log] of a run looked the object up and found one, or found
    none and created exactly [o]; and there is one in [w']. *)
Definition ensured (log : list (event ctrlE)) (k : Kind) (ns : string) (o : Obj k) (w' : W) : Prop :=
  is_Some (obj_at w' k ns (obj_name k o)) /\
  exists found, In (Ev (inject (KGetOpt k (Namespaced ns) (obj_name k o))) (Ok found)) log /\
    match found with
    | Some _ => True
    | None => exists o', In (Ev (inject (KCreate k (Namespaced ns) o)) (Ok o')) log
    end.

Lemma ensured_later log log' k ns o (w w' : W) :
  log ⊆ log' -> grows w w' -> ensured log k ns o w -> ensured log' k ns o w'.
Proof.
  intros Hl Hg [Hs (x & Hx & Hc)]. assert (Hin : forall ev, In ev log -> In ev log').
  { intros ev. rewrite <- !list_elem_of_In. apply Hl. }
  split; [by apply Hg|]. exists x. split; [by apply Hin|]. destruct x; [done|]. destruct Hc as [o' Hc]. eauto.
Qed.

Lemma run_ensure k ns name o (w w' : W) :
  match k with KDynamic _ => False | _ => True end -> obj_name k o = name ->
  run_ctrl (ensure k ns name o) w = (Ok tt, w') ->
  ensured (run_log ctrl_step (ensure k ns name o) w) k ns o w' /\ grows w w' /\ same_listings w w'.
Proof using GS.
  intros Hk Hn. unfold ensured. rewrite Hn. unfold run_ctrl, ensure. rewrite run_try_bind, run_log_try_bind.
  prog_unfold. cbn [run run_log ctrl_step].
  destruct_kube w as [[x|e] w1] eqn:Hg; [|done]. apply gs_get_opt in Hg as [-> Hu].
  pose proof (unchanged_grows _ _ Hu) as Hg1. destruct Hu as [Ho Hl].
  destruct (obj_at w k ns name) as [x|] eqn:Hx.
  - intros [= <-]. rewrite Ho, Hx. split; [|done]. split; [done|]. exists (Some x). split; [by left|done].
  - cbn [try_bind prog_bind run run_log ctrl_step]. destruct_kube w1 as [[y|e] w2] eqn:Hc; [|done].
    cbn [run]. intros [= <-]. apply gs_create in Hc as (Hs & Hg2 & Hl2); [|done]. rewrite Hn in Hs.
    split_and!; [done| |by etransitivity|intros ar sc; by rewrite Hl2].
    exists None. split; [by left|]. exists y. right. by left.
Qed.

Definition bootstrap_config_map (ns : string) : ConfigMap :=
  config_map "envoy-bootstrap" ns {[ "bootstrap.yaml" := generate_bootstrap_yaml ]}.
Definition empty_xds_config_map (ns hostname : string) : ConfigMap :=
  config_map "envoy-xds-config" ns (list_to_map (xds_files hostname [] ∅)).

Lemma run_ensure_configmaps ns hostname (w w' : W) :
  run_ctrl (ensure_envoy_configmaps ns hostname) w = (Ok tt, w') ->
  let log := run_log ctrl_step (ensure_envoy_configmaps ns hostname) w in
  ensured log KConfigMap ns (bootstrap_config_map ns) w' /\
  ensured log KConfigMap ns (empty_xds_config_map ns hostname) w' /\
  grows w w' /\ same_listings w w'.
Proof using GS.
  set (boot := ensure KConfigMap ns "envoy-bootstrap" (bootstrap_config_map ns)).
  set (xds := ensure KConfigMap ns "envoy-xds-config" (empty_xds_config_map ns hostname)).
  assert (Heq : run_ctrl (ensure_envoy_configmaps ns hostname) w = run_ctrl (_ ⟵? boot; xds) w /\
    run_log ctrl_step (ensure_envoy_configmaps ns hostname) w = run_log ctrl_step (_ ⟵? boot; xds) w).
  { unfold run_ctrl, ensure_envoy_configmaps, boot, ensure.
    rewrite !run_try_bind, !run_log_try_bind, !run_try_bind.
    destruct (run ctrl_step (trigger _) w) as [[x|e] w1]; [|by rewrite !app_nil_r].
    by rewrite run_try_bind, run_log_try_bind, <- app_assoc. }
  destruct Heq as [-> ->]. unfold run_ctrl. rewrite run_try_bind, run_log_try_bind.
  destruct (run ctrl_step boot w) as [[[]|e] w1] eqn:H1; [|done]. intros H2.
  apply run_ensure in H1 as (Hb & Hg1 & Hl1); [|done..].
  apply run_ensure in H2 as (Hx & Hg2 & Hl2); [|done..].
  cbv zeta. split_and!; [| |by etransitivity|intros ar sc; by rewrite Hl2].
  - eapply ensured_later; [|exact Hg2|exact Hb]. set_solver.
  - eapply ensured_later; [|reflexivity|exact Hx]. set_solver.
Qed.

(** The TLS ports used with the state [w]: those of the DestinationRules the
    run [log] listed in [ns], which are the ones stored, and none only if
    that listing failed. *)
Definition tls_listed (log : list (event ctrlE)) (w : W) (ns : string) (tls : gset Z) : Prop :=
  exists r, In (Ev (inject (KList (KDynamic destination_rule_ar) (Namespaced ns) None)) r) log /\
    match r with
    | Ok drs => drs = listing w destination_rule_ar (Namespaced ns) /\ tls = tls_ports_of drs
    | Err _ => tls = ∅
    end.

(** The configuration stored for [ns] after the run [log] is the one of the
    routes in [w] that name [data-science-gateway], with the TLS ports of the
    DestinationRules of [ns]. *)
Definition configured (log : list (event ctrlE)) (w : W) (ns hostname : string) (w' : W) : Prop :=
  exists cm d tls, obj_at w' KConfigMap ns "envoy-xds-config" = Some cm /\
    tls_listed log w ns tls /\
    cm_data cm = Some (set_data (xds_files hostname (rules_of (listing w httproute_ar All)) tls) d).

Lemma configured_later log log' w0 w ns hostname (w1 w2 : W) :
  log ⊆ log' -> same_listings w0 w -> obj_at w2 KConfigMap ns "envoy-xds-config" = obj_at w1 KConfigMap ns "envoy-xds-config" ->
  configured log w ns hostname w1 -> configured log' w0 ns hostname w2.
Proof.
  intros Hlog Hl Hcm (cm & d & tls & Hc & (r & Hin & Hr) & Hd). exists cm, d, tls.
  rewrite Hcm, <- Hl. split_and!; [done| |done]. exists r. split; [|by rewrite <- Hl].
  rewrite <- list_elem_of_In in Hin |- *. by apply Hlog.
Qed.

Lemma run_sync ns hostname (w w' : W) :
  is_Some (obj_at w KConfigMap ns "envoy-xds-config") ->
  run_ctrl (sync_httproute_config ns hostname) w = (Ok tt, w') ->
  grows w w' /\ configured (run_log ctrl_step (sync_httproute_config ns hostname) w) w ns hostname w'.
Proof using GS.
  intros [cm0 Hcm] Hr. unfold run_ctrl, sync_httproute_config in Hr. rewrite run_try_bind in Hr.
  unfold sync_httproute_config. rewrite run_log_try_bind.
  revert Hr. prog_unfold. cbn [run run_log ctrl_step]. destruct_kube w as [[routes|e] w1] eqn:Hl; [|done].
  apply gs_list in Hl as [Hu Hroutes]. specialize (Hroutes _ eq_refl). subst routes.
  rewrite run_bind, run_log_bind. cbn [run run_log ctrl_step]. destruct_kube w1 as [drs w2] eqn:Hd.
  apply gs_list in Hd as [Hu2 Hdrs].
  rewrite run_try_bind. cbn [run ctrl_step]. destruct_kube w2 as [[x|e] w3] eqn:Hp; [|done].
  cbn [run]. intros [= <-].
  eapply gs_patch_data in Hp as [(cm & Hc & Hdata) Hg3].
  2:{ destruct Hu2 as [-> _]. destruct Hu as [-> _]. exact Hcm. }
  split; [by rewrite (unchanged_grows _ _ Hu), (unchanged_grows _ _ Hu2)|].
  eexists cm, _, _. split; [done|]. split; [|exact Hdata].
  exists drs. split; [right; by left|].
  destruct drs as [drs|e]; [|done]. split; [|done]. rewrite (Hdrs _ eq_refl). by destruct Hu as [_ ->].
Qed.

(** The service reaches the pods of the deployment: its selector is among
    their labels and its target port is one of their container ports; and the
    pods mount the two config maps. *)
Definition selects_pods (svc : Service) (dep : Deployment) : Prop :=
  exists ss ds pod, svc_spec svc = Some ss /\ dep_spec dep = Some ds /\ ds_template_spec ds = Some pod /\
    default ∅ (ss_selector ss) ⊆ default ∅ (ds_template_labels ds) /\
    ds_selector ds = ds_template_labels ds /\
    (forall p, In p (default [] (ss_ports ss)) -> exists ct cp n,
       In ct (pod_containers pod) /\ In cp (default [] (ct_ports ct)) /\
       cp_container_port cp = n /\ sp_target_port p = Some (IntPort n)) /\
    (forall n, In n ["envoy-bootstrap"; "envoy-xds-config"] ->
       exists v, In v (default [] (pod_volumes pod)) /\ vol_config_map v = Some n).

Lemma envoy_selects ns name svc_name : selects_pods (envoy_service ns svc_name) (envoy_deployment ns name).
Proof.
  eexists _, _, _. split; [done|]. split; [done|]. split; [done|]. split; [|split; [done|split]].
  - cbn [ss_selector ds_template_labels default from_option id]. apply map_subseteq_spec.
    intros k v [<- <-]%lookup_singleton_Some. done.
  - intros p [<-|[]]. eexists _, _, _. split; [by left|]. split; [by left|]. done.
  - intros n [<-|[<-|[]]];
      [exists (config_map_volume "bootstrap" "envoy-bootstrap")|exists (config_map_volume "xds" "envoy-xds-config")];
      (split; [|reflexivity]); [by left|right; by left].
Qed.


End Provision.

(** ** Witnesses: a small store *)

Module GatewaySample.

Record world : Type := World {
  cms : gmap (string * string) ConfigMap;
  deps : gmap (string * string) Deployment;
  svcs : gmap (string * string) Service;
  gateways : gmap (string * string) DynamicObject;
  httproutes : list DynamicObject;
  dest_rules : list DynamicObject
}.

Definition at_ (w : world) (k : Kind) (ns n : string) : option (Obj k) :=
  match k return option (Obj k) with
  | KConfigMap => cms w !! (ns, n)
  | KDeployment => deps w !! (ns, n)
  | KService => svcs w !! (ns, n)
  | KDynamic _ => gateways w !! (ns, n)
  | _ => None
  end.

Definition list_of (w : world) (ar : ApiResource) : list DynamicObject :=
  if String.eqb (ar_plural ar) "httproutes" then httproutes w
  else if String.eqb (ar_plural ar) "destinationrules" then dest_rules w else [].

Definition merged (v : Value) (cm : ConfigMap) : ConfigMap :=
  {| cm_metadata := cm_metadata cm;
     cm_data := Some (set_data (omap (fun kv => s ← as_str kv.2; Some (kv.1, s)) (members (index "data" v)))
                        (default ∅ (cm_data cm))) |}.

(** Other requests are refused. *)
Definition create (k : Kind) (ns : string) : Obj k -> world -> KRes (Obj k) * world :=
  match k return Obj k -> world -> KRes (Obj k) * world with
  | KConfigMap => fun o w => (Ok o, World (<[(ns, name_any o) := o]> (cms w)) (deps w) (svcs w) (gateways w) (httproutes w) (dest_rules w))
  | KDeployment => fun o w => (Ok o, World (cms w) (<[(ns, name_any o) := o]> (deps w)) (svcs w) (gateways w) (httproutes w) (dest_rules w))
  | KService => fun o w => (Ok o, World (cms w) (deps w) (<[(ns, name_any o) := o]> (svcs w)) (gateways w) (httproutes w) (dest_rules w))
  | _ => fun _ w => (Err TransportError, w)
  end.

Definition patch (k : Kind) (ns n : string) : Patch (Obj k) -> world -> KRes (Obj k) * world :=
  match k return Patch (Obj k) -> world -> KRes (Obj k) * world with
  | KConfigMap => fun p w =>
      match p, cms w !! (ns, n) with
      | Merge v, Some cm =>
          (Ok (merged v cm), World (<[(ns, n) := merged v cm]> (cms w)) (deps w) (svcs w) (gateways w) (httproutes w) (dest_rules w))
      | _, _ => (Err (ApiError 404), w)
      end
  | _ => fun _ w => (Err TransportError, w)
  end.

Definition patch_status (k : Kind) (ns n : string) (w : world) : KRes (Obj k) * world :=
  match at_ w k ns n with Some o => (Ok o, w) | None => (Err (ApiError 404), w) end.

Definition step X (e : kubeE X) : world -> X * world :=
  match e in kubeE X return world -> X * world with
  | KGet k sc n => fun w => (found (at_ w k (scope_key sc) n), w)
  | KGetOpt k sc n => fun w => (Ok (at_ w k (scope_key sc) n), w)
  | KList k sc l => fun w =>
      (match k return KRes (list (Obj k)) with KDynamic ar => Ok (list_of w ar) | _ => Err TransportError end, w)
  | KCreate k sc o => create k (scope_key sc) o
  | KDelete _ _ _ => fun w => (Err TransportError, w)
  | KPatch k sc n _ p => patch k (scope_key sc) n p
  | KPatchStatus k sc n _ _ => patch_status k (scope_key sc) n
  end.

#[global] Instance server : KubeServer world := {| kube_step := step; utc_now := fun w => ("now", w) |}.
#[global] Instance view : GatewayView world := {| obj_at := at_; listing := fun w ar _ => list_of w ar |}.

Lemma insert_grows {A} (m : gmap (string * string) A) k x j : is_Some (m !! j) -> is_Some (<[k := x]> m !! j).
Proof. intros [y Hy]. destruct (decide (k = j)) as [->|Hne]; [rewrite lookup_insert_eq|rewrite lookup_insert_ne]; eauto. Qed.

Lemma members_read (kvs : list (string * string)) :
  omap (fun kv : string * Value => s ← as_str kv.2; Some (kv.1, s)) ((fun kv => (kv.1, VString kv.2)) <$> kvs) = kvs.
Proof. induction kvs as [|[k v] kvs IH]; [done|]. rewrite fmap_cons, omap_cons_eq. simpl. by f_equal. Qed.

#[global] Instance store : GatewayStore world.
Proof.
  split; simpl.
  - intros w k ns n o w' [= <- <-]. done.
  - intros w ar sc r w' [= <- <-]. split; [done|]. by intros l [= <-].
  - intros w k ns o o' w' Hk. destruct k; simpl; try done; intros [= <- <-];
      (split; [exists o; apply lookup_insert_eq|split; [|done]]);
      intros []; simpl; eauto using insert_grows.
  - intros w ns n pp kvs cm o' w' Hcm. simpl. rewrite Hcm. intros [= <- <-]. split.
    + eexists. split; [apply lookup_insert_eq|]. unfold merged, jobj. simpl. by rewrite members_read.
    + intros []; simpl; eauto using insert_grows.
  - intros w ar ns n pp p r w'. unfold patch_status. destruct (at_ _ _ _ _); by intros [= <- <-].
  - done.
Qed.

Definition gw : DynamicObject :=
  Dyn (named "data-science-gateway" (Some "openshift-ingress"))
    (jobj [ "spec" =: jobj [ "gatewayClassName" =: VString "data-science-gateway-class";
              "listeners" =: VArray [ jobj [ "hostname" =: VString "rh-ai.apps.ocp-sim.test" ] ] ] ]).

Definition route : DynamicObject :=
  Dyn (named "dashboard" (Some "opendatahub"))
    (jobj [ "spec" =: jobj [ "parentRefs" =: VArray [ jobj [ "name" =: VString "data-science-gateway" ] ];
              "rules" =: VArray [ jobj [ "backendRefs" =: VArray
                [ jobj [ "name" =: VString "odh-dashboard"; "port" =: jint 8443 ] ] ] ] ] ]).

Definition w0 : world := World ∅ ∅ ∅ {[ ("openshift-ingress", "data-science-gateway") := gw ]} [route] [sample_dest_rule].

Lemma gw_run : run_ctrl (reconcile_gateway gw) w0 = (Ok AwaitChange, (run_ctrl (reconcile_gateway gw) w0).2).
Proof. apply pair_eta. vm_compute. reflexivity. Qed.

Definition w1 : world := (run_ctrl (reconcile_gateway gw) w0).2.

Lemma route_run : run_ctrl (reconcile_httproute route) w1 = (Ok AwaitChange, (run_ctrl (reconcile_httproute route) w1).2).
Proof. apply pair_eta. vm_compute. reflexivity. Qed.

End GatewaySample.



Definition sample_class : DynamicObject :=
  Dyn (named "data-science-gateway-class" None)
    (jobj [ "spec" =: jobj [ "controllerName" =: VString CONTROLLER_NAME ] ]).

Definition class_mem : MemWorld :=
  Mem {[ dyn_key gateway_class_ar All "data-science-gateway-class" := sample_class ]} ∅ ∅ [] ∅ ∅ "now".

Lemma sample_class_run :
  run_ctrl (reconcile_gateway_class sample_class) class_mem =
    (Ok AwaitChange, (run_ctrl (reconcile_gateway_class sample_class) class_mem).2).
Proof. apply pair_eta. vm_compute. reflexivity. Qed.

Lemma sample_class_stored : stored gateway_class_controller class_mem sample_class.
Proof. vm_compute. reflexivity. Qed.

Example gatewayclass_converges_witness :
  exists gc', stored gateway_class_controller (run_ctrl (reconcile_gateway_class sample_class) class_mem).2 gc' /\
    is_gateway_class_accepted gc' = true.
Proof.
  destruct (gatewayclass_converges sample_class class_mem _ AwaitChange sample_class_stored sample_class_run)
    as (gc' & H1 & _ & _ & H2 & _).
  exists gc'. split; [exact H1|]. apply H2. vm_compute. reflexivity.
Defined.
