(* ===== verification/Runtime.v ===== *)
(** * Controllers that come to rest, and one that does not

    The [run] functions of the status controllers and of the namespace
    controller: with a server that fails finitely often, reconciling an object
    often enough settles it, and until then every reconciliation asks to be
    repeated; an image stream with a malformed tag is never settled. *)

From S2P Require Import Prelude RustStr Json Prog Kube Util Controller Route ImageStream GatewayConfig Gateway PodMutate.
Open Scope list_scope.
Open Scope Z_scope.

(** *** Namespaces *)

(** Of the failures [faults] counts, those of merge patches of namespaces. *)
Class FlakyNamespaces (W : Type) `{!KubeServer W} `{!MergeStatusLaw W} `{!FlakyServer W}
    `{!AnnotateNamespaceLaw W} : Prop :=
  faults_namespace (w : W) name pp v o e w' :
    ns_lookup w name = Some o ->
    kube_step (KPatch KNamespace All name pp (Merge v)) w = (Err e, w') ->
    (faults w' < faults w)%nat /\
    (ns_lookup w' name = Some o \/
     ns_lookup w' name = Some {| ns_metadata := annotate v (ns_metadata o); ns_status := ns_status o |}).

(** A namespace the controller has nothing to do for. *)
Definition ranged (ns : Namespace) : bool :=
  existsb (String.eqb (name_any ns)) SKIP_NAMESPACES || has_annotation UID_RANGE_ANNOTATION (ns_metadata ns).

Section Namespaces.
Context `{!StdHasher} {W : Type} `{!KubeServer W} `{!MergeStatusLaw W} `{FS : !FlakyServer W}
  `{!AnnotateNamespaceLaw W} {FN : FlakyNamespaces W}.

Lemma uid_range_rest (ns : Namespace) (w : W) :
  ns_lookup w (name_any ns) = Some ns ->
  comes_to_rest ctrl_step uid_range_controller (fun w => ns_lookup w (name_any ns)) ranged (faults w + 1) w.
Proof using FN.
  intros Hst.
  apply (rounds_rest ctrl_step uid_range_controller (fun w => ns_lookup w (name_any ns))
    ranged (fun x => name_any x = name_any ns) faults) with (o := ns); [| |done|done].
  - intros x v _ Hx. unfold turn. cbn [ctl_reconcile uid_range_controller]. unfold reconcile_namespace.
    unfold ranged in Hx. destruct (existsb _ _); [done|]. by destruct (has_annotation _ _).
  - intros x v a v' Hl Hn Hne. unfold turn. cbn [ctl_reconcile ctl_error_policy uid_range_controller].
    unfold reconcile_namespace, ranged in *. apply orb_false_iff in Hne as [-> ->]. rewrite Hn. simpl.
    assert (Hdone : forall vl m, ranged {| ns_metadata := annotate (uid_range_patch vl) m; ns_status := ns_status x |} = true).
    { intros vl m. unfold ranged. cbn [ns_metadata]. rewrite annotate_has. apply orb_true_r. }
    destruct (kube_step _ v) as [[o|e] v2] eqn:Hk; simpl; intros [= <- <-].
    + rewrite (ns_patch _ _ _ _ _ _ _ Hl Hk). eexists. split; [done|]. left. apply Hdone.
    + destruct (faults_namespace _ _ _ _ _ _ _ Hl Hk) as [Hlt [Hl2|Hl2]]; rewrite Hl2; eexists; (split; [done|]).
      * right. split_and!; [done|by eexists|done].
      * left. apply Hdone.
Qed.
End Namespaces.

Section Terminates.
Context `{!StdHasher} {W : Type} `{!KubeServer W} `{!MergeStatusLaw W} `{!FlakyServer W}
  `{!AnnotateNamespaceLaw W} {FN : FlakyNamespaces W}.

(** What settles the object of each controller. *)
Definition imported (is_ : DynamicObject) : bool := negb (status_needs_update is_).
Definition class_settled (gc : DynamicObject) : bool :=
  negb (is_our_gateway_class gc) || is_gateway_class_accepted gc.

(** C16: the controllers of routes, image streams, gateway classes and
    namespaces come to rest.  If at most [faults] of the server's answers are
    errors, whether or not it has applied the request, then after
    [faults + 1] reconciliations of the stored object a route is admitted, an
    image stream whose tags all name an image is imported, a gateway class is
    accepted or not this controller's, and a namespace has its range or is one
    of the skipped ones.  From then on reconciling the object changes nothing
    and answers [AwaitChange]; until then each reconciliation settles the
    object or, by the error policy, asks to be repeated. *)
Theorem status_controllers_terminate (o : DynamicObject) (ns : Namespace) (w : W) :
  let k := (faults w + 1)%nat in
  (stored route_controller w o ->
     comes_to_rest ctrl_step route_run (look_at route_controller o) is_admitted k w) /\
  (stored imagestream_controller w o -> well_tagged o ->
     comes_to_rest ctrl_step imagestream_run (look_at imagestream_controller o) imported k w) /\
  (stored gateway_class_controller w o ->
     comes_to_rest ctrl_step gateway_class_run (look_at gateway_class_controller o) class_settled k w) /\
  (ns_lookup w (name_any ns) = Some ns ->
     comes_to_rest ctrl_step uid_range_controller (fun w => ns_lookup w (name_any ns)) ranged k w).
Proof using FN.
  split_and!.
  - intros Hst. apply (rest_ext _ _ (status_run route_controller) _ _ (fun x => negb (negb (is_admitted x))));
      [done..|intros x; by rewrite negb_involutive|]. by apply (status_rest route_controller).
  - intros Hst Hok. apply (rest_ext _ _ (status_run imagestream_controller) _ _ imported);
      [apply reconcile_imagestream_status|done..|]. by apply (status_rest imagestream_controller).
  - intros Hst. apply (rest_ext _ _ (status_run gateway_class_controller) _ _
      (fun x => negb (is_our_gateway_class x && negb (is_gateway_class_accepted x))));
      [apply reconcile_gateway_class_status|done|intros x|by apply (status_rest gateway_class_controller)].
    unfold class_settled. by rewrite negb_andb, negb_involutive.
  - apply uid_range_rest.
Qed.
End Terminates.

(** ** An import that is never finished *)

Section Forever.
Context {W : Type} `{!KubeServer W} `{!MergeStatusLaw W} `{!FlakyServer W}.
Context (k : DynamicObject) (tags : list Value) (bad : Value).
Context (Hbad : In bad tags) (Hno : ~ tag_ok bad).

(** The stored object while the controller runs: its spec is as it was, its
    status is absent or what an earlier reconciliation wrote. *)
Definition importing (o : DynamicObject) : Prop :=
  name_any o = name_any k /\ namespace o = namespace k /\ tags_of "spec" o = Some tags /\
  (tags_of "status" o = None \/ exists t, tags_of "status" o = Some (omap (status_tag t) tags)).

Lemma importing_needs o : importing o -> status_needs_update o = true.
Proof using Hbad Hno.
  intros (_ & _ & Hspec & [Hst|[t Hst]]);
    [apply (malformed_needs o "" tags bad)|apply (malformed_needs o t tags bad)]; auto.
Qed.

Lemma importing_turn (w : W) o :
  look_at imagestream_controller k w = Some o -> importing o ->
  let '(a, w') := turn ctrl_step imagestream_run o w in
  exists o', look_at imagestream_controller k w' = Some o' /\ importing o' /\
    (a = AwaitChange -> tags_of "status" o' = Some (omap (status_tag (utc_now w).1) tags)).
Proof using Type*.
  intros Hl Hi. pose proof (importing_needs o Hi) as Hneeds. pose proof Hi as (Hnm & Hns & Hspec & _).
  unfold turn. cbn [ctl_reconcile ctl_error_policy imagestream_run].
  rewrite reconcile_imagestream_status. unfold status_reconcile.
  cbn [sc_needs sc_status imagestream_controller]. rewrite Hneeds, Hspec. simpl.
  unfold look_at in *. cbn [sc_ar sc_scope imagestream_controller] in *. unfold own_namespace in *.
  assert (Hns' : om_namespace (dyn_metadata o) = om_namespace (dyn_metadata k)) by exact Hns.
  rewrite Hnm, Hns'. pose proof (dyn_lookup_now w) as Hnow.
  destruct (utc_now w) as [now w1]. simpl in *. rewrite <- Hnow in Hl.
  destruct (kube_step _ w1) as [r w2] eqn:Hk.
  set (o' := Dyn (dyn_metadata o) (merge_patch (VObject [("status", imagestream_status tags now)]) (data o))) in *.
  assert (Hst' : tags_of "status" o' = Some (omap (status_tag now) tags) /\ importing o').
  { destruct (merged_tags (dyn_metadata o) tags now (data o)) as [H1 H2]. split; [exact H1|].
    split_and!; [done..| |right; by exists now]. rewrite <- Hspec. exact H2. }
  destruct Hst' as [Hs1 Hi']. destruct r as [x|e]; simpl.
  - exists o'. rewrite (dyn_patch_status _ _ _ _ _ _ _ _ _ Hl Hk). auto.
  - destruct (faults_patch _ _ _ _ _ _ _ _ _ Hl Hk) as [_ [Hl2|Hl2]]; rewrite Hl2;
      [exists o|exists o']; by split_and!.
Qed.

Lemma importing_rounds (w : W) n o :
  look_at imagestream_controller k w = Some o -> importing o ->
  exists o', look_at imagestream_controller k
               (rounds ctrl_step imagestream_run (look_at imagestream_controller k) n w) = Some o' /\ importing o'.
Proof using Type*.
  intros Hl Hi. induction n as [|n (o1 & Hl1 & Hi1)]; [by exists o|].
  pose proof (importing_turn _ o1 Hl1 Hi1) as Ht.
  change (rounds ctrl_step imagestream_run ?l (S n) w)
    with (round ctrl_step imagestream_run l (rounds ctrl_step imagestream_run l n w)).
  unfold round. rewrite Hl1. destruct (turn _ _ o1 _) as [a w']. cbn [snd].
  destruct Ht as (o2 & Hl2 & Hi2 & _). eauto.
Qed.
End Forever.

(** C40: a new image stream with a tag that names no image is never settled:
    however often it is reconciled, what is stored still needs an update, so
    each further reconciliation sends a status patch again.  When that
    succeeds, every tag that names an image is stamped with the time of that
    reconciliation, so the object has changed whenever the time read differs
    from the one it carried. *)
Theorem imagestream_malformed_runs_forever {W} `{!KubeServer W} `{!MergeStatusLaw W} `{!FlakyServer W}
    (is_ : DynamicObject) (w : W) tags bad n :
  stored imagestream_controller w is_ ->
  tags_of "status" is_ = None -> tags_of "spec" is_ = Some tags -> In bad tags -> ~ tag_ok bad ->
  let look := look_at imagestream_controller is_ in
  let wn := rounds ctrl_step imagestream_run look n w in
  exists o, look wn = Some o /\ status_needs_update o = true /\
    (exists v r, In (Ev (inject (KPatchStatus (KDynamic imagestream_ar) (Namespaced (default "" (namespace is_)))
                                   (name_any is_) (Some "ocp-sim") v)) r)
                    (run_log ctrl_step (reconcile_imagestream o) wn)) /\
    let '(a, wn') := turn ctrl_step imagestream_run o wn in
    exists o', look wn' = Some o' /\
      (a = AwaitChange ->
         tags_of "status" o' = Some (omap (status_tag (utc_now wn).1) tags) /\
         forall good t, In good tags -> tag_ok good ->
           tags_of "status" o = Some (omap (status_tag t) tags) -> t <> (utc_now wn).1 -> o' <> o).
Proof.
  intros Hst Hs Hspec Hb Hno look wn.
  assert (Hi0 : importing is_ tags is_) by (split_and!; auto).
  destruct (importing_rounds is_ tags bad Hb Hno w n is_ Hst Hi0) as (o & Hl & Hi).
  pose proof (importing_needs is_ tags bad Hb Hno o Hi) as Hn. pose proof Hi as (Hnm & Hns & Ho & _).
  pose proof (importing_turn is_ tags bad Hb Hno wn o Hl Hi) as Ht.
  exists o. split_and!; [exact Hl|exact Hn| |].
  - rewrite reconcile_imagestream_status. unfold status_reconcile. cbn [sc_needs imagestream_controller].
    rewrite Hn. rewrite run_log_bind. prog_unfold. cbn [run run_log ctrl_step].
    destruct (utc_now wn) as [now w1]. rewrite run_log_try_bind. cbn [run run_log ctrl_step].
    cbn [sc_ar sc_scope sc_manager imagestream_controller]. unfold own_namespace.
    change (om_namespace (dyn_metadata o)) with (namespace o). rewrite Hns, Hnm.
    destruct_kube w1 as [r w2] eqn:Hk. eexists _, r. right. left. reflexivity.
  - destruct (turn ctrl_step imagestream_run o wn) as [a w']. destruct Ht as (o' & Hl' & _ & Hs').
    exists o'. split; [exact Hl'|]. intros Ha. specialize (Hs' Ha). split; [exact Hs'|].
    intros good t Hg Hok Hold Hne ->. rewrite Hold in Hs'. injection Hs' as Hs'.
    by apply (status_tags_time t _ tags good) in Hs'.
Qed.

(** ** Witnesses *)

(** The in-memory server behind a network that loses answers: a request meets
    the next failure of the list, and has been applied when the entry says so.
    Its clock counts. *)
Record FlakyWorld : Type := FW { fw_mem : MemWorld; fw_faults : list bool; fw_clock : nat }.

Fixpoint ticks (n : nat) : string := match n with 0%nat => "" | S n => String "i" (ticks n) end.

Definition kube_err X (e : kubeE X) : X :=
  match e in kubeE X return X with
  | KGet _ _ _ | KGetOpt _ _ _ | KList _ _ _ | KCreate _ _ _ | KDelete _ _ _
  | KPatch _ _ _ _ _ | KPatchStatus _ _ _ _ _ => Err TransportError
  end.

#[export] Instance flaky_server : KubeServer FlakyWorld := {
  kube_step := fun X e w =>
    match fw_faults w with
    | [] => let '(x, m) := mem_step X e (fw_mem w) in (x, FW m [] (fw_clock w))
    | applied :: r =>
        (kube_err X e, FW (if applied : bool then (mem_step X e (fw_mem w)).2 else fw_mem w) r (fw_clock w))
    end;
  utc_now := fun w => (ticks (fw_clock w), FW (fw_mem w) (fw_faults w) (S (fw_clock w)))
}.

#[export] Instance flaky_merge_status : MergeStatusLaw FlakyWorld.
Proof.
  refine {| dyn_lookup := fun w => dyn_lookup (fw_mem w) |}; [done|].
  intros w ar sc name pp st o o' w' Ho. unfold kube_step, flaky_server. destruct (fw_faults w); [|done].
  destruct (mem_step _ _ _) as [x m] eqn:Hm. intros [= -> <-].
  exact (dyn_patch_status (fw_mem w) ar sc name pp st o o' m Ho Hm).
Defined.

#[export] Instance flaky_flaky : FlakyServer FlakyWorld.
Proof.
  refine {| faults := fun w => (length (fw_faults w)) |}; [done|].
  intros w ar sc name pp st o e w' Ho. simpl. destruct (fw_faults w) as [|applied r].
  - assert (Hg : mem_get (fw_mem w) (KDynamic ar) sc name = Some o) by exact Ho.
    unfold mem_patch. rewrite Hg. simpl. done.
  - intros [= <- <-]. simpl. split; [lia|]. destruct applied; [right|by left].
    assert (Hg : mem_get (fw_mem w) (KDynamic ar) sc name = Some o) by exact Ho.
    unfold mem_patch. rewrite Hg. simpl. apply lookup_insert_eq.
Defined.

#[export] Instance flaky_annotate : AnnotateNamespaceLaw FlakyWorld.
Proof.
  refine {| ns_lookup := fun w => ns_lookup (fw_mem w) |}.
  intros w name pp v o o' w' Ho. unfold kube_step, flaky_server. destruct (fw_faults w); [|done].
  destruct (mem_step _ _ _) as [x m] eqn:Hm. intros [= -> <-].
  exact (ns_patch (fw_mem w) name pp v o o' m Ho Hm).
Defined.

#[export] Instance flaky_namespaces : FlakyNamespaces FlakyWorld.
Proof.
  intros w name pp v o e w' Ho. simpl.
  assert (Hg : mem_get (fw_mem w) KNamespace All name = Some o) by exact Ho.
  destruct (fw_faults w) as [|applied r].
  - unfold mem_patch. rewrite Hg. simpl. done.
  - intros [= <- <-]. simpl. split; [lia|]. destruct applied; [right|by left].
    unfold mem_patch. rewrite Hg. simpl. apply lookup_insert_eq.
Qed.

#[local] Existing Instance std_hasher.

(** Two failures before an answer: three reconciliations are enough, and the
    next one does nothing. *)
Example status_controllers_terminate_witness :
  let w0 := FW route_mem [false; false] 0 in
  let w3 := rounds ctrl_step route_run (look_at route_controller sample_route) 3 w0 in
  (exists o', look_at route_controller sample_route w3 = Some o' /\ is_admitted o' = true) /\
  rounds ctrl_step route_run (look_at route_controller sample_route) 4 w0 = w3.
Proof.
  destruct (status_controllers_terminate sample_route demo_namespace (FW route_mem [false; false] 0)) as [H _].
  destruct H as (H1 & H2 & _); [vm_compute; reflexivity|].
  split; [exact H1|]. apply H2. vm_compute. lia.
Defined.

Example imagestream_malformed_runs_forever_witness :
  let is_ := sample_imagestream [good_tag; bad_tag] in
  exists o, look_at imagestream_controller is_
      (rounds ctrl_step imagestream_run (look_at imagestream_controller is_) 50
         (FW (imagestream_mem [good_tag; bad_tag]) [true] 0)) = Some o /\
    status_needs_update o = true.
Proof.
  intros is_.
  assert (Hst : stored imagestream_controller (FW (imagestream_mem [good_tag; bad_tag]) [true] 0) is_)
    by (vm_compute; reflexivity).
  assert (Hno : ~ tag_ok bad_tag) by (intros (n & f & i & _ & Hf & _); discriminate Hf).
  destruct (imagestream_malformed_runs_forever is_ _ [good_tag; bad_tag] bad_tag 50 Hst eq_refl eq_refl
              (or_intror (or_introl eq_refl)) Hno) as (o & H1 & H2 & _).
  exists o. split; [exact H1|exact H2].
Defined.
