(* ===== verification/Proxy.v ===== *)
(** * [proxy.rs]: the reverse proxy

    The table of routes, kept from watched Routes and HTTPRoutes, and the
    handling of one request: choosing the upstream, forwarding, and WebSocket
    upgrades.  Sockets, TLS and the HTTP client are effects. *)

From S2P Require Import Prelude RustStr Net Json Prog Kube Util Crates OAuthTypes OAuthEffects OAuthHelpers.
Open Scope list_scope.
Open Scope Z_scope.

(** ** The route table *)

Inductive TargetPort : Type := Number (n : Z) | Name (name : string).

Record RouteBackend : Type := {
  service_name : string;
  service_namespace : string;
  target_port : TargetPort;
  tls : bool
}.

Definition extract_host (route : DynamicObject) : option string :=
  match (status ← get "status" (data route);
         arr ← get_array "ingress" status;
         ing ← head arr;
         get_str "host" ing) with
  | Some h => Some h
  | None =>
      h ← get "spec" (data route) ≫= get_str "host";
      if is_empty h then None else Some h
  end.

Definition extract_port (spec : Value) : TargetPort :=
  match get "port" spec ≫= get "targetPort" with
  | Some target =>
      match as_u64 target with
      | Some num => Number (cast_i32 num)
      | None => match as_str target with Some name => Name name | None => Number 80 end
      end
  | None => Number 80
  end.

Definition extract_backend (route : DynamicObject) : option (string * TargetPort * bool) :=
  spec ← get "spec" (data route);
  to ← get "to" spec;
  svc_name ← get_str "name" to;
  let tls := match get "tls" spec ≫= get_str "termination" with
             | Some t => String.eqb t "reencrypt" || String.eqb t "passthrough"
             | None => false
             end in
  Some (svc_name, extract_port spec, tls).

(** ** Effects *)

(** What [TlsConnector::connect] checks the certificate against. *)
Inductive ServerName : Type := DnsName (host : string) | IpName (ip : IpAddr).

Inductive SignatureScheme : Type :=
| RSA_PKCS1_SHA256 | RSA_PKCS1_SHA384 | RSA_PKCS1_SHA512
| ECDSA_NISTP256_SHA256 | ECDSA_NISTP384_SHA384 | ECDSA_NISTP521_SHA512
| RSA_PSS_SHA256 | RSA_PSS_SHA384 | RSA_PSS_SHA512
| ED25519.

(** [rustls]'s [ServerCertVerifier]: certificates, messages and signatures are
    DER or raw bytes, the answer is whether they are accepted. *)
Record ServerCertVerifier : Type := {
  verify_server_cert (end_entity : list Z) (intermediates : list (list Z)) (name : ServerName)
    (ocsp_response : list Z) (now : Z) : bool;
  verify_tls12_signature (message cert : list Z) (dss : SignatureScheme * list Z) : bool;
  verify_tls13_signature (message cert : list Z) (dss : SignatureScheme * list Z) : bool;
  supported_verify_schemes : list SignatureScheme
}.

Definition NoVerifier : ServerCertVerifier := {|
  verify_server_cert _ _ _ _ _ := true;
  verify_tls12_signature _ _ _ := true;
  verify_tls13_signature _ _ _ := true;
  supported_verify_schemes :=
    [ RSA_PKCS1_SHA256; RSA_PKCS1_SHA384; RSA_PKCS1_SHA512;
      ECDSA_NISTP256_SHA256; ECDSA_NISTP384_SHA384; ECDSA_NISTP521_SHA512;
      RSA_PSS_SHA256; RSA_PSS_SHA384; RSA_PSS_SHA512; ED25519 ] |}.

(** The verifier, and the client's own certificate if it shows one. *)
Record ClientConfig : Type := {
  certificate_verifier : ServerCertVerifier;
  client_auth : option (list Z)
}.

Definition make_tls_config : ClientConfig :=
  {| certificate_verifier := NoVerifier; client_auth := None |}.

(** A connection. *)
Definition Conn : Type := nat.

(** What [fill_buf] gives: bytes (none at the end of the stream) or an error. *)
Definition Chunk : Type := option string.

Record Forward : Type := {
  fw_method : string;
  fw_uri : string;
  fw_headers : list (string * string);
  fw_body : string
}.

(** An answer, or the text of the error. *)
Abbreviation Upstream := (result string HttpResp).

(** The critical sections of the table's lock. *)
Inductive tableE : Type -> Type :=
| TableInsert (host : string) (b : RouteBackend) : tableE unit
| TableGet (host : string) : tableE (option RouteBackend).

Inductive netE : Type -> Type :=
| Connect (addr : SocketAddr) : netE (option Conn)
| TlsConnect (cfg : ClientConfig) (c : Conn) (sn : ServerName) : netE (option Conn)
| Handshake (c : Conn) : netE bool
| SendRequest (c : Conn) (r : Forward) : netE Upstream
(** the pooling HTTP client, which connects by itself *)
| ClientRequest (r : Forward) : netE Upstream
| WriteAll (c : Conn) (bytes : string) : netE bool
(** the results of the calls of [fill_buf] on the connection, one by one *)
| Reads (c : Conn) : netE (list Chunk)
(** copy in both directions between the upgraded client connection and the
    upstream one, of which these chunks are still to be read *)
| SpawnTunnel (c : Conn) (rest : list Chunk) : netE unit.

Abbreviation revproxyE := (tableE +' netE +' kubeE).

(** [http]'s builders and [rustls]'s server names. *)
Class HttpBuild : Type := {
  uri_ok : string -> bool;
  (** the name as [HeaderName] keeps it *)
  header_name : string -> option string;
  header_value_ok : string -> bool;
  status_ok : Z -> bool;
  server_name_ok : string -> bool
}.

(** ** Watching routes *)

(** The body of the watch loop for one event ([None]: a watch error). *)
Definition on_route_event (event : option DynamicObject) : prog revproxyE unit :=
  match event with
  | None => Ret tt
  | Some route =>
      match extract_host route with
      | None => Ret tt
      | Some host =>
          let ns := default "" (namespace route) in
          match extract_backend route with
          | None => Ret tt
          | Some (svc_name, port, tls) =>
              trigger (TableInsert host
                {| service_name := svc_name; service_namespace := ns; target_port := port; tls := tls |})
          end
      end
  end.

Definition build_route_table (events : list (option DynamicObject)) : prog revproxyE unit :=
  for_each events on_route_event.

Definition listener_hosts (gw : DynamicObject) : list string :=
  match get "spec" (data gw) ≫= get_array "listeners" with
  | Some listeners => omap (get_str "hostname") listeners
  | None => []
  end.

(** The port of a gateway's service, and whether it speaks TLS. *)
Definition gateway_port (svc : Service) : Z * bool :=
  let ports := default [] (svc_spec svc ≫= ss_ports) in
  let http_port :=
    List.find (fun p => bool_decide (sp_name p = Some "http") || (sp_port p =? 80)) ports in
  let https_port :=
    List.find (fun p => bool_decide (sp_name p = Some "https") || (sp_port p =? 443)) ports in
  match https_port, http_port with
  | Some p, _ => (sp_port p, true)
  | None, Some p => (sp_port p, false)
  | None, None => (80, false)
  end.

Definition on_parent_ref (route_ns : string) (hostnames : list string) (parent : Value) : prog revproxyE unit :=
  match get_str "name" parent with
  | None => Ret tt
  | Some gw_name =>
      let gw_ns := default route_ns (get_str "namespace" parent) in
      all_hosts ⟵ (match hostnames with
                   | [] =>
                       gw ⟵ trigger (KGet (KDynamic gateway_ar) (Namespaced gw_ns) gw_name);
                       Ret (match gw with Ok gw => listener_hosts gw | Err _ => [] end)
                   | _ => Ret hostnames
                   end);
      let svc_label := "gateway.networking.k8s.io/gateway-name=" +:+ gw_name in
      svc_list ⟵ trigger (KList KService (Namespaced gw_ns) (Some svc_label));
      match svc_list with
      | Ok (svc :: _) =>
          let '(port, tls) := gateway_port svc in
          for_each all_hosts (fun host =>
            trigger (TableInsert host
              {| service_name := name_any svc;
                 service_namespace := default gw_ns (namespace svc);
                 target_port := Number port; tls := tls |}))
      | _ => Ret tt
      end
  end.

Definition on_httproute_event (event : option DynamicObject) : prog revproxyE unit :=
  match event with
  | None => Ret tt
  | Some route =>
      let route_ns := default "" (namespace route) in
      let spec := get "spec" (data route) in
      let hostnames := match spec ≫= get_array "hostnames" with
                       | Some arr => omap as_str arr
                       | None => []
                       end in
      let parent_refs := default [] (spec ≫= get_array "parentRefs") in
      for_each parent_refs (on_parent_ref route_ns hostnames)
  end.

Definition build_gateway_route_table (events : list (option DynamicObject)) : prog revproxyE unit :=
  for_each events on_httproute_event.

(** ** Finding the upstream *)

Definition cluster_port (backend : RouteBackend) (svc : Service) : Z :=
  match target_port backend with
  | Number n => cast_u16 n
  | Name name =>
      match List.find (fun p => bool_decide (sp_name p = Some name)) (default [] (svc_spec svc ≫= ss_ports)) with
      | Some p => cast_u16 (sp_port p)
      | None => 80
      end
  end.

(** The address of the service itself, when it has one. *)
Definition cluster_addr (backend : RouteBackend) (svc : Service) : option SocketAddr :=
  cluster_ip ← svc_spec svc ≫= ss_cluster_ip;
  if negb (String.eqb cluster_ip "None") && negb (is_empty cluster_ip) then
    ip ← parse_ip cluster_ip;
    Some {| sa_ip := ip; sa_port := cluster_port backend svc |}
  else None.

Definition subset_port (tp : TargetPort) (ports : list EndpointPort) : option Z :=
  ep_port <$> List.find (fun p => match tp with
                                  | Number n => ep_port p =? n
                                  | Name name => bool_decide (ep_port_name p = Some name)
                                  end) ports.

(** The first subset with the port and an address; a subset without ports, or
    with an address that is none, ends the search. *)
Fixpoint subset_addr (tp : TargetPort) (subsets : list EndpointSubset) : option SocketAddr :=
  match subsets with
  | [] => None
  | subset :: r =>
      match es_ports subset with
      | None => None
      | Some ports =>
          match subset_port tp ports, es_addresses subset ≫= head with
          | Some port, Some addr =>
              ip ← parse_ip addr;
              Some {| sa_ip := ip; sa_port := cast_u16 port |}
          | _, _ => subset_addr tp r
          end
      end
  end.

Definition resolve_endpoint (backend : RouteBackend) : prog revproxyE (option SocketAddr) :=
  svc ⟵ trigger (KGet KService (Namespaced (service_namespace backend)) (service_name backend));
  match (match svc with Ok svc => cluster_addr backend svc | Err _ => None end) with
  | Some addr => Ret (Some addr)
  | None =>
      ep ⟵ trigger (KGet KEndpoints (Namespaced (service_namespace backend)) (service_name backend));
      Ret (match ep with
           | Ok ep => subsets ← ep_subsets ep; subset_addr (target_port backend) subsets
           | Err _ => None
           end)
  end.

(** ** Requests *)

Record ProxyRequest : Type := {
  pr_method : string;
  pr_path_and_query : option string;
  pr_headers : list (string * string);
  (** [None] when collecting the body fails *)
  pr_body : option string
}.

(** How the handler ends: with a response, with the error of the request's
    body, with a panic (an [unwrap] of a builder's error), or not at all while
    the upstream stays silent. *)
Inductive Outcome : Type :=
| Answer (r : Response)
| HyperError
| Panicked
| Waiting.

Definition SERVICE_UNAVAILABLE : Z := 503.
Definition SWITCHING_PROTOCOLS : Z := 101.

Definition crlf : string := String cr newline.
Definition text (st : Z) (msg : string) : prog revproxyE Outcome := Ret (Answer (text_response st (msg +:+ newline))).

Section Handle.
Context {CR : Crates} {HB : HttpBuild}.

Definition raw_header (kv : string * string) : string :=
  if String.eqb kv.1 "host" then ""
  else match header_to_str kv.2 with
       | Some v => kv.1 +:+ ": " +:+ v +:+ crlf
       | None => ""
       end.

Definition raw_request (req : ProxyRequest) (host path : string) (tls_incoming : bool) : string :=
  pr_method req +:+ " " +:+ path +:+ " HTTP/1.1" +:+ crlf +:+ "Host: " +:+ host +:+ crlf +:+
  str_concat (raw_header <$> pr_headers req) +:+
  (if tls_incoming then "X-Forwarded-Proto: https" +:+ crlf else "") +:+ crlf.

(** The loop that collects the head of the upstream's answer. *)
Inductive ReadHead : Type :=
| HeadDone (resp_buf : string) (rest : list Chunk)
| HeadFailed
| HeadPending.

Fixpoint read_head (chunks : list Chunk) (resp_buf : string) : ReadHead :=
  match chunks with
  | [] => HeadPending
  | None :: _ => HeadFailed
  | Some available :: rest =>
      if is_empty available then HeadDone resp_buf rest
      else
        let resp_buf := resp_buf +:+ available in
        if contains (crlf +:+ crlf) resp_buf then HeadDone resp_buf rest
        else read_head rest resp_buf
  end.

(** The header lines up to the first empty line. *)
Fixpoint header_lines (ls : list string) : list (string * string) :=
  match ls with
  | [] => []
  | line :: r =>
      if is_empty line then []
      else match split_once ":"%char line with
           | Some (k, v) => (trim k, trim v) :: header_lines r
           | None => header_lines r
           end
  end.

(** [Response::builder]: [None] once a part is refused. *)
Fixpoint build_headers (hs : list (string * string)) : option (list (string * string)) :=
  match hs with
  | [] => Some []
  | (k, v) :: r =>
      k ← header_name k;
      if header_value_ok v then r ← build_headers r; Some ((k, v) :: r) else None
  end.

Definition build_response (st : Z) (hs : list (string * string)) : Outcome :=
  match build_headers hs with
  | Some hs => if status_ok st then Answer (Resp st hs "") else Panicked
  | None => Panicked
  end.

Definition ws_handshake_and_tunnel (req : ProxyRequest) (host path : string) (tls_incoming : bool) (upstream : Conn) :
    prog revproxyE Outcome :=
  ok ⟵ trigger (WriteAll upstream (raw_request req host path tls_incoming));
  if negb ok then text BAD_GATEWAY "upstream write failed"
  else
    chunks ⟵ trigger (Reads upstream);
    match read_head chunks "" with
    | HeadPending => Ret Waiting
    | HeadFailed => text BAD_GATEWAY "upstream read failed"
    | HeadDone resp_buf rest =>
        let resp_str := from_utf8_lossy resp_buf in
        let first_line := default "" (head (lines resp_str)) in
        let hs := header_lines (tail (lines resp_str)) in
        if negb (contains "101" first_line) then
          let status_code := default 502 (split_whitespace first_line !! 1%nat ≫= parse_u16) in
          Ret (build_response status_code hs)
        else
          _ ⟵ trigger (SpawnTunnel upstream rest);
          Ret (build_response SWITCHING_PROTOCOLS hs)
    end.

Definition server_name (host : string) (addr : SocketAddr) : ServerName :=
  if server_name_ok host then DnsName host else IpName (sa_ip addr).

Definition proxy_upgrade (req : ProxyRequest) (host : string) (addr : SocketAddr) (tls tls_incoming : bool) :
    prog revproxyE Outcome :=
  let path := default "/" (pr_path_and_query req) in
  tcp ⟵ trigger (Connect addr);
  match tcp with
  | None => text BAD_GATEWAY "upstream connect failed"
  | Some tcp =>
      if tls then
        s ⟵ trigger (TlsConnect make_tls_config tcp (server_name host addr));
        match s with
        | Some tls_stream => ws_handshake_and_tunnel req host path tls_incoming tls_stream
        | None => text BAD_GATEWAY "upstream TLS error"
        end
      else ws_handshake_and_tunnel req host path tls_incoming tcp
  end.

(** The host a request is for, without its port. *)
Definition request_host (req : ProxyRequest) : string :=
  match header_get "host" (pr_headers req) ≫= header_to_str with
  | Some h => split_first ":"%char h
  | None => ""
  end.

Definition oauth_host : string := OAUTH_HOST +:+ "." +:+ DOMAIN.
Definition entra_host : string := "entra." +:+ DOMAIN.
Definition oauth_addr : SocketAddr := {| sa_ip := V4 127 0 0 1; sa_port := OAUTH_PORT |}.

Definition forwarded_headers (req : ProxyRequest) (host : string) (tls_incoming : bool) : list (string * string) :=
  List.filter (fun kv => negb (String.eqb kv.1 "host")) (pr_headers req) ++
  [ ("host", host) ] ++
  (if tls_incoming
   then [ ("x-forwarded-proto", "https"); ("x-forwarded-scheme", "https"); ("x-forwarded-port", "443") ]
   else [ ("x-forwarded-proto", "http") ]).

(** The response made from the upstream's. *)
Definition relay (result : Upstream) : prog revproxyE Outcome :=
  match result with
  | Ok resp => Ret (Answer (Resp (hp_status resp) (hp_headers resp) (default "" (hp_body resp))))
  | Err e => text BAD_GATEWAY ("proxy error: " +:+ e)
  end.

(** The part of [proxy_request] after the upstream has been chosen. *)
Definition forward_to (addr : SocketAddr) (backend_tls tls_incoming : bool) (host : string) (req : ProxyRequest) :
    prog revproxyE Outcome :=
  let path := default "/" (pr_path_and_query req) in
  let uri := if backend_tls then path else "http://" +:+ show_addr addr +:+ path in
  if header_contains "upgrade" (pr_headers req)
  then proxy_upgrade req host addr backend_tls tls_incoming
  else
    match pr_body req with
    | None => Ret HyperError
    | Some body =>
        if negb (uri_ok uri && header_value_ok host) then Ret Panicked
        else
          let proxy_req := {| fw_method := pr_method req; fw_uri := uri;
                              fw_headers := forwarded_headers req host tls_incoming; fw_body := body |} in
          if backend_tls then
            tcp ⟵ trigger (Connect addr);
            match tcp with
            | None => text BAD_GATEWAY "proxy error: connect failed"
            | Some tcp =>
                s ⟵ trigger (TlsConnect make_tls_config tcp (server_name host addr));
                match s with
                | None => text BAD_GATEWAY "proxy error: TLS failed"
                | Some tls_stream =>
                    ok ⟵ trigger (Handshake tls_stream);
                    if negb ok then text BAD_GATEWAY "proxy error: handshake failed"
                    else
                      result ⟵ trigger (SendRequest tls_stream proxy_req);
                      relay result
                end
            end
          else
            result ⟵ trigger (ClientRequest proxy_req);
            relay result
    end.

Definition proxy_request (tls_incoming : bool) (req : ProxyRequest) : prog revproxyE Outcome :=
  let host := request_host req in
  if String.eqb host oauth_host || String.eqb host entra_host
  then forward_to oauth_addr true tls_incoming host req
  else
    backend ⟵ trigger (TableGet host);
    match backend with
    | None => text BAD_GATEWAY ("no route for host: " +:+ host)
    | Some backend =>
        resolved ⟵ resolve_endpoint backend;
        match resolved with
        | None => text SERVICE_UNAVAILABLE
                    ("no endpoints for " +:+ service_namespace backend +:+ "/" +:+ service_name backend)
        | Some addr => forward_to addr (tls backend) tls_incoming host req
        end
    end.
End Handle.

(** ** The machine the proxy runs on *)

Class Network (W : Type) : Type := {
  network_kube :: KubeServer W;
  net_step : forall X, netE X -> W -> X * W
}.
Arguments net_step {W _ X} e w.

Abbreviation RouteTable := (gmap string RouteBackend).

Section World.
Context {W : Type} `{!Network W}.

Definition proxy_step X (e : revproxyE X) : RouteTable * W -> X * (RouteTable * W) :=
  match e with
  | inlE te =>
      match te in tableE X return RouteTable * W -> X * (RouteTable * W) with
      | TableInsert host b => fun '(t, w) => (tt, (<[host := b]> t, w))
      | TableGet host => fun '(t, w) => (t !! host, (t, w))
      end
  | inrE (inlE ne) => fun '(t, w) => let '(x, w) := net_step ne w in (x, (t, w))
  | inrE (inrE ke) => fun '(t, w) => let '(x, w) := kube_step ke w in (x, (t, w))
  end.

Definition run_proxy {A} (p : prog revproxyE A) (s : RouteTable * W) : A * (RouteTable * W) :=
  run proxy_step p s.
End World.
