(* ===== verification/ProxyProofs.v ===== *)
(** * Properties of the reverse proxy *)

From S2P Require Import Prelude RustStr Net Json Prog Kube Util Crates OAuthTypes OAuthEffects OAuthHelpers Controller Proxy.
From S2P Require Route.
Open Scope list_scope.
Open Scope Z_scope.

(** ** The table *)

Section Table.
Context {W : Type} `{!Network W}.

(** The entry an applied route stands for. *)
Definition entry_of (event : option DynamicObject) : option (string * RouteBackend) :=
  route ← event;
  host ← extract_host route;
  b ← extract_backend route;
  Some (host, {| service_name := b.1.1; service_namespace := default "" (namespace route);
                 target_port := b.1.2; tls := b.2 |}).

Lemma run_on_route_event event (t : RouteTable) (w : W) :
  run_proxy (on_route_event event) (t, w) =
    (tt, (match entry_of event with Some (h, b) => <[h := b]> t | None => t end, w)).
Proof.
  unfold run_proxy, on_route_event, entry_of. destruct event as [route|]; [|done].
  cbn [mbind option_bind]. destruct (extract_host route) as [h|]; [|done]. cbn [mbind option_bind].
  by destruct (extract_backend route) as [[[svc port] tl]|].
Qed.

Definition last_entry (h : string) (events : list (option DynamicObject)) : option RouteBackend :=
  list.last (omap (fun ev => e ← entry_of ev; if String.eqb e.1 h then Some e.2 else None) events).

(** C36: After any sequence of applied routes and watch errors, a host maps to
    the backend of the last applied route for that host, or to what it mapped
    to before if there is none; the sequence never removes a host. *)
Theorem route_table_last_applied events (t : RouteTable) (w : W) h :
  exists t', run_proxy (build_route_table events) (t, w) = (tt, (t', w)) /\
    t' !! h = match last_entry h events with Some b => Some b | None => t !! h end.
Proof.
  unfold build_route_table, last_entry, run_proxy. revert t.
  induction events as [|ev events IH]; intros t; [by exists t|]. cbn [for_each].
  rewrite run_bind. pose proof (run_on_route_event ev t w) as Hev. unfold run_proxy in Hev. rewrite Hev.
  rewrite omap_cons_eq. destruct (entry_of ev) as [[h0 b]|]; cbn [mbind option_bind fst snd]; [|apply IH].
  destruct (IH (<[h0 := b]> t)) as (t' & Hr & Hl). exists t'. split; [exact Hr|]. rewrite Hl.
  destruct (String.eqb_spec h0 h) as [->|Hne].
  - rewrite lookup_insert_eq. set (l := omap _ events). destruct l as [|x l]; [done|].
    rewrite (last_cons b (x :: l)). destruct (list.last (x :: l)) eqn:E; [done|]. by apply last_None in E.
  - by rewrite lookup_insert_ne.
Qed.
End Table.

(** ** Admitted routes *)

(** C13: The host the Route controller admits a route under is the host the
    proxy files it under: when a route that was not admitted has been
    reconciled, what is stored has the computed host and the same backend, and
    the event of its update makes the proxy send that host to that backend. *)
Theorem admitted_route_routed {W V} `{!KubeServer W} `{!MergeStatusLaw W} `{!Network V} route (w : W) w' a :
  stored Route.route_controller w route -> Route.is_admitted route = false ->
  run_ctrl (Route.reconcile_route route) w = (Ok a, w') ->
  exists route', stored Route.route_controller w' route' /\
    extract_host route' = Some (Route.compute_host route) /\
    extract_backend route' = extract_backend route /\
    forall b (t : RouteTable) (v : V), entry_of (Some route') = Some (Route.compute_host route, b) ->
      ((run_proxy (on_route_event (Some route')) (t, v)).2.1 : RouteTable) !! Route.compute_host route = Some b.
Proof.
  intros Hst Hna. rewrite Route.reconcile_route_status. intros Hr.
  destruct (status_step _ _ _ _ _ Hst Hr) as (route' & Hst' & _ & _ & _ & Hnew & _).
  cbn [sc_needs Route.route_controller] in Hnew. rewrite Hna in Hnew. destruct (Hnew eq_refl) as [now Hd].
  cbn [sc_status Route.route_controller] in Hd. exists route'. split_and!.
  - exact Hst'.
  - unfold extract_host. rewrite Hd, get_merge_single by done. cbn [mbind option_bind].
    unfold Route.route_status, jobj at 1, get_array. rewrite get_merge_single by done. reflexivity.
  - unfold extract_backend. by rewrite Hd, get_merge_single_ne.
  - intros b t v He. rewrite run_on_route_event, He. apply lookup_insert_eq.
Qed.

(** ** Requests *)

Section Requests.
Context {CR : Crates} {HB : HttpBuild}.

(** What the client is sent for the upstream's result: its status and headers
    with its body, or with an empty body when the upstream's could not be
    read to its end; a 502 when there is no response at all. *)
Definition relayed (result : Upstream) : Response :=
  match result with
  | Ok resp =>
      match hp_body resp with
      | Some body => Resp (hp_status resp) (hp_headers resp) body
      | None => Resp (hp_status resp) (hp_headers resp) ""
      end
  | Err e => text_response BAD_GATEWAY ("proxy error: " +:+ e +:+ newline)
  end.

Lemma relay_relayed result : relay result = Ret (Answer (relayed result)).
Proof.
  destruct result as [[st hs [body|]]|e]; [done..|]. cbn [relay relayed]. unfold text, text_response.
  by rewrite <- sapp_assoc.
Qed.

(** *** The hosts of the OAuth server and of the external provider

    A monitor of the connections to the local OAuth server.  A plain
    connection may only be opened to it and only be used to set up TLS for the
    requested host; requests, raw bytes and tunnels only go through a
    connection TLS was set up on. *)
Record conns : Type := Conns { raw_conns : list Conn; tls_conns : list Conn }.

Definition oauth_allow (host : string) X (st : conns) (e : revproxyE X) : Prop :=
  match e with
  | inrE (inlE ne) =>
      match ne with
      | Connect addr => addr = oauth_addr
      | TlsConnect _ c name => In c (raw_conns st) /\ name = server_name host oauth_addr
      | Handshake c | SendRequest c _ | WriteAll c _ | Reads c | SpawnTunnel c _ => In c (tls_conns st)
      | ClientRequest _ => False
      end
  | _ => False
  end.

Definition oauth_next X (st : conns) (e : revproxyE X) : X -> conns :=
  match e with
  | inrE (inlE ne) =>
      match ne in netE X return X -> conns with
      | Connect _ => fun r =>
          match r with Some c => Conns (c :: raw_conns st) (tls_conns st) | None => st end
      | TlsConnect _ _ _ => fun r =>
          match r with Some c => Conns (raw_conns st) (c :: tls_conns st) | None => st end
      | _ => fun _ => st
      end
  | _ => fun _ => st
  end.

Definition oauth_monitor (host : string) : monitor revproxyE :=
  {| mstate := conns; mallow := oauth_allow host; mnext := oauth_next |}.

Ltac oauth_step :=
  apply wp_bind; prog_unfold;
  cbn [wp mallow mnext oauth_monitor oauth_allow oauth_next raw_conns tls_conns];
  split; [try split; try reflexivity; by left|].

Lemma ws_over_tls h st req host path ti c :
  In c (tls_conns st) ->
  wp (oauth_monitor h) st (ws_handshake_and_tunnel req host path ti c) (fun _ _ => True).
Proof.
  intros Hc. unfold ws_handshake_and_tunnel. apply wp_bind. split; [exact Hc|].
  intros []; cbn [negb]; [|done]. apply wp_bind. split; [exact Hc|]. intros chunks. simpl.
  destruct (read_head _ _); [|done|done]. cbv zeta. destruct (negb _); [done|].
  by split; [exact Hc|].
Qed.

Lemma identity_request tls_incoming req :
  request_host req = oauth_host \/ request_host req = entra_host ->
  proxy_request tls_incoming req = forward_to oauth_addr true tls_incoming (request_host req) req.
Proof.
  intros Hh. unfold proxy_request.
  assert (Ho : String.eqb (request_host req) oauth_host || String.eqb (request_host req) entra_host = true).
  { destruct Hh as [Hh|Hh]; by rewrite Hh, String.eqb_refl, ?orb_true_r. }
  by rewrite Ho.
Qed.

(** C14: A request for the host of the OAuth server or of the external
    provider only ever reaches the local OAuth port, and only over TLS set up
    for the requested host: whatever its effects return, nothing is written,
    requested or tunnelled on any other connection, and the route table and
    the cluster are not consulted.  And it does reach it: when connecting, TLS
    and the HTTP handshake succeed, a request without upgrade is sent on that
    TLS connection with the client's method, path, headers and body, and its
    result relayed. *)
Theorem identity_hosts_pinned {W} `{!Network W} tls_incoming req :
  let host := request_host req in
  let path := default "/" (pr_path_and_query req) in
  host = oauth_host \/ host = entra_host ->
  wp (oauth_monitor host) (Conns [] []) (proxy_request tls_incoming req) (fun _ _ => True) /\
  forall (t : RouteTable) (w w1 w2 w3 w4 : W) tcp stream body r,
    header_contains "upgrade" (pr_headers req) = false -> pr_body req = Some body ->
    uri_ok path = true -> header_value_ok host = true ->
    net_step (Connect oauth_addr) w = (Some tcp, w1) ->
    net_step (TlsConnect make_tls_config tcp (server_name host oauth_addr)) w1 = (Some stream, w2) ->
    net_step (Handshake stream) w2 = (true, w3) ->
    net_step (SendRequest stream {| fw_method := pr_method req; fw_uri := path;
                fw_headers := forwarded_headers req host tls_incoming; fw_body := body |}) w3 = (r, w4) ->
    run_proxy (proxy_request tls_incoming req) (t, w) = (Answer (relayed r), (t, w4)).
Proof.
  intros host path Hh. rewrite (identity_request _ _ Hh). fold host. unfold forward_to. split.
  - destruct (header_contains _ _).
    + unfold proxy_upgrade. oauth_step. intros [tcp|]; [|done]. oauth_step. intros [s|]; [|done].
      apply ws_over_tls. by left.
    + destruct (pr_body req) as [b|]; [|done]. destruct (negb _); [done|].
      oauth_step. intros [tcp|]; [|done]. oauth_step. intros [s|]; [|done].
      oauth_step. intros []; cbn [negb]; [|done]. oauth_step. intros r. by rewrite relay_relayed.
  - intros t w w1 w2 w3 w4 tcp stream body r Hup Hb Hu Hhv H1 H2 H3 H4.
    fold path. rewrite Hup, Hb, Hu, Hhv. cbn [andb negb]. unfold run_proxy.
    rewrite run_bind. prog_unfold. cbn [run proxy_step]. rewrite H1. cbv beta iota.
    rewrite run_bind. cbn [run proxy_step]. rewrite H2. cbv beta iota.
    rewrite run_bind. cbn [run proxy_step]. rewrite H3. cbn [negb].
    rewrite run_bind. cbn [run proxy_step]. rewrite H4. by rewrite relay_relayed.
Qed.

(** A forwarded request carries the client's other headers in their order
    and exactly one host header, the requested host without its port; but the
    forwarding headers are added behind the client's own, so a value the client
    supplies for x-forwarded-proto is the one an upstream sees first. *)
Theorem forwarded_header_order req host tls_incoming :
  let hs := forwarded_headers req host tls_incoming in
  (forall v, In ("host", v) hs <-> v = host) /\
  (exists added, hs = List.filter (fun kv => negb (String.eqb kv.1 "host")) (pr_headers req) ++ ("host", host) :: added) /\
  header_get "x-forwarded-proto" hs =
    match header_get "x-forwarded-proto" (pr_headers req) with
    | Some v => Some v
    | None => Some (if tls_incoming then "https" else "http")
    end.
Proof.
  intros hs. unfold hs, forwarded_headers. split_and!.
  - intros v. rewrite !in_app_iff. split.
    + intros [H|[H|H]].
      * by apply List.filter_In in H as [_ H].
      * by destruct H as [[= ->]|H].
      * destruct tls_incoming; simpl in H; naive_solver.
    + intros ->. right. left. by left.
  - by eexists.
  - induction (pr_headers req) as [|[k v] l IH]; [by destruct tls_incoming|]. cbn [List.filter fst].
    destruct (String.eqb_spec k "host") as [->|Hk]; cbn [negb].
    + rewrite IH. reflexivity.
    + cbn [app header_get]. destruct (String.eqb_spec "x-forwarded-proto" k); [done|exact IH].
Qed.

(** *** Plain requests *)

Lemma show_v4_ip a b c d : show_v4 a b c d <> "None" /\ show_v4 a b c d <> "".
Proof.
  assert (H : char_in "."%char (show_v4 a b c d) = true).
  { unfold show_v4. autorewrite with ruststr. by rewrite orb_true_r. }
  split; intros Heq; by rewrite Heq in H.
Qed.

Lemma cluster_addr_v4 backend svc a b c d :
  0 <= a < 256 -> 0 <= b < 256 -> 0 <= c < 256 -> 0 <= d < 256 ->
  svc_spec svc ≫= ss_cluster_ip = Some (show_v4 a b c d) ->
  cluster_addr backend svc = Some {| sa_ip := V4 a b c d; sa_port := cluster_port backend svc |}.
Proof.
  intros ? ? ? ? Hip. unfold cluster_addr. rewrite Hip. cbn [mbind option_bind].
  destruct (show_v4_ip a b c d) as [Hnone Hempty].
  destruct (String.eqb_spec (show_v4 a b c d) "None"); [done|]. cbn [negb andb].
  assert (He : is_empty (show_v4 a b c d) = false) by by destruct (show_v4 a b c d).
  rewrite He, parse_show_v4 by done. reflexivity.
Qed.

Lemma cluster_port_range backend svc : 0 <= cluster_port backend svc < 65536.
Proof.
  unfold cluster_port. destruct (target_port backend); [apply cast_u16_range|].
  destruct (List.find _ _); [apply cast_u16_range|lia].
Qed.

Context {W : Type} `{!Network W}.

(** C12: A request without upgrade for a host whose entry is a plain HTTP
    backend with a cluster address is sent, once, to that address and the
    resolved port, with the client's method, path and body, its headers but
    for the rewritten host, and the forwarding headers.  The upstream's status
    and headers come back unchanged, with its body if that could be read; with
    an empty body, and no sign of the failure, if it could not.  Only when
    there is no response at all is the answer a 502. *)
Theorem plain_request_relayed tls_incoming req (t : RouteTable) (w : W) backend svc w1 a b c d bytes r w2 :
  let host := request_host req in
  let path := default "/" (pr_path_and_query req) in
  let uri := "http://" +:+ show_v4 a b c d +:+ ":" +:+ pretty (cluster_port backend svc) +:+ path in
  host <> oauth_host -> host <> entra_host ->
  t !! host = Some backend -> tls backend = false ->
  kube_step (KGet KService (Namespaced (service_namespace backend)) (service_name backend)) w = (Ok svc, w1) ->
  svc_spec svc ≫= ss_cluster_ip = Some (show_v4 a b c d) ->
  0 <= a < 256 -> 0 <= b < 256 -> 0 <= c < 256 -> 0 <= d < 256 ->
  header_contains "upgrade" (pr_headers req) = false -> pr_body req = Some bytes ->
  uri_ok uri = true -> header_value_ok host = true ->
  net_step (ClientRequest {| fw_method := pr_method req; fw_uri := uri;
                             fw_headers := forwarded_headers req host tls_incoming; fw_body := bytes |}) w1 = (r, w2) ->
  run_proxy (proxy_request tls_incoming req) (t, w) =
    (Answer match r with
            | Ok resp =>
                match hp_body resp with
                | Some body => Resp (hp_status resp) (hp_headers resp) body
                | None => Resp (hp_status resp) (hp_headers resp) ""
                end
            | Err e => text_response BAD_GATEWAY ("proxy error: " +:+ e +:+ newline)
            end, (t, w2)).
Proof.
  intros host path uri Ho He Ht Htls Hk Hip Ha Hb Hc Hd Hup Hbody Huri Hhv Hnet.
  unfold run_proxy, proxy_request. fold host.
  destruct (String.eqb_spec host oauth_host); [done|]. destruct (String.eqb_spec host entra_host); [done|].
  cbn [orb]. prog_unfold. rewrite run_bind. cbn [run proxy_step]. rewrite Ht. cbv beta iota.
  unfold resolve_endpoint. rewrite run_bind. prog_unfold. rewrite run_bind. cbn [run proxy_step].
  change (Obj KService) with Service in *. rewrite Hk. cbv beta iota.
  rewrite (cluster_addr_v4 backend svc a b c d) by done. cbn [run].
  unfold forward_to. rewrite Hup, Hbody, Htls. cbv iota. fold path.
  assert (Hu : "http://" +:+ show_addr {| sa_ip := V4 a b c d; sa_port := cluster_port backend svc |} +:+ path = uri).
  { unfold show_addr, uri. cbn [sa_ip sa_port]. by rewrite <- !sapp_assoc. }
  rewrite Hu, Huri, Hhv. cbn [andb negb]. rewrite run_bind. prog_unfold. cbn [run proxy_step].
  rewrite Hnet. by rewrite relay_relayed.
Qed.

(** *** WebSocket upgrades *)

Definition printable (s : string) : bool := forall_chars (in_range 32 126) s.

Definition header_line (kv : string * string) : string := kv.1 +:+ ": " +:+ kv.2.

(** The head of an HTTP response. *)
Definition response_head (status_line : string) (hs : list (string * string)) : string :=
  str_concat ((fun l => l +:+ crlf) <$> (status_line :: (header_line <$> hs))) +:+ crlf.

(** A header as servers send it: no colon in the name, no blanks around. *)
Definition wf_header (kv : string * string) : bool :=
  negb (char_in ":"%char kv.1) && printable kv.1 && printable kv.2 &&
  String.eqb (trim kv.1) kv.1 && String.eqb (trim (" " +:+ kv.2)) kv.2.

Lemma printable_ascii s : printable s = true -> forall_chars (in_range 0 127) s = true.
Proof.
  apply forall_chars_impl. intros c. unfold in_range. rewrite !andb_true_iff, !Z.leb_le. lia.
Qed.

Lemma lossy_ascii s r n :
  forall_chars (in_range 0 127) s = true ->
  lossy_fuel (String.length s + n) (s +:+ r) = s +:+ lossy_fuel n r.
Proof.
  induction s as [|c s IH]; [done|]. cbn [forall_chars String.length Nat.add]. intros [Hc Hs]%andb_true_iff.
  change (String c s +:+ r) with (String c (s +:+ r)). cbn [lossy_fuel utf8_next]. rewrite Hc.
  cbn [str_take str_drop]. rewrite IH by done. reflexivity.
Qed.

Lemma from_utf8_lossy_ascii s r :
  forall_chars (in_range 0 127) s = true -> from_utf8_lossy (s +:+ r) = s +:+ from_utf8_lossy r.
Proof. intros Hs. unfold from_utf8_lossy. rewrite slength_app. by apply lossy_ascii. Qed.

Lemma drop_last_cr_snoc l : drop_last_cr (l +:+ String cr "") = l.
Proof.
  induction l as [|c l IH]; [done|]. change (String c l +:+ ?r) with (String c (l +:+ r)).
  cbn [drop_last_cr]. rewrite IH. by destruct l.
Qed.

Lemma lines_crlf l r : printable l = true -> lines (l +:+ crlf +:+ r) = l :: lines r.
Proof.
  intros Hl. change (crlf +:+ r) with (String cr "" +:+ String nl r). rewrite sapp_assoc, lines_cons.
  - by rewrite drop_last_cr_snoc.
  - rewrite char_in_app, (forall_chars_char_in _ nl _ Hl) by done. reflexivity.
Qed.

Lemma wf_header_printable kv : wf_header kv = true -> printable (header_line kv) = true.
Proof.
  unfold wf_header, header_line, printable. rewrite !andb_true_iff. intros [[[[_ H1] H2] _] _].
  autorewrite with ruststr. by rewrite H1, H2.
Qed.

Lemma header_lines_wf hs r :
  forallb wf_header hs = true -> header_lines ((header_line <$> hs) ++ "" :: r) = hs.
Proof.
  induction hs as [|[k v] hs IH]; [done|]. cbn [forallb]. intros [Hkv Hhs]%andb_true_iff.
  rewrite fmap_cons. cbn [app header_lines]. unfold wf_header in Hkv. cbn [fst snd] in Hkv.
  rewrite !andb_true_iff, negb_true_iff in Hkv. destruct Hkv as [[[[Hc _] _] Hk%String.eqb_eq] Hv%String.eqb_eq].
  assert (He : is_empty (header_line (k, v)) = false) by (unfold header_line; by destruct k).
  rewrite He. unfold header_line at 1. cbn [fst snd].
  change (": " +:+ v) with (String ":"%char (" " +:+ v)). rewrite split_once_app by done.
  rewrite Hk, Hv, IH by done. reflexivity.
Qed.

Lemma lines_head ls r :
  forallb printable ls = true ->
  lines ((str_concat ((fun l => l +:+ crlf) <$> ls) +:+ crlf) +:+ r) = ls ++ "" :: lines r.
Proof.
  induction ls as [|l ls IH]; cbn [forallb].
  - intros _. by apply (lines_crlf "" r).
  - intros [Hl Hls]%andb_true_iff. rewrite fmap_cons.
    change (str_concat ((l +:+ crlf) :: ?q)) with ((l +:+ crlf) +:+ str_concat q).
    rewrite <- !sapp_assoc, lines_crlf by done. cbn [app]. f_equal. rewrite <- IH by done.
    by rewrite <- sapp_assoc.
Qed.

Lemma ascii_head ls :
  forallb printable ls = true ->
  forall_chars (in_range 0 127) (str_concat ((fun l => l +:+ crlf) <$> ls) +:+ crlf) = true.
Proof.
  intros H. rewrite forall_chars_app. apply andb_true_iff. split; [|done].
  induction ls as [|l ls IH]; [done|]. cbn [forallb] in H. apply andb_true_iff in H as [Hl Hls].
  rewrite fmap_cons. change (str_concat ((l +:+ crlf) :: ?q)) with ((l +:+ crlf) +:+ str_concat q).
  rewrite !forall_chars_app, (printable_ascii l Hl), IH by done. reflexivity.
Qed.

Lemma crlf_lines_end l ls :
  exists a, str_concat ((fun l => l +:+ crlf) <$> (l :: ls)) = a +:+ crlf.
Proof.
  revert l. induction ls as [|l' ls IH]; intros l.
  - exists l. cbn. by rewrite sapp_nil_r.
  - destruct (IH l') as [a Ha]. exists ((l +:+ crlf) +:+ a). rewrite fmap_cons.
    change (str_concat ((l +:+ crlf) :: ?q)) with ((l +:+ crlf) +:+ str_concat q).
    by rewrite Ha, sapp_assoc.
Qed.

Lemma head_complete status_line hs extra :
  contains (crlf +:+ crlf) (response_head status_line hs +:+ extra) = true.
Proof.
  apply contains_true. unfold response_head.
  destruct (crlf_lines_end status_line (header_line <$> hs)) as [a Ha]. rewrite Ha.
  exists a, extra. by rewrite <- !sapp_assoc.
Qed.

(** C35: When the upstream's first bytes are a complete head that announces a
    switch of protocols, the client gets a 101 with exactly the upstream's
    headers and the connections are joined for what is read from then on;
    bytes of the new protocol that arrived together with the head are in
    neither: they are lost. *)
Theorem websocket_upgrade_answer req host path tls_incoming up status_line hs extra rest hs' (t : RouteTable) (w : W) w1 w2 :
  printable status_line = true -> contains "101" status_line = true ->
  forallb wf_header hs = true -> build_headers hs = Some hs' -> status_ok 101 = true ->
  net_step (WriteAll up (raw_request req host path tls_incoming)) w = (true, w1) ->
  net_step (Reads up) w1 = (Some (response_head status_line hs +:+ extra) :: rest, w2) ->
  run_proxy (ws_handshake_and_tunnel req host path tls_incoming up) (t, w) =
    (Answer (Resp 101 hs' ""), (t, (net_step (SpawnTunnel up rest) w2).2)).
Proof.
  intros Hs H101 Hhs Hb Hok Hw Hr. unfold run_proxy, ws_handshake_and_tunnel.
  rewrite run_bind. prog_unfold. cbn [run proxy_step]. rewrite Hw. cbn [negb].
  rewrite run_bind. cbn [run proxy_step]. rewrite Hr. cbv beta iota.
  assert (Hne : is_empty (response_head status_line hs +:+ extra) = false).
  { pose proof (head_complete status_line hs extra) as Hc.
    destruct (response_head status_line hs +:+ extra); [by vm_compute in Hc|done]. }
  cbn [read_head]. rewrite Hne.
  change ("" +:+ response_head status_line hs +:+ extra) with (response_head status_line hs +:+ extra).
  rewrite head_complete. cbv zeta.
  assert (Hls : forallb printable (status_line :: (header_line <$> hs)) = true).
  { cbn [forallb]. rewrite Hs. cbn [andb]. rewrite forallb_forall in *. intros l Hl.
    apply list_elem_of_In, list_elem_of_fmap in Hl as (kv & -> & Hkv%list_elem_of_In).
    apply wf_header_printable. auto. }
  rewrite from_utf8_lossy_ascii by by apply ascii_head. unfold response_head.
  rewrite lines_head by done. cbn [app].
  change (default "" (head (status_line :: ?q))) with status_line.
  change (tail (status_line :: ?q)) with q. rewrite H101. cbn [negb].
  rewrite header_lines_wf by done. rewrite run_bind. cbn [run proxy_step].
  destruct (net_step (SpawnTunnel up rest) w2) as [[] w3]. cbn [run snd].
  unfold build_response. rewrite Hb. change SWITCHING_PROTOCOLS with 101. by rewrite Hok.
Qed.
End Requests.

(** ** Witnesses *)

Module ProxySample.

Definition svc : Service := {|
  svc_metadata := named "web" (Some "apps");
  svc_spec := Some {| ss_type := None; ss_cluster_ip := Some "10.96.0.7"; ss_selector := None;
                      ss_ports := Some [ {| sp_name := Some "http"; sp_port := 8080; sp_target_port := None;
                                            sp_protocol := None |} ] |};
  svc_status := None |}.

Definition head_101 : string :=
  response_head "HTTP/1.1 101 Switching Protocols" [("upgrade", "websocket"); ("connection", "Upgrade")].

Definition net X (e : netE X) : unit -> X * unit :=
  match e in netE X return unit -> X * unit with
  | Connect _ => fun w => (Some 1%nat, w)
  | TlsConnect _ _ _ => fun w => (Some 2%nat, w)
  | Handshake _ => fun w => (true, w)
  | SendRequest _ _ | ClientRequest _ => fun w =>
      (Ok {| hp_status := 200; hp_headers := [("content-type", "text/plain")]; hp_body := Some "hello" |}, w)
  | WriteAll _ _ => fun w => (true, w)
  | Reads _ => fun w => ([Some (head_101 +:+ "early"); Some "later"; Some ""], w)
  | SpawnTunnel _ _ => fun w => (tt, w)
  end.

Definition kube X (e : kubeE X) : unit -> X * unit :=
  match e in kubeE X return unit -> X * unit with
  | KGet k _ _ => fun w =>
      (match k return result KubeError (Obj k) with KService => Ok svc | _ => Err (ApiError 404) end, w)
  | KGetOpt _ _ _ => fun w => (Ok None, w)
  | KList _ _ _ => fun w => (Ok [], w)
  | KCreate _ _ o => fun w => (Ok o, w)
  | KDelete _ _ _ => fun w => (Err (ApiError 404), w)
  | KPatch _ _ _ _ _ | KPatchStatus _ _ _ _ _ => fun w => (Err (ApiError 404), w)
  end.

#[global] Instance network : Network unit :=
  {| network_kube := {| kube_step := kube; utc_now := fun w => ("now", w) |}; net_step := net |}.

Definition build : HttpBuild := {|
  uri_ok := fun _ => true; header_name := Some; header_value_ok := printable;
  status_ok := fun z => (100 <=? z) && (z <? 1000); server_name_ok := fun _ => true |}.

Definition request (host : string) : ProxyRequest := {|
  pr_method := "GET"; pr_path_and_query := Some "/index.html?x=1";
  pr_headers := [("host", host); ("x-forwarded-proto", "gopher")]; pr_body := Some "" |}.

Definition backend : RouteBackend := {|
  service_name := "web"; service_namespace := "apps"; target_port := Name "http"; tls := false |}.

Definition table : RouteTable := {[ "web-apps.apps.ocp-sim.test" := backend ]}.

End ProxySample.

Lemma sample_tables_ok :
  (ProxySample.table : RouteTable) !! request_host (CR := sample_crates) (ProxySample.request "web-apps.apps.ocp-sim.test:8443")
    = Some ProxySample.backend.
Proof. vm_compute. reflexivity. Qed.

Example plain_request_relayed_witness :
  run_proxy (proxy_request (CR := sample_crates) (HB := ProxySample.build) true
               (ProxySample.request "web-apps.apps.ocp-sim.test:8443")) (ProxySample.table, tt) =
    (Answer (Resp 200 [("content-type", "text/plain")] "hello"), (ProxySample.table, tt)).
Proof.
  refine (plain_request_relayed (CR := sample_crates) (HB := ProxySample.build) true
            (ProxySample.request "web-apps.apps.ocp-sim.test:8443") ProxySample.table tt ProxySample.backend
            ProxySample.svc tt 10 96 0 7 "" _ tt _ _ sample_tables_ok eq_refl eq_refl _ _ _ _ _ eq_refl eq_refl
            eq_refl _ eq_refl); try lia; try (vm_compute; congruence); vm_compute; reflexivity.
Defined.

Example identity_hosts_pinned_witness :
  let req := ProxySample.request "oauth-openshift.apps.ocp-sim.test" in
  wp (oauth_monitor (HB := ProxySample.build) "oauth-openshift.apps.ocp-sim.test") (Conns [] [])
    (proxy_request (CR := sample_crates) (HB := ProxySample.build) true req) (fun _ _ => True) /\
  run_proxy (proxy_request (CR := sample_crates) (HB := ProxySample.build) true req) (ProxySample.table, tt) =
    (Answer (Resp 200 [("content-type", "text/plain")] "hello"), (ProxySample.table, tt)).
Proof.
  intros req.
  assert (Hh : request_host (CR := sample_crates) req = oauth_host \/ request_host (CR := sample_crates) req = entra_host)
    by (left; vm_compute; reflexivity).
  destruct (identity_hosts_pinned (CR := sample_crates) (HB := ProxySample.build) (W := unit) true req Hh) as [H1 H2].
  split; [exact H1|].
  refine (H2 ProxySample.table tt tt tt tt tt 1%nat 2%nat "" _ eq_refl eq_refl eq_refl _ eq_refl eq_refl eq_refl eq_refl).
  vm_compute. reflexivity.
Defined.

Example websocket_upgrade_answer_witness :
  (run_proxy (ws_handshake_and_tunnel (CR := sample_crates) (HB := ProxySample.build)
     (ProxySample.request "web") "web" "/ws" true 2%nat) (ProxySample.table, tt)).1 =
    Answer (Resp 101 [("upgrade", "websocket"); ("connection", "Upgrade")] "").
Proof.
  rewrite (websocket_upgrade_answer (CR := sample_crates) (HB := ProxySample.build) (ProxySample.request "web") "web" "/ws" true 2%nat
             "HTTP/1.1 101 Switching Protocols" [("upgrade", "websocket"); ("connection", "Upgrade")]
             "early" [Some "later"; Some ""] [("upgrade", "websocket"); ("connection", "Upgrade")]
             ProxySample.table tt tt tt);
    [reflexivity|vm_compute; reflexivity..].
Defined.

Definition proxied_route : DynamicObject :=
  Dyn (named "web" (Some "apps"))
    (jobj [ "spec" =: jobj [ "to" =: jobj [ "name" =: VString "web" ];
                             "port" =: jobj [ "targetPort" =: VString "http" ] ] ]).

Definition proxied_mem : MemWorld :=
  Mem {[ dyn_key route_ar (Namespaced "apps") "web" := proxied_route ]} ∅ ∅ [] ∅ ∅ "now".

Lemma proxied_run :
  run_ctrl (Route.reconcile_route proxied_route) proxied_mem =
    (Ok AwaitChange, (run_ctrl (Route.reconcile_route proxied_route) proxied_mem).2).
Proof. apply pair_eta. vm_compute. reflexivity. Qed.

Lemma proxied_stored : stored Route.route_controller proxied_mem proxied_route.
Proof. vm_compute. reflexivity. Qed.

Example admitted_route_routed_witness :
  exists route', stored Route.route_controller (run_ctrl (Route.reconcile_route proxied_route) proxied_mem).2 route' /\
    extract_host route' = Some "web-apps.apps.ocp-sim.test" /\
    extract_backend route' = Some ("web", Name "http", false).
Proof.
  destruct (admitted_route_routed (V := unit) proxied_route proxied_mem _ AwaitChange proxied_stored eq_refl proxied_run)
    as (route' & H1 & H2 & H3 & _).
  exists route'. split; [exact H1|]. split; [exact H2|exact H3].
Defined.
