(* ===== verification/GatewayProxy.v ===== *)
(** * The built-in gateway and the proxy

    The proxy finds the service of a gateway by the label
    [gateway.networking.k8s.io/gateway-name]; this file compares that with the
    service the built-in gateway controller creates. *)

From S2P Require Import Prelude RustStr Json Prog Kube Util Proxy ProxyProofs.
From S2P Require Gateway.
Open Scope list_scope.
Open Scope Z_scope.

Definition GATEWAY_LABEL : string := "gateway.networking.k8s.io/gateway-name".

Definition label_of (k : string) (svc : Service) : option string := om_labels (svc_metadata svc) ≫= (fun m => m !! k).

(** Reads leave services alone, and a list by label holds only services of the
    namespace that carry the label. *)
Class LabelledServices (W : Type) `{!KubeServer W} : Type := {
  services_at : W -> string -> list Service;
  ls_get (w : W) k sc n r w' :
    kube_step (KGet k sc n) w = (r, w') -> forall ns, services_at w' ns = services_at w ns;
  ls_list (w : W) ns k v r w' :
    kube_step (KList KService (Namespaced ns) (Some (k +:+ "=" +:+ v))) w = (r, w') ->
    (forall ns, services_at w' ns = services_at w ns) /\
    forall l svc, r = Ok l -> In svc l -> In svc (services_at w ns) /\ label_of k svc = Some v
}.
Arguments LabelledServices W {_}.

Section NotRouted.
Context {W : Type} `{!Network W} {LS : LabelledServices W}.

(** Every service is one the built-in gateway controller creates, or not a
    gateway's at all. *)
Definition builtin_only (w : W) : Prop :=
  forall ns svc, In svc (services_at w ns) ->
    (exists n, svc = Gateway.envoy_service ns n) \/ label_of GATEWAY_LABEL svc = None.

Definition table_kept (p : prog revproxyE unit) : Prop :=
  forall (t : RouteTable) (w : W), builtin_only w ->
    exists w', run_proxy p (t, w) = (tt, (t, w')) /\ builtin_only w'.

Lemma for_each_kept {A} (l : list A) body : (forall x, table_kept (body x)) -> table_kept (for_each l body).
Proof.
  intros Hb. induction l as [|x l IH]; intros t w Hw; [by exists w|].
  destruct (Hb x t w Hw) as (w1 & Hr & Hw1). unfold run_proxy in *. cbn [for_each].
  rewrite run_bind, Hr. by apply IH.
Qed.

Lemma list_kept gw_ns gw_name t (w : W) k :
  builtin_only w -> (forall r w', builtin_only w' -> match r with Ok (_ :: _) => True | _ =>
     exists w'', run_proxy (k r) (t, w') = (tt, (t, w'')) /\ builtin_only w'' end) ->
  exists w'', run_proxy (prog_bind (trigger (KList KService (Namespaced gw_ns)
                           (Some ("gateway.networking.k8s.io/gateway-name=" +:+ gw_name)))) k) (t, w)
                = (tt, (t, w'')) /\ builtin_only w''.
Proof using LS.
  intros Hw Hk. unfold run_proxy. rewrite run_bind. prog_unfold. cbn [run proxy_step].
  destruct_kube w as [r w1] eqn:Hl.
  pose proof (ls_list w gw_ns GATEWAY_LABEL gw_name r w1 Hl) as [Hsame Hlab].
  assert (Hw1 : builtin_only w1) by (intros ns svc; rewrite Hsame; apply Hw).
  specialize (Hk r w1 Hw1). destruct r as [[|svc l]|e]; [exact Hk| |exact Hk].
  destruct (Hlab _ svc eq_refl (or_introl eq_refl)) as [Hin Hv].
  destruct (Hw gw_ns svc Hin) as [[n ->]|Hn]; [done|congruence].
Qed.

Lemma parent_kept route_ns hostnames parent : table_kept (on_parent_ref route_ns hostnames parent).
Proof using LS.
  intros t w Hw. unfold on_parent_ref. destruct (get_str "name" parent) as [gw_name|]; [|by exists w].
  destruct hostnames as [|h hs].
  - unfold run_proxy. rewrite run_bind, run_bind. prog_unfold. cbn [run proxy_step].
    destruct_kube w as [gw w1] eqn:Hg.
    assert (Hw1 : builtin_only w1).
    { intros ns svc. rewrite (ls_get w (KDynamic gateway_ar) _ _ _ _ Hg). apply Hw. }
    cbn [run]. apply list_kept; [done|]. intros [[|]|] w2 Hw2; [by exists w2|done|by exists w2].
  - cbn [prog_bind]. apply list_kept; [done|]. intros [[|]|] w2 Hw2; [by exists w2|done|by exists w2].
Qed.

(** C37: The service the built-in gateway controller creates for a gateway does
    not carry the label the proxy selects by: if no other gateway
    implementation runs, no HTTPRoute event ever adds a host to the proxy's
    table. *)
Theorem builtin_gateway_not_routed events (t : RouteTable) (w : W) :
  builtin_only w ->
  exists w', run_proxy (build_gateway_route_table events) (t, w) = (tt, (t, w')).
Proof using LS.
  intros Hw. destruct (for_each_kept events on_httproute_event) with (t := t) (w := w) as (w' & Hr & _); [|done|by exists w'].
  intros [route|]; [|intros t0 w0 Hw0; by exists w0]. apply for_each_kept. intros parent. apply parent_kept.
Qed.
End NotRouted.

(** ** Witness: the cluster after the built-in controller has run *)

Module BuiltinSample.

Definition services : list Service :=
  [ Gateway.envoy_service "openshift-ingress" "data-science-gateway-data-science-gateway-class" ].

Definition selected (sel : option string) (svc : Service) : bool :=
  match sel, label_of GATEWAY_LABEL svc with
  | Some sel, Some v => String.eqb sel (GATEWAY_LABEL +:+ "=" +:+ v)
  | _, _ => false
  end.

Definition in_namespace (sc : Scope) : list Service :=
  match sc with
  | Namespaced ns => if String.eqb ns "openshift-ingress" then services else []
  | All => services
  end.

Definition kube X (e : kubeE X) : unit -> X * unit :=
  match e in kubeE X return unit -> X * unit with
  | KGet _ _ _ => fun w => (Err (ApiError 404), w)
  | KGetOpt _ _ _ => fun w => (Ok None, w)
  | KList k sc l => fun w =>
      (match k return result KubeError (list (Obj k)) with
       | KService => Ok (List.filter (selected l) (in_namespace sc))
       | _ => Ok []
       end, w)
  | KCreate _ _ o => fun w => (Ok o, w)
  | KDelete _ _ _ => fun w => (Err (ApiError 404), w)
  | KPatch _ _ _ _ _ | KPatchStatus _ _ _ _ _ => fun w => (Err (ApiError 404), w)
  end.

Definition network : Network unit :=
  {| network_kube := {| kube_step := kube; utc_now := fun w => ("now", w) |}; net_step := ProxySample.net |}.

Definition listed : @LabelledServices unit (@network_kube _ network).
Proof.
  refine (@Build_LabelledServices unit (@network_kube _ network) (fun _ ns => in_namespace (Namespaced ns)) _ _).
  - by intros w k sc n r w' [= <- <-].
  - intros w ns k v r w' Heq. split; [done|]. intros l svc -> Hin.
    assert (Hl : Ok l = Ok (E := KubeError) (List.filter (selected (Some (k +:+ "=" +:+ v))) (in_namespace (Namespaced ns))))
      by (symmetry; exact (f_equal fst Heq)).
    injection Hl as ->. apply List.filter_In in Hin as [Hin Hf]. exfalso. cbn [in_namespace] in Hin.
    destruct (String.eqb ns _); [|done]. destruct Hin as [<-|Hin]; [|done]. by vm_compute in Hf.
Defined.

Definition route : DynamicObject :=
  Dyn (named "dashboard" (Some "openshift-ingress"))
    (jobj [ "spec" =: jobj [ "hostnames" =: VArray [ VString "rh-ai.apps.ocp-sim.test" ];
              "parentRefs" =: VArray [ jobj [ "name" =: VString "data-science-gateway" ] ] ] ]).

End BuiltinSample.

Example builtin_gateway_not_routed_witness :
  exists w', run_proxy (Network0 := BuiltinSample.network)
    (build_gateway_route_table [Some BuiltinSample.route]) (∅, tt) = (tt, (∅, w')).
Proof.
  apply (builtin_gateway_not_routed (LS := BuiltinSample.listed)).
  intros ns svc Hin. cbn in Hin. destruct (String.eqb_spec ns "openshift-ingress") as [->|]; [|done].
  destruct Hin as [<-|Hin]; [left; eexists; reflexivity|done].
Defined.
