(* ===== verification/OAuthInfra.v ===== *)
(** * [oauth/infra.rs]: the cluster objects the OAuth server needs

    The namespace, the headless service with its endpoints, the route, the
    CoreDNS entry and the endpoints of the API server, made once at start-up. *)

From S2P Require Import Prelude RustStr Net Json Prog Kube Util Crates OAuthTypes Tls.
From S2P Require Import OAuthEffects OAuthHelpers Proxy ProxyProofs.
Open Scope list_scope.
Open Scope Z_scope.

Definition is_byoidc_mode (m : AuthMode) : bool := match m with Byoidc => true | _ => false end.

Definition generate_tls_config `{!Rcgen} `{!Rustls} {E} `{!Inject certE E} (ca : CaState) :
    prog E (option ServerConfig) :=
  let cn := OAUTH_HOST +:+ "." +:+ DOMAIN in
  let entra_host := "entra." +:+ DOMAIN in
  sign_tls_config ca [cn; entra_host].

(** ** Objects *)

Definition oauth_namespace : Namespace := {| ns_metadata := named OAUTH_NS None; ns_status := None |}.

Definition oauth_service (name : string) : Service := {|
  svc_metadata := named name (Some OAUTH_NS);
  svc_spec := Some {|
    ss_type := None; ss_cluster_ip := Some "None"; ss_selector := None;
    ss_ports := Some [ {| sp_name := Some "https"; sp_port := cast_i32 OAUTH_PORT;
                          sp_target_port := Some (IntPort (cast_i32 OAUTH_PORT));
                          sp_protocol := Some "TCP" |} ] |};
  svc_status := None |}.

Definition oauth_endpoints (name node_ip : string) : Endpoints := {|
  ep_metadata := named name (Some OAUTH_NS);
  ep_subsets := Some [ {|
    es_addresses := Some [node_ip];
    es_ports := Some [ {| ep_port_name := Some "https"; ep_port := cast_i32 OAUTH_PORT;
                          ep_protocol := Some "TCP" |} ] |} ] |}.

Definition kubernetes_endpoints (node_ip : string) : Endpoints := {|
  ep_metadata := named "kubernetes" None;
  ep_subsets := Some [ {|
    es_addresses := Some [node_ip];
    es_ports := Some [ {| ep_port_name := Some "https"; ep_port := 6443; ep_protocol := Some "TCP" |} ] |} ] |}.

Definition oauth_route (host svc_name : string) : DynamicObject :=
  Dyn (named (split_first "."%char host) (Some OAUTH_NS))
    (jobj [ "spec" =: jobj [
        "host" =: VString host;
        "to" =: jobj [ "kind" =: VString "Service"; "name" =: VString svc_name ];
        "port" =: jobj [ "targetPort" =: VString "https" ];
        "tls" =: jobj [ "termination" =: VString "passthrough" ] ] ]).

(** ** Requests; failures of these are only logged *)

Definition create_oauth_route (host svc_name : string) : prog kubeE (result AnyhowError unit) :=
  let route_name := split_first "."%char host in
  _ ⟵ trigger (KPatch (KDynamic route_ar) (Namespaced OAUTH_NS) route_name (Some "ocp-sim")
                 (ApplyObj (oauth_route host svc_name)));
  Ret (Ok tt).

Definition apply_service_and_endpoints (name node_ip : string) : prog kubeE unit :=
  _ ⟵ trigger (KPatch KService (Namespaced OAUTH_NS) name (Some "ocp-sim") (ApplyObj (oauth_service name)));
  _ ⟵ trigger (KPatch KEndpoints (Namespaced OAUTH_NS) name (Some "ocp-sim")
                 (ApplyObj (oauth_endpoints name node_ip)));
  Ret tt.

Definition delete_leftovers : prog kubeE unit :=
  _ ⟵ trigger (KDelete KService (Namespaced OAUTH_NS) OAUTH_HOST);
  _ ⟵ trigger (KDelete KEndpoints (Namespaced OAUTH_NS) OAUTH_HOST);
  _ ⟵ trigger (KDelete (KDynamic route_ar) (Namespaced OAUTH_NS) OAUTH_HOST);
  Ret tt.

Definition hosts_entries (node_ip : string) (mode : AuthMode) : string :=
  if is_byoidc_mode mode
  then "        " +:+ node_ip +:+ " entra.apps.ocp-sim.test"
  else "        " +:+ node_ip +:+ " oauth-openshift.apps.ocp-sim.test".

Definition hosts_block (node_ip : string) (mode : AuthMode) : string :=
  newline +:+ "apps.ocp-sim.test:53 {" +:+ newline +:+ "    hosts {" +:+ newline +:+
  hosts_entries node_ip mode +:+ newline +:+ "        fallthrough" +:+ newline +:+
  "    }" +:+ newline +:+ "}" +:+ newline.

Definition corefile_of (cm : ConfigMap) : string :=
  default "" (cm_data cm ≫= (fun d => d !! "Corefile")).

Definition kube_err {A} (r : KRes A) : result AnyhowError A :=
  match r with Ok a => Ok a | Err e => Err (AnyKube e) end.

(** [request.await?] in a function that returns [anyhow::Result]. *)
Definition request {A} (e : kubeE (KRes A)) : prog kubeE (result AnyhowError A) :=
  r ⟵ trigger e; Ret (kube_err r).

Definition patch_coredns (node_ip : string) (mode : AuthMode) : prog kubeE (result AnyhowError unit) :=
  cm ⟵? request (KGet KConfigMap (Namespaced "kube-system") "coredns");
  let corefile := corefile_of cm in
  if contains "apps.ocp-sim.test" corefile then Ret (Ok tt)
  else
    let new_corefile := corefile +:+ hosts_block node_ip mode in
    let patch := jobj [ "data" =: jobj [ "Corefile" =: VString new_corefile ] ] in
    _ ⟵? request (KPatch KConfigMap (Namespaced "kube-system") "coredns" None (Merge patch));
    pod_list ⟵? request (KList KPod (Namespaced "kube-system") (Some "k8s-app=kube-dns"));
    _ ⟵ for_each pod_list (fun pod : Pod =>
           let name := default "" (om_name (pod_metadata pod)) in
           _ ⟵ trigger (KDelete KPod (Namespaced "kube-system") name); Ret tt);
    Ret (Ok tt).

(** The rest of [setup_infrastructure], once the namespace exists. *)
Definition patch_kubernetes_endpoints (node_ip : string) : prog kubeE unit :=
  _ ⟵ trigger (KPatch KEndpoints (Namespaced "default") "kubernetes" (Some "ocp-sim")
                 (ApplyObj (kubernetes_endpoints node_ip)));
  Ret tt.

Definition setup_objects (mode : AuthMode) : prog kubeE (result AnyhowError unit) :=
  node_ip ⟵? get_node_ip;
  _ ⟵? (if is_byoidc_mode mode then
           _ ⟵ delete_leftovers;
           _ ⟵ apply_service_and_endpoints "entra" node_ip;
           create_oauth_route ("entra." +:+ DOMAIN) "entra"
         else
           _ ⟵ apply_service_and_endpoints OAUTH_HOST node_ip;
           create_oauth_route (OAUTH_HOST +:+ "." +:+ DOMAIN) OAUTH_HOST);
  _ ⟵? patch_coredns node_ip mode;
  _ ⟵ patch_kubernetes_endpoints node_ip;
  Ret (Ok tt).

Definition setup_infrastructure (mode : AuthMode) : prog kubeE (result AnyhowError unit) :=
  created ⟵ trigger (KCreate KNamespace All oauth_namespace);
  match created with
  | Ok _ => setup_objects mode
  | Err (ApiError code) =>
      if code =? 409 then setup_objects mode else Ret (Err (AnyKube (ApiError code)))
  | Err e => Ret (Err (AnyKube e))
  end.

(** ** CoreDNS *)

Definition run_kube {W} `{!KubeServer W} {A} (p : prog kubeE A) (w : W) : A * W := run (fun X => kube_step (X:=X)) p w.

(** The CoreDNS configuration, without other writers: reading answers with it,
    a merge patch of one key of its data sets that key, and listing and
    deleting pods leave it alone. *)
Class CorednsLaw (W : Type) `{!KubeServer W} : Type := {
  coredns : W -> option ConfigMap;
  dns_get (w : W) cm w' :
    kube_step (KGet KConfigMap (Namespaced "kube-system") "coredns") w = (Ok cm, w') ->
    coredns w = Some cm /\ coredns w' = Some cm;
  dns_patch (w : W) cm pp k v o w' :
    coredns w = Some cm ->
    kube_step (KPatch KConfigMap (Namespaced "kube-system") "coredns" pp
                 (Merge (jobj [ "data" =: jobj [ k =: VString v ] ]))) w = (Ok o, w') ->
    coredns w' = Some {| cm_metadata := cm_metadata cm; cm_data := Some (<[k := v]> (default ∅ (cm_data cm))) |};
  dns_list (w : W) sc l r w' : kube_step (KList KPod sc l) w = (r, w') -> coredns w' = coredns w;
  dns_delete (w : W) sc n r w' : kube_step (KDelete KPod sc n) w = (r, w') -> coredns w' = coredns w
}.
Arguments CorednsLaw W {_}.

Section Dns.
Context {W : Type} `{!KubeServer W} {DL : CorednsLaw W}.

Definition corefile (w : W) : option string := corefile_of <$> coredns w.

Lemma run_restart_pods pods (w : W) :
  coredns (run_kube (for_each pods (fun pod : Pod =>
    _ ⟵ trigger (KDelete KPod (Namespaced "kube-system") (default "" (om_name (pod_metadata pod)))); Ret tt)) w).2
  = coredns w.
Proof using DL.
  unfold run_kube. revert w. induction pods as [|pod pods IH]; intros w; [done|]. cbn [for_each].
  rewrite run_bind, run_bind. prog_unfold. cbn [run]. destruct_kube w as [r w1] eqn:Hd. cbn [run].
  rewrite IH. by eapply dns_delete.
Qed.

(** What one run does to the configuration. *)
Definition patched (ip : string) (mode : AuthMode) (old : string) : string :=
  if contains "apps.ocp-sim.test" old then old else old +:+ hosts_block ip mode.

Lemma hosts_block_marked old ip mode : contains "apps.ocp-sim.test" (old +:+ hosts_block ip mode) = true.
Proof.
  apply contains_true. exists (old +:+ newline). unfold hosts_block. eexists.
  rewrite <- sapp_assoc. reflexivity.
Qed.

Lemma run_patch_coredns ip mode (w w' : W) :
  run_kube (patch_coredns ip mode) w = (Ok tt, w') ->
  exists old, corefile w = Some old /\ corefile w' = Some (patched ip mode old).
Proof using DL.
  unfold run_kube, patch_coredns, request. rewrite run_try_bind, run_bind. prog_unfold. cbn [run].
  destruct_kube w as [[cm|e] w1] eqn:Hg; cbn [kube_err run]; [|done].
  apply dns_get in Hg as [Hcm Hcm1]. unfold corefile, patched. rewrite Hcm.
  destruct (contains _ (corefile_of cm)) eqn:Hc.
  - intros [= <-]. exists (corefile_of cm). by rewrite Hcm1, Hc.
  - rewrite run_try_bind, run_bind. cbn [run]. destruct_kube w1 as [[o|e] w2] eqn:Hp; cbn [kube_err run]; [|done].
    eapply dns_patch in Hp; [|exact Hcm1].
    rewrite run_try_bind, run_bind. cbn [run]. destruct_kube w2 as [[pods|e] w3] eqn:Hl; cbn [kube_err run]; [|done].
    apply dns_list in Hl. rewrite run_bind. pose proof (run_restart_pods pods w3) as Hr. unfold run_kube, trigger in Hr.
    destruct (run _ _ w3) as [u w4]. cbn [snd] in Hr. intros [= <-]. exists (corefile_of cm).
    rewrite Hr, Hl, Hp. split; [done|]. cbn [fmap option_fmap option_map]. rewrite Hc. unfold corefile_of at 1.
    cbn [cm_data mbind option_bind]. by rewrite lookup_insert_eq.
Qed.

End Dns.

(** ** The objects and the proxy *)

(** The route, service and endpoints that set-up applies for an identity host
    lead the proxy's lookup to the OAuth port of the node. *)
Theorem oauth_objects_resolve {W} `{!Network W} host name (t : RouteTable) (w w1 w2 : W) a b c d :
  is_empty host = false ->
  0 <= a < 256 -> 0 <= b < 256 -> 0 <= c < 256 -> 0 <= d < 256 ->
  kube_step (KGet KService (Namespaced OAUTH_NS) name) w = (Ok (oauth_service name), w1) ->
  kube_step (KGet KEndpoints (Namespaced OAUTH_NS) name) w1 = (Ok (oauth_endpoints name (show_v4 a b c d)), w2) ->
  exists backend,
    entry_of (Some (oauth_route host name)) = Some (host, backend) /\ tls backend = true /\
    run_proxy (resolve_endpoint backend) (t, w) =
      (Some {| sa_ip := V4 a b c d; sa_port := OAUTH_PORT |}, (t, w2)).
Proof.
  intros Hh Ha Hb Hc Hd Hs He.
  exists {| service_name := name; service_namespace := OAUTH_NS;
            target_port := Name "https"; tls := true |}.
  split_and!; [| |].
  - unfold entry_of. cbn [mbind option_bind].
    assert (extract_host (oauth_route host name) = Some host) as ->
      by (unfold extract_host, oauth_route; cbn; by rewrite Hh).
    reflexivity.
  - done.
  - unfold run_proxy, resolve_endpoint. prog_unfold. rewrite run_bind.
    cbn [run proxy_step service_namespace service_name].
    change (Obj KService) with Service in *. rewrite Hs. cbv beta iota.
    change (cluster_addr _ (oauth_service name)) with (@None SocketAddr). cbv iota.
    rewrite run_bind. cbn [run proxy_step]. change (Obj KEndpoints) with Endpoints in *. rewrite He.
    cbv beta iota. unfold oauth_endpoints. cbn [run ep_subsets mbind option_bind target_port].
    cbn [subset_addr es_ports es_addresses mbind option_bind head].
    change (subset_port (Name "https") _) with (Some (cast_i32 OAUTH_PORT)). cbv iota.
    by rewrite parse_show_v4.
Qed.

(** ** Witness: a cluster with one config map *)

Module InfraSample.

Definition kube X (e : kubeE X) : ConfigMap -> X * ConfigMap :=
  match e in kubeE X return ConfigMap -> X * ConfigMap with
  | KGet k _ _ => fun w =>
      (match k return KRes (Obj k) with KConfigMap => Ok w | _ => Err (ApiError 404) end, w)
  | KGetOpt _ _ _ => fun w => (Ok None, w)
  | KList _ _ _ => fun w => (Ok [], w)
  | KCreate _ _ o => fun w => (Ok o, w)
  | KDelete _ _ _ => fun w => (Ok tt, w)
  | KPatch k _ _ _ p =>
      match k return Patch (Obj k) -> ConfigMap -> KRes (Obj k) * ConfigMap with
      | KConfigMap => fun p w =>
          match p with
          | Merge v =>
              let cm := {| cm_metadata := cm_metadata w;
                           cm_data := Some (foldr (fun kv m => match as_str kv.2 with
                                                               | Some s => <[kv.1 := s]> m
                                                               | None => m
                                                               end)
                                              (default ∅ (cm_data w)) (members (index "data" v))) |} in
              (Ok cm, cm)
          | _ => (Err (ApiError 400), w)
          end
      | _ => fun _ w => (Err (ApiError 404), w)
      end p
  | KPatchStatus _ _ _ _ _ => fun w => (Err (ApiError 404), w)
  end.

Definition server : KubeServer ConfigMap := {| kube_step := kube; utc_now := fun w => ("now", w) |}.

Definition law : @CorednsLaw ConfigMap server.
Proof.
  refine (@Build_CorednsLaw ConfigMap server Some _ _ _ _).
  - by intros w cm w' [= <- <-].
  - intros w cm pp k v o w' [= ->] Heq. f_equal. symmetry. apply (f_equal snd) in Heq. exact Heq.
  - by intros w sc l r w' [= _ <-].
  - by intros w sc n r w' [= _ <-].
Defined.

Definition initial : ConfigMap :=
  {| cm_metadata := named "coredns" (Some "kube-system"); cm_data := Some {[ "Corefile" := ".:53 { }" ]} |}.

End InfraSample.

Lemma infra_sample_run :
  run_kube (KubeServer0 := InfraSample.server) (patch_coredns "10.0.0.5" Legacy) InfraSample.initial =
    (Ok tt, (run_kube (KubeServer0 := InfraSample.server) (patch_coredns "10.0.0.5" Legacy) InfraSample.initial).2).
Proof. apply pair_eta. vm_compute. reflexivity. Qed.

