(* ===== verification/Serve.v ===== *)
(** * The servers: listening, accepting, and the tasks they start

    The [run] functions of the OAuth server, the admission webhook and the
    reverse proxy: their start-up, their accept loops, and what the task of one
    connection does.  [tokio::spawn] is an effect that records the task.  An
    accept loop has no end of its own; it is given the number of calls of
    [accept] to play, and [Serving] means it is still in the loop then. *)

From S2P Require Import Prelude RustStr Net Json Prog Kube Util Crates Tls Controller.
From S2P Require Import OAuthTypes OAuthEffects OAuthHelpers OAuthHandlers OAuthByoidc OAuthServer.
From S2P Require Import OAuthInfra PodMutate Proxy.
From S2P Require ServiceCa.
Open Scope list_scope.
Open Scope Z_scope.

(** ** Sockets *)

Definition Listener : Type := nat.
Definition Stream : Type := nat.

Inductive listenE : Type -> Type :=
| Bind (port : Z) : listenE (result string Listener)
| Accept (l : Listener) : listenE (result string Stream).

Inductive spawnE (T : Type) : Type -> Type :=
| Spawn (t : T) : spawnE T unit.
Arguments Spawn {T} t.

(** One accepted connection: the TLS handshake ([None] when it fails), the
    requests [hyper] hands to the service, in order, until the connection ends,
    and the response it writes. *)
Inductive connE (Req : Type) : Type -> Type :=
| TlsAccept (s : Stream) : connE Req (option Stream)
| Requests (s : Stream) : connE Req (list Req)
| Respond (s : Stream) (r : Response) : connE Req unit.
Arguments TlsAccept {Req} s.
Arguments Requests {Req} s.
Arguments Respond {Req} s r.

(** How a [run] function stands. *)
Inductive Exit : Type :=
| Serving
| Failed (e : AnyhowError)
| ExitPanic.

Section Accept.
Context {T : Type} {E : Type -> Type} `{!Inject listenE E} `{!Inject (spawnE T) E}.

(** [loop { let (stream, _) = listener.accept().await?; ...; tokio::spawn(...) }]
    when [strict]; otherwise an error of [accept] is logged and the loop goes
    on. *)
Fixpoint accept_loop (strict : bool) (l : Listener) (task : Stream -> T) (n : nat) : prog E Exit :=
  match n with
  | 0%nat => Ret Serving
  | S n =>
      r ⟵ trigger (Accept l);
      match r with
      | Ok stream =>
          _ ⟵ trigger (Spawn (task stream));
          accept_loop strict l task n
      | Err e => if strict then Ret (Failed (AnyMsg e)) else accept_loop strict l task n
      end
  end.
End Accept.

(** [http1::Builder::serve_connection]: each request is answered before the
    next one is taken; when the service has no response to give, the connection
    ends. *)
Section Connection.
Context {Req : Type} {E : Type -> Type} `{!Inject (connE Req) E}.
Context (service : Req -> prog E (option Response)).

Fixpoint serve_requests (s : Stream) (reqs : list Req) : prog E unit :=
  match reqs with
  | [] => Ret tt
  | req :: rest =>
      resp ⟵ service req;
      match resp with
      | Some resp => _ ⟵ trigger (Respond (Req:=Req) s resp); serve_requests s rest
      | None => Ret tt
      end
  end.

Definition serve_plain (s : Stream) : prog E unit :=
  reqs ⟵ trigger (Requests s); serve_requests s reqs.

Definition serve_tls (s : Stream) : prog E unit :=
  tls ⟵ trigger (TlsAccept (Req:=Req) s);
  match tls with
  | None => Ret tt
  | Some tls_stream => serve_plain tls_stream
  end.
End Connection.

(** The response of a handler that returns a [Result]. *)
Definition responded {Er} (r : result Er Response) : option Response :=
  match r with Ok resp => Some resp | Err _ => None end.

(** ** [oauth/mod.rs] *)

Section OAuth.
Context {CR : Crates} `{RC : !Rcgen} `{RL : !Rustls}.

Inductive OAuthTask : Type :=
| WatchHtpasswd
| Evictor
| OAuthConnection (conf : OAuthConf) (s : Stream).

Abbreviation oauthRunE := (listenE +' spawnE OAuthTask +' certE +' serverE).

Definition oauth_run (n : nat) (ca : CaState) (mode : AuthMode) (cfg : option ByoidcConfig) :
    prog oauthRunE Exit :=
  tls_config ⟵ generate_tls_config ca;
  match tls_config with
  | None => Ret (Failed (AnyMsg "failed to generate TLS config"))
  | Some _ =>
      _ ⟵ lift (setup_infrastructure mode);
      state ⟵ lift (E:=serverE) (oauth_state_new mode cfg);
      match state with
      | None => Ret ExitPanic
      | Some conf =>
          _ ⟵ trigger (Spawn WatchHtpasswd);
          _ ⟵ trigger (Spawn Evictor);
          listener ⟵ trigger (Bind OAUTH_PORT);
          match listener with
          | Err e => Ret (Failed (AnyMsg e))
          | Ok l => accept_loop true l (OAuthConnection conf) n
          end
      end
  end.

(** The background task: the first tick of the interval is immediate. *)
Fixpoint evictor_ticks (n : nat) : prog serverE unit :=
  match n with
  | 0%nat => Ret tt
  | S n => _ ⟵ trigger (SleepSecs 300); _ ⟵ evict; evictor_ticks n
  end.
Definition evictor (n : nat) : prog serverE unit := _ ⟵ evict; evictor_ticks n.

Definition oauth_connection (conf : OAuthConf) (s : Stream) : prog (connE Request +' serverE) unit :=
  serve_tls (fun req => r ⟵ lift (E:=serverE) (OAuthServer.handle_request conf req); Ret (responded r)) s.
End OAuth.

(** ** [pod_mutate.rs] *)

Section Webhook.
Context `{RC : !Rcgen} `{RL : !Rustls} `{B64 : !Base64}.

Inductive WebhookTask : Type :=
| NamespaceController
| WebhookConnection (s : Stream).

Abbreviation webhookRunE := (listenE +' spawnE WebhookTask +' certE +' ctrlE).

Definition webhook_run (n : nat) (ca : CaState) : prog webhookRunE Exit :=
  ip ⟵ get_node_ip;
  match ip with
  | Err e => Ret (Failed e)
  | Ok node_ip =>
      tls_config ⟵ sign_tls_config ca ["ocp-sim-webhook.ocp-sim.svc"; node_ip];
      match tls_config with
      | None => Ret (Failed (AnyMsg "failed to generate webhook TLS config"))
      | Some _ =>
          _ ⟵ lift (E:=ctrlE) (setup_webhook_with_ip (ca_cert_pem ca) node_ip);
          _ ⟵ trigger (Spawn NamespaceController);
          listener ⟵ trigger (Bind WEBHOOK_PORT);
          match listener with
          | Err e => Ret (Failed (AnyMsg e))
          | Ok l => accept_loop true l WebhookConnection n
          end
      end
  end.

Definition webhook_connection `{!StdHasher} `{!SerdeJson} (s : Stream) : prog (connE Request) unit :=
  serve_tls (fun req => Ret (responded (PodMutate.handle_request req))) s.
End Webhook.

(** ** [proxy.rs] *)

Section ReverseProxy.
Context {CR : Crates} {HB : HttpBuild} `{RC : !Rcgen} `{RL : !Rustls}.

Inductive ProxyTask : Type :=
| BuildRouteTable
| BuildGatewayRouteTable
| TlsAcceptLoop (l : Listener)
| ProxyConnection (tls_incoming : bool) (s : Stream).

Abbreviation proxyRunE := (listenE +' spawnE ProxyTask +' certE).

Definition proxy_run (n : nat) (port : Z) (ca : CaState) : prog proxyRunE Exit :=
  _ ⟵ trigger (Spawn BuildRouteTable);
  _ ⟵ trigger (Spawn BuildGatewayRouteTable);
  listener ⟵ trigger (Bind port);
  match listener with
  | Err e => Ret (Failed (AnyMsg e))
  | Ok l =>
      tls_config ⟵ sign_tls_config ca ["*.apps.ocp-sim.test"];
      match tls_config with
      | None => Ret (Failed (AnyMsg "failed to generate proxy TLS config"))
      | Some _ =>
          tls_listener ⟵ trigger (Bind 443);
          match tls_listener with
          | Err e => Ret (Failed (AnyMsg e))
          | Ok tl =>
              _ ⟵ trigger (Spawn (TlsAcceptLoop tl));
              accept_loop true l (ProxyConnection false) n
          end
      end
  end.

(** The task of the TLS listener: [n] calls of [accept]. *)
Definition tls_accept_loop (l : Listener) (n : nat) : prog proxyRunE Exit :=
  accept_loop false l (ProxyConnection true) n.

Definition proxy_connection (tls_incoming : bool) (s : Stream) :
    prog (connE ProxyRequest +' revproxyE) unit :=
  let service req :=
    r ⟵ lift (E:=revproxyE) (proxy_request tls_incoming req);
    Ret match r with Answer resp => Some resp | HyperError | Panicked | Waiting => None end in
  if tls_incoming then serve_tls service s else serve_plain service s.
End ReverseProxy.

(** ** Running a server *)

Class Sockets (S : Type) : Type := {
  sock_bind : Z -> S -> result string Listener * S;
  sock_accept : Listener -> S -> result string Stream * S
}.

(** The started tasks are kept in order; [h] performs the other effects. *)
Definition serve_step {T F S} `{!Sockets S} (h : forall X, F X -> S -> X * S) X
    (e : (listenE +' spawnE T +' F) X) : S * list T -> X * (S * list T) :=
  match e with
  | inlE le =>
      match le in listenE X return S * list T -> X * (S * list T) with
      | Bind port => fun '(s, log) => let '(r, s) := sock_bind port s in (r, (s, log))
      | Accept l => fun '(s, log) => let '(r, s) := sock_accept l s in (r, (s, log))
      end
  | inrE (inlE se) =>
      match se in spawnE _ X return S * list T -> X * (S * list T) with
      | Spawn t => fun '(s, log) => (tt, (s, log ++ [t]))
      end
  | inrE (inrE fe) => fun '(s, log) => let '(x, s) := h _ fe s in (x, (s, log))
  end.

(** The answers [rs] of successive calls of [accept] on [l]. *)
Inductive accepted {S} `{!Sockets S} (l : Listener) : list (result string Stream) -> S -> S -> Prop :=
| accepted_nil s : accepted l [] s s
| accepted_cons r rs s s1 s2 : sock_accept l s = (r, s1) -> accepted l rs s1 s2 -> accepted l (r :: rs) s s2.

Definition streams (l : list (result string Stream)) : list Stream :=
  omap (fun r => match r with Ok s => Some s | Err _ => None end) l.

(** From [s] on, the outcome [r] of a server that accepts on [l]: either it
    has accepted [n] streams and is still serving, or it has accepted fewer,
    and ended with the error of the next call of [accept].  It has started the
    tasks [background], and then one task for each accepted stream, in order. *)
Definition accepts_on {T S} `{!Sockets S} (l : Listener) (background : list T) (task : Stream -> T) (n : nat)
    (s : S) (r : Exit * (S * list T)) : Prop :=
  exists cs s1, accepted l (Ok <$> cs) s s1 /\
    (length cs = n /\ r = (Serving, (s1, background ++ (task <$> cs))) \/
     (length cs < n)%nat /\ exists e s2, sock_accept l s1 = (Err e, s2) /\
       r = (Failed (AnyMsg e), (s2, background ++ (task <$> cs)))).

(** The same, of a server that first has to get hold of the port. *)
Definition listens {T S} `{!Sockets S} (port : Z) (background : list T) (task : Stream -> T) (n : nat)
    (s : S) (r : Exit * (S * list T)) : Prop :=
  match sock_bind port s with
  | (Err e, s1) => r = (Failed (AnyMsg e), (s1, background))
  | (Ok l, s1) => accepts_on l background task n s1 r
  end.

Section Loop.
Context {T : Type} {F : Type -> Type} {S : Type} `{!Sockets S} (h : forall X, F X -> S -> X * S).

Lemma run_strict_loop l (task : Stream -> T) n s log :
  accepts_on l log task n s (run (serve_step h) (accept_loop true l task n) (s, log)).
Proof.
  revert s log. induction n as [|n IH]; intros s log; simpl.
  - exists [], s. split; [constructor|]. left. by rewrite app_nil_r.
  - destruct (sock_accept l s) as [[c|e] s1] eqn:Ha.
    + simpl. destruct (IH s1 (log ++ [task c])) as (cs & s2 & Hacc & Hr).
      exists (c :: cs), s2. split; [by econstructor|]. 
      destruct Hr as [[Hn Hr]|(Hn & e & s3 & He & Hr)]; [left|right].
      * split; [simpl; lia|]. by rewrite Hr, <- app_assoc.
      * split; [simpl; lia|]. exists e, s3. split; [done|]. by rewrite Hr, <- app_assoc.
    + simpl. exists [], s. split; [constructor|]. right. split; [simpl; lia|]. exists e, s1.
      by rewrite app_nil_r.
Qed.

Lemma run_lenient_loop l (task : Stream -> T) n s log :
  exists rs s', accepted l rs s s' /\ length rs = n /\
    run (serve_step h) (accept_loop false l task n) (s, log) = (Serving, (s', log ++ (task <$> streams rs))).
Proof.
  revert s log. induction n as [|n IH]; intros s log; simpl.
  - exists [], s. split_and!; [constructor|done|]. by rewrite app_nil_r.
  - destruct (sock_accept l s) as [[c|e] s1] eqn:Ha; simpl.
    + destruct (IH s1 (log ++ [task c])) as (rs & s2 & Hacc & Hn & ->). exists (Ok c :: rs), s2.
      split_and!; [by econstructor|simpl; lia|]. simpl. by rewrite <- app_assoc.
    + destruct (IH s1 log) as (rs & s2 & Hacc & Hn & ->). exists (Err e :: rs), s2.
      split_and!; [by econstructor|simpl; lia|done].
Qed.

Lemma run_spawn {A} (t : T) (k : unit -> prog (listenE +' spawnE T +' F) A) s log :
  run (serve_step h) (prog_bind (trigger (Spawn t)) k) (s, log) = run (serve_step h) (k tt) (s, log ++ [t]).
Proof. done. Qed.

Lemma run_bind_port {A} port (k : result string Listener -> prog (listenE +' spawnE T +' F) A) s (log : list T) :
  run (serve_step h) (prog_bind (trigger (Bind port)) k) (s, log) =
    let '(r, s') := sock_bind port s in run (serve_step h) (k r) (s', log).
Proof. simpl. by destruct (sock_bind port s). Qed.

(** Effects that neither listen nor spawn. *)
Definition inner X (e : (listenE +' spawnE T +' F) X) : Prop :=
  match e with inrE (inrE _) => True | _ => False end.

Lemma run_inner {A} (p : prog (listenE +' spawnE T +' F) A) s log :
  only inner p -> exists a s', run (serve_step h) p (s, log) = (a, (s', log)).
Proof.
  intros Hp. pose proof (run_only inner (serve_step h) snd p (s, log)) as H.
  destruct (run (serve_step h) p (s, log)) as [a [s' log']]. simpl in H. exists a, s'. rewrite H; [done| |done].
  intros X [[]|[[]|e]] [s0 log0] He; simpl in *; try done. by destruct (h X e s0).
Qed.

End Loop.

Lemma only_lift {E F A} `{!Inject E F} (P : forall X, F X -> Prop) (p : prog E A) :
  (forall X (e : E X), P X (inject e)) -> only P (lift p).
Proof. intros HP. induction p as [|X e k IH]; simpl; auto. Qed.

Lemma only_sign `{!Rcgen} `{!Rustls} {E} `{!Inject certE E} (P : forall X, E X -> Prop) ca sans :
  (forall X (e : certE X), P X (inject e)) -> only P (sign_tls_config ca sans).
Proof.
  intros HP. unfold sign_tls_config. apply only_bind; [|done]. unfold sign_cert.
  destruct (key_from_pem _); [|done]. destruct (params_new []); [|done]. cbv zeta.
  destruct (params_new sans); [|done]. apply only_bind; [|done]. unfold trigger. simpl. auto.
Qed.

Lemma only_node_ip {E} `{!Inject kubeE E} (P : forall X, E X -> Prop) :
  (forall X (e : kubeE X), P X (inject e)) -> only P (get_node_ip (E:=E)).
Proof. intros HP. unfold get_node_ip. apply only_bind; [|done]. unfold trigger. simpl. auto. Qed.

(** Move past a part of a program that starts no task. *)
Tactic Notation "skip_inner" ident(x) ident(s') :=
  rewrite run_bind;
  match goal with |- context [run (serve_step ?h) ?p (?s, ?log)] =>
    let Hp := fresh in
    destruct (run_inner h p s log) as (x & s' & Hp);
    [first [apply only_lift | apply only_sign | apply only_node_ip]; by intros|rewrite !Hp; clear Hp] end.

(** ** One connection *)

(** What the peers of the server do; their requests arrive on a stream. *)
Class Peers (Req S : Type) : Type := {
  peer_tls : Stream -> S -> option Stream * S;
  peer_requests : Stream -> S -> list Req * S
}.

(** The responses written are kept in order, with their streams. *)
Definition conn_step {Req F S} `{!Peers Req S} (h : forall X, F X -> S -> X * S) X
    (e : (connE Req +' F) X) : S * list (Stream * Response) -> X * (S * list (Stream * Response)) :=
  match e with
  | inlE ce =>
      match ce in connE _ X return S * list (Stream * Response) -> X * (S * list (Stream * Response)) with
      | TlsAccept c => fun '(s, log) => let '(r, s) := peer_tls c s in (r, (s, log))
      | Requests c => fun '(s, log) => let '(r, s) := peer_requests c s in (r, (s, log))
      | Respond c r => fun '(s, log) => (tt, (s, log ++ [(c, r)]))
      end
  | inrE fe => fun '(s, log) => let '(x, s) := h _ fe s in (x, (s, log))
  end.

Section Answers.
Context {Req B S : Type} {F : Type -> Type} `{!Peers Req S} (h : forall X, F X -> S -> X * S).
Context (handler : Req -> prog F B) (answer : B -> option Response).

Abbreviation service :=
  (fun req => prog_bind (lift (F:=connE Req +' F) (handler req)) (fun b => Ret (answer b))).

Lemma run_conn_lift {A} (p : prog F A) s log :
  run (conn_step h) (lift p) (s, log) = ((run h p s).1, ((run h p s).2, log)).
Proof.
  revert s. induction p as [a|X e k IH]; intros s; [done|]. cbn [lift run conn_step].
  unfold inject, inject_r, inject, inject_refl. cbn [conn_step]. destruct (h X e s) as [x s']. apply IH.
Qed.

(** The requests answered one after the other, each from the state the one
    before has left. *)
Fixpoint answers (reqs : list Req) (s : S) : list Response * S :=
  match reqs with
  | [] => ([], s)
  | req :: rest =>
      let '(b, s) := run h (handler req) s in
      match answer b with
      | Some resp => let '(r, s) := answers rest s in (resp :: r, s)
      | None => ([], s)
      end
  end.

Lemma run_serve_requests c reqs s log :
  run (conn_step h) (serve_requests service c reqs) (s, log) =
    let '(r, s') := answers reqs s in (tt, (s', log ++ (pair c <$> r))).
Proof.
  revert s log. induction reqs as [|req reqs IH]; intros s log.
  - simpl. by rewrite app_nil_r.
  - cbn [serve_requests answers]. rewrite run_bind. cbv beta. rewrite run_bind, run_conn_lift. cbn [run].
    destruct (run h (handler req) s) as [b s1]. cbn [fst snd]. destruct (answer b) as [resp|].
    + rewrite run_bind. simpl. rewrite IH. destruct (answers reqs s1) as [r s2].
      by rewrite <- app_assoc.
    + cbn [run fmap list_fmap]. by rewrite app_nil_r.
Qed.

Lemma answers_all reqs s :
  Forall (fun req => returns (fun b => is_Some (answer b)) (handler req)) reqs ->
  length (answers reqs s).1 = length reqs.
Proof.
  intros Hr. revert s. induction Hr as [|req reqs Hreq _ IH]; intros s; [done|]. simpl.
  pose proof (returns_run _ h _ s Hreq) as Ha. destruct (run h (handler req) s) as [b s1]. simpl in Ha.
  destruct Ha as [resp ->]. specialize (IH s1). destruct (answers reqs s1). simpl in *. by rewrite IH.
Qed.

Lemma run_serve_tls c s :
  run (conn_step h) (serve_tls service c) (s, []) =
    match peer_tls c s with
    | (None, s1) => (tt, (s1, []))
    | (Some tls, s1) =>
        let '(reqs, s2) := peer_requests tls s1 in
        let '(r, s3) := answers reqs s2 in (tt, (s3, pair tls <$> r))
    end.
Proof.
  unfold serve_tls, serve_plain. rewrite run_bind. simpl.
  destruct (peer_tls c s) as [[tls|] s1]; [|done]. simpl.
  destruct (peer_requests tls s1) as [reqs s2]. by rewrite run_serve_requests.
Qed.
End Answers.

Section OAuthConnections.
Context {CR : Crates} {W : Type} `{!Host W} `{!Peers Request (OAuthStore * W)}.

Lemma handle_request_answers conf req :
  is_byoidc (auth_mode conf) = false -> is_Some (req_body req) ->
  returns (fun r => is_Some (responded r)) (OAuthServer.handle_request conf req).
Proof.
  intros Hm [b Hb]. unfold OAuthServer.handle_request. cbv zeta. rewrite Hm, Hb. cbn [andb].
  repeat first
    [ match goal with |- returns _ (prog_bind _ _) => apply returns_bind; intros ? end
    | match goal with |- returns _ (Ret _) => by eexists end
    | match goal with |- returns _ (if ?x then _ else _) => destruct x end ].
Qed.

(** On a connection of the OAuth server whose handshake fails no request is
    handled.  Otherwise the requests of the connection are handled one after
    the other, each from the state the one before has left, and outside BYOIDC
    mode, when their bodies can be read, every one of them is answered, once
    and in order, on that connection. *)
Theorem oauth_connection_answers conf c (s : OAuthStore * W) :
  let '(_, (s', log)) := run (conn_step (fun X => server_step X)) (oauth_connection conf c) (s, []) in
  match peer_tls c s with
  | (None, s1) => s' = s1 /\ log = []
  | (Some tls, s1) =>
      let '(reqs, s2) := peer_requests tls s1 in
      let '(r, s3) := answers (fun X => server_step X) (OAuthServer.handle_request conf) responded reqs s2 in
      s' = s3 /\ log = (pair tls <$> r) /\
      (is_byoidc (auth_mode conf) = false -> Forall (fun req => is_Some (req_body req)) reqs ->
       length r = length reqs)
  end.
Proof.
  unfold oauth_connection. rewrite run_serve_tls.
  destruct (peer_tls c s) as [[tls|] s1]; [|done]. destruct (peer_requests tls s1) as [reqs s2].
  destruct (answers _ _ _ reqs s2) as [r s3] eqn:Ha. split_and!; [done..|]. intros Hm Hf.
  assert (Hr : r = (answers (fun X => server_step X) (OAuthServer.handle_request conf) responded reqs s2).1)
    by by rewrite Ha.
  rewrite Hr. apply answers_all. eapply Forall_impl; [|exact Hf]. intros req. by apply handle_request_answers.
Qed.
End OAuthConnections.

(** ** What the servers do *)

Section Outcome.
Context {CR : Crates} {HB : HttpBuild} `{RC : !Rcgen} `{RL : !Rustls} `{B64 : !Base64}.
Context {S : Type} `{!Sockets S}.

(** C17: how the three servers start and what they then do, for every
    behaviour of the sockets and of the cluster.
    The OAuth server ends with an error if it gets no TLS configuration, and
    panics if its state cannot be made; whatever the outcome of setting up its
    cluster objects, it otherwise starts its watch and its eviction task, and
    listens on port 9443.  The webhook ends with an error without a node
    address or a TLS configuration; whatever the outcome of registering itself,
    it otherwise starts the namespace controller and listens on port 8443.
    The proxy starts the two tasks that fill its table, and needs its port, a
    TLS configuration and port 443, in that order; it then starts the task of
    the TLS listener.  A server that listens starts one task for each stream
    it accepts, in order, and is still serving after [n] calls of [accept] if
    none of them failed; the first that fails ends it with that error.  The
    task of the TLS listener goes on after such errors. *)
Theorem servers_start_and_accept n (s : S) :
  (forall h ca mode cfg,
     let r := run (serve_step (T:=OAuthTask) h) (oauth_run n ca mode cfg) (s, []) in
     match run (serve_step (T:=OAuthTask) h) (generate_tls_config ca) (s, []) with
     | (None, _) => r.1 = Failed (AnyMsg "failed to generate TLS config") /\ r.2.2 = []
     | (Some _, w1) =>
         let '(_, w2) := run (serve_step (T:=OAuthTask) h) (lift (setup_infrastructure mode)) w1 in
         match run (serve_step (T:=OAuthTask) h) (lift (E:=serverE) (oauth_state_new mode cfg)) w2 with
         | (None, _) => r.1 = ExitPanic /\ r.2.2 = []
         | (Some conf, (s3, _)) => listens 9443 [WatchHtpasswd; Evictor] (OAuthConnection conf) n s3 r
         end
     end) /\
  (forall h ca,
     let r := run (serve_step (T:=WebhookTask) h) (webhook_run n ca) (s, []) in
     match run (serve_step (T:=WebhookTask) h) get_node_ip (s, []) with
     | (Err e, _) => r.1 = Failed e /\ r.2.2 = []
     | (Ok node_ip, w1) =>
         match run (serve_step (T:=WebhookTask) h) (sign_tls_config ca ["ocp-sim-webhook.ocp-sim.svc"; node_ip]) w1 with
         | (None, _) => r.1 = Failed (AnyMsg "failed to generate webhook TLS config") /\ r.2.2 = []
         | (Some _, w2) =>
             let '(_, (s3, _)) :=
               run (serve_step (T:=WebhookTask) h) (lift (E:=ctrlE) (setup_webhook_with_ip (ca_cert_pem ca) node_ip)) w2 in
             listens 8443 [NamespaceController] WebhookConnection n s3 r
         end
     end) /\
  (forall h port ca,
     let r := run (serve_step (T:=ProxyTask) h) (proxy_run n port ca) (s, []) in
     let tables := [BuildRouteTable; BuildGatewayRouteTable] in
     match sock_bind port s with
     | (Err e, s1) => r = (Failed (AnyMsg e), (s1, tables))
     | (Ok l, s1) =>
         match run (serve_step (T:=ProxyTask) h) (sign_tls_config ca ["*.apps.ocp-sim.test"]) (s1, tables) with
         | (None, _) => r.1 = Failed (AnyMsg "failed to generate proxy TLS config") /\ r.2.2 = tables
         | (Some _, (s2, _)) =>
             match sock_bind 443 s2 with
             | (Err e, s3) => r = (Failed (AnyMsg e), (s3, tables))
             | (Ok tl, s3) => accepts_on l (tables ++ [TlsAcceptLoop tl]) (ProxyConnection false) n s3 r
             end
         end
     end) /\
  (forall h l, exists rs s', accepted l rs s s' /\ length rs = n /\
     run (serve_step h) (tls_accept_loop l n) (s, []) =
       (Serving, (s', ProxyConnection true <$> streams rs))).
Proof.
  split_and!.
  - intros h ca mode cfg. cbv zeta. unfold oauth_run, generate_tls_config. skip_inner tls s1.
    destruct tls as [tls|]; [|done]. skip_inner u s2. skip_inner conf s3. destruct conf as [conf|]; [|done].
    rewrite !run_spawn, run_bind_port. cbn [app]. unfold listens. change OAUTH_PORT with 9443.
    destruct (sock_bind 9443 s3) as [[l|e] s4]; [|done]. apply run_strict_loop.
  - intros h ca. cbv zeta. unfold webhook_run. skip_inner ip s1. destruct ip as [ip|e]; [|done].
    skip_inner tls s2. destruct tls as [tls|]; [|done]. skip_inner u s3.
    rewrite run_spawn, run_bind_port. cbn [app]. unfold listens. change WEBHOOK_PORT with 8443.
    destruct (sock_bind 8443 s3) as [[l|e] s4]; [|done]. apply run_strict_loop.
  - intros h port ca. cbv zeta. unfold proxy_run. rewrite !run_spawn, run_bind_port. cbn [app].
    destruct (sock_bind port s) as [[l|e] s1]; [|done]. skip_inner tls s2. destruct tls as [tls|]; [|done].
    rewrite run_bind_port. destruct (sock_bind 443 s2) as [[tl|e] s3]; [|done].
    rewrite run_spawn. cbn [app]. apply run_strict_loop.
  - intros h l. exact (run_lenient_loop h l (ProxyConnection true) n s []).
Qed.
End Outcome.

(** ** Witness: a server given two connections, then an error *)

Module ServeSample.

Definition rustls : Rustls := {|
  CertDer := string; KeyDer := string; ServerConfig := string;
  pem_certs := fun s => Some [s]; pem_private_key := fun s => Some (Some s);
  with_single_cert := fun _ k => Some k |}.

(** What [accept] is still going to answer. *)
#[global] Instance sockets : Sockets (list (result string Stream)) := {|
  sock_bind := fun port s => (Ok (Z.to_nat port), s);
  sock_accept := fun _ s => match s with r :: s => (r, s) | [] => (Err "closed", []) end |}.

Definition machine {S} X (e : @certE ServiceCa.CaSample.rcgen X) : S -> X * S :=
  match e in @certE _ X return S -> X * S with GenerateKeyPair => fun s => (Some "key", s) end.

Definition ca : CaState := {| ca_cert_pem := "ca"; ca_key_pem := "ca-key" |}.
End ServeSample.

Example servers_start_and_accept_witness :
  let r := run (serve_step (T:=ProxyTask) ServeSample.machine)
             (proxy_run (RC := ServiceCa.CaSample.rcgen) (RL := ServeSample.rustls) 3%nat 80 ServeSample.ca)
             ([Ok 1%nat; Ok 2%nat; Err "too many open files"], []) in
  accepts_on 80%nat [BuildRouteTable; BuildGatewayRouteTable; TlsAcceptLoop 443%nat] (ProxyConnection false) 3%nat
    [Ok 1%nat; Ok 2%nat; Err "too many open files"] r /\
  r = (Failed (AnyMsg "too many open files"),
       ([], [BuildRouteTable; BuildGatewayRouteTable; TlsAcceptLoop 443%nat; ProxyConnection false 1%nat;
             ProxyConnection false 2%nat])).
Proof.
  destruct (servers_start_and_accept (CR := sample_crates) (RC := ServiceCa.CaSample.rcgen)
    (RL := ServeSample.rustls) (B64 := sample_base64) 3%nat [Ok 1%nat; Ok 2%nat; Err "too many open files"])
    as (_ & _ & H & _).
  specialize (H ServeSample.machine 80 ServeSample.ca). split; [exact H|]. vm_compute. reflexivity.
Defined.
