(* ===== verification/UnitTests.v ===== *)
(** * The unit tests of the sources, run on the model

    Each [#[test]] function of [oauth/helpers.rs], [oauth/types.rs],
    [oauth/handlers.rs], [pod_mutate.rs] and [util.rs] as the conjunction of its
    assertions, evaluated on the model with a JSON codec that round-trips and
    sample instances of the other crates.  The tests of the random generator's
    variety, of percent-decoding and of the contents of certificates exercise
    the crates and not the program, and are left out. *)

From S2P Require Import Prelude RustStr SipHash Json Prog Kube Util Crates JsonCodec Tls ServiceCa.
From S2P Require Import OAuthTypes OAuthEffects OAuthHelpers OAuthHandlers OAuthSample PodMutate.
Import UserStoreOps.
Open Scope list_scope.
Open Scope Z_scope.

Definition option_is_some {A} (o : option A) : bool := match o with Some _ => true | None => false end.
Definition option_is_none {A} (o : option A) : bool := negb (option_is_some o).

Definition test_crates : Crates := {|
  crates_json := codec; crates_base64 := identity_base64; crates_ring := crates_ring (Crates:=sample_crates);
  crates_url := crates_url (Crates:=sample_crates); crates_jwt := crates_jwt (Crates:=sample_crates);
  crates_http := crates_http (Crates:=sample_crates) |}.
#[local] Existing Instance test_crates.
#[local] Existing Instance std_hasher.

(** ** [oauth/helpers.rs] *)

Module HelpersTests.

Definition html_escape_special_chars : bool :=
  String.eqb (html_escape (dq "a&b<c>d'e")) "a&amp;b&lt;c&gt;d&quot;e".

Definition html_escape_no_change : bool := String.eqb (html_escape "hello world") "hello world".

(** The length of the string the program makes on the sample machine. *)
Definition random_length (n : nat) : nat :=
  String.length (run_server (CR:=sample_crates) (generate_random_string n)
    (oauth_store_new (CR:=sample_crates) (Users []), sample_world)).1.

Definition random_string_correct_length : bool :=
  (random_length 32 =? 32)%nat && (random_length 0 =? 0)%nat && (random_length 1 =? 1)%nat.

Definition parse_query_basic : bool :=
  let q := parse_query (Some "foo=bar&baz=qux") in
  bool_decide (q !! "foo" = Some "bar") && bool_decide (q !! "baz" = Some "qux").

Definition parse_query_empty : bool := bool_decide (parse_query None = ∅).

Definition parse_form_body_basic : bool :=
  let m := parse_form_body "username=admin&password=secret" in
  bool_decide (m !! "username" = Some "admin") && bool_decide (m !! "password" = Some "secret").

Definition parse_form_body_empty : bool := bool_decide (parse_form_body "" = ∅).

(** [serde_json::from_str(&discovery_json(mode)).unwrap()], and a condition on it. *)
Definition discovered (mode : AuthMode) (p : Value -> bool) : bool :=
  match json_from_str (discovery_json mode) with Some v => p v | None => false end.

Definition discovery_json_legacy_no_jwks : bool :=
  discovered Legacy (fun v =>
    option_is_none (get "jwks_uri" v) && option_is_some (get "authorization_endpoint" v)).

Definition discovery_json_oidc_has_jwks : bool :=
  discovered Oidc (fun v => option_is_some (get "jwks_uri" v) && option_is_some (get "userinfo_endpoint" v)).

Definition discovery_json_byoidc_uses_localhost : bool :=
  discovered Byoidc (fun v =>
    match as_str (index "issuer" v) with
    | Some issuer => starts_with "https://localhost:" issuer
    | None => false
    end).

Definition login_form_escapes_values : bool :=
  let html := login_form_html "<script>" "http://x?a=b&c=d" "s" "code" false in
  contains "&lt;script&gt;" html && contains "a=b&amp;c=d" html.

Definition login_form_shows_error : bool :=
  contains "Invalid username or password" (login_form_html "c" "r" "s" "code" true).

Definition login_form_hides_error : bool :=
  negb (contains "Invalid username or password" (login_form_html "c" "r" "s" "code" false)).

Definition json_response_has_content_type : bool :=
  let resp := json_response OK (dq "{'ok':true}") in
  bool_decide (header_get "content-type" (headers resp) = Some "application/json") && (status resp =? OK).

Definition html_response_has_content_type : bool :=
  bool_decide (header_get "content-type" (headers (html_response OK "<h1>hi</h1>"))
               = Some "text/html; charset=utf-8").

Definition tests : list bool :=
  [ html_escape_special_chars; html_escape_no_change; random_string_correct_length; parse_query_basic;
    parse_query_empty; parse_form_body_basic; parse_form_body_empty; discovery_json_legacy_no_jwks;
    discovery_json_oidc_has_jwks; discovery_json_byoidc_uses_localhost; login_form_escapes_values;
    login_form_shows_error; login_form_hides_error; json_response_has_content_type;
    html_response_has_content_type ].

Example helpers_tests_pass : forallb id tests = true.
Proof. vm_compute. reflexivity. Qed.
End HelpersTests.

(** ** [oauth/types.rs] *)

Module TypesTests.

Definition test_store : UserStore := Users [
  {| username := "alice"; password := "pass123"; email := Some "alice@test.com"; groups := Some ["admins"] |};
  {| username := "bob"; password := "secret"; email := None; groups := None |} ].

Definition authenticate_correct_credentials : bool :=
  match authenticate test_store "alice" "pass123" with
  | Some user => String.eqb (username user) "alice" && bool_decide (email user = Some "alice@test.com")
  | None => false
  end.

Definition authenticate_wrong_password : bool := option_is_none (authenticate test_store "alice" "wrong").
Definition authenticate_unknown_user : bool := option_is_none (authenticate test_store "eve" "pass123").

Definition get_existing_user : bool :=
  match get_user test_store "bob" with Some user => String.eqb (username user) "bob" | None => false end.
Definition get_missing_user : bool := option_is_none (get_user test_store "charlie").

Definition default_user_store_has_admin : bool :=
  option_is_some (authenticate (load (fun _ => None) (fun _ => None) None) "admin" "admin").

(** Lines, each ended by a newline. *)
Definition lines (l : list string) : string := str_concat ((fun s => s +:+ newline) <$> l).

Definition from_htpasswd_basic : bool :=
  let store := from_htpasswd (lines ["alice:pass123"; "bob:secret"]) in
  (length (users store) =? 2)%nat && option_is_some (authenticate store "alice" "pass123") &&
  option_is_some (authenticate store "bob" "secret").

Definition from_htpasswd_skips_comments_and_blanks : bool :=
  (length (users (from_htpasswd (lines ["# comment"; ""; "alice:pass"; "  "; "bob:s"]))) =? 2)%nat.

Definition from_htpasswd_empty : bool := (length (users (from_htpasswd "")) =? 0)%nat.

Definition from_htpasswd_no_colon : bool :=
  let store := from_htpasswd (lines ["badline"; "alice:pass"]) in
  (length (users store) =? 1)%nat &&
  match users store with user :: _ => String.eqb (username user) "alice" | [] => false end.

Definition tests : list bool :=
  [ authenticate_correct_credentials; authenticate_wrong_password; authenticate_unknown_user;
    get_existing_user; get_missing_user; default_user_store_has_admin; from_htpasswd_basic;
    from_htpasswd_skips_comments_and_blanks; from_htpasswd_empty; from_htpasswd_no_colon ].

Example types_tests_pass : forallb id tests = true.
Proof. vm_compute. reflexivity. Qed.
End TypesTests.

(** ** [oauth/handlers.rs] *)

Module HandlersTests.

Definition make_jwt (claims : Value) : string :=
  let header := b64_url_encode (dq "{'alg':'RS256','typ':'JWT'}") in
  let payload := b64_url_encode (json_to_string claims) in
  header +:+ "." +:+ payload +:+ ".fake-signature".

Definition decode_jwt_preferred_username : bool :=
  let token := make_jwt (jobj [ "sub" =: VString "user-id"; "preferred_username" =: VString "alice" ]) in
  bool_decide (decode_jwt_username token = Some "alice").

Definition decode_jwt_falls_back_to_sub : bool :=
  bool_decide (decode_jwt_username (make_jwt (jobj [ "sub" =: VString "bob" ])) = Some "bob").

Definition decode_jwt_returns_none_for_garbage : bool := option_is_none (decode_jwt_username "not-a-jwt").

Definition decode_jwt_returns_none_for_no_username_claims : bool :=
  option_is_none (decode_jwt_username (make_jwt (jobj [ "iss" =: VString "test" ]))).

Definition tests : list bool :=
  [ decode_jwt_preferred_username; decode_jwt_falls_back_to_sub; decode_jwt_returns_none_for_garbage;
    decode_jwt_returns_none_for_no_username_claims ].

Example handlers_tests_pass : forallb id tests = true.
Proof. vm_compute. reflexivity. Qed.
End HandlersTests.

(** ** [pod_mutate.rs] *)

Module PodMutateTests.

Definition uid_range_deterministic : bool :=
  uid_range_for_namespace "default" =? uid_range_for_namespace "default".

Definition uid_range_differs_across_namespaces : bool :=
  negb (uid_range_for_namespace "alpha" =? uid_range_for_namespace "beta").

Definition uid_range_within_expected_bounds : bool :=
  forallb (fun ns =>
    let uid := uid_range_for_namespace ns in (1000000000 <=? uid) && (uid <? 2000000000))
    ["default"; "kube-system"; "redhat-ods-applications"; "foo-bar-baz"].

Definition admission_response_without_patch : bool :=
  let resp := build_admission_response "test-uid-123" None in
  bool_decide (index "uid" (index "response" resp) = VString "test-uid-123") &&
  bool_decide (index "allowed" (index "response" resp) = VBool true) &&
  option_is_none (get "patchType" (index "response" resp)) &&
  option_is_none (get "patch" (index "response" resp)).

Definition admission_response_with_patch : bool :=
  let patch := [ jobj [ "op" =: VString "add"; "path" =: VString "/spec/x"; "value" =: jint 1 ] ] in
  let resp := build_admission_response "uid-456" (Some patch) in
  bool_decide (index "uid" (index "response" resp) = VString "uid-456") &&
  bool_decide (index "allowed" (index "response" resp) = VBool true) &&
  bool_decide (index "patchType" (index "response" resp) = VString "JSONPatch") &&
  match (patch_b64 ← as_str (index "patch" (index "response" resp));
         decoded ← b64_std_decode patch_b64;
         ops ← json_from_str decoded;
         as_array ops) with
  | Some (op :: _) => bool_decide (index "op" op = VString "add")
  | _ => false
  end.

Definition container (fields : list (string * Value)) : Value := VArray [ jobj (("name" =: VString "c") :: fields) ].
Definition non_root : Value := jobj [ "runAsNonRoot" =: VBool true ].

Definition compute_patch_no_patch_when_fsgroup_set : bool :=
  let pod := jobj [ "spec" =: jobj [
    "securityContext" =: jobj [ "runAsNonRoot" =: VBool true; "fsGroup" =: jint 1000 ];
    "containers" =: container [] ] ] in
  option_is_none (compute_patch pod "test-ns").

Definition compute_patch_no_patch_when_no_run_as_non_root : bool :=
  let pod := jobj [ "spec" =: jobj [ "containers" =: container [] ] ] in
  option_is_none (compute_patch pod "test-ns").

Definition compute_patch_adds_fsgroup_when_pod_level_non_root : bool :=
  let pod := jobj [ "spec" =: jobj [ "securityContext" =: non_root; "containers" =: container [] ] ] in
  match compute_patch pod "my-ns" with
  | Some [op] =>
      bool_decide (index "path" op = VString "/spec/securityContext/fsGroup") &&
      bool_decide (index "op" op = VString "add")
  | _ => false
  end.

Definition compute_patch_creates_security_context_when_missing : bool :=
  let pod := jobj [ "spec" =: jobj [ "containers" =: container [ "securityContext" =: non_root ] ] ] in
  match compute_patch pod "my-ns" with
  | Some [op] =>
      bool_decide (index "path" op = VString "/spec/securityContext") &&
      match index "fsGroup" (index "value" op) with VNumber _ => true | _ => false end
  | _ => false
  end.

Definition compute_patch_container_level_non_root : bool :=
  let pod := jobj [ "spec" =: jobj [
    "securityContext" =: jobj [];
    "containers" =: VArray [ jobj [ "name" =: VString "app"; "securityContext" =: non_root ] ] ] ] in
  match compute_patch pod "my-ns" with
  | Some (op :: _) => bool_decide (index "path" op = VString "/spec/securityContext/fsGroup")
  | _ => false
  end.

Definition tests : list bool :=
  [ uid_range_deterministic; uid_range_differs_across_namespaces; uid_range_within_expected_bounds;
    admission_response_without_patch; admission_response_with_patch;
    compute_patch_no_patch_when_fsgroup_set; compute_patch_no_patch_when_no_run_as_non_root;
    compute_patch_adds_fsgroup_when_pod_level_non_root; compute_patch_creates_security_context_when_missing;
    compute_patch_container_level_non_root ].

Example pod_mutate_tests_pass : forallb id tests = true.
Proof. vm_compute. reflexivity. Qed.

(** The ranges are not unique: the hash has only 100000 classes. *)
Example uid_ranges_collide :
  uid_range_for_namespace "project-275" = uid_range_for_namespace "project-279".
Proof. vm_compute. reflexivity. Qed.
End PodMutateTests.

(** ** [util.rs] *)

Module UtilTests.

Definition api_resource_constructors : bool :=
  forallb (fun '(ar, kind) => String.eqb (ar_kind ar) kind)
    [ (route_ar, "Route"); (project_ar, "Project"); (imagestream_ar, "ImageStream");
      (oauth_client_ar, "OAuthClient"); (user_ar, "User"); (identity_ar, "Identity");
      (gateway_class_ar, "GatewayClass"); (gateway_ar, "Gateway"); (httproute_ar, "HTTPRoute");
      (destination_rule_ar, "DestinationRule"); (jobset_ar, "JobSet") ].

Definition api_resource_groups : bool :=
  String.eqb (ar_group route_ar) "route.openshift.io" &&
  String.eqb (ar_group gateway_ar) "gateway.networking.k8s.io" &&
  String.eqb (ar_group destination_rule_ar) "networking.istio.io" &&
  String.eqb (ar_group jobset_ar) "jobset.x-k8s.io".

Example util_tests_pass : api_resource_constructors && api_resource_groups = true.
Proof. vm_compute. reflexivity. Qed.
End UtilTests.
