(* ===== verification/Main.v ===== *)
(** * [main.rs]: start-up and supervision

    The options and the environment variable that select what runs, the state
    of the OAuth server that follows from them, and [main] itself: what it
    starts, in which order, and when it ends. *)

From S2P Require Import Prelude RustStr Json Prog Kube Util Crates Tls ServiceCa.
From S2P Require Import OAuthTypes OAuthEffects OAuthHelpers OAuthHandlers OAuthByoidc OAuthServer.
Open Scope list_scope.
Open Scope Z_scope.

Record Args : Type := {
  proxy : bool;
  proxy_port : Z;
  users_file : option string;
  arg_auth_mode : AuthMode;
  oidc_issuer_url : option string;
  oidc_client_id : option string;
  oidc_client_secret : option string
}.

(** [ENABLE_BUILTIN_GATEWAY]; [None] when it is not set. *)
Definition builtin_gw (var : option string) : bool :=
  match var with
  | Some v => negb (String.eqb v "0" || String.eqb v "false" || String.eqb v "no")
  | None => true
  end.

Section Startup.
Context {CR : Crates}.

(** [None] when an [expect] panics. *)
Definition byoidc_config (args : Args) : option (option ByoidcConfig) :=
  match arg_auth_mode args with
  | Byoidc =>
      url ← oidc_issuer_url args;
      id ← oidc_client_id args;
      Some (Some {| issuer_url := url; byoidc_client_id := id;
                    byoidc_client_secret := default "" (oidc_client_secret args) |})
  | _ => Some None
  end.

(** The configuration the OAuth server runs with; [None] after a panic. *)
Definition start_oauth (args : Args) : prog serverE (option OAuthConf) :=
  match byoidc_config args with
  | None => Ret None
  | Some cfg => oauth_state_new (arg_auth_mode args) cfg
  end.

(** However the machine answers, a server that starts has the mode asked for,
    signing keys exactly in OIDC mode, and the external provider, with its key
    cache, exactly in BYOIDC mode. *)
Theorem start_oauth_consistent {W} `{!Host W} args (s : OAuthStore * W) conf s' :
  run_server (start_oauth args) s = (Some conf, s') ->
  auth_mode conf = arg_auth_mode args /\
  (is_Some (jwt_keys conf) <-> arg_auth_mode args = Oidc) /\
  (is_Some (byoidc conf) <-> arg_auth_mode args = Byoidc) /\
  external_jwks conf = is_byoidc (arg_auth_mode args).
Proof.
  assert (Hno : forall A, is_Some (@None A) <-> False) by (intros A; split; [by intros []|done]).
  unfold run_server, start_oauth, byoidc_config, oauth_state_new.
  destruct (arg_auth_mode args) eqn:Hm; cbn [mbind option_bind].
  - cbn [prog_bind run]. intros [= <- <-]. cbn. rewrite !Hno. naive_solver.
  - rewrite run_bind. destruct (run server_step jwt_keys_generate s) as [[k|] s1]; [|done].
    intros [= <- <-]. cbn. rewrite Hno. naive_solver.
  - destruct (oidc_issuer_url args) as [u|]; [|done]. destruct (oidc_client_id args) as [i|]; [|done].
    cbn [mbind option_bind prog_bind]. rewrite run_bind.
    destruct (run server_step (jwks_cache_new _) s) as [[] s1]. intros [= <- <-]. cbn. rewrite Hno. naive_solver.
Qed.
End Startup.

(** ** [main] *)

(** What is spawned, with the arguments that differ between runs.  [Pending]
    is [std::future::pending()], which stands in for a disabled subsystem. *)
Inductive Subsystem : Type :=
| RouteController
| ServiceController
| ConfigMapController
| MutatingWebhookController
| ValidatingWebhookController
| GatewayController
| OAuthServerTask (us : UserStore) (mode : AuthMode) (cfg : option ByoidcConfig)
| ProjectController
| PodWebhook
| JobSetController
| ImageStreamController
| LoadBalancerController
| ReverseProxyTask (port : Z)
| Pending.

Definition JoinHandle : Type := nat.

(** What a [JoinHandle] gives: the result of the task, or that it panicked. *)
Inductive Join : Type := Joined (r : result string unit) | JoinPanic.

Inductive mainE : Type -> Type :=
(** the crypto provider of [rustls]; [false] when there is one already *)
| InstallProvider : mainE bool
| ClientTryDefault : mainE (result string unit)
| SpawnTask (t : Subsystem) : mainE JoinHandle
(** [tokio::select!] on the handles: the first task that ends *)
| Select (handles : list JoinHandle) : mainE (JoinHandle * Join).

(** [main] ends with a panic, an error, or [Ok(())] after the error it has
    logged, if any. *)
Inductive MainExit : Type :=
| MainPanic
| MainErr (e : string)
| MainOk (ended : JoinHandle) (logged : option string).

Section Main.
Context `{RC : !Rcgen}.
Abbreviation startE := (certE +' mainE).

Definition spawn (t : Subsystem) : prog startE JoinHandle := trigger (SpawnTask t).

(** From the first [tokio::spawn] on. *)
Definition supervise (read_to_string : string -> option string) (yaml_from_str : string -> option (list UserEntry))
    (var : option string) (args : Args) : prog startE MainExit :=
  route_handle ⟵ spawn RouteController;
  svc_handle ⟵ spawn ServiceController;
  cm_handle ⟵ spawn ConfigMapController;
  mwc_handle ⟵ spawn MutatingWebhookController;
  vwc_handle ⟵ spawn ValidatingWebhookController;
  gw_handle ⟵ (if builtin_gw var then spawn GatewayController else spawn Pending);
  let user_store := UserStoreOps.load read_to_string yaml_from_str (users_file args) in
  match byoidc_config args with
  | None => Ret MainPanic
  | Some cfg =>
      oauth_handle ⟵ spawn (OAuthServerTask user_store (arg_auth_mode args) cfg);
      proj_handle ⟵ spawn ProjectController;
      scc_handle ⟵ spawn PodWebhook;
      jobset_handle ⟵ spawn JobSetController;
      is_handle ⟵ spawn ImageStreamController;
      lb_handle ⟵ spawn LoadBalancerController;
      proxy_handle ⟵ (if proxy args then spawn (ReverseProxyTask (proxy_port args)) else spawn Pending);
      '(ended, res) ⟵ trigger (Select
        [route_handle; svc_handle; cm_handle; mwc_handle; vwc_handle; gw_handle; oauth_handle; proj_handle;
         scc_handle; jobset_handle; is_handle; lb_handle; proxy_handle]);
      Ret (MainOk ended match res with Joined (Err e) => Some e | _ => None end)
  end.

Definition main (read_to_string : string -> option string) (yaml_from_str : string -> option (list UserEntry))
    (var : option string) (args : Args) : prog startE MainExit :=
  installed ⟵ trigger InstallProvider;
  if negb installed then Ret MainPanic
  else
    ca ⟵ ca_generate;
    match ca with
    | None => Ret MainPanic
    | Some _ =>
        client ⟵ trigger ClientTryDefault;
        match client with
        | Err e => Ret (MainErr e)
        | Ok _ => supervise read_to_string yaml_from_str var args
        end
    end.

(** ** Running [main] *)

(** The state holds the tasks started so far; a handle is the position of its
    task. *)
Class Process (S : Type) : Type := {
  sys_key_pair : S -> option KeyPair * S;
  sys_install : S -> bool * S;
  sys_client : S -> result string unit * S;
  (** given the handles with their tasks *)
  sys_select : list (JoinHandle * Subsystem) -> S -> (JoinHandle * Join) * S;
  (** [select!] takes the branch of a task that has ended, and a pending
      future never does *)
  sys_select_ends l s :
    (exists h t, In (h, t) l /\ t <> Pending) ->
    exists t, In ((sys_select l s).1.1, t) l /\ t <> Pending
}.

Context {S : Type} `{!Process S}.

Definition main_step X (e : startE X) : S * list Subsystem -> X * (S * list Subsystem) :=
  match e with
  | inlE ce =>
      match ce in certE X return S * list Subsystem -> X * (S * list Subsystem) with
      | GenerateKeyPair => fun '(s, ts) => let '(k, s) := sys_key_pair s in (k, (s, ts))
      end
  | inrE me =>
      match me in mainE X return S * list Subsystem -> X * (S * list Subsystem) with
      | InstallProvider => fun '(s, ts) => let '(b, s) := sys_install s in (b, (s, ts))
      | ClientTryDefault => fun '(s, ts) => let '(r, s) := sys_client s in (r, (s, ts))
      | SpawnTask t => fun '(s, ts) => (length ts, (s, ts ++ [t]))
      | Select l => fun '(s, ts) =>
          let '(r, s) := sys_select (omap (fun h => pair h <$> ts !! h) l) s in (r, (s, ts))
      end
  end.

Lemma run_effect {X A} (e : mainE X) (k : X -> prog startE A) w :
  run main_step (prog_bind (trigger e) k) w = let '(x, w') := main_step X (inrE e) w in run main_step (k x) w'.
Proof. done. Qed.

Lemma log_effect {X A} (e : mainE X) (k : X -> prog startE A) w :
  run_log main_step (prog_bind (trigger e) k) w =
    let '(x, w') := main_step X (inrE e) w in Ev (inrE e) x :: run_log main_step (k x) w'.
Proof. simpl. by destruct (main_step X (inrE e) w). Qed.

(** *** What a run has done *)

(** The tasks started, with their handles, and the handles waited for. *)
Definition ev_started (ev : event startE) : option (JoinHandle * Subsystem) :=
  match ev with
  | Ev (inrE me) x =>
      match me in mainE X return X -> option (JoinHandle * Subsystem) with
      | SpawnTask t => fun h => Some (h, t)
      | _ => fun _ => None
      end x
  | _ => None
  end.
Definition started (log : list (event startE)) : list (JoinHandle * Subsystem) := omap ev_started log.

Lemma run_ca_generate s ts :
  exists ca s', run main_step (ca_generate (E:=startE)) (s, ts) = (ca, (s', ts)) /\
    started (run_log main_step (ca_generate (E:=startE)) (s, ts)) = [].
Proof.
  unfold ca_generate. destruct (params_new []); [|eauto]. cbv zeta. rewrite run_bind, run_log_bind. simpl.
  destruct (sys_key_pair s) as [k s1]. simpl. eauto.
Qed.

Lemma started_app l1 l2 : started (l1 ++ l2) = started l1 ++ started l2.
Proof. apply omap_app. Qed.

(** *** What the options ask for *)

(** The gateway variable does not have one of the values that switch it off. *)
Definition gateway_wanted (var : option string) : Prop := forall v, var = Some v -> ~ In v ["0"; "false"; "no"].

(** The external provider as the options give it, in BYOIDC mode only. *)
Definition provider_wanted (args : Args) (cfg : option ByoidcConfig) : Prop :=
  match arg_auth_mode args with
  | Byoidc => exists url id, oidc_issuer_url args = Some url /\ oidc_client_id args = Some id /\
      cfg = Some {| issuer_url := url; byoidc_client_id := id;
                    byoidc_client_secret := default "" (oidc_client_secret args) |}
  | _ => cfg = None
  end.

(** The subsystems of a run, one by one. *)
Definition wanted (us : UserStore) (var : option string) (args : Args) (t : Subsystem) : Prop :=
  match t with
  | GatewayController => gateway_wanted var
  | OAuthServerTask us' mode cfg => us' = us /\ mode = arg_auth_mode args /\ provider_wanted args cfg
  | ReverseProxyTask port => proxy args = true /\ port = proxy_port args
  | Pending => False
  | _ => True
  end.

Lemma builtin_gw_spec var : builtin_gw var = true <-> gateway_wanted var.
Proof.
  unfold builtin_gw, gateway_wanted. destruct var as [v|]; [|done]. rewrite negb_true_iff.
  destruct (String.eqb_spec v "0") as [->|H0]; [split; [done|]; intros H; destruct (H _ eq_refl); by left|].
  destruct (String.eqb_spec v "false") as [->|H1]; [split; [done|]; intros H; destruct (H _ eq_refl); right; by left|].
  destruct (String.eqb_spec v "no") as [->|H2]; [split; [done|]; intros H; destruct (H _ eq_refl); right; right; by left|].
  split; [|done]. intros _ v' [= <-] [<-|[<-|[<-|[]]]]; done.
Qed.

Lemma byoidc_config_spec args cfg : byoidc_config args = Some cfg <-> provider_wanted args cfg.
Proof.
  unfold byoidc_config, provider_wanted. destruct (arg_auth_mode args); [naive_solver..|].
  destruct (oidc_issuer_url args), (oidc_client_id args); cbn [mbind option_bind]; naive_solver.
Qed.

(** All that is started once the options have been read. *)
Definition all_tasks (us : UserStore) (var : option string) (args : Args) (cfg : option ByoidcConfig) :
    list (JoinHandle * Subsystem) :=
  zip (seq 0 13)
    [ RouteController; ServiceController; ConfigMapController; MutatingWebhookController;
      ValidatingWebhookController; if builtin_gw var then GatewayController else Pending;
      OAuthServerTask us (arg_auth_mode args) cfg; ProjectController; PodWebhook; JobSetController;
      ImageStreamController; LoadBalancerController;
      if proxy args then ReverseProxyTask (proxy_port args) else Pending ].

Lemma all_tasks_wanted us var args cfg :
  byoidc_config args = Some cfg ->
  (forall t, t <> Pending -> (exists h, In (h, t) (all_tasks us var args cfg)) <-> wanted us var args t) /\
  (forall h1 h2 t, In (h1, t) (all_tasks us var args cfg) -> In (h2, t) (all_tasks us var args cfg) ->
     t <> Pending -> h1 = h2).
Proof.
  intros Hcfg. pose proof Hcfg as Hp%byoidc_config_spec. pose proof (builtin_gw_spec var) as Hg. split.
  - intros t Ht. unfold all_tasks. simpl. split.
    + intros [h Hin]. destruct (builtin_gw var), (proxy args) eqn:Hpx;
        repeat (destruct Hin as [[= <- <-]|Hin]; [by try (apply Hg); auto|]); done.
    + assert (Heq : forall c, provider_wanted args c -> c = cfg).
      { intros c Hc%byoidc_config_spec. congruence. }
      destruct t; [..|done]; cbn [wanted]; try (intros _; eexists; by repeat first [left; reflexivity | right]).
      * intros ->%Hg. eexists. by repeat first [left; reflexivity | right].
      * intros (-> & -> & ->%Heq). eexists. by repeat first [left; reflexivity | right].
      * intros [-> ->]. eexists. by repeat first [left; reflexivity | right].
  - intros h1 h2 t H1 H2 Ht. unfold all_tasks in H1, H2. simpl in H1, H2.
    destruct (builtin_gw var), (proxy args);
      repeat (destruct H1 as [H1|H1]; [repeat (destruct H2 as [H2|H2]; [congruence|]); done|]); done.
Qed.

(** What [supervise] does when the options are complete, and when they are
    not. *)
Lemma run_supervise read yaml var args s :
  let us := UserStoreOps.load read yaml (users_file args) in
  let r := (run main_step (supervise read yaml var args) (s, [])).1 in
  let log := run_log main_step (supervise read yaml var args) (s, []) in
  match byoidc_config args with
  | Some cfg =>
      let l := all_tasks us var args cfg in
      let '(ended, res) := (sys_select l s).1 in
      r = MainOk ended match res with Joined (Err e) => Some e | _ => None end /\ started log = l /\
      exists before, log = before ++ [Ev (inrE (Select l.*1)) (ended, res)]
  | None => r = MainPanic /\ forall h us' mode cfg, ~ In (h, OAuthServerTask us' mode cfg) (started log)
  end.
Proof.
  cbv zeta. unfold supervise. cbv zeta. set (us := UserStoreOps.load _ _ _). clearbody us.
  destruct (byoidc_config args) as [cfg|].
  - destruct (builtin_gw var) eqn:Hg, (proxy args) eqn:Hp; unfold all_tasks; rewrite Hg, Hp; simpl;
      destruct (sys_select _ s) as [[ended res] s']; simpl; (split; [done|]); (split; [done|]);
      match goal with |- exists before, ?l = _ =>
        let b := eval cbn in (removelast l) in exists b end; reflexivity.
  - destruct (builtin_gw var); simpl; (split; [done|]); intros; naive_solver.
Qed.

Lemma byoidc_config_none args :
  byoidc_config args = None ->
  arg_auth_mode args = Byoidc /\ (oidc_issuer_url args = None \/ oidc_client_id args = None).
Proof.
  unfold byoidc_config. destruct (arg_auth_mode args); [done..|].
  destruct (oidc_issuer_url args), (oidc_client_id args); naive_solver.
Qed.

(** C18: what [main] does, for every behaviour of the machine.
    If it comes to wait for its tasks, it has started each subsystem its
    options ask for exactly once and no other: the gateway controller unless
    its variable is 0, false or no; the OAuth server with the users that were
    loaded, in the mode asked for, with the external provider of the options
    in BYOIDC mode and none otherwise; the proxy on its port if the flag is
    set; and the ten other subsystems always.  It waits for all of them, ends
    with the first that ends, which is one of them, and reports success after
    logging that task's error, if it ended with one.
    It ends in an error only because there is no client, and panics only
    because of the crypto provider or the CA, in all three cases before
    anything was started, or because BYOIDC mode lacks the issuer or the
    client, before the OAuth server is started. *)
Theorem main_supervises read yaml var args (s : S) :
  let x := (run main_step (main read yaml var args) (s, [])).1 in
  let log := run_log main_step (main read yaml var args) (s, []) in
  let us := UserStoreOps.load read yaml (users_file args) in
  match x with
  | MainOk ended logged =>
      (forall t, t <> Pending -> (exists h, In (h, t) (started log)) <-> wanted us var args t) /\
      (forall h1 h2 t, In (h1, t) (started log) -> In (h2, t) (started log) -> t <> Pending -> h1 = h2) /\
      (exists t, In (ended, t) (started log) /\ t <> Pending) /\
      exists before res,
        log = before ++ [Ev (inrE (Select (started log).*1)) (ended, res)] /\
        logged = match res with Joined (Err e) => Some e | _ => None end
  | MainErr e => started log = [] /\ In (Ev (inrE ClientTryDefault) (Err e)) log
  | MainPanic =>
      started log = [] /\
        (In (Ev (inrE InstallProvider) false) log \/
         sys_install s = (true, (sys_install s).2) /\
         (run main_step (ca_generate (E:=startE)) ((sys_install s).2, [])).1 = None) \/
      arg_auth_mode args = Byoidc /\ (oidc_issuer_url args = None \/ oidc_client_id args = None) /\
        forall h us' mode cfg, ~ In (h, OAuthServerTask us' mode cfg) (started log)
  end.
Proof.
  cbv zeta. unfold main. rewrite run_effect, log_effect. cbn [main_step].
  destruct (sys_install s) as [[] s1]; cbn [negb run run_log fst]; [|left; split; [done|left; by left]].
  rewrite run_bind, run_log_bind. destruct (run_ca_generate s1 []) as (ca & s2 & Hca & Hst). rewrite Hca.
  destruct ca as [ca|]; cbn [run run_log fst].
  2:{ rewrite app_nil_r. left. split; [exact Hst|]. right. cbn [snd]. by rewrite Hca. }
  rewrite run_effect, log_effect. cbn [main_step]. destruct (sys_client s2) as [[u|e] s3]; cbn [run run_log fst].
  2:{ rewrite app_comm_cons, started_app. change (started (Ev (inrE InstallProvider) true :: ?l)) with (started l).
      rewrite Hst. split; [done|]. apply in_elt. }
  pose proof (run_supervise read yaml var args s3) as Hs. cbv zeta in Hs.
  set (log := _ :: _ ++ _ :: run_log _ _ _).
  assert (Hlog : started log = started (run_log main_step (supervise read yaml var args) (s3, []))).
  { unfold log. rewrite app_comm_cons, started_app.
    change (started (Ev (inrE InstallProvider) true :: ?l)) with (started l). by rewrite Hst. }
  rewrite Hlog. destruct (byoidc_config args) as [cfg|] eqn:Hcfg.
  - pose proof (sys_select_ends (all_tasks (UserStoreOps.load read yaml (users_file args)) var args cfg) s3) as Hin.
    destruct (all_tasks_wanted (UserStoreOps.load read yaml (users_file args)) var args cfg Hcfg) as [Hw Hu].
    destruct (sys_select _ s3) as [[ended res] s4]. cbn [fst] in Hs, Hin.
    destruct Hs as (-> & -> & before & Hb). split_and!; [exact Hw|exact Hu| |].
    + apply Hin. exists 0%nat, RouteController. split; [by left|done].
    + exists (Ev (inrE InstallProvider) true :: run_log main_step (ca_generate (E:=startE)) (s1, []) ++
              Ev (inrE ClientTryDefault) (Ok u) :: before), res.
      split; [|done]. unfold log. rewrite Hb. by rewrite <- app_comm_cons, <- app_assoc.
  - destruct Hs as [-> Hno]. right. destruct (byoidc_config_none _ Hcfg). auto.
Qed.
End Main.

Example builtin_gw_documented :
  builtin_gw None = true /\ builtin_gw (Some "true") = true /\ builtin_gw (Some "1") = true /\
  builtin_gw (Some "yes") = true /\ builtin_gw (Some "false") = false /\ builtin_gw (Some "0") = false /\
  builtin_gw (Some "no") = false.
Proof. split_and!; reflexivity. Qed.

Section Witness.
#[local] Existing Instance CaSample.rcgen.

(** A machine on which the first task to end is the first one of the list
    that can, with an error. *)
Definition can_end (p : JoinHandle * Subsystem) : bool := match p.2 with Pending => false | _ => true end.

#[local] Instance sample_process : Process unit.
Proof.
  refine {|
  sys_key_pair := fun s => (Some "key", s);
  sys_install := fun s => (true, s);
  sys_client := fun s => (Ok tt, s);
  sys_select := fun l s => ((default 0%nat (fst <$> List.find can_end l), Joined (Err "watch failed")), s)
|}.
  intros l s (h & t & Hin & Ht). simpl. destruct (List.find can_end l) as [[h' t']|] eqn:Hf.
  - apply List.find_some in Hf as [Hl He]. exists t'. split; [exact Hl|]. by destruct t'.
  - pose proof (List.find_none _ _ Hf _ Hin) as Hn. by destruct t.
Defined.

Definition legacy_args : Args := {|
  proxy := true; proxy_port := 8080; users_file := None; arg_auth_mode := Legacy;
  oidc_issuer_url := None; oidc_client_id := None; oidc_client_secret := None |}.

(** Without the gateway and with the proxy. *)
Example main_supervises_witness :
  let log := run_log main_step (main (fun _ => None) (fun _ => None) (Some "no") legacy_args) (tt, []) in
  (exists h, In (h, ReverseProxyTask 8080) (started log)) /\
  ~ (exists h, In (h, GatewayController) (started log)).
Proof.
  destruct (main_supervises (fun _ => None) (fun _ => None) (Some "no") legacy_args tt) as (H & _).
  split.
  - apply H; [discriminate|]. split; reflexivity.
  - intros Hg. apply H in Hg; [|discriminate]. apply (Hg "no" eq_refl). right. right. by left.
Defined.
End Witness.
